(* ===== verification/_CoqProject ===== *)
-Q . S2P
Prelude.v
GoStrings.v
Netip.v
GoCodec.v
Ipam.v
Names.v
Protocol.v
Wrak.v
WrakSpec.v
Pin.v
HubState.v
HubOps.v
HubInv.v
HubSpec.v
HubExamples.v
HubConfig.v
HubApi.v
ApiExamples.v
Variant.v
GoPath.v
WrakSign.v
TenantState.v
DnsRouter.v
DnsSpec.v
TenantRun.v
Ca.v
Tenant.v
Client.v
Wire.v
DnsPlan.v
Socket.v
TenantSpec.v
WireSpec.v
MemberSpec.v
RunSpec.v
SocketSpec.v
SecretSpec.v
ApplySpec.v
Discover.v
Connector.v
ConnSpec.v
ConnClient.v
Endpoint.v
NetStack.v
NetSpec.v
ConnRun.v
Cli.v
CliSpec.v
HubCli.v
HubCliSpec.v
HubServe.v
Install.v
InstallSpec.v
SetupSpec.v
Up.v
NetExamples.v
DnsExamples.v
MachineExamples.v
SocketExamples.v
WireExamples.v
ConnExamples.v
CliExamples.v
InstallExamples.v
