(* ===== verification/Prelude.v ===== *)
(** * RobiNET: a verification library for the hub, its machines and its connectors

    RobiNET lets machines join private overlay networks.  A _hub_ keeps
    instances (one overlay network each), runs a lighthouse for every one of
    them, and answers an HTTP API.  A machine registers with an ssh key, then
    signs its requests with an identity of its own; the machine that creates an
    instance owns it, holds its certificate authority and decides about
    everybody else: _connectors_, which announce routes and authenticate with a
    token of the instance, and _tenants_, which use them.

    This development models the hub, with everything a request passes on its
    way there; the daemon of a machine, with its DNS router, what it tells the
    machine's resolver and the socket it is driven through; the connector,
    with the network stack it forwards with; and the command line over all
    three.  They meet in the hub's API.  The machine's operations are written
    over the class [HubClient]; the client of the program implements it over a
    network ([Net]) that has the hub of [HubOps] at its other end, loses and
    delays what is sent, and lets others call in between, and so does the
    connector's client.  The command line asks the daemon over its socket
    ([over_socket]).  So there are theorems of one part, and theorems of a
    command, a machine and a hub put together.  The files, from the ground up,
    and the sources each follows (under src/internal, the command line under
    src/cmd/robinet):

    - [Prelude] (this file): errors, outcomes and the state and error monad
      every operation is written in (a closure that fails keeps what it did to
      the object behind its pointer, as in Go; a nil map that is written to
      panics), Go maps with their unspecified order of iteration as a
      parameter ([Range]), bounded searches, and the lemmas and tactics shared.
    - [GoStrings], [Netip], [GoCodec]: the part of Go's library the program
      uses: byte strings, UTF-8, case and white space, decimal and hexadecimal
      numbers; IP addresses and prefixes with their parsers and printers;
      base64, query escaping, the calendar and RFC 3339 times.
    - [Ipam] (hub/ipam.go): the allocation of addresses in an overlay and of
      overlays in a pool, 32 and 128 bit numbers with their wrap-around.
    - [Names] (hub/name.go, hub/certname.go, [ParseDomain] of
      enroll/protocol.go): what things may be called, and certificate names.
    - [Protocol] (enroll/protocol.go): requests, the bytes their code covers,
      validation, bundles and decisions.
    - [Wrak], [WrakSpec] (wrak/): signed requests, spent nonces, bootstrap
      signatures.  The store of nonces is the class [NonceStore], an interface
      with its laws: [accepted_once] is proved of any store that keeps them,
      and [MemoryNonces] is shown to.
    - [Pin] (pin/pin.go): how a hub's public key is pinned.
    - [HubState] (hub/store.go): the records the hub keeps, in memory and on
      disk, and the methods of the store.
    - [HubOps] (hub/hub.go, hub/lighthouse.go and the allocating half of
      hub/ipam.go): every operation of the hub.
    - [HubInv]: the invariant of the hub and that every operation keeps it,
      whatever it answers, restarts included; what follows for every state
      that can be reached ([step], [reachable]).
    - [HubSpec]: what each operation does, on every branch.
    - [HubConfig] (hub/config.go): from configuration files to [Config].
    - [HubApi] (hub/api.go): endpoints, handlers, who may call them, and the
      rate limiter.  A request is shown to be at most one step of the hub, so
      the theorems of [HubInv] hold of a hub that is driven over HTTP.
    - [HubExamples], [ApiExamples]: concrete runs, at which the theorems with
      hypotheses are applied.
    - [Variant] (variant/, version/): what was baked into a binary.
    - [GoPath]: paths, lines and the operating system, as Go's library shows
      them.
    - [WrakSign] (wrak/sshsig.go, bootstrap.go): making a bootstrap signature,
      the keys an agent offers and picking among them.
    - [TenantState] (tenant/state.go, paths.go, capability.go): what a machine
      keeps, in memory and in its file, and the choices it makes for itself.
    - [DnsRouter], [DnsSpec] (tenant/dnsrouter.go): answering names through the
      connectors that know them, over UDP and TCP.
    - [TenantRun] (tenant/runner.go): what nebula is handed, what runs, which
      networks collide.
    - [Ca] (ca/): the authority an owner signs with.
    - [Tenant] (tenant/tenant.go): every operation of the daemon, over its
      state, its connections and routers, and the hub.
    - [Client] (tenant/hubclient.go): the machine's HTTP client of the hub, over
      any transport, and registering.  [Wire]: the network with the hub at its
      other end, and that an owner's call over it is the operation of the hub.
      [WireSpec]: what machines and others make of the hub over that network,
      and registering over it.
    - [DnsPlan], [ApplySpec] (tenant/dns.go): the plan of names, and what
      applying one leaves on the machine.
    - [TenantSpec]: the invariant of the machine's state and that every
      operation keeps it ([trace], [run_dop]).  [MemberSpec]: deciding about
      requests and members.  [RunSpec]: connecting, and showing what runs.
    - [Socket], [SocketSpec] (tenant/socket.go): the endpoints of the control
      socket, what each does to the daemon, and whose the socket is.
      [SecretSpec]: that machines which differ in private keys alone answer
      there alike.
    - [Discover] (connector/discover.go, nebconfig.go), [Connector]
      (connector/state.go, enroll.go, connector.go), [ConnSpec]: what a
      connector finds out about its host, how it gets in, starts again and
      follows the blocklist.
    - [ConnClient] (connector/enroll.go, connector.go): the connector's HTTP
      client, its waiting, what it logs and how it follows the blocklist.
    - [Endpoint] (cmd/robinet/connect.go, placeholder.go): the endpoint a
      connector is pointed at with, and its flags.
    - [NetStack], [NetSpec] (netstack/, userdev/): where the flows that reach a
      connector go, its listeners, and the copies of a forwarded connection.
      [ConnRun] (connector.go): a connector from its start, over the network.
    - [Cli], [CliSpec] (cmd/robinet: control.go, groups.go, reach.go, dns.go,
      cheat.go, complete.go, tenant.go, main.go): what each command asks the
      daemon, what it prints, and what it comes to at the daemon.
    - [HubCli], [HubCliSpec] (cmd/robinet: hubinspect.go, hubtest.go,
      hubcleanup.go, setupcleanup.go, the units of hubinstall.go and setup.go):
      reading the hub's state, checking a configuration, cleaning up.
      [HubServe] (hub.go): starting the hub, and the certificate it keeps.
    - [Install], [InstallSpec] (setup.go, hubinstall.go, hubinit.go): the
      starter configuration, and installing a hub and a machine's daemon, on a
      system of files with modes and owners, accounts and commands that run.
      [SetupSpec]: setting a daemon up as a person and then, by way of sudo, as
      root.  [Up] (tenant.go): the daemon from its start to its end.
    - [NetExamples], [DnsExamples], [MachineExamples], [SocketExamples],
      [WireExamples], [ConnExamples], [CliExamples], [InstallExamples]: concrete
      runs of these.

    ** How the model corresponds to the code

    A type or function of the source is the definition of the same name, with
    an underscore or a longer name where Rocq or Go's packages would clash
    ([Instance_], [Decision_], [ResultOf] for [Hub.Result], [ConfigOf] for
    [File.Config], [ParsePin] for [pin.Parse]).  A method of the hub that
    changes state is a computation [M Hub A]; the closure it hands to
    [Store.Update] is the definition with the suffix [_fn], a computation over
    one instance.  What a call meets outside the program is in [Env]: the
    clock, random identifiers and keys, whether the state file can be written,
    what nebula answers, and the order maps are walked in; every theorem holds
    for all of them.  Hash functions, Ed25519, the ssh library, X.509, JSON and
    YAML decoding and the file system are classes, with documented laws where
    the code relies on them ([Crypto], [Ed25519], [SshLib], [X509], [Json],
    [Files], [KeyPairs]); so are nebula's certificate library ([CertLib]), the DNS message
    library ([DnsMessage]), the network between resolvers ([DnsNet]), the
    operating system ([Os], [HostOs]), the connector's disk ([ConnDisk]), the
    words JSON bodies are ([ClientJson], [ConnJson], [SocketJson],
    [ControlWords], [ControlText]), url parsing ([UrlParser], [Urls]), the ssh
    agent ([SshAgent], [KeyFiles]), what nebula answers a connector
    ([NebulaLib]), the prefix table of its device ([BartTable]) and what the
    linker sets ([Build]).  A printed table is its rows of cells: aligning
    them is a library's.  What applying a plan meets is [REnv].  On
    the machine's side [TEnv] adds to [Env] the sockets and the keys that are
    drawn.  Points in time are integers in nanoseconds, differences
    saturate as Go's do; ports, prefix lengths and addresses are integers
    within their width, and the loops that would wrap around say so.  Error
    values keep the format string of the source, not its expansion.

    Loops whose recursion is not structural have fuel: the address and overlay
    searches the number of taken elements plus one, which a pigeonhole argument
    shows is enough ([search_total]); the port search the size of the range.
    A router's loops over a stream and over the records of a message have the
    length of their input, which every turn shortens
    ([tcp_conversation_ends], [opt_loop_ends]).  A connector that waits polls
    until it is answered, which nothing bounds: [wait_loop] counts the polls
    looked at, and [approved_gets_in] and [approved_connector_runs] show that a
    wait that is answered at some poll ends there.  The copies of a forwarded
    connection have no fuel: they are a step relation, shown well founded,
    in which a copy that waits for its peer takes no step and, when nothing
    comes, keeps the connection open ([splice_delivers]).  No other theorem is conditional on fuel.

    ** What the theorems show

    Of the hub: addresses, names, ports and overlays are unique in every
    reachable state; a removed key never returns; no operation panics; the
    state file is old or current; bans, removals, approvals and enrollments do
    what they say on each branch, errors included; and it holds as many
    instances as its configuration check says ([room_is_the_limit]), starts on
    what that check accepts ([tested_is_what_runs]) and keeps the certificate
    it is pinned by ([pin_survives_restarts]).  Installed, it can read its
    configuration, and nobody else can who could not before unless it leads
    there by a symbolic link ([install_opens_to_the_hub_only]); the configuration it starts from lacks
    only its binders ([starter_needs_only_binders]).  Of authentication: a
    signature is bound to one request, accepted once; a registration names the
    machine; only the owner of an instance decides about it.  Of parsing: accepted names, domains, pins and configurations
    are in the form the rest of the program relies on, and an endpoint is read
    as what it was written for.  Of a machine: its connections run on distinct
    devices while they are fewer than the devices there are, an approval signs only what can be honoured, a member is acted on
    only when one alone is meant, networks that overlap are not started side
    by side, no answer of its socket, which only its owner can use, depends on a
    private key unless a configuration is asked for with it
    ([key_stays_unless_asked]), and its daemon is set up on the state that was registered
    ([setup_finds_the_state]) and leaves nothing running when it ends
    ([up_leaves_nothing_running]).  Of its router: the longest name space answers, names
    come back, what is answered can be reached, and fits.  Of a connector: once
    approved it gets in and runs, it refuses what the hub refuses, forwards
    only to where a flow was addressed, and delivers what it forwards.  Of the
    parts together: an owner's call over HTTP is its operation
    ([owner_call_exact]), so are a connector's ([connector_calls_exact]), a
    request to the socket ([control_drives_the_daemon]) and a command
    ([command_is_its_operations]); and over a network that loses calls, hub
    and machine stay in states they can reach ([machine_drives_the_hub]).

    Where the code does something else than it says, a theorem exhibits it: an
    approval refused for its name that is handed out until a restart
    ([Decide_approve]), a request accepted again after its nonce expired
    ([replayed_after_the_nonce_expired]), a pin satisfied by an appended
    certificate ([pin_accepts_any_certificate]), a request refused for its
    spelling ([rewritten_request_needs_collision]), a connector's request
    replaced by a tenant ([tenant_rewrites_connector_request]), a request to
    join that is taken for made although it never arrived ([asked_once]), a
    membership thrown away by asking for it by the beginning of its id
    ([prefix_starts_over]), a connection that is let go of and started again
    ([disconnect_during_refresh]), an endpoint that names another hub
    ([endpoint_misread]), a listener closed by another's second close
    ([second_close_unlistens]), a flow cut although it never idled
    ([one_way_flow_is_cut]), a cleanup that leaves the state behind
    ([cleanup_misses_the_state]), room reported for instances that can
    never be created ([small_instances_never_created]), a registered machine
    that is refused as one that is not ([setup_finds_the_state]), a
    placeholder that is taken for an endpoint ([placeholder_accepted]), a file
    opened to everyone because a link in the configuration leads to it
    ([install_opens_to_the_hub_only]), a forwarded connection that stays open
    after one of its directions failed ([splice_delivers]), a 257th connection
    on a device that is taken ([devices_distinct]), a ban of the owner that
    falls on whichever member the hub meets first ([acts_on_exactly_one]), and
    a link that keeps its servers and domains when it is taken off
    ([applied_is_the_plan]).

    ** What is not modelled

    Moving packets between nebula and the network stack of another project,
    and what a connector's host dials; the accept loops,
    goroutines and timers that run the handlers, the refresh of the daemon and
    the limiter's sweep on time; locks: an operation is a sequence of calls,
    and where another may come in between a theorem says so
    ([devices_distinct] holds of writes in any order, [machine_drives_the_hub]
    of others calling at any point, [splice_delivers] of every interleaving).
    Of the command line: declaring and reading arguments, and logging; of the
    programs it calls (sudo, systemctl, useradd) only that they are called and
    whether they failed, except that root's process is the caller's with
    SUDO_USER set ([by_sudo]).  A symbolic link leads to a path that is none,
    and the directories on the way to a path are not links ([Sys]).  What nothing of the program calls is left out:
    [localLinkMTU] (nebconfig.go) and [DialContext] of the stack (service.go). *)

From stdpp Require Export prelude gmap strings sorting.
From Stdlib Require Export ZArith Lia.

#[export] Set Default Goal Selector "!".

(** ** Errors and outcomes *)

(** A Go error.  [Errorf] carries the source's format string, its verbs left
    unexpanded; [Wrap] is a format string with a [%w]. *)
Inductive error : Type :=
  | ErrNotFound
  | ErrAmbiguous
  | ErrPoolExhausted
  | ErrNoBinders
  | Errorf (format : string)
  | Wrap (format : string) (e : error).

#[export] Instance error_eq_dec : EqDecision error.
Proof. solve_decision. Defined.

(** [errors.Is] for the sentinels above. *)
Fixpoint errors_Is (e target : error) : bool :=
  bool_decide (e = target) ||
  match e with Wrap _ e' => errors_Is e' target | _ => false end.

(** The outcome of a Go call: a value, an error, or a run time panic. *)
Inductive res (A : Type) : Type :=
  | Ok (a : A)
  | Err (e : error)
  | Panic.
Arguments Ok {A} a.
Arguments Err {A} e.
Arguments Panic {A}.

Definition bindR {A B} (c : res A) (k : A → res B) : res B :=
  match c with Ok a => k a | Err e => Err e | Panic => Panic end.

Definition is_ok {A} (r : res A) : bool :=
  match r with Ok _ => true | _ => false end.

(** ** State, error and panic: the shape of every closure run under a lock.

    The state is threaded on the error path as well: what a Go closure did to
    the object behind its pointer before it returned an error stays done. *)
Definition M (S A : Type) : Type := S → res A * S.

Definition retM {S A} (a : A) : M S A := λ s, (Ok a, s).
Definition raise {S A} (e : error) : M S A := λ s, (Err e, s).
Definition panic {S A} : M S A := λ s, (Panic, s).
Definition getM {S} : M S S := λ s, (Ok s, s).
Definition modify {S} (f : S → S) : M S () := λ s, (Ok (), f s).
Definition bindM {S A B} (c : M S A) (k : A → M S B) : M S B :=
  λ s, match c s with
       | (Ok a, s') => k a s'
       | (Err e, s') => (Err e, s')
       | (Panic, s') => (Panic, s')
       end.
Definition liftR {S A} (r : res A) : M S A := λ s, (r, s).
(** [guard b e]: the early return [if !b { return e }]. *)
Definition guard {S} (b : bool) (e : error) : M S () :=
  if b then retM () else raise e.

Declare Scope go_scope.
Delimit Scope go_scope with go.
Notation "'let*' x := c1 'in' c2" := (bindM c1 (λ x, c2))
  (at level 10, x pattern, c1 at level 100, c2 at level 200) : go_scope.
Notation "'do*' c1 'in' c2" := (bindM c1 (λ _, c2))
  (at level 10, c1 at level 100, c2 at level 200) : go_scope.
Notation "'let?' x := c1 'in' c2" := (bindR c1 (λ x, c2))
  (at level 10, x pattern, c1 at level 100, c2 at level 200) : go_scope.
Open Scope go_scope.

Section Monad.
Context {S : Type}.

Lemma bindM_Ok {A B} (c : M S A) (k : A → M S B) s b s' :
  bindM c k s = (Ok b, s') ↔ ∃ a s1, c s = (Ok a, s1) ∧ k a s1 = (Ok b, s').
Proof.
  unfold bindM. destruct (c s) as [[a|e|] s1]; split; intros H.
  all: try match type of H with ∃ _, _ => destruct H as (?&?&?&?) end; simplify_eq; eauto.
Qed.

Lemma bindR_Ok {A B} (c : res A) (k : A → res B) b :
  bindR c k = Ok b ↔ ∃ a, c = Ok a ∧ k a = Ok b.
Proof.
  destruct c; simpl; split; intros H.
  all: try match type of H with ∃ _, _ => destruct H as (?&?&?) end; simplify_eq; eauto.
Qed.

Lemma guard_Ok (b : bool) e (s : S) u s' :
  guard b e s = (Ok u, s') ↔ b = true ∧ s' = s.
Proof. destruct b, u; compute; naive_solver. Qed.

Lemma guard_true e (s : S) : guard true e s = (Ok (), s).
Proof. done. Qed.

Lemma guard_false e (s : S) : guard false e s = (Err e, s).
Proof. done. Qed.
End Monad.

(** A computation preserves [I] whatever its outcome is, error included. *)
Definition preserves {S A} (I : S → Prop) (c : M S A) : Prop :=
  ∀ s, I s → I (c s).2.

(** A computation that cannot panic from a state satisfying [I]. *)
Definition safe {S A} (I : S → Prop) (c : M S A) : Prop :=
  ∀ s, I s → (c s).1 ≠ Panic.

Section Triples.
Context {S : Type} (I : S → Prop).

Lemma preserves_ret {A} (a : A) : preserves I (retM a).
Proof. by intros s. Qed.
Lemma preserves_raise {A} e : preserves I (raise (A:=A) e).
Proof. by intros s. Qed.
Lemma preserves_guard b e : preserves I (guard b e).
Proof. by destruct b; intros s. Qed.
Lemma preserves_get : preserves I getM.
Proof. by intros s. Qed.
Lemma preserves_bind {A B} (c : M S A) (k : A → M S B) :
  preserves I c → (∀ a, preserves I (k a)) → preserves I (bindM c k).
Proof.
  intros Hc Hk s Hs. unfold bindM. specialize (Hc s Hs).
  destruct (c s) as [[a|e|] s1]; simpl in *; try done. by apply Hk.
Qed.
End Triples.

Create HintDb go discriminated.
#[export] Hint Resolve preserves_ret preserves_raise preserves_guard preserves_get
  preserves_bind : go.

(** Peels an [Ok] run of a monadic program into the runs of its parts. *)
Ltac go_inv :=
  repeat match goal with
  | H : bindM _ _ _ = (Ok _, _) |- _ =>
      apply bindM_Ok in H; destruct H as (? & ? & ? & H)
  | H : bindR _ _ = Ok _ |- _ => apply bindR_Ok in H; destruct H as (? & ? & H)
  | H : guard _ _ _ = (Ok _, _) |- _ => apply guard_Ok in H; destruct H as [? ->]
  | H : retM _ _ = (_, _) |- _ => injection H as; subst
  | H : modify _ _ = (_, _) |- _ => injection H as; subst
  | H : getM _ = (_, _) |- _ => injection H as; subst
  | H : raise _ _ = (Ok _, _) |- _ => discriminate H
  | H : panic _ = (Ok _, _) |- _ => discriminate H
  | H : (Ok _, _) = (Ok _, _) |- _ => injection H as; subst
  | H : (Err _, _) = (Ok _, _) |- _ => discriminate H
  | H : (Panic, _) = (Ok _, _) |- _ => discriminate H
  | H : Ok _ = Ok _ |- _ => injection H as; subst
  | H : Err _ = Ok _ |- _ => discriminate H
  end.

(** Case analysis on the innermost scrutinee of a match, with its equation. *)
Ltac case_on :=
  match goal with
  | H : context [match ?x with _ => _ end] |- _ =>
      lazymatch x with context [match _ with _ => _ end] => fail
      | _ => destruct x eqn:? end
  | |- context [match ?x with _ => _ end] =>
      lazymatch x with context [match _ with _ => _ end] => fail
      | _ => destruct x eqn:? end
  end.

(** ** Booleans *)
Lemma bool_decide_dec (P : Prop) `{Decision P} : bool_decide P = true ↔ P.
Proof. by rewrite bool_decide_eq_true. Qed.

(** ** Lists *)

Lemma Forall_concat {A} (P : A → Prop) (ls : list (list A)) :
  Forall P (concat ls) ↔ Forall (Forall P) ls.
Proof.
  induction ls as [|l ls IH]; simpl; [by split; constructor|].
  by rewrite Forall_app, Forall_cons, IH.
Qed.

(** Two sorted permutations of one another are equal. *)
Lemma sorted_perm_eq {A} (R : relation A) `{!Transitive R, !AntiSymm eq R} (l1 l2 : list A) :
  Sorted R l1 → Sorted R l2 → l1 ≡ₚ l2 → l1 = l2.
Proof. apply Sorted_unique; done. Qed.

(** [sort.Strings]: ascending by bytes. *)
Definition sort_strings (l : list string) : list string := merge_sort String.le l.

Lemma sort_strings_perm l : sort_strings l ≡ₚ l.
Proof. apply merge_sort_Permutation. Qed.

Lemma sort_strings_sorted l : Sorted String.le (sort_strings l).
Proof. apply Sorted_merge_sort, _. Qed.

Lemma sort_strings_proper l1 l2 : l1 ≡ₚ l2 → sort_strings l1 = sort_strings l2.
Proof.
  intros H. apply (sorted_perm_eq String.le); eauto using sort_strings_sorted.
  by rewrite !sort_strings_perm.
Qed.

#[export] Instance sort_strings_Proper : Proper ((≡ₚ) ==> (=)) sort_strings.
Proof. intros l1 l2. apply sort_strings_proper. Qed.

Lemma elem_of_sort_strings x l : x ∈ sort_strings l ↔ x ∈ l.
Proof. by rewrite sort_strings_perm. Qed.

(** [sort.Slice(out, func(i, j) bool { return key(out[i]) < key(out[j]) })]. *)
Definition key_le {A} (key : A → string) : relation A := λ x y, String.le (key x) (key y).
#[export] Instance key_le_dec {A} (key : A → string) : RelDecision (key_le key).
Proof. intros x y. unfold key_le. apply _. Defined.
#[export] Instance key_le_total {A} (key : A → string) : Total (key_le key).
Proof. intros x y. unfold key_le. apply (total String.le). Qed.
#[export] Instance key_le_trans {A} (key : A → string) : Transitive (key_le key).
Proof. intros x y z. unfold key_le. apply (transitivity (R:=String.le)). Qed.
Definition sort_by {A} (key : A → string) (l : list A) : list A := merge_sort (key_le key) l.

Lemma sort_by_perm {A} (key : A → string) l : sort_by key l ≡ₚ l.
Proof. apply merge_sort_Permutation. Qed.
Lemma sort_by_sorted {A} (key : A → string) l : Sorted (key_le key) (sort_by key l).
Proof. apply Sorted_merge_sort, _. Qed.
Lemma elem_of_sort_by {A} (key : A → string) x l : x ∈ sort_by key l ↔ x ∈ l.
Proof. by rewrite sort_by_perm. Qed.

(** ** Maps

    A Go map may be nil.  Reading a nil map finds nothing, deleting from one
    does nothing, and assigning to one panics. *)
Abbreviation gomap A := (option (gmap string A)).

Definition mget {A} (m : gomap A) : gmap string A := default ∅ m.
Definition mlookup {A} (m : gomap A) (k : string) : option A := mget m !! k.
Definition mdelete {A} (m : gomap A) (k : string) : gomap A := delete k <$> m.
(** [m[k] = v], [None] when the assignment panics. *)
Definition massign {A} (m : gomap A) (k : string) (v : A) : option (gomap A) :=
  match m with Some m => Some (Some (<[k := v]> m)) | None => None end.
(** [if m == nil { m = map[string]A{} }]. *)
Definition ensure {A} (m : gomap A) : gomap A := Some (mget m).

Lemma mget_ensure {A} (m : gomap A) : mget (ensure m) = mget m.
Proof. done. Qed.
Lemma mget_mdelete {A} (m : gomap A) k : mget (mdelete m k) = delete k (mget m).
Proof. destruct m; simpl; [done|]. by rewrite delete_empty. Qed.

(** The order in which [range] visits a map is up to the run time.  A [Range]
    is one such choice; every theorem holds for all of them. *)
Record Range : Type := {
  range : ∀ A, gmap string A → list (string * A);
  range_perm : ∀ A (m : gmap string A), range A m ≡ₚ map_to_list m;
}.
Arguments range _ {A} _.
Arguments range_perm _ {A} _.

(** The choice a concrete run is evaluated with. *)
Definition range_default : Range :=
  {| range := λ A m, map_to_list m; range_perm := λ A m, reflexivity _ |}.

Lemma elem_of_range {A} (ρ : Range) (m : gmap string A) k v :
  (k, v) ∈ range ρ m ↔ m !! k = Some v.
Proof. by rewrite range_perm, elem_of_map_to_list. Qed.

(** First element satisfying a test, as a [for ... range] loop with a [return]. *)
Fixpoint find_first {A} (p : A → bool) (l : list A) : option A :=
  match l with
  | [] => None
  | x :: l => if p x then Some x else find_first p l
  end.

Lemma find_first_Some {A} (p : A → bool) l x :
  find_first p l = Some x → x ∈ l ∧ p x = true.
Proof.
  induction l as [|y l IH]; simpl; [done|].
  destruct (p y) eqn:Hp.
  - intros [= ->]. split; [left|done].
  - intros H. destruct (IH H). split; [by right|done].
Qed.

Lemma find_first_None {A} (p : A → bool) l :
  find_first p l = None ↔ ∀ x, x ∈ l → p x = false.
Proof.
  induction l as [|y l IH]; simpl.
  - split; [intros _ x Hx; by apply elem_of_nil in Hx | done].
  - destruct (p y) eqn:Hp; split.
    + done.
    + intros H. specialize (H y ltac:(left)). congruence.
    + intros H x [->|Hx]%elem_of_cons; [done|]. by apply IH.
    + intros H. apply IH. intros x Hx. apply H. by right.
Qed.

(** ** Bounded searches

    The shape of a loop that walks [f k], [f (k + 1)], ... while the element
    is inside some range and returns the first good one.  The outer option is
    the fuel. *)
Section Search.
Context {A : Type} (f : nat → A) (inside good : A → bool).

Fixpoint search (fuel k : nat) : option (option A) :=
  match fuel with
  | O => None
  | S fuel =>
      if inside (f k) then
        if good (f k) then Some (Some (f k)) else search fuel (S k)
      else Some None
  end.

Lemma search_result fuel k r :
  search fuel k = Some r →
  ∃ j, (k ≤ j)%nat ∧ (∀ i, (k ≤ i < j)%nat → inside (f i) = true ∧ good (f i) = false) ∧
    match r with
    | Some a => a = f j ∧ inside (f j) = true ∧ good (f j) = true
    | None => inside (f j) = false
    end.
Proof.
  revert k. induction fuel as [|fuel IH]; intros k; simpl; [done|].
  destruct (inside (f k)) eqn:Hi; [destruct (good (f k)) eqn:Hg|].
  - intros [= <-]. exists k. split_and!; try done. lia.
  - intros Hs. destruct (IH (S k) Hs) as (j & Hj & Hall & Hr). exists j.
    split_and!; [lia| |done]. intros i Hik.
    destruct (decide (i = k)) as [->|]; [done|]. apply Hall. lia.
  - intros [= <-]. exists k. split_and!; try done. lia.
Qed.

Lemma search_None fuel k i :
  search fuel k = None → (k ≤ i < k + fuel)%nat → inside (f i) = true ∧ good (f i) = false.
Proof.
  revert k. induction fuel as [|fuel IH]; intros k; simpl; [lia|].
  destruct (inside (f k)) eqn:Hin; [|done]. destruct (good (f k)) eqn:Hg; [done|].
  intros Hs Hi. destruct (decide (i = k)) as [->|]; [done|]. apply (IH (S k)); [done|lia].
Qed.
End Search.

(** [n] distinct members of a finite set: the set has at least [n] elements. *)
Lemma pigeon {A} `{Countable A} (f : nat → A) (X : gset A) (k n : nat) :
  (∀ i j, (k ≤ i < k + n)%nat → (k ≤ j < k + n)%nat → f i = f j → i = j) →
  (∀ i, (k ≤ i < k + n)%nat → f i ∈ X) →
  (n ≤ size X)%nat.
Proof.
  revert X k. induction n as [|n IH]; intros X k Hinj Hin; [lia|].
  assert (f k ∈ X) as Hk by (apply Hin; lia).
  assert (n ≤ size (X ∖ {[f k]}))%nat as Hn.
  { apply (IH _ (S k)).
    - intros i j Hi Hj. apply Hinj; lia.
    - intros i Hi. apply elem_of_difference. split; [apply Hin; lia|].
      rewrite elem_of_singleton. intros He. apply Hinj in He; lia. }
  rewrite size_difference in Hn by set_solver. rewrite size_singleton in Hn.
  assert (size X ≠ 0%nat); [|lia].
  intros Hs%size_empty_inv. set_solver.
Qed.

(** With more fuel than there are bad elements a search comes to an end. *)
Lemma search_total {A} `{Countable A} (f : nat → A) (inside good : A → bool) (X : gset A) fuel k :
  (∀ i j, inside (f i) = true → inside (f j) = true → f i = f j → i = j) →
  (∀ i, inside (f i) = true → good (f i) = false → f i ∈ X) →
  (size X < fuel)%nat →
  search f inside good fuel k ≠ None.
Proof.
  intros Hinj HX Hfuel Hs.
  assert (fuel ≤ size X)%nat; [|lia].
  apply (pigeon f X k fuel).
  - intros i j Hi Hj. apply Hinj; by eapply search_None.
  - intros i Hi. destruct (search_None _ _ _ _ _ _ Hs Hi). by apply HX.
Qed.

Lemma forallb_elem {A} (p : A → bool) l : forallb p l = true ↔ ∀ x, x ∈ l → p x = true.
Proof. rewrite forallb_forall. by setoid_rewrite list_elem_of_In. Qed.
Lemma mget_filter {A} (P : string * A → Prop) `{∀ x, Decision (P x)} (m : gomap A) :
  mget (filter P <$> m) = filter P (mget m).
Proof. destruct m; simpl; [done|]. by rewrite map_filter_empty. Qed.

(** ** Running a program one statement at a time *)
Section Run.
Context {S : Type}.

Lemma bind_get {B} (k : S → M S B) s : bindM getM k s = k s s.
Proof. done. Qed.
Lemma bind_ret {A B} (a : A) (k : A → M S B) s : bindM (retM a) k s = k a s.
Proof. done. Qed.
Lemma bind_raise {A B} e (k : A → M S B) s : bindM (raise e) k s = (Err e, s).
Proof. done. Qed.
Lemma bind_modify {B} f (k : () → M S B) s : bindM (modify f) k s = k () (f s).
Proof. done. Qed.
Lemma bind_guard {B} (b : bool) e (k : () → M S B) s :
  bindM (guard b e) k s = if b then k () s else (Err e, s).
Proof. by destruct b. Qed.
Lemma bind_liftR {A B} (r : res A) (k : A → M S B) s :
  bindM (liftR r) k s = match r with Ok a => k a s | Err e => (Err e, s) | Panic => (Panic, s) end.
Proof. by destruct r. Qed.
Lemma bind_run {A B} (c : M S A) (k : A → M S B) s a s1 :
  c s = (Ok a, s1) → bindM c k s = k a s1.
Proof. unfold bindM. by intros ->. Qed.
Lemma bind_run_Err {A B} (c : M S A) (k : A → M S B) s e s1 :
  c s = (Err e, s1) → bindM c k s = (Err e, s1).
Proof. unfold bindM. by intros ->. Qed.
Lemma bind_assoc {A B C} (c : M S A) (f : A → M S B) (g : B → M S C) s :
  bindM (bindM c f) g s = bindM c (λ a, bindM (f a) g) s.
Proof. unfold bindM. by destruct (c s) as [[]]. Qed.
End Run.
Create Rewrite HintDb go_run.
#[export] Hint Rewrite @bind_get @bind_ret @bind_raise @bind_modify @bind_guard @bind_liftR : go_run.
