(* ===== verification/GoStrings.v ===== *)
(** * Go strings

    The part of Go's [strings], [unicode/utf8], [strconv] and [encoding/hex]
    packages the program uses, over byte strings.  A Go string is a sequence of
    bytes, here [string]; [range] and the Unicode aware functions decode it as
    UTF-8 into runes.

    [lowerRune] maps the ASCII capitals and the two non-ASCII letters whose
    lower case is an ASCII letter (U+0130 and U+212A).  The case mapping
    between other non-ASCII letters is left as the identity: every function of
    the program that folds case goes on to treat all non-ASCII runes alike. *)

From Stdlib Require Import Ascii.
From stdpp Require pretty.
From S2P Require Export Prelude.

Open Scope Z_scope.

(** ** Bytes *)
Abbreviation ascii := Ascii.ascii.
Abbreviation s2l := String.list_ascii_of_string.
Abbreviation l2s := String.string_of_list_ascii.

Lemma l2s_s2l s : l2s (s2l s) = s.
Proof. apply String.string_of_list_ascii_of_string. Qed.
Lemma s2l_l2s l : s2l (l2s l) = l.
Proof. apply String.list_ascii_of_string_of_list_ascii. Qed.
Lemma s2l_app s1 s2 : s2l (s1 +:+ s2) = s2l s1 ++ s2l s2.
Proof.
  induction s1 as [|a s1 IH]; [done|].
  change (String.String a s1 +:+ s2) with (String.String a (s1 +:+ s2)).
  simpl. by rewrite IH.
Qed.
Lemma l2s_app l1 l2 : l2s (l1 ++ l2) = l2s l1 +:+ l2s l2.
Proof.
  induction l1 as [|a l1 IH]; [done|]. simpl. rewrite IH. done.
Qed.
#[export] Instance s2l_inj : Inj (=) (=) s2l.
Proof. intros s1 s2 H. by rewrite <-(l2s_s2l s1), <-(l2s_s2l s2), H. Qed.
#[export] Instance l2s_inj : Inj (=) (=) l2s.
Proof. intros l1 l2 H. by rewrite <-(s2l_l2s l1), <-(s2l_l2s l2), H. Qed.
Lemma string_app_assoc s1 s2 s3 : (s1 +:+ s2) +:+ s3 = s1 +:+ s2 +:+ s3.
Proof. apply (inj s2l). by rewrite !s2l_app, app_assoc. Qed.
Lemma string_app_nil_r s : s +:+ "" = s.
Proof. apply (inj s2l). by rewrite s2l_app, app_nil_r. Qed.

(** [len(s)], in bytes. *)
Definition len (s : string) : nat := length (s2l s).
Lemma len_app s1 s2 : len (s1 +:+ s2) = (len s1 + len s2)%nat.
Proof. unfold len. by rewrite s2l_app, length_app. Qed.

(** [value[:n]] and [value[n:]]. *)
Definition str_take (n : nat) (s : string) : string := l2s (take n (s2l s)).
Definition str_drop (n : nat) (s : string) : string := l2s (drop n (s2l s)).

(** The numeric value of a byte and the byte of a numeric value. *)
Definition code (c : ascii) : Z := Z.of_N (Ascii.N_of_ascii c).
Definition chr (z : Z) : ascii := Ascii.ascii_of_N (Z.to_N z).

Lemma code_range c : 0 ≤ code c < 256.
Proof. unfold code. pose proof (Ascii.N_ascii_bounded c). lia. Qed.
Lemma chr_code c : chr (code c) = c.
Proof. unfold chr, code. by rewrite N2Z.id, Ascii.ascii_N_embedding. Qed.
Lemma code_chr z : 0 ≤ z < 256 → code (chr z) = z.
Proof.
  intros Hz. unfold chr, code. rewrite Ascii.N_ascii_embedding; [|lia].
  by rewrite Z2N.id by lia.
Qed.
#[export] Instance code_inj : Inj (=) (=) code.
Proof. intros c1 c2 H. by rewrite <-(chr_code c1), <-(chr_code c2), H. Qed.

(** ** Prefixes, suffixes and searching *)
Definition HasPrefix (s p : string) : bool := bool_decide (s2l p `prefix_of` s2l s).
Definition HasSuffix (s p : string) : bool := bool_decide (s2l p `suffix_of` s2l s).
Definition TrimPrefix (s p : string) : string :=
  if HasPrefix s p then l2s (drop (len p) (s2l s)) else s.
Definition TrimSuffix (s p : string) : string :=
  if HasSuffix s p then l2s (take (len s - len p) (s2l s)) else s.
Definition CutPrefix (s p : string) : option string :=
  if HasPrefix s p then Some (l2s (drop (len p) (s2l s))) else None.

Lemma HasPrefix_spec s p : HasPrefix s p = true ↔ ∃ r, s = p +:+ r.
Proof.
  unfold HasPrefix. rewrite bool_decide_eq_true. split.
  - intros [k Hk]. exists (l2s k). apply (inj s2l). by rewrite s2l_app, s2l_l2s.
  - intros [r ->]. exists (s2l r). apply s2l_app.
Qed.
Lemma HasSuffix_spec s p : HasSuffix s p = true ↔ ∃ r, s = r +:+ p.
Proof.
  unfold HasSuffix. rewrite bool_decide_eq_true. split.
  - intros [k Hk]. exists (l2s k). apply (inj s2l). by rewrite s2l_app, s2l_l2s.
  - intros [r ->]. exists (s2l r). apply s2l_app.
Qed.
Lemma HasPrefix_app p r : HasPrefix (p +:+ r) p = true.
Proof. apply HasPrefix_spec. by exists r. Qed.
Lemma HasSuffix_app r p : HasSuffix (r +:+ p) p = true.
Proof. apply HasSuffix_spec. by exists r. Qed.
Lemma HasPrefix_refl s : HasPrefix s s = true.
Proof. apply HasPrefix_spec. exists "". by rewrite string_app_nil_r. Qed.
Lemma TrimSuffix_app r p : TrimSuffix (r +:+ p) p = r.
Proof.
  unfold TrimSuffix. rewrite HasSuffix_app. rewrite len_app, s2l_app.
  replace (len r + len p - len p)%nat with (len r) by lia.
  unfold len. by rewrite take_app_length, l2s_s2l.
Qed.
Lemma TrimSuffix_no s p : HasSuffix s p = false → TrimSuffix s p = s.
Proof. unfold TrimSuffix. by intros ->. Qed.
Lemma CutPrefix_app p r : CutPrefix (p +:+ r) p = Some r.
Proof.
  unfold CutPrefix. rewrite HasPrefix_app, s2l_app. unfold len.
  by rewrite drop_app_length, l2s_s2l.
Qed.
Lemma CutPrefix_Some s p r : CutPrefix s p = Some r ↔ s = p +:+ r.
Proof.
  split; [|intros ->; apply CutPrefix_app].
  unfold CutPrefix. destruct (HasPrefix s p) eqn:H; [|done].
  apply HasPrefix_spec in H as [r' ->]. rewrite s2l_app. unfold len.
  rewrite drop_app_length, l2s_s2l. by intros [= ->].
Qed.

(** The index of the first occurrence of [sub]. *)
Fixpoint indexl (sub l : list ascii) : option nat :=
  if decide (sub `prefix_of` l) then Some 0%nat
  else match l with [] => None | _ :: l' => S <$> indexl sub l' end.
Definition Index (s sub : string) : option nat := indexl (s2l sub) (s2l s).
Definition Contains (s sub : string) : bool :=
  match Index s sub with Some _ => true | None => false end.
(** [strings.Cut]: what is before and after the first [sep]. *)
Definition Cut (s sep : string) : option (string * string) :=
  match Index s sep with
  | Some i => Some (l2s (take i (s2l s)), l2s (drop (i + len sep) (s2l s)))
  | None => None
  end.

Lemma indexl_Some sub l i :
  indexl sub l = Some i → sub ++ drop (i + length sub) l = drop i l ∧ (i ≤ length l)%nat.
Proof.
  revert i. induction l as [|c l IH]; intros i; simpl; case_decide as Hp.
  - intros [= <-]. destruct sub; [done|]. by apply prefix_nil_not in Hp.
  - done.
  - intros [= <-]. destruct Hp as [k ->]. rewrite Nat.add_0_l, drop_app_length. split; [done|lia].
  - destruct (indexl sub l) as [j|]; simpl; [|done]. intros [= <-].
    destruct (IH j eq_refl) as [H1 H2]. split; [apply H1|lia].
Qed.

(** ** Splitting and joining *)
Fixpoint splitl (c : ascii) (cur l : list ascii) : list (list ascii) :=
  match l with
  | [] => [rev cur]
  | x :: l => if decide (x = c) then rev cur :: splitl c [] l else splitl c (x :: cur) l
  end.
(** [strings.Split] for a separator of one byte. *)
Definition Split (s : string) (c : ascii) : list string := l2s <$> splitl c [] (s2l s).

Fixpoint Join (l : list string) (sep : string) : string :=
  match l with
  | [] => ""
  | [s] => s
  | s :: l => s +:+ sep +:+ Join l sep
  end.

Lemma splitl_no_sep c cur l : c ∉ l → splitl c cur l = [rev cur ++ l].
Proof.
  revert cur. induction l as [|x l IH]; intros cur Hl; simpl; [by rewrite app_nil_r|].
  apply not_elem_of_cons in Hl as [? Hl]. rewrite decide_False by done.
  rewrite IH by done. simpl. by rewrite <-app_assoc.
Qed.
Lemma splitl_app_sep c cur l1 l2 :
  c ∉ l1 → splitl c cur (l1 ++ c :: l2) = (rev cur ++ l1) :: splitl c [] l2.
Proof.
  revert cur. induction l1 as [|x l IH]; intros cur Hl; simpl.
  - rewrite decide_True by done. by rewrite app_nil_r.
  - apply not_elem_of_cons in Hl as [? Hl]. rewrite decide_False by done.
    rewrite IH by done. simpl. by rewrite <-app_assoc.
Qed.
Lemma splitl_nonnil c cur l : splitl c cur l ≠ [].
Proof.
  revert cur. induction l as [|x l IH]; intros cur; simpl; [done|]. by case_decide.
Qed.
Lemma Join_cons s l sep : l ≠ [] → Join (s :: l) sep = s +:+ sep +:+ Join l sep.
Proof. by destruct l. Qed.
Lemma Split_nonnil s c : Split s c ≠ [].
Proof. unfold Split. intros H%fmap_nil_inv. by eapply splitl_nonnil. Qed.
(** What is joined is split again, when no part holds the separator. *)
Lemma Split_Join c parts :
  parts ≠ [] → Forall (λ p, c ∉ s2l p) parts → Split (Join parts (l2s [c])) c = parts.
Proof.
  intros Hne H. destruct parts as [|s parts]; [done|]. clear Hne. revert s H.
  induction parts as [|t parts IH]; intros s [Hs H]%Forall_cons; unfold Split in *.
  - cbn [Join]. rewrite splitl_no_sep by done. simpl. by rewrite l2s_s2l.
  - rewrite Join_cons by done. rewrite !s2l_app, s2l_l2s. cbn [app].
    rewrite splitl_app_sep, fmap_cons by done. simpl rev. rewrite app_nil_l, l2s_s2l. f_equal. by apply IH.
Qed.
Lemma splitl_parts_no_sep c cur l : c ∉ cur → Forall (λ p, c ∉ p) (splitl c cur l).
Proof.
  revert cur. induction l as [|x l IH]; intros cur Hc; simpl.
  - constructor; [|constructor].
      intros H; apply Hc; apply list_elem_of_In; apply list_elem_of_In in H; by apply in_rev.
  - case_decide as Hx.
    + constructor; [|apply IH, not_elem_of_nil].
      intros H; apply Hc; apply list_elem_of_In; apply list_elem_of_In in H; by apply in_rev.
    + apply IH. apply not_elem_of_cons. split; congruence.
Qed.
Lemma splitl_join c cur l :
  Join (l2s <$> splitl c cur l) (l2s [c]) = l2s (rev cur ++ l).
Proof.
  revert cur. induction l as [|x l IH]; intros cur; simpl.
  - by rewrite app_nil_r.
  - case_decide as Hx.
    + subst. simpl fmap. rewrite Join_cons.
      * rewrite IH. simpl rev. rewrite !l2s_app. done.
      * intros H%fmap_nil_inv. by eapply splitl_nonnil.
    + rewrite IH. simpl. by rewrite <-app_assoc.
Qed.
(** Splitting and joining again gives the string back. *)
Lemma Join_Split s c : Join (Split s c) (l2s [c]) = s.
Proof. unfold Split. rewrite splitl_join. simpl. apply l2s_s2l. Qed.

(** ** UTF-8 *)
Definition RuneError : Z := 65533.

(** A continuation byte, with the tighter bounds the second byte of some
    sequences has. *)
Definition cont (lo hi b : Z) : bool := (lo <=? b) && (b <=? hi).

(** [utf8.DecodeRune]: the rune at the head and how many bytes it takes. *)
Definition decode_rune (l : list Z) : Z * nat :=
  match l with
  | [] => (RuneError, 0%nat)
  | b0 :: t =>
    if b0 <? 128 then (b0, 1%nat) else
    if (194 <=? b0) && (b0 <=? 223) then
      match t with
      | b1 :: _ => if cont 128 191 b1 then ((b0 - 192) * 64 + (b1 - 128), 2%nat)
                   else (RuneError, 1%nat)
      | _ => (RuneError, 1%nat)
      end
    else if (224 <=? b0) && (b0 <=? 239) then
      match t with
      | b1 :: b2 :: _ =>
        let lo := if b0 =? 224 then 160 else 128 in
        let hi := if b0 =? 237 then 159 else 191 in
        if cont lo hi b1 && cont 128 191 b2
        then ((b0 - 224) * 4096 + (b1 - 128) * 64 + (b2 - 128), 3%nat)
        else (RuneError, 1%nat)
      | _ => (RuneError, 1%nat)
      end
    else if (240 <=? b0) && (b0 <=? 244) then
      match t with
      | b1 :: b2 :: b3 :: _ =>
        let lo := if b0 =? 240 then 144 else 128 in
        let hi := if b0 =? 244 then 143 else 191 in
        if cont lo hi b1 && cont 128 191 b2 && cont 128 191 b3
        then ((b0 - 240) * 262144 + (b1 - 128) * 4096 + (b2 - 128) * 64 + (b3 - 128), 4%nat)
        else (RuneError, 1%nat)
      | _ => (RuneError, 1%nat)
      end
    else (RuneError, 1%nat)
  end.

(** A string cut into its runes, each with the bytes it was decoded from. *)
Fixpoint chunks_go (fuel : nat) (l : list ascii) : list (Z * list ascii) :=
  match fuel, l with
  | S fuel, _ :: _ =>
      let '(r, w) := decode_rune (code <$> l) in
      (r, take w l) :: chunks_go fuel (drop w l)
  | _, _ => []
  end.
Definition chunks (s : string) : list (Z * list ascii) := chunks_go (len s) (s2l s).

(** [for _, r := range s]. *)
Definition runes (s : string) : list Z := (chunks s).*1.

(** [utf8.AppendRune]. *)
Definition encode_rune (r : Z) : list ascii :=
  if (0 <=? r) && (r <? 128) then [chr r]
  else if (128 <=? r) && (r <? 2048) then [chr (192 + r / 64); chr (128 + r mod 64)]
  else if (2048 <=? r) && (r <? 65536) && negb ((55296 <=? r) && (r <=? 57343)) then
    [chr (224 + r / 4096); chr (128 + r / 64 mod 64); chr (128 + r mod 64)]
  else if (65536 <=? r) && (r <=? 1114111) then
    [chr (240 + r / 262144); chr (128 + r / 4096 mod 64); chr (128 + r / 64 mod 64);
     chr (128 + r mod 64)]
  else [chr 239; chr 191; chr 189].

Definition string_of_runes (l : list Z) : string := l2s (l ≫= encode_rune).

Lemma decode_rune_small l r w :
  decode_rune l = (r, w) → Forall (λ b, 0 ≤ b) l → r < 128 → ∃ b t, l = b :: t ∧ r = b ∧ w = 1%nat.
Proof.
  unfold decode_rune, RuneError, cont. intros H Hpos Hr.
  destruct l as [|b t]; [injection H; lia|]. exists b, t.
  repeat case_match; simplify_eq; try lia; try done.
  all: rewrite ?andb_true_iff, ?Z.leb_le, ?Z.leb_gt, ?Z.ltb_ge in *; lia.
Qed.
Lemma decode_rune_width l : l ≠ [] → (1 ≤ (decode_rune l).2)%nat.
Proof. unfold decode_rune. intros. repeat case_match; simpl; try lia; done. Qed.

Lemma chunks_go_small fuel l r bs :
  (r, bs) ∈ chunks_go fuel l → r < 128 → bs = [chr r] ∧ 0 ≤ r.
Proof.
  revert l. induction fuel as [|fuel IH]; intros l; simpl; [intros H; by apply elem_of_nil in H|].
  destruct l as [|c l]; [intros H; by apply elem_of_nil in H|].
  destruct (decode_rune (code <$> c :: l)) as [r0 w] eqn:Hd.
  intros [[= -> ->]|H]%elem_of_cons Hr; [|by eapply IH].
  apply decode_rune_small in Hd as (b & t & Hl & -> & ->); [|..|done].
  - simpl in Hl. injection Hl as <- _. simpl. rewrite take_0, chr_code.
    split; [done|]. apply code_range.
  - apply Forall_fmap, Forall_true. intros x. apply code_range.
Qed.
Lemma chunks_go_concat fuel l :
  (length l ≤ fuel)%nat → concat (chunks_go fuel l).*2 = l.
Proof.
  revert l. induction fuel as [|fuel IH]; intros l Hl; simpl; [by destruct l; simpl in *; [|lia]|].
  destruct l as [|c l]; [done|].
  assert (code <$> c :: l ≠ []) as Hw%decode_rune_width by done.
  destruct (decode_rune (code <$> c :: l)) as [r w] eqn:Hd. cbn [snd] in Hw.
  rewrite fmap_cons. cbn [concat snd]. rewrite IH, take_drop; [done|].
  rewrite length_drop. simpl in Hl |- *. lia.
Qed.
Lemma chunks_go_ascii fuel l :
  (length l ≤ fuel)%nat → Forall (λ c, code c < 128) l →
  chunks_go fuel l = (λ c, (code c, [c])) <$> l.
Proof.
  revert l. induction fuel as [|fuel IH]; intros l Hl Ha; simpl; [by destruct l; simpl in *; [|lia]|].
  destruct l as [|c l]; [done|]. apply Forall_cons in Ha as [Hc Ha].
  simpl. rewrite (proj2 (Z.ltb_lt _ _) Hc). simpl. rewrite take_0, drop_0.
  f_equal. apply IH; [|done]. simpl in Hl. lia.
Qed.

(** The bytes of a string whose runes are all ASCII are those runes. *)
Lemma runes_ascii_bytes s :
  Forall (λ r, r < 128) (runes s) → s2l s = chr <$> runes s.
Proof.
  unfold runes, chunks. intros H.
  pose proof (chunks_go_concat (len s) (s2l s) ltac:(done)) as Hc.
  pose proof (chunks_go_small (len s) (s2l s)) as Hs.
  revert H Hc Hs. generalize (chunks_go (len s) (s2l s)) as cs. generalize (s2l s) as l.
  intros l cs. revert l. induction cs as [|[r bs] cs IH]; intros l Hf <- Hs; [done|].
  rewrite !fmap_cons in *. apply Forall_cons in Hf as [Hr Hf]. simpl.
  destruct (Hs r bs ltac:(left) Hr) as [-> _]. simpl. f_equal.
  apply IH; [done..|]. intros r' bs' Hin. apply Hs. by right.
Qed.
Lemma chunks_ascii s :
  Forall (λ c, code c < 128) (s2l s) → chunks s = (λ c, (code c, [c])) <$> s2l s.
Proof. by apply chunks_go_ascii. Qed.
Lemma runes_ascii s :
  Forall (λ c, code c < 128) (s2l s) → runes s = code <$> s2l s.
Proof.
  intros H. unfold runes. rewrite chunks_ascii by done. rewrite <-list_fmap_compose. done.
Qed.

(** ** Case and white space *)
Definition isSpace (r : Z) : bool :=
  ((9 <=? r) && (r <=? 13)) || bool_decide (r ∈ [32; 133; 160; 5760; 8232; 8233; 8239; 8287; 12288])
  || ((8192 <=? r) && (r <=? 8202)).

Definition lowerRune (r : Z) : Z :=
  if (65 <=? r) && (r <=? 90) then r + 32
  else if r =? 304 then 105 else if r =? 8490 then 107 else r.

(** [strings.ToLower]. *)
Definition ToLower (s : string) : string := string_of_runes (lowerRune <$> runes s).

Fixpoint drop_while {A} (p : A → bool) (l : list A) : list A :=
  match l with
  | [] => []
  | x :: l' => if p x then drop_while p l' else l
  end.
Definition trim_right_by {A} (p : A → bool) (l : list A) : list A := rev (drop_while p (rev l)).
Definition trim_by {A} (p : A → bool) (l : list A) : list A := trim_right_by p (drop_while p l).

(** [strings.TrimSpace]. *)
Definition TrimSpace (s : string) : string :=
  l2s (concat (trim_by (λ c, isSpace c.1) (chunks s)).*2).

(** [strings.Trim], [TrimLeft] and [TrimRight] for a cut set of ASCII bytes. *)
Definition in_cutset (cutset : string) (c : ascii) : bool := bool_decide (c ∈ s2l cutset).
Definition Trim (s cutset : string) : string := l2s (trim_by (in_cutset cutset) (s2l s)).
Definition TrimRight (s cutset : string) : string := l2s (trim_right_by (in_cutset cutset) (s2l s)).

(** [strings.Fields]: the maximal runs of non-space runes. *)
Fixpoint fields_go (cur : list ascii) (l : list (Z * list ascii)) : list (list ascii) :=
  match l with
  | [] => match cur with [] => [] | _ => [cur] end
  | (r, bs) :: l =>
      if isSpace r then match cur with [] => fields_go [] l | _ => cur :: fields_go [] l end
      else fields_go (cur ++ bs) l
  end.
Definition Fields (s : string) : list string := l2s <$> fields_go [] (chunks s).

Lemma drop_while_id {A} (p : A → bool) l :
  (∀ x, head l = Some x → p x = false) → drop_while p l = l.
Proof. destruct l as [|x l]; [done|]. intros H. simpl. by rewrite (H x eq_refl). Qed.
Lemma drop_while_suffix {A} (p : A → bool) l : drop_while p l `suffix_of` l.
Proof.
  induction l as [|x l IH]; simpl; [done|]. destruct (p x); [|done].
  by apply suffix_cons_r.
Qed.
Lemma drop_while_head {A} (p : A → bool) l x : head (drop_while p l) = Some x → p x = false.
Proof.
  induction l as [|y l IH]; simpl; [done|]. destruct (p y) eqn:Hp; [done|].
  by intros [= ->].
Qed.
Lemma last_rev {A} (l : list A) : last (rev l) = head l.
Proof. destruct l as [|x l]; [done|]. simpl. by rewrite last_snoc. Qed.
Lemma head_rev {A} (l : list A) : head (rev l) = last l.
Proof. rewrite <-(last_rev (rev l)). by rewrite rev_involutive. Qed.
Lemma trim_right_by_last {A} (p : A → bool) l x :
  last (trim_right_by p l) = Some x → p x = false.
Proof. unfold trim_right_by. rewrite last_rev. apply drop_while_head. Qed.
Lemma trim_right_by_prefix {A} (p : A → bool) l : trim_right_by p l `prefix_of` l.
Proof.
  unfold trim_right_by. destruct (drop_while_suffix p (rev l)) as [k Hk].
  exists (rev k). by rewrite <-rev_app_distr, <-Hk, rev_involutive.
Qed.
Lemma trim_by_last {A} (p : A → bool) l x : last (trim_by p l) = Some x → p x = false.
Proof. apply trim_right_by_last. Qed.
Lemma trim_by_head {A} (p : A → bool) l x : head (trim_by p l) = Some x → p x = false.
Proof.
  unfold trim_by. intros H.
  destruct (trim_right_by_prefix p (drop_while p l)) as [k Hk].
  destruct (trim_right_by p (drop_while p l)) as [|y t]; [done|]. simplify_eq/=.
  apply (drop_while_head p l). by rewrite Hk.
Qed.
Lemma trim_by_id {A} (p : A → bool) l : Forall (λ x, p x = false) l → trim_by p l = l.
Proof.
  intros H. unfold trim_by, trim_right_by. rewrite Forall_forall in H.
  rewrite (drop_while_id p l).
  - rewrite drop_while_id; [by rewrite rev_involutive|].
    intros x Hx. apply H. rewrite head_rev in Hx. by apply last_Some_elem_of.
  - intros x Hx. apply H. by apply head_Some_elem_of.
Qed.
Lemma trim_by_infix {A} (p : A → bool) l : ∃ l1 l2, l = l1 ++ trim_by p l ++ l2.
Proof.
  unfold trim_by. destruct (drop_while_suffix p l) as [k Hk].
  destruct (trim_right_by_prefix p (drop_while p l)) as [k' Hk'].
  exists k, k'. by rewrite <-Hk'.
Qed.

(** Bytes that trimming and lower casing leave alone. *)
Definition plain (c : ascii) : Prop :=
  code c < 128 ∧ isSpace (code c) = false ∧ lowerRune (code c) = code c.
#[export] Instance plain_dec c : Decision (plain c).
Proof. unfold plain. apply _. Defined.

Lemma plain_ascii l : Forall plain l → Forall (λ c, code c < 128) l.
Proof. intros H. eapply Forall_impl; [apply H|]. by intros c []. Qed.
Lemma encode_rune_code c : code c < 128 → encode_rune (code c) = [c].
Proof.
  intros H. unfold encode_rune. pose proof (code_range c).
  rewrite (proj2 (Z.leb_le _ _)), (proj2 (Z.ltb_lt _ _)) by lia. simpl. by rewrite chr_code.
Qed.
Lemma TrimSpace_plain s : Forall plain (s2l s) → TrimSpace s = s.
Proof.
  intros H. unfold TrimSpace. rewrite chunks_ascii by by apply plain_ascii.
  rewrite trim_by_id.
  - rewrite <-list_fmap_compose. apply (inj s2l). rewrite s2l_l2s.
    clear H. induction (s2l s) as [|c l IH]; [done|]. rewrite fmap_cons. simpl. by f_equal.
  - apply Forall_fmap. eapply Forall_impl; [done|]. by intros c (?&?&?).
Qed.
Lemma ToLower_plain s : Forall plain (s2l s) → ToLower s = s.
Proof.
  intros H. unfold ToLower, string_of_runes. rewrite runes_ascii by by apply plain_ascii.
  apply (inj s2l). rewrite s2l_l2s. induction H as [|c l (?&?&Hl) H IH]; [done|].
  rewrite !fmap_cons, bind_cons, IH, Hl, encode_rune_code by done. done.
Qed.

(** What a lower cased string decodes to: its runes were encoded, so they are
    read back. *)
Lemma code_encode_ascii r : 0 ≤ r < 128 → code <$> encode_rune r = [r].
Proof.
  intros H. unfold encode_rune. rewrite (proj2 (Z.leb_le _ _)), (proj2 (Z.ltb_lt _ _)) by lia.
  simpl. by rewrite code_chr by lia.
Qed.
Lemma ToLower_ascii s :
  Forall (λ c, code c < 128) (s2l s) →
  s2l (ToLower s) = (λ c, chr (lowerRune (code c))) <$> s2l s.
Proof.
  intros H. unfold ToLower, string_of_runes. rewrite s2l_l2s, runes_ascii by done.
  induction H as [|c l Hc H IH]; [done|]. rewrite !fmap_cons, bind_cons, IH. simpl.
  f_equal. pose proof (code_range c).
  assert (0 ≤ lowerRune (code c) < 128) as Hr.
  { unfold lowerRune. repeat case_match; rewrite ?andb_true_iff, ?Z.leb_le in *; lia. }
  unfold encode_rune. rewrite (proj2 (Z.leb_le _ _)), (proj2 (Z.ltb_lt _ _)) by lia. done.
Qed.

(** [strings.ReplaceAll s "--" "-"], left to right without overlap. *)
Fixpoint squeeze_pass (l : list ascii) : list ascii :=
  match l with
  | "-"%char :: "-"%char :: l => "-"%char :: squeeze_pass l
  | c :: l => c :: squeeze_pass l
  | [] => []
  end.

(** ** Numbers *)

(** [strconv.Itoa] and the [%d] verb. *)
Definition Itoa (z : Z) : string := pretty.pretty z.

Definition digit (c : ascii) : option Z :=
  if (48 <=? code c) && (code c <=? 57) then Some (code c - 48) else None.
Fixpoint digits_go (acc : Z) (l : list ascii) : option Z :=
  match l with
  | [] => Some acc
  | c :: l => match digit c with Some d => digits_go (acc * 10 + d) l | None => None end
  end.
(** A non-empty run of decimal digits. *)
Definition decimal (s : string) : option Z :=
  match s2l s with [] => None | l => digits_go 0 l end.
(** [strconv.ParseUint(s, 10, bits)]. *)
Definition ParseUint (s : string) (bits : Z) : option Z :=
  match decimal s with Some n => if n <? 2 ^ bits then Some n else None | None => None end.
(** [strconv.Atoi], on a 64 bit machine. *)
Definition Atoi (s : string) : option Z :=
  let '(sign, body) :=
    match s2l s with
    | "-"%char :: l => (-1, l2s l) | "+"%char :: l => (1, l2s l) | _ => (1, s)
    end in
  match decimal body with
  | Some n => let z := sign * n in
              if (- 2 ^ 63 <=? z) && (z <? 2 ^ 63) then Some z else None
  | None => None
  end.

Lemma digits_go_nonneg acc l n : 0 ≤ acc → digits_go acc l = Some n → 0 ≤ n.
Proof.
  revert acc. induction l as [|c l IH]; intros acc Ha; simpl; [by intros [= <-]|].
  unfold digit. destruct (_ && _) eqn:Hc; [|done].
  apply andb_true_iff in Hc as [?%Z.leb_le ?%Z.leb_le]. apply IH. lia.
Qed.
Lemma ParseUint_range s bits n : ParseUint s bits = Some n → 0 ≤ n < 2 ^ bits.
Proof.
  unfold ParseUint, decimal. destruct (s2l s) as [|c l]; [done|].
  destruct (digits_go 0 (c :: l)) as [m|] eqn:Hd; [|done].
  destruct (m <? 2 ^ bits) eqn:Hm; [|done]. intros [= <-].
  apply Z.ltb_lt in Hm. split; [|done]. eapply digits_go_nonneg; [|done]. done.
Qed.

(** ** Hexadecimal *)
Definition hex_digit (d : Z) : ascii := chr (if d <? 10 then 48 + d else 87 + d).
(** [hex.EncodeToString], bytes given as numbers. *)
Definition EncodeHex (l : list Z) : string :=
  l2s (l ≫= λ b, [hex_digit (b / 16); hex_digit (b mod 16)]).
Definition hex_value (c : ascii) : option Z :=
  let n := code c in
  if (48 <=? n) && (n <=? 57) then Some (n - 48)
  else if (97 <=? n) && (n <=? 102) then Some (n - 87)
  else if (65 <=? n) && (n <=? 70) then Some (n - 55) else None.
Fixpoint DecodeHex_go (l : list ascii) : option (list Z) :=
  match l with
  | [] => Some []
  | a :: b :: l =>
      match hex_value a, hex_value b, DecodeHex_go l with
      | Some x, Some y, Some r => Some (x * 16 + y :: r)
      | _, _, _ => None
      end
  | _ => None
  end.
(** [hex.DecodeString]. *)
Definition DecodeHex (s : string) : option (list Z) := DecodeHex_go (s2l s).

Definition is_byte (z : Z) : Prop := 0 ≤ z < 256.

Lemma hex_value_digit d : 0 ≤ d < 16 → hex_value (hex_digit d) = Some d.
Proof.
  intros Hd. unfold hex_digit, hex_value.
  assert (d = 0 ∨ d = 1 ∨ d = 2 ∨ d = 3 ∨ d = 4 ∨ d = 5 ∨ d = 6 ∨ d = 7 ∨ d = 8 ∨ d = 9 ∨
    d = 10 ∨ d = 11 ∨ d = 12 ∨ d = 13 ∨ d = 14 ∨ d = 15) as Hcases by lia.
  by repeat destruct Hcases as [->|Hcases]; [..|subst].
Qed.
Lemma DecodeHex_Encode l : Forall is_byte l → DecodeHex (EncodeHex l) = Some l.
Proof.
  intros H. unfold DecodeHex, EncodeHex. rewrite s2l_l2s.
  induction H as [|b l [Hb1 Hb2] H IH]; [done|]. rewrite bind_cons. simpl.
  rewrite IH, !hex_value_digit.
  - do 2 f_equal. pose proof (Z.div_mod b 16). lia.
  - apply Z.mod_pos_bound. lia.
  - split; [apply Z.div_pos; lia | apply Z.div_lt_upper_bound; lia].
Qed.
Lemma len_EncodeHex l : len (EncodeHex l) = (2 * length l)%nat.
Proof.
  unfold len, EncodeHex. rewrite s2l_l2s.
  induction l as [|b l IH]; [done|]. rewrite bind_cons. simpl. rewrite IH. lia.
Qed.

(** ** Byte strings and their numeric bytes. *)
Definition bytes_of (s : string) : list Z := code <$> s2l s.
Lemma bytes_of_is_byte s : Forall is_byte (bytes_of s).
Proof. apply Forall_fmap, Forall_true. intros c. apply code_range. Qed.
#[export] Instance bytes_of_inj : Inj (=) (=) bytes_of.
Proof. intros s1 s2 H. apply (inj s2l). by apply (inj (fmap code)). Qed.
Lemma bytes_of_app s1 s2 : bytes_of (s1 +:+ s2) = bytes_of s1 ++ bytes_of s2.
Proof. unfold bytes_of. by rewrite s2l_app, fmap_app. Qed.
