(* ===== verification/Netip.v ===== *)
(** * Addresses and prefixes: Go's [net/netip]

    An address is IPv4, IPv6 or the zero value.  No address of the program
    carries a zone: they come out of prefixes and out of arithmetic on them,
    and [netip.ParsePrefix] refuses one.  A prefix keeps its address and its
    length, -1 when it is not valid. *)

From Stdlib Require Import Ascii.
From S2P Require Export GoStrings.

Open Scope Z_scope.

Inductive Addr : Type :=
  | AddrZero
  | Addr4 (n : Z)
  | Addr6 (n : Z).

#[export] Instance Addr_eq_dec : EqDecision Addr.
Proof. solve_decision. Defined.
#[export] Instance Addr_countable : Countable Addr.
Proof.
  refine (inj_countable'
    (λ a, match a with AddrZero => inl () | Addr4 n => inr (inl n) | Addr6 n => inr (inr n) end)
    (λ s, match s with inl _ => AddrZero | inr (inl n) => Addr4 n | inr (inr n) => Addr6 n end) _).
  by intros [].
Defined.

Definition BitLen (a : Addr) : Z :=
  match a with AddrZero => 0 | Addr4 _ => 32 | Addr6 _ => 128 end.
Definition Addr_IsValid (a : Addr) : bool := match a with AddrZero => false | _ => true end.
Definition Is4 (a : Addr) : bool := match a with Addr4 _ => true | _ => false end.
Definition Is6 (a : Addr) : bool := match a with Addr6 _ => true | _ => false end.
Definition num (a : Addr) : Z := match a with AddrZero => 0 | Addr4 n | Addr6 n => n end.
(** An address of the same family with another value. *)
Definition with_num (a : Addr) (n : Z) : Addr :=
  match a with AddrZero => AddrZero | Addr4 _ => Addr4 n | Addr6 _ => Addr6 n end.
Definition addr_wf (a : Addr) : Prop := 0 ≤ num a < 2 ^ BitLen a.

(** [Addr.Next] and [Addr.Prev]: the zero address past either end. *)
Definition Next (a : Addr) : Addr :=
  match a with
  | AddrZero => AddrZero
  | _ => if num a + 1 =? 2 ^ BitLen a then AddrZero else with_num a (num a + 1)
  end.
Definition Prev (a : Addr) : Addr :=
  match a with
  | AddrZero => AddrZero
  | _ => if num a =? 0 then AddrZero else with_num a (num a - 1)
  end.

(** The sixteen byte form: IPv4 is mapped under ::ffff:0:0/96. *)
Definition v4mapped : Z := 65535 * 2 ^ 32.
Definition be_bytes (n : nat) (z : Z) : list Z :=
  reverse ((λ i, z / 256 ^ Z.of_nat i mod 256) <$> seq 0 n).
Fixpoint be_val (l : list Z) : Z :=
  match l with [] => 0 | b :: l => b * 256 ^ Z.of_nat (length l) + be_val l end.
Definition As16 (a : Addr) : list Z :=
  be_bytes 16 (match a with AddrZero => 0 | Addr4 n => v4mapped + n | Addr6 n => n end).
(** [AddrFromSlice] of sixteen bytes, and [Unmap]. *)
Definition AddrFrom16 (raw : list Z) : Addr := Addr6 (be_val raw).
Definition Unmap (a : Addr) : Addr :=
  match a with
  | Addr6 n => if n / 2 ^ 32 =? 65535 then Addr4 (n mod 2 ^ 32) else a
  | _ => a
  end.

(** ** Prefixes *)
Record Prefix : Type := mkPrefix { p_addr : Addr; p_bits : Z }.

#[export] Instance Prefix_eq_dec : EqDecision Prefix.
Proof. solve_decision. Defined.
#[export] Instance Prefix_countable : Countable Prefix.
Proof.
  refine (inj_countable' (λ p, (p_addr p, p_bits p)) (λ q, mkPrefix q.1 q.2) _).
  by intros [].
Defined.

Definition PrefixZero : Prefix := mkPrefix AddrZero (-1).
Definition PrefixFrom (a : Addr) (bits : Z) : Prefix :=
  mkPrefix a (if Addr_IsValid a && (0 <=? bits) && (bits <=? BitLen a) then bits else -1).
Definition IsValid (p : Prefix) : bool := 0 <=? p_bits p.
(** The number of host bits. *)
Definition host_bits (p : Prefix) : Z := BitLen (p_addr p) - p_bits p.
Definition Masked (p : Prefix) : Prefix :=
  if IsValid p
  then mkPrefix (with_num (p_addr p)
                   (num (p_addr p) / 2 ^ host_bits p * 2 ^ host_bits p)) (p_bits p)
  else PrefixZero.
Definition ContainsAddr (p : Prefix) (a : Addr) : bool :=
  IsValid p && Addr_IsValid a && (BitLen (p_addr p) =? BitLen a) &&
  (num (p_addr p) / 2 ^ host_bits p =? num a / 2 ^ host_bits p).
Definition Overlaps (p q : Prefix) : bool :=
  IsValid p && IsValid q &&
  (bool_decide (p = q) ||
   (Bool.eqb (Is4 (p_addr p)) (Is4 (p_addr q)) &&
    let h := BitLen (p_addr p) - Z.min (p_bits p) (p_bits q) in
    (num (p_addr p) / 2 ^ h =? num (p_addr q) / 2 ^ h))).

Definition prefix_wf (p : Prefix) : Prop :=
  addr_wf (p_addr p) ∧ (-1 ≤ p_bits p ≤ BitLen (p_addr p)) ∧
  (p_addr p = AddrZero → p_bits p = -1).
(** A well formed prefix that is valid. *)
Definition prefix_ok (p : Prefix) : Prop :=
  addr_wf (p_addr p) ∧ 0 ≤ p_bits p ≤ BitLen (p_addr p) ∧ p_addr p ≠ AddrZero.

Lemma prefix_ok_valid p : prefix_ok p → IsValid p = true.
Proof. intros (?&?&?). apply Z.leb_le. lia. Qed.
Lemma prefix_wf_ok p : prefix_wf p → IsValid p = true → prefix_ok p.
Proof.
  intros (?&?&Hz) Hv%Z.leb_le. split_and!; try done; [lia|].
  intros Hq%Hz. lia.
Qed.

(** First and last address of a prefix, as numbers. *)
Definition lo (p : Prefix) : Z := num (p_addr p) / 2 ^ host_bits p * 2 ^ host_bits p.
Definition hi (p : Prefix) : Z := lo p + 2 ^ host_bits p - 1.

Section Prefix.
Context (p : Prefix) (Hp : prefix_ok p).

Lemma BitLen_pos : 0 < BitLen (p_addr p).
Proof. destruct Hp as (_&_&H). by destruct (p_addr p). Qed.
Lemma host_bits_range : 0 ≤ host_bits p ≤ BitLen (p_addr p).
Proof. destruct Hp as (_&?&_). unfold host_bits. lia. Qed.
Lemma host_pow_pos : 0 < 2 ^ host_bits p.
Proof. apply Z.pow_pos_nonneg; pose proof host_bits_range; lia. Qed.
Lemma lo_hi_range : 0 ≤ lo p ∧ lo p ≤ hi p ∧ hi p < 2 ^ BitLen (p_addr p).
Proof.
  pose proof host_pow_pos as Hh. pose proof host_bits_range as Hr.
  destruct Hp as (Ha&Hb0&_). unfold addr_wf in Ha. unfold hi, lo.
  set (h := 2 ^ host_bits p) in *. set (n := num (p_addr p)) in *.
  assert (2 ^ BitLen (p_addr p) = 2 ^ p_bits p * h) as Hb.
  { unfold h. rewrite <-Z.pow_add_r by lia. f_equal. unfold host_bits. lia. }
  assert (0 ≤ n / h < 2 ^ p_bits p).
  { split; [apply Z.div_pos; lia|]. apply Z.div_lt_upper_bound; [lia|]. lia. }
  nia.
Qed.
Lemma ContainsAddr_iff a :
  ContainsAddr p a = true ↔
  a = with_num (p_addr p) (num a) ∧ lo p ≤ num a ≤ hi p.
Proof.
  unfold ContainsAddr, hi, lo. rewrite prefix_ok_valid by done.
  destruct Hp as (_&_&Hz). pose proof host_pow_pos as Hh.
  set (h := 2 ^ host_bits p) in *. set (n := num (p_addr p)) in *.
  rewrite !andb_true_iff, Z.eqb_eq, Z.eqb_eq.
  assert (n / h = num a / h ↔ n / h * h ≤ num a ≤ n / h * h + h - 1) as ->.
  { pose proof (Z.div_mod (num a) h ltac:(lia)).
    pose proof (Z.mod_pos_bound (num a) h Hh).
    split; [intros ->; nia|]. intros ?.
    apply Z.div_unique with (num a - n / h * h); lia. }
  destruct (p_addr p), a; simpl; intuition congruence.
Qed.
Lemma Masked_addr : p_addr (Masked p) = with_num (p_addr p) (lo p).
Proof. unfold Masked. by rewrite prefix_ok_valid. Qed.
Lemma Masked_bits : p_bits (Masked p) = p_bits p.
Proof. unfold Masked. by rewrite prefix_ok_valid. Qed.
Lemma with_num_inj n m : with_num (p_addr p) n = with_num (p_addr p) m → n = m.
Proof. destruct Hp as (_&_&Hz). destruct (p_addr p); simpl; congruence. Qed.
Lemma num_with_num n : num (with_num (p_addr p) n) = n.
Proof. destruct Hp as (_&_&Hz). by destruct (p_addr p). Qed.
Lemma BitLen_with_num n : BitLen (with_num (p_addr p) n) = BitLen (p_addr p).
Proof. by destruct (p_addr p). Qed.
Lemma with_num_with_num n m : with_num (with_num (p_addr p) n) m = with_num (p_addr p) m.
Proof. by destruct (p_addr p). Qed.
Lemma with_num_ne n : with_num (p_addr p) n ≠ AddrZero.
Proof. destruct Hp as (_&_&Hz). by destruct (p_addr p). Qed.
Lemma Next_with_num n :
  0 ≤ n < 2 ^ BitLen (p_addr p) →
  Next (with_num (p_addr p) n) =
    if n + 1 =? 2 ^ BitLen (p_addr p) then AddrZero else with_num (p_addr p) (n + 1).
Proof. destruct Hp as (_&_&Hz). by destruct (p_addr p). Qed.
Lemma Prev_with_num n :
  Prev (with_num (p_addr p) n) = if n =? 0 then AddrZero else with_num (p_addr p) (n - 1).
Proof. destruct Hp as (_&_&Hz). by destruct (p_addr p). Qed.
Lemma ContainsAddr_with_num n :
  ContainsAddr p (with_num (p_addr p) n) = true ↔ lo p ≤ n ≤ hi p.
Proof. rewrite ContainsAddr_iff, num_with_num. naive_solver. Qed.
Lemma ContainsAddr_zero : ContainsAddr p AddrZero = false.
Proof. unfold ContainsAddr. by rewrite andb_false_r. Qed.
End Prefix.

(** Blocks of two power of two sizes either nest or are disjoint. *)
Lemma block_nest n m d k :
  0 < d → 0 < k →
  n / (d * k) = m / (d * k) ↔
  n / (d * k) * (d * k) ≤ m / d * d + d - 1 ∧
  m / d * d ≤ n / (d * k) * (d * k) + d * k - 1.
Proof.
  intros Hd Hk. rewrite <-(Z.div_div m d k) by lia.
  set (c := m / d). set (a := n / (d * k)).
  assert (a = c / k ↔ a * k ≤ c < (a + 1) * k) as ->.
  { pose proof (Z.div_mod c k ltac:(lia)). pose proof (Z.mod_pos_bound c k Hk).
    split; [intros ->; nia|].
    intros. apply Z.div_unique with (c - a * k); lia. }
  split; intros [? ?]; split; nia.
Qed.

(** Overlapping prefixes are those whose ranges meet. *)
Lemma Overlaps_ordered p q :
  prefix_ok p → prefix_ok q → BitLen (p_addr p) = BitLen (p_addr q) → p_bits p ≤ p_bits q →
  num (p_addr p) / 2 ^ host_bits p = num (p_addr q) / 2 ^ host_bits p ↔
  lo p ≤ hi q ∧ lo q ≤ hi p.
Proof.
  intros Hp Hq Hl Hb. unfold hi, lo.
  pose proof (host_pow_pos p Hp). pose proof (host_pow_pos q Hq).
  assert (2 ^ host_bits p = 2 ^ host_bits q * 2 ^ (host_bits p - host_bits q)) as He.
  { pose proof (host_bits_range q Hq). rewrite <-Z.pow_add_r; [f_equal; lia|lia|].
    unfold host_bits. lia. }
  rewrite He in *. assert (0 < 2 ^ (host_bits p - host_bits q)) by nia.
  rewrite block_nest by lia. split; intros [? ?]; split; lia.
Qed.
Lemma BitLen_Is4 p q :
  prefix_ok p → prefix_ok q → Is4 (p_addr p) = Is4 (p_addr q) ↔ BitLen (p_addr p) = BitLen (p_addr q).
Proof.
  intros (_&_&Hp) (_&_&Hq). by destruct (p_addr p), (p_addr q).
Qed.
Lemma Overlaps_intervals p q :
  prefix_ok p → prefix_ok q →
  Overlaps p q = true ↔
  BitLen (p_addr p) = BitLen (p_addr q) ∧ lo p ≤ hi q ∧ lo q ≤ hi p.
Proof.
  intros Hp Hq. unfold Overlaps. rewrite !prefix_ok_valid by done. simpl.
  rewrite orb_true_iff, bool_decide_eq_true, andb_true_iff, Bool.eqb_true_iff, Z.eqb_eq.
  rewrite BitLen_Is4 by done.
  assert (BitLen (p_addr p) = BitLen (p_addr q) →
    num (p_addr p) / 2 ^ (BitLen (p_addr p) - Z.min (p_bits p) (p_bits q)) =
    num (p_addr q) / 2 ^ (BitLen (p_addr p) - Z.min (p_bits p) (p_bits q)) ↔
    lo p ≤ hi q ∧ lo q ≤ hi p) as Hb.
  { intros Hl. destruct (Z.le_ge_cases (p_bits p) (p_bits q)).
    - rewrite Z.min_l by done. by apply Overlaps_ordered.
    - rewrite Z.min_r, Hl by done. pose proof (Overlaps_ordered q p Hq Hp).
      unfold host_bits in *. naive_solver. }
  split; [|naive_solver].
  intros [<-|?]; [|naive_solver]. pose proof (lo_hi_range p Hp). lia.
Qed.

(** ** Bytes of an address *)
Lemma length_be_bytes n z : length (be_bytes n z) = n.
Proof. unfold be_bytes. by rewrite length_reverse, length_fmap, length_seq. Qed.
Lemma be_bytes_S n z : be_bytes (S n) z = (z / 256 ^ Z.of_nat n mod 256) :: be_bytes n z.
Proof. unfold be_bytes. by rewrite seq_S, fmap_app, reverse_app. Qed.
Lemma be_bytes_is_byte n z : Forall is_byte (be_bytes n z).
Proof.
  induction n as [|n IH]; [constructor|]. rewrite be_bytes_S. constructor; [|done].
  apply Z.mod_pos_bound. lia.
Qed.
Lemma be_val_bytes n z : be_val (be_bytes n z) = z mod 256 ^ Z.of_nat n.
Proof.
  induction n as [|n IH]; [by rewrite Z.mod_1_r|].
  rewrite be_bytes_S. cbn [be_val]. rewrite IH, length_be_bytes, Nat2Z.inj_succ, Z.pow_succ_r by lia.
  rewrite (Z.mul_comm 256), Z.rem_mul_r; [lia|lia|lia].
Qed.
Lemma be_val_range l : Forall is_byte l → 0 ≤ be_val l < 256 ^ Z.of_nat (length l).
Proof.
  induction 1 as [|b l [Hb1 Hb2] Hl IH]; [done|]. cbn [be_val length].
  rewrite Nat2Z.inj_succ, Z.pow_succ_r by lia. nia.
Qed.
Lemma be_val_insert l i b b' :
  l !! i = Some b →
  be_val (<[i := b']> l) = be_val l + (b' - b) * 256 ^ Z.of_nat (length l - 1 - i).
Proof.
  revert i. induction l as [|x l IH]; intros [|i] H; simplify_eq/=.
  - replace (length l - 0 - 0)%nat with (length l) by lia. lia.
  - rewrite (IH i H), length_insert. apply lookup_lt_Some in H.
    replace (length l - 0 - S i)%nat with (length l - 1 - i)%nat by lia. lia.
Qed.
Lemma be_bytes_val l : Forall is_byte l → be_bytes (length l) (be_val l) = l.
Proof.
  induction 1 as [|b l [Hb1 Hb2] Hl IH]; [done|]. cbn [length be_val].
  pose proof (be_val_range l Hl) as Hr. rewrite be_bytes_S. f_equal.
  - rewrite Z.div_add_l, (Z.div_small (be_val l)), Z.add_0_r by lia. by apply Z.mod_small.
  - etrans; [|exact IH]. unfold be_bytes. f_equal. apply list_fmap_ext. intros i x Hx.
    apply lookup_seq in Hx as [-> Hx]. simpl.
    replace (Z.of_nat (length l)) with (Z.of_nat (length l - i - 1) + 1 + Z.of_nat i) by lia.
    rewrite !Z.pow_add_r, Z.pow_1_r by lia.
    replace (b * (256 ^ Z.of_nat (length l - i - 1) * 256 * 256 ^ Z.of_nat i) + be_val l)
      with (b * 256 ^ Z.of_nat (length l - i - 1) * 256 * 256 ^ Z.of_nat i + be_val l) by lia.
    rewrite Z.div_add_l by (apply Z.pow_nonzero; lia).
    by rewrite Z.add_comm, Z.mod_add by lia.
Qed.
Lemma As16_val a :
  addr_wf a → be_val (As16 a) = match a with Addr4 n => v4mapped + n | _ => num a end.
Proof.
  unfold addr_wf, As16, v4mapped. rewrite be_val_bytes.
  destruct a; simpl BitLen; simpl num; intros; apply Z.mod_small; lia.
Qed.
Lemma Unmap_AddrFrom16 n :
  0 ≤ n < 2 ^ 32 → Unmap (Addr6 (v4mapped + n)) = Addr4 n.
Proof.
  intros Hn. unfold Unmap, v4mapped.
  rewrite Z.div_add_l, (Z.div_small n) by lia. simpl.
  by rewrite Z.add_comm, Z.mod_add, Z.mod_small by lia.
Qed.

(** ** Text forms *)
Definition hex16 (z : Z) : string :=
  let ds := (λ i, z / 16 ^ i mod 16) <$> [3; 2; 1; 0] in
  l2s (hex_digit <$> match drop_while (λ d, d =? 0) ds with [] => [0] | l => l end).
Definition String4 (n : Z) : string := Join (Itoa <$> be_bytes 4 n) ".".
(** The eight groups of an IPv6 address. *)
Definition groups (n : Z) : list Z := (λ i, n / 65536 ^ i mod 65536) <$> [7; 6; 5; 4; 3; 2; 1; 0].
(** The longest run of at least two zero groups, the first of equals: start and
    length. *)
Fixpoint zero_run (l : list Z) : nat :=
  match l with 0 :: l => S (zero_run l) | _ => 0%nat end.
Fixpoint best_run (i : nat) (best : nat * nat) (l : list Z) : nat * nat :=
  match l with
  | [] => best
  | _ :: l' =>
      let k := zero_run l in
      best_run (S i) (if (2 <=? k)%nat && (snd best <? k)%nat then (i, k) else best) l'
  end.
Definition String6 (n : Z) : string :=
  if n / 2 ^ 32 =? 65535 then "::ffff:" +:+ String4 (n mod 2 ^ 32) else
  let g := groups n in
  let '(i, k) := best_run 0 (0%nat, 0%nat) g in
  if (k =? 0)%nat then Join (hex16 <$> g) ":"
  else Join (hex16 <$> take i g) ":" +:+ "::" +:+ Join (hex16 <$> drop (i + k) g) ":".
(** [Addr.String] and [Prefix.String]. *)
Definition Addr_String (a : Addr) : string :=
  match a with AddrZero => "invalid IP" | Addr4 n => String4 n | Addr6 n => String6 n end.
Definition Prefix_String (p : Prefix) : string :=
  if IsValid p then Addr_String (p_addr p) +:+ "/" +:+ Itoa (p_bits p) else "invalid Prefix".

(** One octet: at most three digits, no leading zero, at most 255. *)
Definition parse_octet (s : string) : option Z :=
  match s2l s, decimal s with
  | "0"%char :: _ :: _, _ => None
  | _, Some n => if (len s <=? 3)%nat && (n <=? 255) then Some n else None
  | _, None => None
  end.
Definition parseIPv4Fields (s : string) : option Z :=
  match mapM parse_octet (Split s "."%char) with
  | Some [a; b; c; d] => Some (be_val [a; b; c; d])
  | _ => None
  end.

(** The leading hexadecimal digits, at most four, with their value. *)
Fixpoint hex_group (fuel : nat) (off : nat) (acc : Z) (l : list ascii) : option (nat * Z * list ascii) :=
  match fuel, l with
  | S fuel, c :: l' =>
      match hex_value c with
      | Some d => if (3 <? off)%nat then None else hex_group fuel (S off) (acc * 16 + d) l'
      | None => Some (off, acc, l)
      end
  | _, _ => Some (off, acc, l)
  end.

(** The main loop of [parseIPv6].  [rip] holds the bytes read so far, last
    first, [ell] the byte position of the ellipsis; the answer is what was read
    and what is left of the input. *)
Fixpoint parseIPv6_loop (fuel : nat) (rip : list Z) (ell : option nat) (s : list ascii)
    : option (list Z * option nat * list ascii) :=
  match fuel with
  | O => Some (rip, ell, s)
  | S fuel =>
    match hex_group 5 0 0 s with
    | None => None
    | Some (off, acc, rest) =>
      if (off =? 0)%nat then None else
      match rest with
      | "."%char :: _ =>
          if (match ell with None => negb (length rip =? 12)%nat | Some _ => false end)
             || (16 <? length rip + 4)%nat then None
          else match parseIPv4Fields (l2s s) with
               | Some v => Some (reverse (be_bytes 4 v) ++ rip, ell, [])
               | None => None
               end
      | _ =>
          let rip := acc mod 256 :: acc / 256 :: rip in
          match rest with
          | [] => Some (rip, ell, [])
          | [":"%char] => None
          | ":"%char :: ":"%char :: s =>
              match ell with
              | Some _ => None
              | None => match s with
                        | [] => Some (rip, Some (length rip), [])
                        | _ => parseIPv6_loop fuel rip (Some (length rip)) s
                        end
              end
          | ":"%char :: s => parseIPv6_loop fuel rip ell s
          | _ => None
          end
      end
    end
  end.
Definition parseIPv6 (s : list ascii) : option Addr :=
  let '(ell, s, unspecified) :=
    match s with
    | ":"%char :: ":"%char :: [] => (Some 0%nat, [], true)
    | ":"%char :: ":"%char :: s => (Some 0%nat, s, false)
    | _ => (None, s, false)
    end in
  if unspecified : bool then Some (Addr6 0) else
  match parseIPv6_loop 8 [] ell s with
  | Some (rip, ell, []) =>
      let ip := reverse rip in
      if (length ip <? 16)%nat then
        match ell with
        | None => None
        | Some e => Some (Addr6 (be_val (take e ip ++ replicate (16 - length ip) 0 ++ drop e ip)))
        end
      else match ell with Some _ => None | None => Some (Addr6 (be_val ip)) end
  | _ => None
  end.

(** [netip.ParseAddr]: the address and its zone. *)
Definition ParseAddr (s : string) : option (Addr * string) :=
  match find_first (λ c, bool_decide (c ∈ ["."; ":"; "%"]%char)) (s2l s) with
  | Some "."%char => (λ n, (Addr4 n, "")) <$> parseIPv4Fields s
  | Some ":"%char =>
      match Cut s "%" with
      | None => (λ a, (a, "")) <$> parseIPv6 (s2l s)
      | Some (a, zone) => if decide (zone = "") then None
                          else (λ a, (a, zone)) <$> parseIPv6 (s2l a)
      end
  | _ => None
  end.
Definition cut_last (s : string) (c : ascii) : option (string * string) :=
  match list_find (λ x, x = c) (rev (s2l s)) with
  | Some (i, _) => Some (l2s (take (len s - 1 - i) (s2l s)), l2s (drop (len s - i) (s2l s)))
  | None => None
  end.
(** [netip.ParsePrefix]. *)
Definition ParsePrefix (s : string) : option Prefix :=
  match cut_last s "/"%char with
  | None => None
  | Some (ip, bits) =>
    match ParseAddr ip with
    | Some (a, "") =>
      match s2l bits with
      | c :: _ :: _ => if (code c <? 49) || (57 <? code c) then None
                       else match Atoi bits with
                            | Some n => if (n <? 0) || (BitLen a <? n) then None else Some (PrefixFrom a n)
                            | None => None end
      | _ => match Atoi bits with
             | Some n => if (n <? 0) || (BitLen a <? n) then None else Some (PrefixFrom a n)
             | None => None end
      end
    | _ => None
    end
  end.

Example parse_v4 : ParsePrefix "198.19.0.0/16" = Some (mkPrefix (Addr4 3323133952) 16).
Proof. reflexivity. Qed.
Example parse_v6 : (λ p, Prefix_String p) <$> ParsePrefix "fd12:0:0:1::5/64" = Some "fd12:0:0:1::5/64".
Proof. reflexivity. Qed.
Example parse_v4in6 : (λ a, Addr_String a.1) <$> ParseAddr "::ffff:10.0.0.1" = Some "::ffff:10.0.0.1".
Proof. reflexivity. Qed.
Example parse_bad : ParsePrefix "10.0.0.01/8" = None ∧ ParseAddr "1::2::3" = None
  ∧ ParsePrefix "10.0.0.0/33" = None ∧ ParsePrefix "10.0.0.0/08" = None.
Proof. repeat split; reflexivity. Qed.

(** ** What the parsers return is well formed *)

Lemma hex_value_range c d : hex_value c = Some d → 0 ≤ d < 16.
Proof. unfold hex_value. intros. repeat case_match; simplify_eq; lia. Qed.

Lemma hex_group_range fuel off acc l off' acc' rest :
  hex_group fuel off acc l = Some (off', acc', rest) → (off ≤ 4)%nat →
  0 ≤ acc < 16 ^ Z.of_nat off → 0 ≤ acc' < 65536.
Proof.
  revert off acc l. induction fuel as [|fuel IH]; intros off acc l; simpl.
  - intros [= _ <- _] ??. assert (16 ^ Z.of_nat off ≤ 16 ^ 4) by (apply Z.pow_le_mono_r; lia). lia.
  - intros H Ho Ha. assert (16 ^ Z.of_nat off ≤ 16 ^ 4) by (apply Z.pow_le_mono_r; lia).
    destruct l as [|c l]; simplify_eq; [lia|]. destruct (hex_value c) eqn:Hc; simplify_eq; [|lia].
    destruct (3 <? off)%nat eqn:H3; [done|]. apply Nat.ltb_ge in H3.
    apply hex_value_range in Hc. eapply IH; [done|lia|]. rewrite Nat2Z.inj_succ, Z.pow_succ_r by lia. lia.
Qed.

Lemma decimal_nonneg s n : decimal s = Some n → 0 ≤ n.
Proof. unfold decimal. destruct (s2l s); [done|]. by apply digits_go_nonneg. Qed.
Lemma parse_octet_range s n : parse_octet s = Some n → is_byte n.
Proof.
  unfold parse_octet, is_byte. intros H. pose proof (decimal_nonneg s) as Hd.
  destruct (decimal s) as [m|]; [specialize (Hd m eq_refl)|by repeat case_match].
  assert ((len s <=? 3)%nat && (m <=? 255) = true ∧ n = m) as [[_ ?%Z.leb_le]%andb_true_iff ->].
  { destruct ((len s <=? 3)%nat && (m <=? 255)); repeat case_match; by simplify_eq. }
  lia.
Qed.
Lemma parseIPv4Fields_range s n : parseIPv4Fields s = Some n → 0 ≤ n < 2 ^ 32.
Proof.
  unfold parseIPv4Fields. destruct (mapM parse_octet _) as [l|] eqn:Hm; [|done].
  assert (Forall is_byte l) as Hl.
  { apply mapM_Some in Hm. induction Hm; constructor; eauto using parse_octet_range. }
  destruct l as [|a [|b [|c [|d [|]]]]]; try done. intros [= <-].
  exact (be_val_range [a; b; c; d] Hl).
Qed.

(** At most sixteen bytes have been read. *)
Lemma parseIPv6_loop_bytes fuel rip ell s rip' ell' s' :
  parseIPv6_loop fuel rip ell s = Some (rip', ell', s') →
  Forall is_byte rip → (length rip + 2 * fuel ≤ 16)%nat → Forall is_byte rip' ∧ (length rip' ≤ 16)%nat.
Proof.
  revert rip ell s. induction fuel as [|fuel IH]; intros rip ell s; cbn [parseIPv6_loop].
  { intros [= <- <- <-]. split; [done|lia]. }
  destruct (hex_group 5 0 0 s) as [[[off acc] rest]|] eqn:Hg; [|done].
  apply hex_group_range in Hg; [|lia|lia]. destruct (off =? 0)%nat; [done|].
  intros H Hrip Hlen.
  assert (Forall is_byte (acc mod 256 :: acc / 256 :: rip)) as Hrip2.
  { repeat constructor; [..|done]; unfold is_byte; Z.div_mod_to_equations; lia. }
  assert (∀ v, (16 <? length rip + 4)%nat = false →
    Forall is_byte (reverse (be_bytes 4 v) ++ rip) ∧
    (length (reverse (be_bytes 4 v) ++ rip) ≤ 16)%nat) as H4.
  { intros v Hl%Nat.ltb_ge. rewrite length_app, length_reverse, length_be_bytes. split; [|lia].
    apply Forall_app. split; [apply Forall_reverse, be_bytes_is_byte|done]. }
  repeat case_match; simplify_eq;
    match goal with
    | E : parseIPv6_loop _ _ _ _ = Some _ |- _ => eapply IH; [exact E|done|simpl; lia]
    | E : _ || _ = false |- _ => apply orb_false_iff in E as [_ E]; by apply H4
    | _ => split; [done|simpl; lia]
    end.
Qed.
Lemma parseIPv6_wf s a : parseIPv6 s = Some a → addr_wf a ∧ a ≠ AddrZero.
Proof.
  unfold parseIPv6. intros H.
  destruct (match s with ":"%char :: ":"%char :: [] => _ | _ => _ end) as [[ell s0] []].
  { by simplify_eq. }
  destruct (parseIPv6_loop 8 [] ell s0) as [[[rip e] [|]]|] eqn:Hl; [|done..].
  apply parseIPv6_loop_bytes in Hl as [Hb Hlen]; [|constructor|done].
  apply Forall_reverse in Hb. rewrite <-length_reverse in Hlen.
  assert (∀ l, Forall is_byte l → length l = 16%nat → addr_wf (Addr6 (be_val l))) as Hwf.
  { intros l Hby Hl. pose proof (be_val_range l Hby) as Hr. by rewrite Hl in Hr. }
  destruct (Nat.ltb_spec (length (reverse rip)) 16).
  - destruct e as [e|]; [|done]. simplify_eq. split; [apply Hwf|done].
    + rewrite !Forall_app. split_and!; [by apply Forall_take| |by apply Forall_drop].
      apply Forall_replicate. done.
    + rewrite !length_app, length_take, length_drop, length_replicate. lia.
  - destruct e; [done|]. simplify_eq. split; [apply Hwf; [done|lia]|done].
Qed.
Lemma ParseAddr_wf s a z : ParseAddr s = Some (a, z) → addr_wf a ∧ a ≠ AddrZero.
Proof.
  assert (∀ s', (λ n, (Addr4 n, "")) <$> parseIPv4Fields s' = Some (a, z) →
    addr_wf a ∧ a ≠ AddrZero) as H4.
  { intros s' (n & Hn%parseIPv4Fields_range & ?)%fmap_Some. by simplify_eq. }
  assert (∀ s' z', (λ a, (a, z')) <$> parseIPv6 s' = Some (a, z) →
    addr_wf a ∧ a ≠ AddrZero) as H6.
  { intros s' z' (n & Hn%parseIPv6_wf & ?)%fmap_Some. by simplify_eq. }
  unfold ParseAddr. intros H. repeat first [done | by eapply H4 | by eapply H6 | case_match].
Qed.
Lemma ParsePrefix_ok s p : ParsePrefix s = Some p → prefix_ok p.
Proof.
  unfold ParsePrefix. destruct (cut_last s _) as [[ip bits]|]; [|done].
  destruct (ParseAddr ip) as [[a z]|] eqn:Ha; [|done]. apply ParseAddr_wf in Ha as [Ha Hz].
  intros H.
  assert (∃ n, (n <? 0) || (BitLen a <? n) = false ∧ p = PrefixFrom a n)
    as (n & [Hn0%Z.ltb_ge Hn1%Z.ltb_ge]%orb_false_iff & ->).
  { repeat case_match; simplify_eq; eauto. }
  unfold PrefixFrom. rewrite (proj2 (Z.leb_le 0 n)), (proj2 (Z.leb_le n _)) by done.
  assert (Addr_IsValid a = true) as -> by (by destruct a). by split_and!.
Qed.
