(* ===== verification/GoCodec.v ===== *)
(** * Go encodings and time

    The part of Go's [encoding/base64], [net/url], [strings] and [time] the
    authentication code uses: the two unpadded base64 alphabets, query
    escaping, case mapping, and RFC 3339 timestamps.  A point in time is the
    number of nanoseconds since the zero time, the first instant of year 1
    UTC; a difference saturates at the bounds of a 64 bit integer. *)

From Stdlib Require Import Ascii.
From S2P Require Export GoStrings.

Open Scope Z_scope.

(** ** Base64, unpadded *)

(** The digit of a value: [base64.RawURLEncoding] when [url], else
    [base64.RawStdEncoding]. *)
Definition b64_digit (url : bool) (d : Z) : ascii :=
  chr (if d <? 26 then 65 + d
       else if d <? 52 then 71 + d
       else if d <? 62 then d - 4
       else if d =? 62 then (if url then 45 else 43) else (if url then 95 else 47)).
Definition b64_value (url : bool) (c : ascii) : option Z :=
  let r := code c in
  if (65 <=? r) && (r <=? 90) then Some (r - 65)
  else if (97 <=? r) && (r <=? 122) then Some (r - 71)
  else if (48 <=? r) && (r <=? 57) then Some (r + 4)
  else if r =? (if url then 45 else 43) then Some 62
  else if r =? (if url then 95 else 47) then Some 63
  else None.

(** [EncodeToString]: three bytes make four digits. *)
Fixpoint b64_digits (l : list Z) : list Z :=
  match l with
  | a :: b :: c :: l =>
      a / 4 :: a mod 4 * 16 + b / 16 :: b mod 16 * 4 + c / 64 :: c mod 64 :: b64_digits l
  | [a; b] => [a / 4; a mod 4 * 16 + b / 16; b mod 16 * 4]
  | [a] => [a / 4; a mod 4 * 16]
  | [] => []
  end.
Definition EncodeB64 (url : bool) (l : list Z) : string := l2s (b64_digit url <$> b64_digits l).

(** [DecodeString]: line breaks are skipped, every other character outside
    the alphabet is an error, and so is a lone last digit.  The unused bits of
    the last digit are not looked at. *)
Fixpoint b64_bytes (l : list Z) : option (list Z) :=
  match l with
  | a :: b :: c :: d :: l =>
      (λ rest, a * 4 + b / 16 :: b mod 16 * 16 + c / 4 :: c mod 4 * 64 + d :: rest) <$> b64_bytes l
  | [a; b; c] => Some [a * 4 + b / 16; b mod 16 * 16 + c / 4]
  | [a; b] => Some [a * 4 + b / 16]
  | [_] => None
  | [] => Some []
  end.
Definition is_break (c : ascii) : bool := (code c =? 10) || (code c =? 13).
Definition DecodeB64 (url : bool) (s : string) : option (list Z) :=
  mapM (b64_value url) (filter (λ c, is_break c = false) (s2l s)) ≫= b64_bytes.

(** ** Query escaping and case *)

Definition upper_hex (d : Z) : ascii := chr (if d <? 10 then 48 + d else 55 + d).
Definition unreserved (c : ascii) : bool :=
  let r := code c in
  ((65 <=? r) && (r <=? 90)) || ((97 <=? r) && (r <=? 122)) || ((48 <=? r) && (r <=? 57))
  || bool_decide (r ∈ [45; 95; 46; 126]).
Definition escape_byte (c : ascii) : list ascii :=
  if unreserved c then [c]
  else if code c =? 32 then ["+"%char]
  else ["%"%char; upper_hex (code c / 16); upper_hex (code c mod 16)].
(** [url.QueryEscape]. *)
Definition QueryEscape (s : string) : string := l2s (s2l s ≫= escape_byte).

(** [strings.ToUpper]; like [lowerRune], with the non-ASCII letters whose
    upper case is an ASCII letter. *)
Definition upperRune (r : Z) : Z :=
  if (97 <=? r) && (r <=? 122) then r - 32
  else if r =? 305 then 73 else if r =? 383 then 83 else r.
Definition ToUpper (s : string) : string := string_of_runes (upperRune <$> runes s).

(** [strings.EqualFold] of strings of one length in bytes, one of them ASCII:
    the other can only match byte for byte. *)
Definition lower_byte (c : ascii) : Z :=
  if (65 <=? code c) && (code c <=? 90) then code c + 32 else code c.
Definition EqualFold (s t : string) : bool :=
  bool_decide (lower_byte <$> s2l s = lower_byte <$> s2l t).

(** ** Time *)

Definition Second : Z := 1000000000.
Definition Minute : Z := 60 * Second.
Definition Day : Z := 86400.

(** [t.Sub(u)]. *)
Definition TimeSub (t u : Z) : Z := Z.max (- 2 ^ 63) (Z.min (2 ^ 63 - 1) (t - u)).

Definition leap (y : Z) : bool := (y mod 4 =? 0) && (negb (y mod 100 =? 0) || (y mod 400 =? 0)).
Definition month_days (l : bool) (m : Z) : Z :=
  if m =? 2 then (if l then 29 else 28)
  else if (m =? 4) || (m =? 6) || (m =? 9) || (m =? 11) then 30 else 31.
Definition days_in (m y : Z) : Z := month_days (leap y) m.
Definition days_before_year (y : Z) : Z := 365 * (y - 1) + (y - 1) / 4 - (y - 1) / 100 + (y - 1) / 400.
Definition days_before_month (l : bool) (m : Z) : Z :=
  nth (Z.to_nat (m - 1)) [0; 31; 59; 90; 120; 151; 181; 212; 243; 273; 304; 334] 0
  + (if (2 <? m) && l then 1 else 0).
(** The days from the zero time to a date. *)
Definition days_of_date (y m d : Z) : Z := days_before_year y + days_before_month (leap y) m + (d - 1).

(** And back: the cycles of 400, 100, 4 and 1 years, then the month. *)
Fixpoint month_of (fuel : nat) (l : bool) (m yday : Z) : Z * Z :=
  match fuel with
  | O => (m, yday + 1)
  | S fuel => if yday <? month_days l m then (m, yday + 1) else month_of fuel l (m + 1) (yday - month_days l m)
  end.
Definition date_of_days (d : Z) : Z * Z * Z :=
  let n400 := d / 146097 in let d := d mod 146097 in
  let n100 := d / 36524 - d / 36524 / 4 in let d := d - 36524 * n100 in
  let n4 := d / 1461 in let d := d mod 1461 in
  let n1 := d / 365 - d / 365 / 4 in let d := d - 365 * n1 in
  let y := 400 * n400 + 100 * n100 + 4 * n4 + n1 + 1 in
  let md := month_of 11 (leap y) 1 d in (y, md.1, md.2).

Definition pad2 (n : Z) : list ascii := [chr (48 + n / 10); chr (48 + n mod 10)].
Definition pad4 (n : Z) : list ascii := pad2 (n / 100) ++ pad2 (n mod 100).
(** [t.UTC().Format(time.RFC3339)], for the years of four digits. *)
Definition FormatRFC3339 (t : Z) : string :=
  let s := t / Second in
  let ymd := date_of_days (s / Day) in
  let r := s mod Day in
  l2s (pad4 ymd.1.1 ++ "-"%char :: pad2 ymd.1.2 ++ "-"%char :: pad2 ymd.2 ++ "T"%char ::
       pad2 (r / 3600) ++ ":"%char :: pad2 (r / 60 mod 60) ++ ":"%char :: pad2 (r mod 60) ++ ["Z"%char]).

(** [time.Parse(time.RFC3339, s)]: a number of one or two digits, exactly two
    when [fixed]. *)
Definition getnum (fixed : bool) (l : list ascii) : option (Z * list ascii) :=
  match l with
  | c :: l' =>
      match digit c with
      | None => None
      | Some a =>
          match l' with
          | c' :: l'' =>
              match digit c' with
              | Some b => Some (10 * a + b, l'')
              | None => if fixed then None else Some (a, l')
              end
          | [] => if fixed then None else Some (a, l')
          end
      end
  | [] => None
  end.
Definition skip (c : ascii) (l : list ascii) : option (list ascii) :=
  match l with c' :: l => if decide (c = c') then Some l else None | [] => None end.
Definition is_digit (c : ascii) : bool := match digit c with Some _ => true | None => false end.
Fixpoint take_while {A} (p : A → bool) (l : list A) : list A :=
  match l with x :: l => if p x then x :: take_while p l else [] | [] => [] end.
(** A fraction of a second, at most nine digits of it kept. *)
Definition fraction (l : list ascii) : Z * list ascii :=
  match l with
  | c :: c' :: l' =>
      if (code c =? 46) || (code c =? 44) then
        if is_digit c' then
          let ds := take 9 (take_while is_digit (c' :: l')) in
          (default 0 (digits_go 0 ds) * 10 ^ (9 - Z.of_nat (length ds)), drop_while is_digit (c' :: l'))
        else (0, l)
      else (0, l)
  | _ => (0, l)
  end.
(** The zone, in seconds east of UTC. *)
Definition zone (l : list ascii) : option (Z * list ascii) :=
  match l with
  | c :: l' =>
      if decide (c = "Z"%char) then Some (0, l')
      else
        match l' with
        | h1 :: h2 :: c' :: m1 :: m2 :: l'' =>
            if decide (c' = ":"%char) then
              match getnum true [h1; h2], getnum true [m1; m2] with
              | Some (hr, _), Some (mm, _) =>
                  if (24 <? hr) || (60 <? mm) then None
                  else if decide (c = "+"%char) then Some ((hr * 60 + mm) * 60, l'')
                  else if decide (c = "-"%char) then Some (- ((hr * 60 + mm) * 60), l'')
                  else None
              | _, _ => None
              end
            else None
        | _ => None
        end
  | [] => None
  end.
Definition in_range (lo hi n : Z) : bool := (lo <=? n) && (n <=? hi).
Definition year4 (l : list ascii) : option (Z * list ascii) :=
  match l with
  | a :: b :: c :: d :: l' => (λ y, (y, l')) <$> digits_go 0 [a; b; c; d]
  | _ => None
  end.
Definition ParseRFC3339 (s : string) : option Z :=
  '(y, l) ← year4 (s2l s);
  l ← skip "-"%char l;
  '(mo, l) ← getnum true l;
  l ← skip "-"%char l;
  '(d, l) ← getnum true l;
  l ← skip "T"%char l;
  '(h, l) ← getnum false l;
  l ← skip ":"%char l;
  '(mi, l) ← getnum true l;
  l ← skip ":"%char l;
  '(sec, l) ← getnum true l;
  let fr := fraction l in
  '(off, l) ← zone fr.2;
  if bool_decide (l = []) && in_range 1 12 mo && in_range 1 (days_in mo y) d && in_range 0 23 h &&
     in_range 0 59 mi && in_range 0 59 sec
  then Some ((days_of_date y mo d * Day + h * 3600 + mi * 60 + sec - off) * Second + fr.1)
  else None.

Example format_epoch : FormatRFC3339 (62135596800 * Second) = "1970-01-01T00:00:00Z".
Proof. reflexivity. Qed.
Example parse_offset :
  ParseRFC3339 "2024-02-29T12:30:05.25+02:00" = Some ((days_of_date 2024 2 29 * Day + 10 * 3600 + 30 * 60 + 5) * Second + 250000000).
Proof. reflexivity. Qed.
Example parse_bad_day : ParseRFC3339 "2023-02-29T00:00:00Z" = None.
Proof. reflexivity. Qed.
Example b64_hello : EncodeB64 true [104; 101; 108; 108; 111] = "aGVsbG8".
Proof. reflexivity. Qed.

(** ** Finite checks *)

(** A property of the numbers from [d] on, checked one by one. *)
Fixpoint all_from (p : Z → bool) (k : nat) (d : Z) : bool :=
  match k with O => true | S k => p d && all_from p k (d + 1) end.
Lemma all_from_spec p k d : all_from p k d = true → ∀ x, d ≤ x < d + Z.of_nat k → p x = true.
Proof.
  revert d. induction k as [|k IH]; intros d; simpl; [lia|]. intros [Hp Hk]%andb_true_iff x Hx.
  destruct (decide (x = d)) as [->|]; [done|]. apply (IH (d + 1)); [done|lia].
Qed.
Lemma all_below_spec p n : all_from p (Z.to_nat n) 0 = true → ∀ x, 0 ≤ x < n → p x = true.
Proof. intros H x Hx. apply (all_from_spec _ _ _ H). lia. Qed.

(** ** Lemmas: base64 *)

Lemma b64_value_digit url d : 0 ≤ d < 64 → b64_value url (b64_digit url d) = Some d ∧ is_break (b64_digit url d) = false.
Proof.
  intros Hd. eapply (proj1 (bool_decide_dec _)). revert d Hd.
  apply (all_below_spec (λ d, bool_decide (b64_value url (b64_digit url d) = Some d ∧ is_break (b64_digit url d) = false)) 64).
  by destruct url; vm_compute.
Qed.

Lemma triple_ind {A} (P : list A → Prop) :
  P [] → (∀ a, P [a]) → (∀ a b, P [a; b]) → (∀ a b c l, P l → P (a :: b :: c :: l)) → ∀ l, P l.
Proof.
  intros H0 H1 H2 H3 l. assert (P l ∧ (∀ a, P (a :: l)) ∧ (∀ a b, P (a :: b :: l))) as [? _]; [|done].
  induction l as [|x l (Ha & Hb & Hc)]; [done|]. split_and!; auto.
Qed.

Lemma b64_digits_range l : Forall (λ b, 0 ≤ b < 256) l → Forall (λ d, 0 ≤ d < 64) (b64_digits l).
Proof.
  induction l as [|a|a b|a b c l IH] using triple_ind; intros H; simpl; [constructor|..].
  all: repeat (apply Forall_cons in H as [? H]); repeat (apply Forall_cons; split); auto.
  all: Z.div_mod_to_equations; lia.
Qed.

Lemma b64_bytes_digits l : Forall (λ b, 0 ≤ b < 256) l → b64_bytes (b64_digits l) = Some l.
Proof.
  induction l as [|a|a b|a b c l IH] using triple_ind; intros H; simpl; [done|..].
  all: repeat (apply Forall_cons in H as [? H]).
  3: rewrite IH by done; simpl.
  all: f_equal; repeat f_equal; Z.div_mod_to_equations; lia.
Qed.

Lemma DecodeB64_Encode url l : Forall (λ b, 0 ≤ b < 256) l → DecodeB64 url (EncodeB64 url l) = Some l.
Proof.
  intros Hl. unfold DecodeB64, EncodeB64. rewrite s2l_l2s.
  pose proof (b64_digits_range l Hl) as Hd. pose proof (b64_bytes_digits l Hl) as Hb.
  assert (mapM (b64_value url) (filter (λ c, is_break c = false) (b64_digit url <$> b64_digits l))
          = Some (b64_digits l)) as ->; [|done].
  clear Hb Hl. induction Hd as [|d ds Hd Hds IH]; [done|]. rewrite fmap_cons.
  destruct (b64_value_digit url d Hd) as [Hv Hn]. rewrite filter_cons_True by done.
  simpl. by rewrite Hv, IH.
Qed.

Lemma EncodeB64_nonempty url l : l ≠ [] → EncodeB64 url l ≠ "".
Proof. intros Hl H. apply (f_equal s2l) in H. unfold EncodeB64 in H. rewrite s2l_l2s in H. by destruct l as [|? [|? [|]]]. Qed.

Lemma EncodeB64_alphabet url l :
  Forall (λ b, 0 ≤ b < 256) l →
  Forall (λ c, is_Some (b64_value url c)) (s2l (EncodeB64 url l)).
Proof.
  intros Hl%b64_digits_range. unfold EncodeB64. rewrite s2l_l2s, Forall_fmap.
  eapply Forall_impl; [exact Hl|]. intros d Hd. simpl. by rewrite (proj1 (b64_value_digit url d Hd)).
Qed.

Lemma b64_bytes_range l l' :
  Forall (λ d, 0 ≤ d < 64) l → b64_bytes l = Some l' → Forall (λ b, 0 ≤ b < 256) l'.
Proof.
  revert l'. assert (∀ P : list Z → Prop, P [] → (∀ a, P [a]) → (∀ a b, P [a; b]) →
    (∀ a b c, P [a; b; c]) → (∀ a b c d l, P l → P (a :: b :: c :: d :: l)) → ∀ l, P l) as quad_ind.
  { intros P P0 P1 P2 P3 P4 l0.
    assert (P l0 ∧ (∀ a, P (a :: l0)) ∧ (∀ a b, P (a :: b :: l0)) ∧ (∀ a b c, P (a :: b :: c :: l0))) as [? _]; [|done].
    induction l0 as [|x l0 (?&?&?&?)]; [done|]. split_and!; auto. }
  induction l as [|a|a b|a b c|a b c d l IH] using quad_ind; intros l' H; simpl.
  5: destruct (b64_bytes l) as [rest|]; [|done].
  all: intros [= <-]; repeat (apply Forall_cons in H as [? H]);
    repeat (apply Forall_cons; split); auto; try (Z.div_mod_to_equations; lia).
Qed.

Lemma b64_value_range url c d : b64_value url c = Some d → 0 ≤ d < 64.
Proof.
  unfold b64_value. repeat case_match; intros [= <-];
    rewrite ?andb_true_iff, ?Z.leb_le, ?Z.eqb_eq in *; lia.
Qed.
Lemma DecodeB64_range url s l : DecodeB64 url s = Some l → Forall (λ b, 0 ≤ b < 256) l.
Proof.
  unfold DecodeB64. intros (ds & Hd & Hb)%bind_Some. eapply b64_bytes_range; [|done].
  apply mapM_Some in Hd. clear Hb. induction Hd as [|c d cs ds Hc _ IH]; constructor; [|done].
  by eapply b64_value_range.
Qed.

(** ** Lemmas: query escaping *)

(** What an escaped string is made of: no separators, no line breaks. *)
Lemma upper_hex_safe d : 0 ≤ d < 16 → unreserved (upper_hex d) = true.
Proof.
  revert d. by apply (all_below_spec (λ d, unreserved (upper_hex d)) 16).
Qed.
Definition query_safe (c : ascii) : bool := unreserved c || bool_decide (c ∈ ["+"%char; "%"%char]).
Lemma QueryEscape_safe s : Forall (λ c, query_safe c = true) (s2l (QueryEscape s)).
Proof.
  unfold QueryEscape. rewrite s2l_l2s. induction (s2l s) as [|c l IH]; [constructor|].
  rewrite bind_cons. apply Forall_app. split; [|done]. unfold escape_byte, query_safe.
  pose proof (code_range c). destruct (unreserved c) eqn:Hu; [|case_match]; repeat (apply Forall_cons; split);
    rewrite ?Hu, ?upper_hex_safe by (Z.div_mod_to_equations; lia); auto.
Qed.

Lemma upper_hex_inj d e : 0 ≤ d < 16 → 0 ≤ e < 16 → upper_hex d = upper_hex e → d = e.
Proof.
  intros Hd He H. apply (f_equal code) in H. unfold upper_hex in H.
  rewrite !code_chr in H by (repeat case_match; lia).
  destruct (Z.ltb_spec d 10), (Z.ltb_spec e 10); lia.
Qed.
Lemma escape_byte_prefix_free c d l l' :
  escape_byte c ++ l = escape_byte d ++ l' → c = d ∧ l = l'.
Proof.
  assert (unreserved "+"%char = false ∧ unreserved "%"%char = false) as [Hp Hq] by done.
  pose proof (code_range c). pose proof (code_range d). unfold escape_byte.
  destruct (unreserved c) eqn:Hc, (unreserved d) eqn:Hd; simpl.
  - by intros [= -> ->].
  - destruct (code d =? 32); intros [= -> _]; congruence.
  - destruct (code c =? 32); intros [= <- _]; congruence.
  - destruct (Z.eqb_spec (code c) 32), (Z.eqb_spec (code d) 32); try discriminate; simpl.
    + intros [= ->]. split; [|done]. apply (inj code). congruence.
    + intros [= H1 H2 ->]. split; [|done].
      apply upper_hex_inj in H1; [|Z.div_mod_to_equations; lia..].
      apply upper_hex_inj in H2; [|Z.div_mod_to_equations; lia..].
      apply (inj code). rewrite (Z.div_mod (code c) 16), (Z.div_mod (code d) 16) by lia. congruence.
Qed.
#[export] Instance QueryEscape_inj : Inj (=) (=) QueryEscape.
Proof.
  intros s t H%(inj l2s). apply (inj s2l). revert H. generalize (s2l s) (s2l t). clear s t.
  assert (∀ c, escape_byte c ≠ []) as Hne by (intros c; unfold escape_byte; repeat case_match; done).
  induction l as [|c l IH]; intros [|d l']; rewrite ?bind_cons; [done|..].
  - intros H. destruct (escape_byte d) eqn:E; [by apply Hne in E|done].
  - intros H. destruct (escape_byte c) eqn:E; [by apply Hne in E|done].
  - intros [-> H]%escape_byte_prefix_free. f_equal. by apply IH.
Qed.

(** ** Lemmas: time *)

(** The month of a day of the year. *)
Definition month_check (l : bool) (d : Z) : bool :=
  let md := month_of 11 l 1 d in
  in_range 1 12 md.1 && in_range 1 (month_days l md.1) md.2 && (days_before_month l md.1 + (md.2 - 1) =? d).
Lemma month_of_spec (l : bool) (d : Z) :
  0 ≤ d < 365 + (if l then 1 else 0) → month_check l d = true.
Proof.
  destruct l.
  - by apply (all_below_spec (month_check true) 366).
  - by apply (all_below_spec (month_check false) 365).
Qed.

(** A day falls into year [400 n + 100 a + 4 b + c + 1]. *)
Lemma year_cycles n a b c :
  0 ≤ a < 4 → 0 ≤ b < 25 → 0 ≤ c < 4 →
  let y := 400 * n + 100 * a + 4 * b + c + 1 in
  days_before_year y = 146097 * n + 36524 * a + 1461 * b + 365 * c ∧
  leap y = (c =? 3) && (negb (b =? 24) || (a =? 3)).
Proof.
  intros Ha Hb Hc y. split.
  - unfold days_before_year, y. Z.div_mod_to_equations. lia.
  - unfold leap, y. apply eq_true_iff_eq.
    rewrite !andb_true_iff, !orb_true_iff, !negb_true_iff, !Z.eqb_eq, !Z.eqb_neq.
    Z.div_mod_to_equations. lia.
Qed.

Lemma date_of_days_spec d y m dd :
  0 ≤ d < 3652059 → date_of_days d = (y, m, dd) →
  0 ≤ y < 10000 ∧ in_range 1 12 m = true ∧ in_range 1 (days_in m y) dd = true ∧ days_of_date y m dd = d.
Proof.
  intros Hd. unfold date_of_days.
  set (n := d / 146097). set (d1 := d mod 146097).
  set (a := d1 / 36524 - d1 / 36524 / 4). set (d2 := d1 - 36524 * a).
  set (b := d2 / 1461). set (d3 := d2 mod 1461).
  set (c := d3 / 365 - d3 / 365 / 4). set (d4 := d3 - 365 * c).
  assert (d = 146097 * n + d1 ∧ 0 ≤ d1 < 146097 ∧ 0 ≤ n < 25) as (En & H1 & Hn)
    by (unfold n, d1; Z.div_mod_to_equations; lia).
  assert (0 ≤ a < 4 ∧ 0 ≤ d2 < 36524 + (if a =? 3 then 1 else 0)) as [Ha H2]
    by (unfold d2; destruct (Z.eqb_spec a 3); unfold a in *; Z.div_mod_to_equations; lia).
  assert (d2 = 1461 * b + d3 ∧ 0 ≤ d3 < 1461 ∧ 0 ≤ b < 25 ∧ (b = 24 → d3 < 1460 + (if a =? 3 then 1 else 0)))
    as (Eb & H3 & Hb & Hb') by (unfold b, d3; destruct (a =? 3); Z.div_mod_to_equations; lia).
  assert (0 ≤ c < 4 ∧ 0 ≤ d4 ∧ d4 < 365 + (if c =? 3 then 1 else 0) ∧
          (d3 < 1460 → d4 < 365)) as (Hc & H4 & H4' & H4'')
    by (unfold d4; destruct (Z.eqb_spec c 3); unfold c in *; Z.div_mod_to_equations; lia).
  destruct (year_cycles n a b c Ha Hb Hc) as [Hy Hl].
  set (y0 := 400 * n + 100 * a + 4 * b + c + 1) in *.
  assert (month_check (leap y0) d4 = true) as Hm.
  { apply month_of_spec. split; [done|]. rewrite Hl.
    destruct (Z.eqb_spec c 3), (Z.eqb_spec b 24), (Z.eqb_spec a 3); simpl; lia. }
  unfold month_check in Hm. rewrite !andb_true_iff, Z.eqb_eq in Hm. destruct Hm as [[Hm1 Hm2] Hm3].
  intros [[<- <-]%pair_equal_spec <-]%pair_equal_spec. unfold days_of_date, days_in. split_and!; [lia|lia|done|done|].
  rewrite Hy. unfold d4, d2 in *. lia.
Qed.

Lemma digit_chr d : 0 ≤ d < 10 → digit (chr (48 + d)) = Some d.
Proof.
  intros Hd. eapply (proj1 (bool_decide_dec _)). revert d Hd.
  by apply (all_below_spec (λ d, bool_decide (digit (chr (48 + d)) = Some d)) 10).
Qed.
Lemma getnum_pad2 fixed n l : 0 ≤ n < 100 → getnum fixed (pad2 n ++ l) = Some (n, l).
Proof.
  intros Hn. unfold pad2, getnum. cbn [app].
  rewrite !digit_chr by (Z.div_mod_to_equations; lia). do 2 f_equal. Z.div_mod_to_equations; lia.
Qed.
Lemma year4_pad4 n l : 0 ≤ n < 10000 → year4 (pad4 n ++ l) = Some (n, l).
Proof.
  intros Hn. unfold pad4, pad2, year4. cbn [app digits_go].
  rewrite !digit_chr by (Z.div_mod_to_equations; lia). cbn [fmap option_fmap option_map].
  do 2 f_equal. Z.div_mod_to_equations; lia.
Qed.

(** A time of the years 1 to 9999 reads back as the second it lies in. *)
Lemma Parse_Format t :
  0 ≤ t < 3652059 * Day * Second → ParseRFC3339 (FormatRFC3339 t) = Some (t / Second * Second).
Proof.
  intros Ht. unfold FormatRFC3339, ParseRFC3339. rewrite s2l_l2s.
  set (s := t / Second).
  assert (0 ≤ s / Day < 3652059) as Hd
    by (unfold s; split; [repeat apply Z.div_pos; unfold Second, Day; lia|
                          do 2 (apply Z.div_lt_upper_bound; [done|]); unfold Second, Day in *; lia]).
  destruct (date_of_days (s / Day)) as [[y m] d] eqn:E.
  destruct (date_of_days_spec _ _ _ _ Hd E) as (Hy & Hm & Hdd & He). cbn [fst snd].
  set (r := s mod Day). assert (0 ≤ r < 86400) as Hr by (apply Z.mod_pos_bound; done).
  assert (month_days (leap y) m ≤ 31) as H31 by (unfold month_days; repeat case_match; lia).
  unfold in_range, days_in in *. rewrite !andb_true_iff, !Z.leb_le in *.
  assert (∀ c l, skip c (c :: l) = Some l) as Hskip by (intros c l; simpl; by rewrite decide_True).
  rewrite year4_pad4 by done. cbn [mbind option_bind]. rewrite Hskip. cbn [mbind option_bind].
  rewrite getnum_pad2 by lia. cbn [mbind option_bind]. rewrite Hskip. cbn [mbind option_bind].
  rewrite getnum_pad2 by lia. cbn [mbind option_bind]. rewrite Hskip. cbn [mbind option_bind].
  assert (0 ≤ r / 3600 < 24 ∧ 0 ≤ r / 60 mod 60 < 60 ∧ 0 ≤ r mod 60 < 60) as (Hh & Hmi & Hs)
    by (Z.div_mod_to_equations; lia).
  rewrite getnum_pad2 by lia. cbn [mbind option_bind]. rewrite Hskip. cbn [mbind option_bind].
  rewrite getnum_pad2 by lia. cbn [mbind option_bind]. rewrite Hskip. cbn [mbind option_bind].
  rewrite getnum_pad2 by lia. cbn [mbind option_bind fraction zone snd fst].
  rewrite decide_True by done. cbn [mbind option_bind].
  rewrite bool_decide_true by done.
  rewrite !(proj2 (Z.leb_le _ _)) by lia. cbn [andb]. f_equal. rewrite He.
  unfold r, Day, Second in *. Z.div_mod_to_equations. lia.
Qed.

(** ** Lemmas: separators *)

(** A list is split in one way at the first, and at the last, separator. *)
Lemma first_sep_inj {A} (c : A) l1 l2 r1 r2 :
  l1 ++ c :: r1 = l2 ++ c :: r2 → c ∉ l1 → c ∉ l2 → l1 = l2 ∧ r1 = r2.
Proof.
  revert l2. induction l1 as [|a l1 IH]; intros [|b l2]; simpl; intros H H1 H2.
  - by injection H as ->.
  - injection H as -> H. exfalso. apply H2. left.
  - injection H as -> H. exfalso. apply H1. left.
  - injection H as -> H. rewrite not_elem_of_cons in H1, H2.
    destruct (IH _ H (proj2 H1) (proj2 H2)) as [-> ->]. done.
Qed.
Lemma last_sep_inj {A} (c : A) l1 l2 r1 r2 :
  l1 ++ c :: r1 = l2 ++ c :: r2 → c ∉ r1 → c ∉ r2 → l1 = l2 ∧ r1 = r2.
Proof.
  intros H H1 H2. apply (f_equal reverse) in H. rewrite !reverse_app, !reverse_cons, <-!app_assoc in H.
  apply first_sep_inj in H as [Hr Hl]; [|by rewrite elem_of_reverse..].
  split; by apply (inj reverse).
Qed.
