(* ===== verification/Ipam.v ===== *)
(** * Address allocation: [internal/hub/ipam.go]

    The walks over a prefix, the carving of pools into instances and the
    reading of a pool's text form.  The walks of the source run until they
    leave the prefix; here they carry fuel, one more than the number of
    addresses (subnets) that are taken plus those the walk skips, and
    [lowestFree_total], [highestFree_total] and [allocateOverlay_total] show
    that it never runs out. *)

From Stdlib Require Import Ascii.
From S2P Require Export Netip.

Open Scope Z_scope.

(** ** Definitions *)

Definition KindConnector : string := "connector".
Definition KindTenant : string := "tenant".
Definition KindOwner : string := "owner".

Definition isBroadcast (prefix : Prefix) (addr : Addr) : bool :=
  if negb (Is4 addr) then false else
  if 31 <=? p_bits prefix then false else
  let next := Next addr in
  negb (Addr_IsValid next) || negb (ContainsAddr prefix next).

Fixpoint lowest_walk (fuel : nat) (prefix : Prefix) (taken : gset Addr) (addr : Addr)
    : option (res Addr) :=
  match fuel with
  | O => None
  | S fuel =>
      if ContainsAddr prefix addr then
        if negb (bool_decide (addr ∈ taken)) && negb (isBroadcast prefix addr)
        then Some (Ok addr)
        else lowest_walk fuel prefix taken (Next addr)
      else Some (Err ErrPoolExhausted)
  end.
Definition lowestFree (prefix : Prefix) (taken : gset Addr) : res Addr :=
  if negb (IsValid prefix) then Err (Errorf "invalid prefix") else
  default Panic (lowest_walk (size taken + 3) prefix taken (Next (p_addr (Masked prefix)))).

(** Sets the host bits [i .. n - 1] of the sixteen byte form. *)
Fixpoint set_host_bits (n i : nat) (raw : list Z) : list Z :=
  match n with
  | O => raw
  | S n =>
      let byteIndex := (15 - i / 8)%nat in
      set_host_bits n (S i)
        (<[byteIndex := Z.lor (nth byteIndex raw 0) (Z.shiftl 1 (Z.of_nat (i mod 8)))]> raw)
  end.
Definition lastAddr (prefix : Prefix) : Addr :=
  let base := p_addr (Masked prefix) in
  let bits := BitLen base in
  let raw := set_host_bits (Z.to_nat (bits - p_bits prefix)) 0 (As16 base) in
  let out := AddrFrom16 raw in
  if Is4 base then Unmap out else out.

Fixpoint highest_walk (fuel : nat) (prefix : Prefix) (taken : gset Addr) (addr : Addr)
    : option (res Addr) :=
  match fuel with
  | O => None
  | S fuel =>
      if ContainsAddr prefix addr then
        if negb (bool_decide (addr ∈ taken)) && negb (isBroadcast prefix addr) &&
           negb (bool_decide (addr = p_addr (Masked prefix)))
        then Some (Ok addr)
        else highest_walk fuel prefix taken (Prev addr)
      else Some (Err (Wrap "%w: no address left for a connector" ErrPoolExhausted))
  end.
Definition highestFree (prefix : Prefix) (taken : gset Addr) : res Addr :=
  if negb (IsValid prefix) then Err (Errorf "invalid prefix") else
  let addr := lastAddr prefix in
  if negb (Addr_IsValid addr) then Err (Errorf "invalid prefix") else
  default Panic (highest_walk (size taken + 4) prefix taken addr).

Definition addr_values (held : gmap string Addr) : list Addr := (map_to_list held).*2.
(** The addresses a pool refuses to hand out: those held, and the valid ones
    among those reserved. *)
Definition taken_of (held : gmap string Addr) (reserved : list Addr) : gset Addr :=
  list_to_set (addr_values held) ∪ list_to_set (filter (λ a, Addr_IsValid a = true) reserved).
Definition fromPool (prefix : Prefix) (held : gmap string Addr) (fingerprint kind : string)
    (reserved : list Addr) : res Addr :=
  match held !! fingerprint with
  | Some addr => Ok addr
  | None =>
      let taken := taken_of held reserved in
      if decide (kind = KindConnector) then highestFree prefix taken
      else lowestFree prefix taken
  end.

(** The addition of [nextSubnet] on the sixteen byte form: [n] is the index of
    the byte to add at plus one, and the second component is the carry left. *)
Fixpoint carry_loop (n : nat) (raw : list Z) (carry : Z) : list Z * Z :=
  match n with
  | O => (raw, carry)
  | S i =>
      let sum := nth i raw 0 + carry in
      let raw := <[i := sum mod 256]> raw in
      if sum <=? 255 then (raw, 0) else carry_loop i raw 1
  end.
Definition nextSubnet (prefix : Prefix) (size : Z) : option Prefix :=
  let addr := p_addr (Masked prefix) in
  let bits := BitLen addr in
  if (size <? 0) || (bits <? size) then None else
  let raw := As16 addr in
  let shift := bits - size in
  let byteIndex := 16 - 1 - shift / 8 in
  let bitIndex := shift mod 8 in
  let '(raw, carry) := carry_loop (Z.to_nat (byteIndex + 1)) raw (Z.shiftl 1 bitIndex) in
  if negb (carry =? 0) then None else
  let next := AddrFrom16 raw in
  let next := if Is4 addr then Unmap next else next in
  Some (PrefixFrom next size).

Record Pool : Type := mkPool { Pool_Prefix : Prefix; Pool_Size : Z }.

Fixpoint overlay_walk (fuel : nat) (pool : Pool) (taken : gset Prefix) (candidate : Prefix)
    : option (option Prefix) :=
  match fuel with
  | O => None
  | S fuel =>
      if ContainsAddr (Pool_Prefix pool) (p_addr candidate) then
        if negb (bool_decide (candidate ∈ taken)) then Some (Some candidate)
        else match nextSubnet candidate (Pool_Size pool) with
             | None => Some None
             | Some next => overlay_walk fuel pool taken next
             end
      else Some None
  end.
Fixpoint allocate_pools (pools : list Pool) (taken : gset Prefix) : res Prefix :=
  match pools with
  | [] => Err (Errorf "every overlay pool is full: %s")
  | pool :: pools =>
      if (Pool_Size pool <? p_bits (Pool_Prefix pool)) ||
         (BitLen (p_addr (Pool_Prefix pool)) <? Pool_Size pool)
      then Err (Errorf "instance size /%d does not fit in pool %s") else
      match overlay_walk (size taken + 2) pool taken
              (PrefixFrom (p_addr (Masked (Pool_Prefix pool))) (Pool_Size pool)) with
      | None => Panic
      | Some (Some candidate) => Ok candidate
      | Some None => allocate_pools pools taken
      end
  end.
Definition allocateOverlay (pools : list Pool) (taken : gset Prefix) : res Prefix :=
  match pools with
  | [] => Err (Errorf "no overlay pool is configured")
  | _ => allocate_pools pools taken
  end.

Definition reserveLighthouse (prefix : Prefix) : res Addr := lowestFree prefix ∅.

Definition ParsePool (s : string) : res (Prefix * Z) :=
  let s := TrimSpace s in
  match cut_last s "/"%char with
  | None => Err (Errorf "pool %q has no prefix length")
  | Some (front, back) =>
    match ParsePrefix s with
    | Some prefix =>
        let size := if Is6 (p_addr prefix) then 112 else 24 in
        let size := if size <? p_bits prefix then p_bits prefix else size in
        Ok (prefix, size)
    | None =>
      match ParsePrefix front with
      | None => Err (Errorf "pool %q is not <network>/<bits>/<size>")
      | Some prefix =>
        match Atoi back with
        | None => Err (Wrap "pool %q has a bad instance size: %w" (Errorf "strconv.Atoi"))
        | Some size =>
            if (size <? p_bits prefix) || (BitLen (p_addr prefix) <? size)
            then Err (Errorf "instance size /%d does not fit in %s")
            else Ok (Masked prefix, size)
        end
      end
    end
  end.

Example parse_pool : ParsePool " 198.19.0.0/16/24" = Ok (mkPrefix (Addr4 3323133952) 16, 24).
Proof. reflexivity. Qed.
Example parse_pool6 : is_ok (ParsePool "fd00::/48") = true ∧ is_ok (ParsePool "10.0.0.0/16/12") = false.
Proof. split; reflexivity. Qed.

(** ** The last address of a prefix *)

Lemma lor_unset b t : 0 ≤ t → 0 ≤ b → Z.testbit b t = false → Z.lor b (2 ^ t) = b + 2 ^ t.
Proof.
  intros Ht Hb H. rewrite <-Z.add_lor_land.
  assert (Z.land b (2 ^ t) = 0) as ->; [|lia].
  apply Z.bits_inj'. intros n Hn. rewrite Z.land_spec, Z.bits_0, Z.pow2_bits_eqb by lia.
  destruct (Z.eqb_spec t n) as [<-|]; [by rewrite H|apply andb_false_r].
Qed.

Section LastAddr.
(** [v] is a multiple of [2 ^ h]: after [i] steps the bytes are those of
    [v + 2 ^ i - 1]. *)
Context (v : Z) (h : nat) (Hv : (2 ^ Z.of_nat h | v)) (Hh : (h ≤ 128)%nat).
Context (Hv0 : 0 ≤ v) (Hv1 : v + 2 ^ Z.of_nat h ≤ 2 ^ 128).

Lemma be_bytes_nth16 z k :
  (k < 16)%nat → nth k (be_bytes 16 z) 0 = z / 256 ^ (15 - Z.of_nat k) mod 256.
Proof. intros Hk. do 16 (destruct k as [|k]; [done|]). lia. Qed.

Lemma partial_bit_unset i : (i < h)%nat → Z.testbit (v + 2 ^ Z.of_nat i - 1) (Z.of_nat i) = false.
Proof.
  intros Hi. rewrite Z.testbit_eqb by lia. apply Z.eqb_neq.
  destruct Hv as [k ->].
  replace (Z.of_nat h) with (Z.of_nat i + 1 + (Z.of_nat h - Z.of_nat i - 1)) by lia.
  rewrite !Z.pow_add_r, Z.pow_1_r by lia.
  set (p := 2 ^ Z.of_nat i). set (q := 2 ^ (_ - _)).
  assert (0 < p) by (apply Z.pow_pos_nonneg; lia).
  replace (k * (p * 2 * q) + p - 1) with (k * q * 2 * p + (p - 1)) by lia.
  rewrite Z.div_add_l, (Z.div_small (p - 1)), Z.add_0_r, Z.mod_mul by lia. done.
Qed.

Lemma set_host_bits_step i :
  (i < h)%nat →
  let z := v + 2 ^ Z.of_nat i - 1 in
  let b := (15 - i / 8)%nat in
  <[b := Z.lor (nth b (be_bytes 16 z) 0) (Z.shiftl 1 (Z.of_nat (i mod 8)))]> (be_bytes 16 z)
  = be_bytes 16 (v + 2 ^ Z.of_nat (S i) - 1).
Proof.
  intros Hi z b. pose proof (Nat.div_mod_eq i 8) as Hdm.
  pose proof (Nat.mod_upper_bound i 8 ltac:(lia)) as Hm.
  set (q := (i / 8)%nat) in *. set (t := (i mod 8)%nat) in *.
  assert (0 < 2 ^ Z.of_nat i) by (apply Z.pow_pos_nonneg; lia).
  assert (nth b (be_bytes 16 z) 0 = z / 2 ^ (8 * Z.of_nat q) mod 2 ^ 8) as Hnth.
  { rewrite be_bytes_nth16 by lia. rewrite Z.pow_mul_r by lia. do 3 f_equal. lia. }
  set (y := nth b (be_bytes 16 z) 0) in *.
  assert (0 ≤ y < 256) as Hy by (rewrite Hnth; apply Z.mod_pos_bound; lia).
  assert (Z.testbit y (Z.of_nat t) = false) as Ht.
  { rewrite Hnth, Z.mod_pow2_bits_low, Z.div_pow2_bits by lia.
    rewrite <-(partial_bit_unset i Hi). unfold z. f_equal. lia. }
  rewrite Z.shiftl_1_l, lor_unset by (done || lia).
  assert (y + 2 ^ Z.of_nat t < 256) as Hlt.
  { rewrite Z.testbit_eqb in Ht by lia. apply Z.eqb_neq in Ht.
    do 8 (destruct t as [|t]; [simpl in *; Z.div_mod_to_equations; lia|]). lia. }
  assert (0 < 2 ^ Z.of_nat t) by (apply Z.pow_pos_nonneg; lia).
  rewrite <-(be_bytes_val (<[b := y + 2 ^ Z.of_nat t]> (be_bytes 16 z))).
  2: { apply Forall_insert; [apply be_bytes_is_byte|]. unfold is_byte. lia. }
  rewrite length_insert, length_be_bytes. f_equal.
  rewrite (be_val_insert _ _ y), be_val_bytes, length_be_bytes.
  - rewrite Z.mod_small; unfold z.
    + replace (16 - 1 - b)%nat with q by lia.
      replace (256 ^ Z.of_nat q) with (2 ^ (8 * Z.of_nat q)) by (by rewrite Z.pow_mul_r by lia).
      replace (y + 2 ^ Z.of_nat t - y) with (2 ^ Z.of_nat t) by lia.
      rewrite <-Z.pow_add_r, Nat2Z.inj_succ, Z.pow_succ_r by lia.
      replace (Z.of_nat t + 8 * Z.of_nat q) with (Z.of_nat i) by lia. lia.
    + assert (2 ^ Z.of_nat i < 2 ^ Z.of_nat h) by (apply Z.pow_lt_mono_r; lia).
      change (256 ^ Z.of_nat 16) with (2 ^ 128). lia.
  - unfold y. rewrite nth_lookup. destruct (be_bytes 16 z !! b) eqn:Hb; [done|].
    apply lookup_ge_None in Hb. rewrite length_be_bytes in Hb. lia.
Qed.

Lemma set_host_bits_spec n i :
  (n + i ≤ h)%nat →
  set_host_bits n i (be_bytes 16 (v + 2 ^ Z.of_nat i - 1)) = be_bytes 16 (v + 2 ^ Z.of_nat (n + i) - 1).
Proof.
  revert i. induction n as [|n IH]; intros i Hi; [done|]. cbn [set_host_bits].
  rewrite set_host_bits_step, IH by lia. do 4 f_equal. lia.
Qed.
End LastAddr.

Lemma As16_bytes a : addr_wf a →
  As16 a = be_bytes 16 (match a with Addr4 n => v4mapped + n | _ => num a end).
Proof. by destruct a. Qed.

(** [lastAddr] is the last address of the prefix. *)
Lemma lastAddr_spec p : prefix_ok p → lastAddr p = with_num (p_addr p) (hi p).
Proof.
  intros Hp. pose proof (lo_hi_range p Hp) as (Hlo & Hlh & Hhi).
  pose proof (host_bits_range p Hp) as Hh. pose proof (host_pow_pos p Hp) as Hhp.
  unfold lastAddr. rewrite Masked_addr, BitLen_with_num by done.
  change (BitLen (p_addr p) - p_bits p) with (host_bits p).
  rewrite As16_bytes.
  2: { unfold addr_wf. rewrite num_with_num, BitLen_with_num by done. lia. }
  set (v := match with_num (p_addr p) (lo p) with Addr4 n => v4mapped + n | _ => _ end).
  assert (v = (if Is4 (p_addr p) then v4mapped else 0) + lo p) as Hv.
  { unfold v. destruct Hp as (_&_&?). by destruct (p_addr p). }
  set (h := Z.to_nat (host_bits p)).
  assert (Z.of_nat h = host_bits p) as Eh by lia.
  assert ((h ≤ 128)%nat ∧ (Is4 (p_addr p) = true → host_bits p ≤ 32)) as [Hh128 Hh4].
  { destruct (p_addr p); simpl in *; split; lia. }
  assert (2 ^ Z.of_nat h | v) as Hdiv.
  { rewrite Eh, Hv. apply Z.divide_add_r; [|by exists (num (p_addr p) / 2 ^ host_bits p)].
    destruct (Is4 (p_addr p)) eqn:H4; [|by exists 0]. specialize (Hh4 eq_refl).
    exists (65535 * 2 ^ (32 - host_bits p)). unfold v4mapped.
    rewrite <-Z.mul_assoc, <-Z.pow_add_r by lia. do 2 f_equal. lia. }
  assert (v + 2 ^ Z.of_nat h ≤ 2 ^ 128) as Hv128.
  { rewrite Eh, Hv. unfold hi in Hhi. destruct (p_addr p); simpl in *; unfold v4mapped; lia. }
  assert (0 ≤ v) by (rewrite Hv; destruct (Is4 (p_addr p)); unfold v4mapped; lia).
  pose proof (set_host_bits_spec v h Hdiv Hh128 ltac:(done) Hv128 h 0 ltac:(lia)) as Hs.
  rewrite Nat.add_0_r in Hs.
  assert (v + 2 ^ Z.of_nat 0 - 1 = v) as E0 by (change (2 ^ Z.of_nat 0) with 1; lia).
  rewrite E0 in Hs. rewrite Hs.
  unfold AddrFrom16. rewrite be_val_bytes, Z.mod_small.
  2: { change (256 ^ Z.of_nat 16) with (2 ^ 128). lia. }
  rewrite Eh, Hv. unfold hi.
  destruct Hp as (_&_&Hne). destruct (p_addr p); [done|..]; simpl in *; [|done].
  replace (v4mapped + lo p + 2 ^ host_bits p - 1)
    with (v4mapped + (lo p + 2 ^ host_bits p - 1)) by lia.
  apply (Unmap_AddrFrom16 (lo p + 2 ^ host_bits p - 1)). unfold hi in *. lia.
Qed.

(** ** Walking a prefix *)

(** An address of the prefix that may be handed out: not the network address
    and not the IPv4 broadcast address. *)
Definition usable (p : Prefix) (a : Addr) : Prop :=
  ContainsAddr p a = true ∧ a ≠ p_addr (Masked p) ∧ isBroadcast p a = false.

Section Walk.
Context (p : Prefix) (Hp : prefix_ok p).
Local Abbreviation L := (BitLen (p_addr p)).

Lemma contained_num a b :
  ContainsAddr p a = true → ContainsAddr p b = true → num a = num b → a = b.
Proof.
  rewrite !ContainsAddr_iff by done. intros [-> _] [-> _].
  by rewrite !num_with_num by done; intros ->.
Qed.
Lemma broadcast_last a :
  ContainsAddr p a = true → isBroadcast p a = true → a = with_num (p_addr p) (hi p).
Proof.
  intros Hc Hb. apply ContainsAddr_iff in Hc as [Ha Hr]; [|done].
  rewrite Ha in Hb |- *.
  pose proof (lo_hi_range p Hp) as (Hlo & Hlh & Hhi).
  destruct (decide (num a = hi p)) as [->|Hne]; [done|]. exfalso.
  unfold isBroadcast in Hb.
  destruct (negb _) in Hb; [done|]. destruct (31 <=? _) in Hb; [done|].
  rewrite Next_with_num in Hb by (done || lia).
  destruct (Z.eqb_spec (num a + 1) (2 ^ L)); [lia|].
  assert (ContainsAddr p (with_num (p_addr p) (num a + 1)) = true) as Hc.
  { apply ContainsAddr_with_num; [done|lia]. }
  rewrite Hc, orb_false_r in Hb. destruct Hp as (_&_&Hz). by destruct (p_addr p).
Qed.

Definition up (k : nat) : Addr :=
  let n := lo p + 1 + Z.of_nat k in
  if n <? 2 ^ L then with_num (p_addr p) n else AddrZero.
Definition down (k : nat) : Addr :=
  let n := hi p - Z.of_nat k in
  if 0 <=? n then with_num (p_addr p) n else AddrZero.

Lemma Next_up k : Next (up k) = up (S k).
Proof.
  pose proof (lo_hi_range p Hp) as (Hlo & Hlh & Hhi). unfold up.
  destruct (Z.ltb_spec (lo p + 1 + Z.of_nat k) (2 ^ L)).
  - rewrite Next_with_num by (done || lia).
    destruct (Z.eqb_spec (lo p + 1 + Z.of_nat k + 1) (2 ^ L));
      destruct (Z.ltb_spec (lo p + 1 + Z.of_nat (S k)) (2 ^ L)); try lia; [done|].
    f_equal; lia.
  - destruct (Z.ltb_spec (lo p + 1 + Z.of_nat (S k)) (2 ^ L)); [lia|done].
Qed.
Lemma Prev_down k : Prev (down k) = down (S k).
Proof.
  unfold down. destruct (Z.leb_spec 0 (hi p - Z.of_nat k)).
  - rewrite Prev_with_num by done.
    destruct (Z.eqb_spec (hi p - Z.of_nat k) 0);
      destruct (Z.leb_spec 0 (hi p - Z.of_nat (S k))); try lia; [done|].
    f_equal; lia.
  - destruct (Z.leb_spec 0 (hi p - Z.of_nat (S k))); [lia|done].
Qed.
Lemma up_inside k : ContainsAddr p (up k) = true ↔ lo p + 1 + Z.of_nat k ≤ hi p.
Proof.
  pose proof (lo_hi_range p Hp) as (Hlo & Hlh & Hhi). unfold up.
  destruct (Z.ltb_spec (lo p + 1 + Z.of_nat k) (2 ^ L)).
  - rewrite ContainsAddr_with_num by done. lia.
  - rewrite ContainsAddr_zero. split; [done|lia].
Qed.
Lemma down_inside k : ContainsAddr p (down k) = true ↔ lo p ≤ hi p - Z.of_nat k.
Proof.
  pose proof (lo_hi_range p Hp) as (Hlo & Hlh & Hhi). unfold down.
  destruct (Z.leb_spec 0 (hi p - Z.of_nat k)).
  - rewrite ContainsAddr_with_num by done. lia.
  - rewrite ContainsAddr_zero. split; [done|lia].
Qed.
Lemma up_num k : ContainsAddr p (up k) = true → num (up k) = lo p + 1 + Z.of_nat k.
Proof.
  pose proof (lo_hi_range p Hp) as (Hlo & Hlh & Hhi). rewrite up_inside. intros.
  unfold up. rewrite (proj2 (Z.ltb_lt _ _)) by lia. by rewrite num_with_num.
Qed.
Lemma down_num k : ContainsAddr p (down k) = true → num (down k) = hi p - Z.of_nat k.
Proof.
  pose proof (lo_hi_range p Hp) as (Hlo & Hlh & Hhi). rewrite down_inside. intros.
  unfold down. rewrite (proj2 (Z.leb_le _ _)) by lia. by rewrite num_with_num.
Qed.

Context (X : gset Addr).
Definition low_good (a : Addr) : bool :=
  negb (bool_decide (a ∈ X)) && negb (isBroadcast p a).
Definition high_good (a : Addr) : bool :=
  low_good a && negb (bool_decide (a = p_addr (Masked p))).

Lemma lowest_walk_search fuel k :
  lowest_walk fuel p X (up k) =
  (λ r, match r with Some a => Ok a | None => Err ErrPoolExhausted end) <$>
    search up (ContainsAddr p) low_good fuel k.
Proof.
  revert k. induction fuel as [|fuel IH]; intros k; [done|]. cbn [lowest_walk search].
  unfold low_good at 1. repeat case_match; try done. by rewrite Next_up.
Qed.
Lemma highest_walk_search fuel k :
  highest_walk fuel p X (down k) =
  (λ r, match r with Some a => Ok a
        | None => Err (Wrap "%w: no address left for a connector" ErrPoolExhausted) end) <$>
    search down (ContainsAddr p) high_good fuel k.
Proof.
  revert k. induction fuel as [|fuel IH]; intros k; [done|]. cbn [highest_walk search].
  unfold high_good at 1, low_good at 1. repeat case_match; try done. by rewrite Prev_down.
Qed.
Lemma up_inj i j :
  ContainsAddr p (up i) = true → ContainsAddr p (up j) = true → up i = up j → i = j.
Proof. intros Hi Hj He. pose proof (up_num i Hi). pose proof (up_num j Hj). rewrite He in *. lia. Qed.
Lemma down_inj i j :
  ContainsAddr p (down i) = true → ContainsAddr p (down j) = true → down i = down j → i = j.
Proof. intros Hi Hj He. pose proof (down_num i Hi). pose proof (down_num j Hj). rewrite He in *. lia. Qed.
Lemma size_add (Y : gset Addr) a : (size (Y ∪ {[a]}) ≤ size Y + 1)%nat.
Proof. rewrite <-(size_singleton (C:=gset Addr) a). rewrite size_union_alt. 
  pose proof (subseteq_size ({[a]} ∖ Y) {[a]} ltac:(set_solver)). lia. Qed.

Lemma low_search_total k : search up (ContainsAddr p) low_good (size X + 3) k ≠ None.
Proof.
  apply (search_total _ _ _ (X ∪ {[with_num (p_addr p) (hi p)]})); [apply up_inj| |].
  - intros i Hi Hg. unfold low_good in Hg.
    destruct (bool_decide_reflect (up i ∈ X)); [set_solver|]. simpl in Hg.
    apply negb_false_iff, broadcast_last in Hg as ->; set_solver.
  - pose proof (size_add X (with_num (p_addr p) (hi p))). lia.
Qed.
Lemma high_search_total k : search down (ContainsAddr p) high_good (size X + 4) k ≠ None.
Proof.
  apply (search_total _ _ _ (X ∪ {[with_num (p_addr p) (hi p)]} ∪ {[p_addr (Masked p)]}));
    [apply down_inj| |].
  - intros i Hi Hg. unfold high_good, low_good in Hg.
    destruct (bool_decide_reflect (down i ∈ X)); [set_solver|]. simpl in Hg.
    destruct (isBroadcast p (down i)) eqn:Hb.
    + apply broadcast_last in Hb as ->; set_solver.
    + destruct (bool_decide_reflect (down i = p_addr (Masked p))); [set_solver|done].
  - pose proof (size_add X (with_num (p_addr p) (hi p))).
    pose proof (size_add (X ∪ {[with_num (p_addr p) (hi p)]}) (p_addr (Masked p))). lia.
Qed.
End Walk.

(** ** What the walks return *)

Section Free.
Context (p : Prefix) (Hp : prefix_ok p) (X : gset Addr).

Lemma first_up : Next (p_addr (Masked p)) = up p 0.
Proof.
  pose proof (lo_hi_range p Hp) as (Hlo & Hlh & Hhi).
  rewrite Masked_addr, Next_with_num by (done || lia). unfold up.
  destruct (Z.eqb_spec (lo p + 1) (2 ^ BitLen (p_addr p)));
    destruct (Z.ltb_spec (lo p + 1 + Z.of_nat 0) (2 ^ BitLen (p_addr p))); try lia; [done|].
  f_equal; lia.
Qed.
Lemma first_down : lastAddr p = down p 0.
Proof.
  pose proof (lo_hi_range p Hp) as (Hlo & Hlh & Hhi).
  rewrite lastAddr_spec by done. unfold down.
  rewrite (proj2 (Z.leb_le _ _)) by lia. f_equal. lia.
Qed.

Lemma usable_num b : usable p b → lo p < num b ≤ hi p.
Proof.
  intros (Hc & Hm & _). apply ContainsAddr_iff in Hc as [Hb Hr]; [|done].
  destruct (decide (num b = lo p)) as [He|]; [|lia].
  destruct Hm. by rewrite Masked_addr, Hb, He.
Qed.
Lemma usable_up b : usable p b → b = up p (Z.to_nat (num b - lo p - 1)).
Proof.
  intros Hb. pose proof (usable_num b Hb). destruct Hb as [Hc _].
  assert (ContainsAddr p (up p (Z.to_nat (num b - lo p - 1))) = true) as Hi.
  { apply up_inside; [done|lia]. }
  apply (contained_num p Hp); [done..|]. rewrite up_num by done. lia.
Qed.
Lemma usable_down b : usable p b → b = down p (Z.to_nat (hi p - num b)).
Proof.
  intros Hb. pose proof (usable_num b Hb). destruct Hb as [Hc _].
  assert (ContainsAddr p (down p (Z.to_nat (hi p - num b))) = true) as Hi.
  { apply down_inside; [done|lia]. }
  apply (contained_num p Hp); [done..|]. rewrite down_num by done. lia.
Qed.
Lemma usable_low_good b : usable p b → b ∉ X → low_good p X b = true.
Proof. intros (_&_&Hb) HX. unfold low_good. by rewrite bool_decide_false, Hb. Qed.
Lemma usable_high_good b : usable p b → b ∉ X → high_good p X b = true.
Proof.
  intros Hb HX. unfold high_good. rewrite usable_low_good by done.
  destruct Hb as (_&Hm&_). by rewrite bool_decide_false.
Qed.
Lemma up_usable k : ContainsAddr p (up p k) = true → low_good p X (up p k) = true →
  usable p (up p k) ∧ up p k ∉ X.
Proof.
  intros Hc Hg. unfold low_good in Hg. apply andb_true_iff in Hg as [HX Hb].
  apply negb_true_iff in HX, Hb. apply bool_decide_eq_false in HX.
  split; [|done]. split_and!; [done| |done].
  intros He. pose proof (up_num p Hp k Hc) as Hn. rewrite He, Masked_addr in Hn by done.
  rewrite num_with_num in Hn by done. lia.
Qed.
Lemma down_usable k : ContainsAddr p (down p k) = true → high_good p X (down p k) = true →
  usable p (down p k) ∧ down p k ∉ X.
Proof.
  intros Hc Hg. unfold high_good, low_good in Hg.
  apply andb_true_iff in Hg as [[HX Hb]%andb_true_iff Hm].
  apply negb_true_iff in HX, Hb, Hm. apply bool_decide_eq_false in HX, Hm.
  split; [|done]. by split_and!.
Qed.

(** The lowest usable address that is not taken, or an error when there is
    none; the walk ends. *)
Lemma lowestFree_result :
  match lowestFree p X with
  | Ok a => usable p a ∧ (a ∉ X) ∧ (∀ b, usable p b → b ∉ X → num a ≤ num b)
  | Err e => e = ErrPoolExhausted ∧ ∀ b, usable p b → b ∈ X
  | Panic => False
  end.
Proof.
  unfold lowestFree. rewrite prefix_ok_valid by done. simpl negb. cbn iota.
  rewrite first_up, lowest_walk_search by done.
  destruct (search (up p) _ _ _ _) as [r|] eqn:Hs; [|by apply low_search_total in Hs].
  apply search_result in Hs as (j & _ & Hall & Hr). simpl. destruct r as [a|].
  - destruct Hr as (-> & Hc & Hg). destruct (up_usable _ Hc Hg) as [Hu HX].
    split_and!; [done..|]. intros b Hb HbX. apply Z.nlt_ge. intros Hlt.
    pose proof (usable_num b Hb). rewrite up_num in Hlt by done.
    destruct (Hall (Z.to_nat (num b - lo p - 1))) as [_ Hbad]; [lia|].
    rewrite <-usable_up in Hbad by done. by rewrite usable_low_good in Hbad.
  - split; [done|]. intros b Hb. destruct (decide (b ∈ X)) as [|HbX]; [done|]. exfalso.
    pose proof (usable_num b Hb) as Hn.
    destruct (decide (Z.to_nat (num b - lo p - 1) < j)%nat) as [Hlt|Hge].
    + destruct (Hall (Z.to_nat (num b - lo p - 1))) as [_ Hbad]; [lia|].
      rewrite <-usable_up in Hbad by done. by rewrite usable_low_good in Hbad.
    + apply not_true_iff_false in Hr. apply Hr, up_inside; [done|]. lia.
Qed.

(** The highest usable address that is not taken. *)
Lemma highestFree_result :
  match highestFree p X with
  | Ok a => usable p a ∧ (a ∉ X) ∧ (∀ b, usable p b → b ∉ X → num b ≤ num a)
  | Err e => errors_Is e ErrPoolExhausted = true ∧ ∀ b, usable p b → b ∈ X
  | Panic => False
  end.
Proof.
  pose proof (lo_hi_range p Hp) as (Hlo & Hlh & Hhi).
  unfold highestFree. rewrite prefix_ok_valid by done. simpl negb. cbn iota zeta.
  assert (Addr_IsValid (lastAddr p) = true) as ->.
  { rewrite lastAddr_spec by done. destruct Hp as (_&_&Hz). by destruct (p_addr p). }
  simpl negb. cbn iota. rewrite first_down, highest_walk_search by done.
  destruct (search (down p) _ _ _ _) as [r|] eqn:Hs; [|by apply high_search_total in Hs].
  apply search_result in Hs as (j & _ & Hall & Hr). simpl. destruct r as [a|].
  - destruct Hr as (-> & Hc & Hg). destruct (down_usable _ Hc Hg) as [Hu HX].
    split_and!; [done..|]. intros b Hb HbX. apply Z.nlt_ge. intros Hlt.
    pose proof (usable_num b Hb). rewrite down_num in Hlt by done.
    destruct (Hall (Z.to_nat (hi p - num b))) as [_ Hbad]; [lia|].
    rewrite <-usable_down in Hbad by done. by rewrite usable_high_good in Hbad.
  - split; [done|]. intros b Hb. destruct (decide (b ∈ X)) as [|HbX]; [done|]. exfalso.
    pose proof (usable_num b Hb) as Hn.
    destruct (decide (Z.to_nat (hi p - num b) < j)%nat) as [Hlt|Hge].
    + destruct (Hall (Z.to_nat (hi p - num b))) as [_ Hbad]; [lia|].
      rewrite <-usable_down in Hbad by done. by rewrite usable_high_good in Hbad.
    + apply not_true_iff_false in Hr. apply Hr, down_inside; [done|]. lia.
Qed.
End Free.

(** ** The next subnet *)

Lemma carry_loop_val n raw c :
  Forall is_byte raw → (n ≤ length raw)%nat → 0 ≤ c < 256 →
  let '(raw', c') := carry_loop n raw c in
  Forall is_byte raw' ∧ length raw' = length raw ∧ 0 ≤ c' ∧
  be_val raw' + c' * 256 ^ Z.of_nat (length raw) = be_val raw + c * 256 ^ Z.of_nat (length raw - n).
Proof.
  revert raw c. induction n as [|n IH]; intros raw c Hraw Hn Hc; cbn [carry_loop].
  { rewrite Nat.sub_0_r. split_and!; done || lia. }
  assert (raw !! n = Some (nth n raw 0)) as Hl.
  { rewrite nth_lookup. destruct (raw !! n) eqn:E; [done|]. apply lookup_ge_None in E. lia. }
  set (b := nth n raw 0) in *.
  assert (is_byte b) as Hb by (by eapply Forall_lookup_1). unfold is_byte in Hb.
  assert (Forall is_byte (<[n := (b + c) mod 256]> raw)) as Hraw'.
  { apply Forall_insert; [done|]. apply Z.mod_pos_bound. lia. }
  pose proof (be_val_insert raw n b ((b + c) mod 256) Hl) as Hv.
  assert (256 ^ Z.of_nat (length raw - n) = 256 * 256 ^ Z.of_nat (length raw - S n)) as Hpow.
  { rewrite <-Z.pow_succ_r by lia. f_equal. lia. }
  replace (length raw - 1 - n)%nat with (length raw - S n)%nat in Hv by lia.
  destruct (Z.leb_spec (b + c) 255).
  - split_and!; [done|by rewrite length_insert|lia|]. rewrite Z.mod_small in * by lia. lia.
  - specialize (IH (<[n := (b + c) mod 256]> raw) 1 Hraw'). rewrite length_insert in IH.
    specialize (IH ltac:(lia) ltac:(lia)).
    destruct (carry_loop n _ 1) as [raw' c'].
    destruct IH as (?&?&?&IH). split_and!; [done..|].
    assert ((b + c) mod 256 = b + c - 256) as Hm.
    { symmetry. apply Z.mod_unique with 1; lia. }
    rewrite Hm in IH, Hv. lia.
Qed.

(** The subnet after [c] of the same size: exact when it still fits in the
    address family; past the end an IPv6 subnet has no successor, and an IPv4
    one an IPv6 prefix (which no IPv4 pool contains). *)
Lemma nextSubnet_result c :
  prefix_ok c →
  nextSubnet c (p_bits c) =
    if hi c + 1 <? 2 ^ BitLen (p_addr c)
    then Some (mkPrefix (with_num (p_addr c) (hi c + 1)) (p_bits c))
    else if Is4 (p_addr c) then Some (mkPrefix (Addr6 (v4mapped + 2 ^ 32)) (p_bits c)) else None.
Proof.
  intros Hc. pose proof (lo_hi_range c Hc) as (Hlo & Hlh & Hhi).
  pose proof (host_bits_range c Hc) as Hh. pose proof Hc as (_ & Hb & Hz).
  unfold nextSubnet. rewrite Masked_addr, BitLen_with_num by done.
  rewrite (proj2 (Z.ltb_ge _ _)) by lia. rewrite (proj2 (Z.ltb_ge _ _)) by lia. simpl orb. cbn iota zeta.
  change (BitLen (p_addr c) - p_bits c) with (host_bits c).
  set (h := host_bits c) in *. set (raw := As16 _).
  assert (Forall is_byte raw ∧ length raw = 16%nat) as [Hbytes Hlen].
  { unfold raw, As16. split; [apply be_bytes_is_byte|apply length_be_bytes]. }
  pose proof (Z.div_mod h 8 ltac:(lia)) as Hdm. pose proof (Z.mod_pos_bound h 8 ltac:(lia)) as Hm.
  assert (0 ≤ h / 8 ≤ 16) as Hq.
  { split; [apply Z.div_pos; lia|]. destruct (p_addr c); simpl in Hh; Z.div_mod_to_equations; lia. }
  rewrite Z.shiftl_1_l.
  assert (0 ≤ 2 ^ (h mod 8) < 256) as Hcar.
  { split; [lia|]. change 256 with (2 ^ 8). apply Z.pow_lt_mono_r; lia. }
  pose proof (carry_loop_val (Z.to_nat (16 - 1 - h / 8 + 1)) raw (2 ^ (h mod 8)) Hbytes
    ltac:(lia) Hcar) as Hloop.
  destruct (carry_loop _ raw _) as [raw' c'] eqn:Hcl. destruct Hloop as (Hby & Hl' & Hc0 & Hval).
  rewrite Hlen in Hval.
  assert (2 ^ (h mod 8) * 256 ^ Z.of_nat (16 - Z.to_nat (16 - 1 - h / 8 + 1)) = 2 ^ h) as Hpow.
  { change 256 with (2 ^ 8). rewrite <-Z.pow_mul_r, <-Z.pow_add_r by lia. f_equal. lia. }
  rewrite Hpow in Hval. change (256 ^ Z.of_nat 16) with (2 ^ 128) in Hval.
  assert (be_val raw = (if Is4 (p_addr c) then v4mapped else 0) + lo c) as Hraw.
  { unfold raw, As16. rewrite be_val_bytes, Z.mod_small.
    - by destruct (p_addr c).
    - change (256 ^ Z.of_nat 16) with (2 ^ 128). destruct (p_addr c); simpl in *; unfold v4mapped; lia. }
  pose proof (be_val_range raw' Hby) as Hr'. rewrite Hl', Hlen in Hr'.
  change (256 ^ Z.of_nat 16) with (2 ^ 128) in Hr'.
  rewrite Hraw in Hval. unfold hi in *. fold h in Hhi |- *.
  destruct (p_addr c) as [|n4|n6] eqn:Ea; [done|..]; simpl in *.
  - assert (c' = 0) as -> by (unfold v4mapped in *; lia). simpl.
    assert (be_val raw' = v4mapped + (lo c + 2 ^ h)) as E by lia. unfold AddrFrom16. rewrite E.
    destruct (Z.ltb_spec (lo c + 2 ^ h - 1 + 1) (2 ^ 32)).
    + pose proof (Unmap_AddrFrom16 (lo c + 2 ^ h) ltac:(lia)) as Hu.
      simpl in Hu |- *. rewrite Hu.
      unfold PrefixFrom. simpl. rewrite (proj2 (Z.leb_le 0 _)), (proj2 (Z.leb_le _ 32)) by lia.
      simpl. do 3 f_equal. lia.
    + assert (lo c + 2 ^ h = 2 ^ 32) as -> by lia. unfold Unmap, PrefixFrom. simpl.
      rewrite (proj2 (Z.leb_le 0 _)), (proj2 (Z.leb_le _ 128)) by lia. done.
  - destruct (Z.ltb_spec (lo c + 2 ^ h - 1 + 1) (2 ^ 128)).
    + assert (c' = 0) as -> by lia. simpl. unfold AddrFrom16, PrefixFrom. simpl.
      rewrite (proj2 (Z.leb_le 0 _)), (proj2 (Z.leb_le _ 128)) by lia. simpl. do 3 f_equal. lia.
    + assert (c' ≠ 0) as Hne by lia. apply Z.eqb_neq in Hne. by rewrite Hne.
Qed.

(** ** Carving pools *)

Definition pool_ok (pool : Pool) : Prop :=
  prefix_ok (Pool_Prefix pool) ∧
  p_bits (Pool_Prefix pool) ≤ Pool_Size pool ≤ BitLen (p_addr (Pool_Prefix pool)).

(** The number of addresses of an instance of the pool. *)
Definition block (pool : Pool) : Z := 2 ^ (BitLen (p_addr (Pool_Prefix pool)) - Pool_Size pool).
(** The [k]-th subnet of the pool, counted from its first address. *)
Definition subnet (pool : Pool) (k : nat) : Prefix :=
  let n := lo (Pool_Prefix pool) + Z.of_nat k * block pool in
  if n <? 2 ^ BitLen (p_addr (Pool_Prefix pool))
  then mkPrefix (with_num (p_addr (Pool_Prefix pool)) n) (Pool_Size pool) else PrefixZero.
(** The subnets that lie in the pool. *)
Definition pool_subnet (pool : Pool) (c : Prefix) : Prop :=
  ∃ k, c = subnet pool k ∧ lo (Pool_Prefix pool) + Z.of_nat k * block pool ≤ hi (Pool_Prefix pool).

Section Overlay.
Context (pool : Pool) (Hpool : pool_ok pool).
Local Abbreviation P := (Pool_Prefix pool).
Local Abbreviation L := (BitLen (p_addr (Pool_Prefix pool))).

Lemma block_pos : 0 < block pool.
Proof. destruct Hpool. apply Z.pow_pos_nonneg; lia. Qed.
Lemma block_divides : ∃ m, 2 ^ host_bits P = m * block pool ∧ 0 < m.
Proof.
  destruct Hpool as [Hp Hs]. exists (2 ^ (Pool_Size pool - p_bits P)).
  unfold block, host_bits. rewrite <-Z.pow_add_r by lia.
  split; [f_equal; lia|apply Z.pow_pos_nonneg; lia].
Qed.
(** A subnet that starts in the pool, or before the end of the family, is
    whole. *)
Lemma subnet_fits k :
  lo P + Z.of_nat k * block pool < 2 ^ L → lo P + Z.of_nat k * block pool + block pool ≤ 2 ^ L.
Proof.
  intros H. pose proof block_pos. destruct block_divides as (m & Hm & Hm0).
  destruct Hpool as [Hp Hs].
  assert (2 ^ L = 2 ^ Pool_Size pool * block pool) as HL.
  { unfold block. pose proof (host_bits_range P Hp). rewrite <-Z.pow_add_r; [f_equal; lia| |lia].
    destruct Hp as (_&?&_). lia. }
  unfold lo in *. rewrite Hm in *. rewrite HL in *.
  set (a := num (p_addr P) / (m * block pool)) in *.
  replace (a * (m * block pool) + Z.of_nat k * block pool)
    with ((a * m + Z.of_nat k) * block pool) in * by lia.
  apply Z.mul_lt_mono_pos_r in H; [|done]. nia.
Qed.
Lemma subnet_in_pool k :
  lo P + Z.of_nat k * block pool ≤ hi P → lo P + Z.of_nat k * block pool + block pool - 1 ≤ hi P.
Proof.
  unfold hi. pose proof block_pos. destruct block_divides as (m & -> & Hm0).
  intros Hi. assert (Z.of_nat k * block pool < m * block pool) as Hk by lia.
  apply Z.mul_lt_mono_pos_r in Hk; [|done]. nia.
Qed.
Lemma subnet_eq k :
  lo P + Z.of_nat k * block pool < 2 ^ L →
  subnet pool k = mkPrefix (with_num (p_addr P) (lo P + Z.of_nat k * block pool)) (Pool_Size pool).
Proof. intros H%Z.ltb_lt. unfold subnet. by rewrite H. Qed.
Lemma subnet_ok k : lo P + Z.of_nat k * block pool < 2 ^ L → prefix_ok (subnet pool k).
Proof.
  intros H. rewrite subnet_eq by done. pose proof block_pos. destruct Hpool as [Hp Hs].
  pose proof (lo_hi_range P Hp). destruct Hp as (Ha & Hb & Hz).
  split_and!; simpl.
  - unfold addr_wf. rewrite num_with_num, BitLen_with_num by done. nia.
  - lia.
  - rewrite BitLen_with_num. lia.
  - by apply with_num_ne.
Qed.
Lemma subnet_lo_hi k :
  lo P + Z.of_nat k * block pool < 2 ^ L →
  lo (subnet pool k) = lo P + Z.of_nat k * block pool ∧
  hi (subnet pool k) = lo P + Z.of_nat k * block pool + block pool - 1.
Proof.
  intros H. destruct block_divides as (m & Hm & Hm0). pose proof block_pos.
  destruct Hpool as [Hp Hs].
  assert (lo (subnet pool k) = lo P + Z.of_nat k * block pool) as Hl.
  { rewrite subnet_eq by done. unfold lo at 1. unfold host_bits. simpl.
    rewrite BitLen_with_num, num_with_num by done. fold (block pool).
    unfold lo. rewrite Hm, Z.mul_assoc, <-Z.mul_add_distr_r, Z.div_mul by lia. done. }
  split; [done|]. unfold hi. rewrite Hl. unfold host_bits. rewrite subnet_eq by done. simpl.
  by rewrite BitLen_with_num.
Qed.
Lemma subnet_bits k :
  lo P + Z.of_nat k * block pool < 2 ^ L → p_bits (subnet pool k) = Pool_Size pool.
Proof. intros H. by rewrite subnet_eq. Qed.
Lemma subnet_inside k :
  ContainsAddr P (p_addr (subnet pool k)) = true ↔ lo P + Z.of_nat k * block pool ≤ hi P.
Proof.
  destruct Hpool as [Hp _]. pose proof (lo_hi_range P Hp). pose proof block_pos.
  unfold subnet. destruct (Z.ltb_spec (lo P + Z.of_nat k * block pool) (2 ^ L)); simpl.
  - rewrite ContainsAddr_with_num by done. split; [lia|]. nia.
  - rewrite ContainsAddr_zero. split; [done|lia].
Qed.
Lemma subnet_inj i j :
  ContainsAddr P (p_addr (subnet pool i)) = true → ContainsAddr P (p_addr (subnet pool j)) = true →
  subnet pool i = subnet pool j → i = j.
Proof.
  destruct Hpool as [Hp _]. pose proof (lo_hi_range P Hp) as (?&?&?). pose proof block_pos.
  rewrite !subnet_inside. intros Hi Hj He.
  pose proof (subnet_lo_hi i ltac:(lia)) as [Hl _]. pose proof (subnet_lo_hi j ltac:(lia)) as [Hl' _].
  rewrite He in Hl. nia.
Qed.
Lemma subnet_first : PrefixFrom (p_addr (Masked P)) (Pool_Size pool) = subnet pool 0.
Proof.
  destruct Hpool as [Hp Hs]. pose proof (lo_hi_range P Hp) as (?&?&?).
  rewrite Masked_addr by done. rewrite subnet_eq by lia. unfold PrefixFrom.
  rewrite BitLen_with_num. destruct Hp as (_&?&Hz).
  assert (Addr_IsValid (with_num (p_addr P) (lo P)) = true) as -> by (by destruct (p_addr P)).
  rewrite (proj2 (Z.leb_le 0 _)), (proj2 (Z.leb_le _ _)) by lia. simpl. do 2 f_equal. lia.
Qed.

(** The walk over a pool is the search of its subnets. *)
Lemma overlay_walk_search taken fuel k r :
  search (subnet pool) (λ c, ContainsAddr P (p_addr c)) (λ c, negb (bool_decide (c ∈ taken)))
    fuel k = Some r →
  overlay_walk fuel pool taken (subnet pool k) = Some r.
Proof.
  revert k. induction fuel as [|fuel IH]; intros k; [done|]. cbn [search overlay_walk].
  destruct (ContainsAddr P _) eqn:Hc; [|done]. destruct (negb _); [done|].
  destruct Hpool as [Hp _]. pose proof (lo_hi_range P Hp) as (?&?&?). pose proof block_pos.
  pose proof (proj1 (subnet_inside k) Hc) as Hk. intros Hs.
  destruct (subnet_lo_hi k ltac:(lia)) as [_ Hhi].
  pose proof (nextSubnet_result _ (subnet_ok k ltac:(lia))) as Hn.
  rewrite subnet_bits, Hhi in Hn by lia.
  assert (p_addr (subnet pool k) = with_num (p_addr P) (lo P + Z.of_nat k * block pool)) as Ha.
  { by rewrite subnet_eq by lia. }
  rewrite Ha, BitLen_with_num, with_num_with_num in Hn. rewrite Hn.
  set (z := lo P + Z.of_nat k * block pool + block pool - 1 + 1).
  assert (lo P + Z.of_nat (S k) * block pool = z) as Ez by (unfold z; lia).
  destruct (Z.ltb_spec z (2 ^ L)) as [Hz|Hz].
  - assert (mkPrefix (with_num (p_addr P) z) (Pool_Size pool) = subnet pool (S k)) as ->.
    { by rewrite subnet_eq, Ez by lia. }
    by apply IH.
  - assert (r = None) as ->.
    { destruct fuel; simpl in Hs; [done|]. unfold subnet in Hs. rewrite Ez in Hs.
      rewrite (proj2 (Z.ltb_ge _ _)) in Hs by done. simpl in Hs.
      rewrite ContainsAddr_zero in Hs. by simplify_eq. }
    destruct (Is4 _) eqn:H4; [|done]. destruct fuel; [done|]. simpl.
    destruct (p_addr P) eqn:Ea; try done. unfold ContainsAddr. rewrite Ea.
    by rewrite !andb_false_r.
Qed.
Lemma overlay_search_total (taken : gset Prefix) k :
  search (subnet pool) (λ c, ContainsAddr P (p_addr c)) (λ c, negb (bool_decide (c ∈ taken)))
    (size taken + 2) k ≠ None.
Proof.
  apply (search_total _ _ _ taken); [apply subnet_inj| |lia].
  intros i _ Hg. by destruct (bool_decide_reflect (subnet pool i ∈ taken)).
Qed.
Lemma overlay_walk_result (taken : gset Prefix) :
  match overlay_walk (size taken + 2) pool taken (subnet pool 0) with
  | Some (Some c) => pool_subnet pool c ∧ (c ∉ taken) ∧
      (∀ c', pool_subnet pool c' → c' ∉ taken → lo c ≤ lo c')
  | Some None => ∀ c, pool_subnet pool c → c ∈ taken
  | None => False
  end.
Proof.
  destruct (search (subnet pool) (λ c, ContainsAddr P (p_addr c))
    (λ c, negb (bool_decide (c ∈ taken))) (size taken + 2) 0) as [r|] eqn:Hs;
    [|by apply overlay_search_total in Hs].
  rewrite (overlay_walk_search _ _ _ _ Hs).
  apply search_result in Hs as (j & _ & Hall & Hr).
  destruct Hpool as [Hp _]. pose proof (lo_hi_range P Hp) as (?&?&?). pose proof block_pos.
  assert (∀ i, (i < j)%nat → subnet pool i ∈ taken) as Htaken.
  { intros i Hi. destruct (Hall i ltac:(lia)) as [_ Hb].
    by destruct (bool_decide_reflect (subnet pool i ∈ taken)). }
  destruct r as [c|].
  - destruct Hr as (-> & Hc & Hg). rewrite subnet_inside in Hc.
    apply negb_true_iff, bool_decide_eq_false in Hg.
    split_and!; [by exists j|done|]. intros c' (i & -> & Hi) Hc'.
    destruct (decide (i < j)%nat) as [Hlt%Htaken|]; [done|].
    rewrite (proj1 (subnet_lo_hi j ltac:(lia))), (proj1 (subnet_lo_hi i ltac:(lia))). nia.
  - intros c (i & -> & Hi). destruct (decide (i < j)%nat) as [Hlt%Htaken|]; [done|].
    apply not_true_iff_false in Hr. destruct Hr. apply subnet_inside. nia.
Qed.
End Overlay.

Lemma allocate_pools_result pools taken :
  Forall pool_ok pools →
  match allocate_pools pools taken with
  | Ok c => ∃ before pool after, pools = before ++ pool :: after ∧ pool_subnet pool c ∧ (c ∉ taken) ∧
      (∀ c', pool_subnet pool c' → c' ∉ taken → lo c ≤ lo c') ∧
      (∀ full c', full ∈ before → pool_subnet full c' → c' ∈ taken)
  | Err e => ∀ pool c, pool ∈ pools → pool_subnet pool c → c ∈ taken
  | Panic => False
  end.
Proof.
  induction 1 as [|pool pools Hpool Hpools IH]; cbn [allocate_pools].
  { by intros pool c Hin%elem_of_nil. }
  pose proof Hpool as [_ [Hs1 Hs2]].
  rewrite (proj2 (Z.ltb_ge _ _)), (proj2 (Z.ltb_ge _ _)) by done. cbn [orb].
  rewrite subnet_first by done. pose proof (overlay_walk_result pool Hpool taken) as Hw.
  destruct (overlay_walk _ _ _ _) as [[c|]|]; [| |done].
  - destruct Hw as (?&?&?). exists [], pool, pools. split_and!; try done.
    intros full c' Hin. by apply elem_of_nil in Hin.
  - destruct (allocate_pools pools taken) as [c|e|]; [|..|done].
    + destruct IH as (before & p & after & -> & Hc & Hn & Hleast & Hfull).
      exists (pool :: before), p, after. split_and!; try done.
      intros full c' [->|Hin]%elem_of_cons; eauto.
    + intros p c [->|Hin]%elem_of_cons; eauto.
Qed.

Lemma pool_subnet_ok pool c :
  pool_ok pool → pool_subnet pool c →
  prefix_ok c ∧ p_bits c = Pool_Size pool ∧ BitLen (p_addr c) = BitLen (p_addr (Pool_Prefix pool)) ∧
  p_addr c = p_addr (Masked c) ∧ lo (Pool_Prefix pool) ≤ lo c ∧ hi c ≤ hi (Pool_Prefix pool).
Proof.
  intros Hpool (k & -> & Hk). pose proof Hpool as [Hp _].
  pose proof (lo_hi_range _ Hp) as (?&?&?). pose proof (block_pos pool Hpool).
  pose proof (subnet_in_pool pool Hpool k Hk).
  pose proof (subnet_lo_hi pool Hpool k ltac:(lia)) as [Hl Hh].
  pose proof (subnet_ok pool Hpool k ltac:(lia)) as Hok. rewrite Masked_addr, Hl, Hh by done.
  rewrite subnet_eq in Hok |- * by (done || lia). simpl in *. rewrite BitLen_with_num.
  split_and!; try done; try lia. by rewrite with_num_with_num.
Qed.

(** The allocator of an instance, on every branch. *)
Lemma fromPool_result (p : Prefix) (held : gmap string Addr) (fp kind : string) (reserved : list Addr) :
  prefix_ok p →
  let free a := usable p a ∧ a ∉ taken_of held reserved in
  match fromPool p held fp kind reserved with
  | Ok a =>
      held !! fp = Some a ∨
      held !! fp = None ∧ free a ∧ (∀ fp', held !! fp' ≠ Some a) ∧ (a ∉ reserved) ∧
      (kind = KindConnector → ∀ b, free b → num b ≤ num a) ∧
      (kind ≠ KindConnector → ∀ b, free b → num a ≤ num b)
  | Err e => held !! fp = None ∧ errors_Is e ErrPoolExhausted = true ∧ ∀ b, ¬ free b
  | Panic => False
  end.
Proof.
  intros Hp free. unfold fromPool.
  assert (∀ a, free a → (∀ fp', held !! fp' ≠ Some a) ∧ (a ∉ reserved)) as Hfree.
  { intros a [Hu Hn]. split.
    - intros fp' Hfp'. apply Hn. unfold taken_of. apply elem_of_union_l, elem_of_list_to_set, list_elem_of_fmap.
      exists (fp', a). split; [done|]. by apply elem_of_map_to_list.
    - intros Hr. apply Hn. unfold taken_of. apply elem_of_union_r, elem_of_list_to_set, list_elem_of_filter.
      split; [|done]. destruct Hu as [Hc _]. unfold ContainsAddr in Hc.
      destruct (Addr_IsValid a); [done|]. by rewrite !andb_false_r in Hc. }
  destruct (held !! fp) as [a|] eqn:Hheld; [by left|]. case_decide as Hk.
  - pose proof (highestFree_result p Hp (taken_of held reserved)) as Hr.
    destruct (highestFree _ _) as [a|e|]; [|..|done].
    + destruct Hr as (Hu & Hn & Hmax). right.
      destruct (Hfree a (conj Hu Hn)). split_and!; try done. intros _ b [? ?]. by apply Hmax.
    + destruct Hr as [He Hall]. split_and!; try done. intros b [Hb Hn]. by apply Hn, Hall.
  - pose proof (lowestFree_result p Hp (taken_of held reserved)) as Hr.
    destruct (lowestFree _ _) as [a|e|]; [|..|done].
    + destruct Hr as (Hu & Hn & Hmin). right.
      destruct (Hfree a (conj Hu Hn)). split_and!; try done. intros _ b [? ?]. by apply Hmin.
    + destruct Hr as [-> Hall]. split_and!; try done. intros b [Hb Hn]. by apply Hn, Hall.
Qed.

(** Subnets of one size are equal or disjoint. *)
Lemma pool_subnets_disjoint (pool pool' : Pool) (c c' : Prefix) :
  pool_ok pool → pool_ok pool' → Pool_Size pool = Pool_Size pool' →
  pool_subnet pool c → pool_subnet pool' c' → c ≠ c' →
  Overlaps c c' = false.
Proof.
  intros Hp Hp' Hs Hc Hc' Hne. apply not_true_iff_false. intros Ho. apply Hne.
  destruct (pool_subnet_ok _ _ Hp Hc) as (Hok & Hb & Hl & Ha & _).
  destruct (pool_subnet_ok _ _ Hp' Hc') as (Hok' & Hb' & Hl' & Ha' & _).
  apply Overlaps_intervals in Ho as (HL & H1 & H2); [|done..].
  rewrite Masked_addr in Ha, Ha' by done. unfold hi, lo in *.
  assert (host_bits c = host_bits c') as Hh by (unfold host_bits; lia).
  pose proof (host_pow_pos c Hok) as Hpos. rewrite <-Hh in *.
  set (h := 2 ^ host_bits c) in *. set (n := num (p_addr c) / h) in *.
  set (n' := num (p_addr c') / h) in *. assert (n = n') as En by nia.
  destruct c as [a b], c' as [a' b']; simpl in *. f_equal; [|lia].
  rewrite Ha, Ha', En. destruct Hok as (_&_&?), Hok' as (_&_&?).
  destruct a, a'; simpl in *; try done; lia.
Qed.

(** ** Properties *)

(** The allocator of an instance.  A member that already holds an address
    keeps it.  Otherwise a connector gets the highest and anybody else the
    lowest usable address of the prefix (never the network address, never the
    IPv4 broadcast address) that no member holds and that is not reserved, and
    the only failure, the pool exhausted error, means that every usable
    address is held or reserved.  The walk always ends. *)
Theorem fromPool_spec (p : Prefix) (held : gmap string Addr) (fp kind : string) (reserved : list Addr) :
  prefix_ok p →
  let free a := usable p a ∧ a ∉ taken_of held reserved in
  match fromPool p held fp kind reserved with
  | Ok a =>
      held !! fp = Some a ∨
      held !! fp = None ∧ free a ∧ (∀ fp', held !! fp' ≠ Some a) ∧ (a ∉ reserved) ∧
      (kind = KindConnector → ∀ b, free b → num b ≤ num a) ∧
      (kind ≠ KindConnector → ∀ b, free b → num a ≤ num b)
  | Err e => held !! fp = None ∧ errors_Is e ErrPoolExhausted = true ∧ ∀ b, ¬ free b
  | Panic => False
  end.
Proof. apply fromPool_result. Qed.

(** An overlay is carved first fit.  The first pool, in order, that still
    has a free subnet gives its lowest one: a whole subnet of the configured
    size, aligned, inside the pool, and not taken.  An error means that every
    subnet of every pool is taken.  The walk always ends. *)
Theorem allocateOverlay_first_fit (pools : list Pool) (taken : gset Prefix) :
  Forall pool_ok pools →
  match allocateOverlay pools taken with
  | Ok c => ∃ before pool after, pools = before ++ pool :: after ∧
      (prefix_ok c ∧ p_bits c = Pool_Size pool ∧ p_addr c = p_addr (Masked c) ∧
       lo (Pool_Prefix pool) ≤ lo c ∧ hi c ≤ hi (Pool_Prefix pool)) ∧ (c ∉ taken) ∧
      (∀ c', pool_subnet pool c' → c' ∉ taken → lo c ≤ lo c') ∧
      (∀ full c', full ∈ before → pool_subnet full c' → c' ∈ taken)
  | Err e => ∀ pool c, pool ∈ pools → pool_subnet pool c → c ∈ taken
  | Panic => False
  end.
Proof.
  intros Hpools. pose proof (allocate_pools_result pools taken Hpools) as H.
  unfold allocateOverlay. destruct pools as [|p0 pools0].
  { by intros pool c Hin%elem_of_nil. }
  destruct (allocate_pools _ taken) as [c|e|]; [|done..].
  destruct H as (before & pool & after & He & Hc & Hn & Hl & Hf).
  assert (pool_ok pool) as Hpool.
  { rewrite He in Hpools. apply Forall_app in Hpools as [_ Hpools].
    by apply Forall_cons in Hpools as [? _]. }
  destruct (pool_subnet_ok pool c Hpool Hc) as (?&?&_&?&?&?).
  exists before, pool, after. by split_and!.
Qed.

(** Two overlays carved with the same instance size from pools of the same
    address family never overlap unless they are equal, so that checking
    whether a subnet is taken by comparing prefixes is enough. *)
Theorem same_size_overlays_disjoint (pool pool' : Pool) (c c' : Prefix) :
  pool_ok pool → pool_ok pool' → Pool_Size pool = Pool_Size pool' →
  pool_subnet pool c → pool_subnet pool' c' → c ≠ c' →
  Overlaps c c' = false.
Proof. apply pool_subnets_disjoint. Qed.

(** Checking that a candidate is free compares prefixes for identity, not
    for overlap, so once the instance size of a pool changes, a new instance
    is given an overlay that overlaps one already handed out. *)
Theorem resized_pool_overlaps :
  ∃ pool pool' first second,
    pool_ok pool ∧ pool_ok pool' ∧ Pool_Prefix pool = Pool_Prefix pool' ∧
    allocateOverlay [pool] ∅ = Ok first ∧ allocateOverlay [pool'] {[first]} = Ok second ∧
    Overlaps first second = true.
Proof.
  exists (mkPool (mkPrefix (Addr4 3323133952) 16) 24), (mkPool (mkPrefix (Addr4 3323133952) 16) 20).
  exists (mkPrefix (Addr4 3323133952) 24), (mkPrefix (Addr4 3323133952) 20).
  split_and!; try done; vm_compute; split; done.
Qed.

(** A pool that [ParsePool] accepts can be carved. *)
Lemma ParsePool_pool_ok (s : string) (prefix : Prefix) (size : Z) :
  ParsePool s = Ok (prefix, size) → pool_ok (mkPool prefix size).
Proof.
  unfold ParsePool. destruct (cut_last _ _) as [[front back]|]; [|done].
  destruct (ParsePrefix (TrimSpace s)) as [p|] eqn:Hp.
  - apply ParsePrefix_ok in Hp. intros [= -> <-]. split; [done|]. destruct Hp as (Ha & Hb & Hz). simpl.
    destruct (p_addr prefix); [done|..]; simpl in *.
    all: match goal with |- context [?a <? ?b] => destruct (Z.ltb_spec a b) end; lia.
  - destruct (ParsePrefix front) as [p|] eqn:Hf; [|done]. apply ParsePrefix_ok in Hf.
    destruct (Atoi back) as [n|]; [|done]. destruct (_ || _) eqn:Hn; [done|]. intros [= <- <-].
    apply orb_false_iff in Hn as [?%Z.ltb_ge ?%Z.ltb_ge].
    pose proof (lo_hi_range p Hf). destruct Hf as (Ha & Hb & Hz).
    assert (prefix_ok p) as Hok by done.
    split; simpl; [split_and!|].
    + unfold addr_wf. rewrite Masked_addr, num_with_num, BitLen_with_num by done. lia.
    + rewrite Masked_bits by done. lia.
    + rewrite Masked_addr, BitLen_with_num, Masked_bits by done. lia.
    + rewrite Masked_addr by done. by apply with_num_ne.
    + rewrite Masked_addr, BitLen_with_num, Masked_bits by done. lia.
Qed.

(** ** Witnesses *)

Definition example_prefix : Prefix := mkPrefix (Addr4 3323133952) 30.
Definition example_pool : Pool := mkPool (mkPrefix (Addr4 3323133952) 16) 24.

Lemma fromPool_spec_witness :
  fromPool example_prefix ∅ "fp" KindConnector [] = Ok (Addr4 3323133954) ∧
  (∀ fp' : string, (∅ : gmap string Addr) !! fp' ≠ Some (Addr4 3323133954)).
Proof.
  pose proof (fromPool_spec example_prefix ∅ "fp" KindConnector [] ltac:(done)) as H.
  cbv zeta in H.
  assert (fromPool example_prefix ∅ "fp" KindConnector [] = Ok (Addr4 3323133954)) as E by reflexivity.
  rewrite E in H. split; [exact E|]. destruct H as [H|(_&_&H&_)]; [discriminate H|exact H].
Defined.

Lemma allocateOverlay_first_fit_witness :
  let taken := {[mkPrefix (Addr4 3323133952) 24]} in
  allocateOverlay [example_pool] taken = Ok (mkPrefix (Addr4 3323134208) 24) ∧
  mkPrefix (Addr4 3323134208) 24 ∉ taken.
Proof.
  intros taken. assert (Forall pool_ok [example_pool]) as Hok by (repeat constructor; done).
  pose proof (allocateOverlay_first_fit [example_pool] taken Hok) as H.
  assert (allocateOverlay [example_pool] taken = Ok (mkPrefix (Addr4 3323134208) 24)) as E
    by (vm_compute; reflexivity).
  rewrite E in H. split; [exact E|]. destruct H as (b & p & a & _ & _ & H & _). exact H.
Defined.

Lemma same_size_overlays_disjoint_witness :
  Overlaps (subnet example_pool 0) (subnet example_pool 1) = false.
Proof.
  apply (same_size_overlays_disjoint example_pool example_pool); try done.
  - exists 0%nat. split; [reflexivity|by vm_compute].
  - exists 1%nat. split; [reflexivity|by vm_compute].
Defined.
