(* ===== verification/Names.v ===== *)
(** * Names: [internal/hub/name.go], [internal/hub/certname.go] and the domains of
    [internal/enroll/protocol.go]

    The checks a name passes before it becomes an identifier, and the names
    written into certificates. *)

From Stdlib Require Import Ascii.
From S2P Require Export GoStrings Ipam.

Open Scope Z_scope.

(** ** Definitions *)

Definition MaxNameLength : nat := 63.

(** [case r >= 'a' && r <= 'z', r >= '0' && r <= '9', r == '-':] *)
Definition label_rune (r : Z) : bool :=
  ((97 <=? r) && (r <=? 122)) || ((48 <=? r) && (r <=? 57)) || (r =? 45).
Definition hex_rune (r : Z) : bool :=
  negb (((r <? 48) || (57 <? r)) && ((r <? 97) || (102 <? r))).
Definition isHex (s : string) : bool := forallb hex_rune (runes s).

(** [name[0] == '-' || name[len(name)-1] == '-'], of a name that is not empty. *)
Definition hyphen_end (name : string) : bool :=
  bool_decide (head (s2l name) = Some "-"%char) || bool_decide (last (s2l name) = Some "-"%char).

Definition ParseName (raw : string) : res string :=
  let name := ToLower (TrimSpace raw) in
  if decide (name = "") then Err (Errorf "a name is required")
  else if (MaxNameLength <? len name)%nat then Err (Errorf "name %q is longer than %d characters")
  else if hyphen_end name then Err (Errorf "name %q starts or ends with a hyphen")
  else if negb (forallb label_rune (runes name))
  then Err (Errorf "name %q may hold letters, digits and hyphens, not %q")
  else if (len name =? 16)%nat && isHex name then Err (Errorf "name %q looks like an instance id")
  else Ok name.

(** [for _, label := range labels { if err := f(label); err != nil { return err } }]. *)
Fixpoint each_label (f : string → res ()) (labels : list string) : res () :=
  match labels with
  | [] => Ok ()
  | label :: labels => let? _ := f label in each_label f labels
  end.

Definition ParseMemberName (raw : string) : res string :=
  let name := ToLower (TrimSpace raw) in
  let name := TrimSuffix name "." in
  if decide (name = "") then Err (Errorf "a name is required")
  else if (253 <? len name)%nat then Err (Errorf "name %q is longer than 253 characters")
  else
    let? _ := each_label (λ label, let? _ := ParseName label in Ok ()) (Split name "."%char) in
    Ok name.

Definition RootDomain : string := ".".
Definition domain_label (label : string) : res () :=
  if decide (label = "") then Err (Errorf "domain %q has an empty label")
  else if (63 <? len label)%nat then Err (Errorf "domain %q has a label longer than 63 characters")
  else if hyphen_end label
  then Err (Errorf "domain %q has a label starting or ending with a hyphen")
  else if negb (forallb label_rune (runes label))
  then Err (Errorf "domain %q holds %q, which is not a letter, digit or hyphen")
  else Ok ().
Definition ParseDomain (raw : string) : res string :=
  let name := ToLower (TrimSpace raw) in
  if decide (name = RootDomain) then Ok RootDomain else
  let name := TrimSuffix name "." in
  if decide (name = "") then Err (Errorf "a domain cannot be empty")
  else if (253 <? len name)%nat then Err (Errorf "domain %q is longer than 253 characters")
  else let? _ := each_label domain_label (Split name "."%char) in Ok name.

Definition CertSuffix : string := "instance".
Definition LighthouseCertName (instance : string) : string :=
  "hub." +:+ instance +:+ "." +:+ CertSuffix.
Definition certKind (kind : string) : string :=
  if decide (kind = KindConnector) then KindConnector else KindTenant.
Definition MemberCertName (kind name instance : string) : string :=
  name +:+ "." +:+ certKind kind +:+ "." +:+ instance +:+ "." +:+ CertSuffix.

Definition fold_rune (r : Z) : ascii :=
  if ((97 <=? r) && (r <=? 122)) || ((48 <=? r) && (r <=? 57)) then chr r else "-"%char.
(** [for strings.Contains(name, "--") { name = strings.ReplaceAll(name, "--", "-") }]:
    every pass shortens the name. *)
Fixpoint squeeze (fuel : nat) (name : string) : string :=
  match fuel with
  | O => name
  | S fuel => if Contains name "--" then squeeze fuel (l2s (squeeze_pass (s2l name))) else name
  end.
Definition FoldLabel (raw : string) : string :=
  let b := l2s (fold_rune <$> runes (ToLower (TrimSpace raw))) in
  let name := Trim b "-" in
  let name := squeeze (len name) name in
  let name := if (MaxNameLength <? len name)%nat
              then Trim (l2s (take MaxNameLength (s2l name))) "-" else name in
  if decide (name = "") then "node" else name.

Example fold_studio : FoldLabel " Mara@Studio.LAN-- " = "mara-studio-lan".
Proof. reflexivity. Qed.
Example fold_script : FoldLabel (l2s [chr 196; chr 133]) = "node".
Proof. reflexivity. Qed.
Example parse_name_id : is_ok (ParseName "0123456789abcdef") = false ∧ ParseName " RailWay " = Ok "railway".
Proof. split; reflexivity. Qed.

(** ** The alphabet of a label *)

(** Letters in lower case, digits and hyphens. *)
Definition label_char (c : ascii) : Prop := label_rune (code c) = true.

(** What every accepted name is. *)
Definition is_label (s : string) : Prop :=
  s ≠ "" ∧ (len s ≤ MaxNameLength)%nat ∧ hyphen_end s = false ∧ Forall label_char (s2l s).

Lemma label_rune_range r : label_rune r = true → 45 ≤ r < 128.
Proof.
  unfold label_rune. rewrite !orb_true_iff, !andb_true_iff, !Z.leb_le, Z.eqb_eq. lia.
Qed.
Lemma label_char_plain c : label_char c → plain c.
Proof.
  unfold label_char, label_rune, plain. intros H.
  rewrite !orb_true_iff, !andb_true_iff, !Z.leb_le, Z.eqb_eq in H.
  split_and!; [lia|..].
  - unfold isSpace. rewrite !orb_false_iff. split_and!.
    + apply andb_false_iff. rewrite !Z.leb_gt. lia.
    + apply bool_decide_eq_false. rewrite !elem_of_cons, elem_of_nil. lia.
    + apply andb_false_iff. rewrite !Z.leb_gt. lia.
  - unfold lowerRune. rewrite (proj2 (andb_false_iff _ _)) by (rewrite !Z.leb_gt; lia).
    rewrite (proj2 (Z.eqb_neq _ 304)), (proj2 (Z.eqb_neq _ 8490)) by lia. done.
Qed.
Lemma label_plain l : Forall label_char l → Forall plain l.
Proof. intros H. eapply Forall_impl; [exact H|]. apply label_char_plain. Qed.

(** The runes of a string are in the alphabet when its bytes are. *)
Lemma label_runes s : forallb label_rune (runes s) = true ↔ Forall label_char (s2l s).
Proof.
  rewrite forallb_elem, Forall_forall. split.
  - intros H.
    assert (Forall (λ r, r < 128) (runes s)) as Ha.
    { apply Forall_forall. intros r Hr. apply H, label_rune_range in Hr. lia. }
    rewrite (runes_ascii_bytes _ Ha). intros ? (r & -> & Hr)%list_elem_of_fmap.
    unfold label_char. specialize (H r Hr). rewrite code_chr; [done|].
    apply label_rune_range in H. lia.
  - intros H r Hr. rewrite runes_ascii in Hr.
    + apply list_elem_of_fmap in Hr as (c & -> & Hc). by apply H.
    + by apply plain_ascii, label_plain, Forall_forall.
Qed.

Lemma ParseName_Ok raw n :
  ParseName raw = Ok n ↔
  n = ToLower (TrimSpace raw) ∧ is_label n ∧ (len n =? 16)%nat && isHex n = false.
Proof.
  unfold ParseName, is_label. rewrite <-label_runes. set (name := ToLower (TrimSpace raw)).
  destruct (decide (name = "")) as [E|E]; [by split; [|intros (->&(?&_)&_)]|].
  destruct (Nat.ltb_spec MaxNameLength (len name)) as [Hl|Hl]; [split; [done|intros (->&(_&?&_)&_); lia]|].
  destruct (hyphen_end name) eqn:Hh; [split; [done|intros (->&(_&_&?&_)&_); congruence]|].
  destruct (forallb label_rune (runes name)) eqn:Hf; cycle 1.
  { split; [done|intros (->&(_&_&_&?)&_); congruence]. }
  simpl. destruct (_ && _) eqn:Hx; [split; [done|intros (->&_&?); congruence]|].
  split; [by intros [= <-]|by intros (->&_)].
Qed.

Lemma each_label_Ok f labels : each_label f labels = Ok () ↔ Forall (λ l, f l = Ok ()) labels.
Proof.
  induction labels as [|l labels IH]; simpl; [by split; constructor|].
  rewrite Forall_cons, <-IH. destruct (f l) as [[]| |]; simpl; naive_solver.
Qed.
Lemma label_each_Ok l : (let? _ := ParseName l in Ok ()) = Ok () ↔ is_ok (ParseName l) = true.
Proof. by destruct (ParseName l). Qed.

Lemma domain_label_Ok l : domain_label l = Ok () ↔ is_label l.
Proof.
  unfold domain_label, is_label. rewrite <-label_runes.
  destruct (decide (l = "")) as [E|E]; [by split; [|intros (?&_)]|].
  destruct (Nat.ltb_spec 63 (len l)) as [Hl|Hl]; [split; [done|intros (_&?&_); unfold MaxNameLength in *; lia]|].
  destruct (hyphen_end l) eqn:Hh; [split; [done|intros (_&_&?&_); congruence]|].
  destruct (forallb label_rune (runes l)) eqn:Hf; cycle 1.
  { split; [done|intros (_&_&_&?); congruence]. }
  unfold MaxNameLength. naive_solver.
Qed.

(** A dotted name whose labels are labels is made of plain bytes. *)
Lemma labels_plain s :
  Forall (λ l, Forall label_char (s2l l)) (Split s "."%char) → Forall plain (s2l s).
Proof.
  intros H. rewrite <-(Join_Split s "."%char).
  induction H as [|l ls Hl H IH]; [constructor|].
  destruct ls as [|l' ls]; [by apply label_plain|].
  change (Forall plain (s2l (l +:+ l2s ["."%char] +:+ Join (l' :: ls) (l2s ["."%char])))).
  rewrite !s2l_app, !Forall_app. split_and!; [by apply label_plain| |done].
  rewrite s2l_l2s. repeat constructor; by vm_compute.
Qed.

(** The last label of a dotted name that ends in a dot is empty. *)
Lemma Split_dot_end s : HasSuffix s "." = true → "" ∈ Split s "."%char.
Proof.
  intros [r ->]%HasSuffix_spec. unfold Split. rewrite s2l_app. simpl.
  assert (∀ cur l, [] ∈ splitl "."%char cur (l ++ ["."%char])) as Hg.
  { intros cur l. revert cur. induction l as [|x l IH]; intros cur; simpl.
    - right. left.
    - case_decide; [right; apply IH|apply IH]. }
  apply list_elem_of_fmap. exists []. split; [done|]. apply Hg.
Qed.

Section Dotted.
(** A name that parses as dotted labels keeps its form when it is parsed
  again: it is trimmed, in lower case and without a dot at its end. *)
Context (s : string) (Hs : Forall is_label (Split s "."%char)).

Lemma dotted_plain : Forall plain (s2l s).
Proof.
apply labels_plain. eapply Forall_impl; [exact Hs|]. by intros l (_&_&_&?).
Qed.
Lemma dotted_fold : TrimSuffix (ToLower (TrimSpace s)) "." = s.
Proof.
pose proof dotted_plain as Hp. rewrite TrimSpace_plain, ToLower_plain by done.
apply TrimSuffix_no, not_true_iff_false. intros Hd%Split_dot_end.
rewrite Forall_forall in Hs. by destruct (Hs _ Hd).
Qed.
Lemma dotted_not_root : ToLower (TrimSpace s) ≠ RootDomain.
Proof.
pose proof dotted_plain as Hp. rewrite TrimSpace_plain, ToLower_plain by done.
intros ->. rewrite Forall_forall in Hs. by destruct (Hs "" ltac:(vm_compute; left)).
Qed.
Lemma dotted_nonempty : s ≠ "".
Proof. intros ->. rewrite Forall_forall in Hs. by destruct (Hs "" ltac:(vm_compute; left)). Qed.
End Dotted.

Lemma ParseMemberName_Ok raw n :
  ParseMemberName raw = Ok n ↔
  n = TrimSuffix (ToLower (TrimSpace raw)) "." ∧ (len n ≤ 253)%nat ∧
  Forall (λ l, is_ok (ParseName l) = true) (Split n "."%char) ∧ n ≠ "".
Proof.
  unfold ParseMemberName. set (name := TrimSuffix _ _).
  destruct (decide (name = "")) as [E|E]; [split; [done|naive_solver]|].
  destruct (Nat.ltb_spec 253 (len name)) as [Hl|Hl]; [split; [done|intros (->&?&_); lia]|].
  destruct (each_label _ (Split name "."%char)) as [[]| |] eqn:He; simpl.
  - apply each_label_Ok in He. setoid_rewrite label_each_Ok in He. split; [by intros [= <-]|naive_solver].
  - split; [done|]. intros (->&_&Hf&_).
    assert (each_label (λ label, let? _ := ParseName label in Ok ()) (Split name "."%char) = Ok ()) as He'.
    { apply each_label_Ok. by setoid_rewrite label_each_Ok. }
    congruence.
  - split; [done|]. intros (->&_&Hf&_).
    assert (each_label (λ label, let? _ := ParseName label in Ok ()) (Split name "."%char) = Ok ()) as He'.
    { apply each_label_Ok. by setoid_rewrite label_each_Ok. }
    congruence.
Qed.
Lemma ParseDomain_Ok raw n :
  ParseDomain raw = Ok n ↔
  n = RootDomain ∧ ToLower (TrimSpace raw) = RootDomain ∨
  ToLower (TrimSpace raw) ≠ RootDomain ∧ n = TrimSuffix (ToLower (TrimSpace raw)) "." ∧
  (len n ≤ 253)%nat ∧ Forall is_label (Split n "."%char) ∧ n ≠ "".
Proof.
  unfold ParseDomain. destruct (decide (_ = RootDomain)) as [Hr|Hr]; [naive_solver|].
  set (name := TrimSuffix _ _).
  destruct (decide (name = "")) as [E|E]; [split; [done|naive_solver]|].
  destruct (Nat.ltb_spec 253 (len name)) as [Hl|Hl].
  { split; [done|intros [[_ ?]|(_&->&?&_)]; [done|lia]]. }
  pose proof (each_label_Ok domain_label (Split name "."%char)) as He.
  setoid_rewrite domain_label_Ok in He.
  destruct (each_label _ (Split name "."%char)) as [[]| |]; simpl; naive_solver.
Qed.

(** ** Folding *)

Definition no_double (l : list ascii) : Prop := ∀ l1 l2, l ≠ l1 ++ "-"%char :: "-"%char :: l2.

Lemma indexl_double l : indexl ["-"; "-"]%char l = None ↔ no_double l.
Proof.
  induction l as [|c l IH]; cbn [indexl].
  { rewrite decide_False by (intros H; by apply prefix_nil_not in H).
    split; [intros _ [|??] l2; done|done]. }
  case_decide as Hp.
  - split; [done|]. intros H. destruct Hp as [k Hk]. exfalso. apply (H [] k). exact Hk.
  - destruct (indexl _ l) as [i|]; simpl.
    + split; [done|]. intros H. exfalso. assert (Some i = None) as E; [|done].
      apply IH. intros l1 l2 ->. by apply (H (c :: l1) l2).
    + split; [|done]. intros _ [|x l1] l2; intros [= -> ->].
      * apply Hp. by exists l2.
      * by apply (proj1 IH eq_refl l1 l2).
Qed.
Lemma Contains_double s : Contains s "--" = false ↔ no_double (s2l s).
Proof. unfold Contains, Index. rewrite <-indexl_double. simpl. destruct (indexl _ _); naive_solver. Qed.
Lemma no_double_infix l1 l l2 : no_double (l1 ++ l ++ l2) → no_double l.
Proof. intros H k1 k2 ->. apply (H (l1 ++ k1) (k2 ++ l2)). by rewrite <-!app_assoc. Qed.

(** Induction two characters at a time, the way a pass reads its input. *)
Lemma pass_ind (P : list ascii → Prop) :
  P [] → (∀ l, P l → P ("-"%char :: "-"%char :: l)) →
  (∀ c l, (c = "-"%char → ∀ l', l ≠ "-"%char :: l') → P l → P (c :: l)) → ∀ l, P l.
Proof.
  intros H0 H2 H1 l. remember (length l) as n eqn:Hn. revert l Hn.
  induction (lt_wf n) as [n _ IH]. intros l ->.
  destruct l as [|c l]; [done|]. destruct (decide (c = "-"%char)) as [->|Hc].
  - destruct l as [|c' l]; [apply H1; done|]. destruct (decide (c' = "-"%char)) as [->|Hc'].
    + apply H2. eapply IH; [|done]. simpl. lia.
    + apply H1; [by intros _ l' [= ]|]. eapply IH; [|done]. simpl. lia.
  - apply H1; [done|]. eapply IH; [|done]. simpl. lia.
Qed.
Lemma squeeze_pass_other c l :
  (c = "-"%char → ∀ l', l ≠ "-"%char :: l') → squeeze_pass (c :: l) = c :: squeeze_pass l.
Proof.
  intros H. destruct (decide (c = "-"%char)) as [->|Hc].
  - destruct l as [|c' l]; [done|]. specialize (H eq_refl).
    destruct c' as [[] [] [] [] [] [] [] []]; try done. by destruct (H l).
  - by destruct c as [[] [] [] [] [] [] [] []].
Qed.
Lemma squeeze_pass_length l :
  (length (squeeze_pass l) ≤ length l)%nat ∧
  (¬ no_double l → (length (squeeze_pass l) < length l)%nat).
Proof.
  induction l as [|l [IH _]|c l Hc [IH IH']] using pass_ind.
  - split; [done|]. intros H. destruct H. by intros [|??].
  - simpl. split; [lia|]. intros _. lia.
  - rewrite squeeze_pass_other by done. simpl. split; [lia|]. intros H.
    assert (length (squeeze_pass l) < length l)%nat; [|lia]. apply IH'. intros Hl. apply H.
    intros [|x l1] l2 [= -> ->]; [by apply (Hc eq_refl l2)|]. by apply (Hl l1 l2).
Qed.
Lemma squeeze_pass_Forall (P : ascii → Prop) l : Forall P l → Forall P (squeeze_pass l).
Proof.
  induction l as [|l IH|c l Hc IH] using pass_ind; [done|..].
  - simpl. intros [? [_ ?]%Forall_cons]%Forall_cons. constructor; auto.
  - rewrite squeeze_pass_other by done. intros [? ?]%Forall_cons. constructor; auto.
Qed.
Lemma squeeze_pass_ends l : head (squeeze_pass l) = head l ∧ last (squeeze_pass l) = last l.
Proof.
  induction l as [|l [_ IH]|c l Hc [IHh IH]] using pass_ind; [done|..].
  - split; [done|]. simpl squeeze_pass. rewrite !last_cons, IH. by destruct (last l).
  - rewrite squeeze_pass_other by done. split; [done|]. by rewrite !last_cons, IH.
Qed.
Lemma squeeze_spec fuel s :
  (len s ≤ fuel)%nat →
  let s' := squeeze fuel s in
  no_double (s2l s') ∧ (∀ P, Forall P (s2l s) → Forall P (s2l s')) ∧
  head (s2l s') = head (s2l s) ∧ last (s2l s') = last (s2l s).
Proof.
  revert s. induction fuel as [|fuel IH]; intros s Hl; simpl.
  - split; [|done]. intros [|??] l2 E; unfold len in Hl; rewrite E in Hl; simpl in Hl; lia.
  - destruct (Contains s "--") eqn:Hc; [|by apply Contains_double in Hc].
    pose proof (squeeze_pass_length (s2l s)) as [_ Hlt].
    assert (¬ no_double (s2l s)) as Hd by (intros Hd%Contains_double; congruence).
    specialize (Hlt Hd). destruct (IH (l2s (squeeze_pass (s2l s)))) as (H1 & H2 & H3 & H4).
    { unfold len in *. rewrite s2l_l2s. lia. }
    rewrite s2l_l2s in *. pose proof (squeeze_pass_ends (s2l s)) as [E1 E2].
    split_and!; [done| |congruence..]. intros P HP. by apply H2, squeeze_pass_Forall.
Qed.
Lemma squeeze_id fuel s : no_double (s2l s) → squeeze fuel s = s.
Proof. intros H. destruct fuel; [done|]. simpl. by rewrite (proj2 (Contains_double s) H). Qed.

Lemma in_hyphen c : in_cutset "-" c = false ↔ c ≠ "-"%char.
Proof. unfold in_cutset. rewrite bool_decide_eq_false. simpl. set_solver. Qed.
Lemma hyphen_end_false s :
  hyphen_end s = false ↔ head (s2l s) ≠ Some "-"%char ∧ last (s2l s) ≠ Some "-"%char.
Proof. unfold hyphen_end. by rewrite orb_false_iff, !bool_decide_eq_false. Qed.
Lemma Trim_hyphen s :
  hyphen_end (Trim s "-") = false ∧ (∃ l1 l2, s2l s = l1 ++ s2l (Trim s "-") ++ l2).
Proof.
  unfold Trim. rewrite hyphen_end_false, s2l_l2s. split; [|apply trim_by_infix]. split.
  - intros H. apply trim_by_head in H. by apply in_hyphen in H.
  - intros H. apply trim_by_last in H. by apply in_hyphen in H.
Qed.
Lemma Trim_hyphen_id s : hyphen_end s = false → Trim s "-" = s.
Proof.
  rewrite hyphen_end_false. intros [Hh Hl]. unfold Trim, trim_by, trim_right_by.
  rewrite (drop_while_id _ (s2l s)).
  - rewrite drop_while_id; [by rewrite rev_involutive, l2s_s2l|].
    intros x Hx. rewrite head_rev in Hx. apply in_hyphen. congruence.
  - intros x Hx. apply in_hyphen. congruence.
Qed.

Lemma fold_rune_label r : label_char (fold_rune r).
Proof.
  unfold fold_rune, label_char. destruct (_ || _) eqn:H; [|done]. unfold label_rune.
  rewrite !orb_true_iff, !andb_true_iff, !Z.leb_le in H. rewrite code_chr by lia.
  rewrite !orb_true_iff, !andb_true_iff, !Z.leb_le. lia.
Qed.
Lemma fold_rune_code c : label_char c → fold_rune (code c) = c.
Proof.
  unfold label_char, label_rune, fold_rune.
  destruct (((97 <=? code c) && _) || _); simpl.
  - intros _. apply chr_code.
  - intros Hl%Z.eqb_eq. by rewrite <-(chr_code c), Hl.
Qed.

Lemma FoldLabel_shape raw : is_label (FoldLabel raw) ∧ no_double (s2l (FoldLabel raw)).
Proof.
  unfold FoldLabel. set (b := l2s _).
  assert (Forall label_char (s2l b)) as Hb.
  { unfold b. rewrite s2l_l2s, Forall_fmap. apply Forall_true. intros r. apply fold_rune_label. }
  destruct (Trim_hyphen b) as [Ht (l1 & l2 & Hb')]. set (t := Trim b "-") in *.
  assert (Forall label_char (s2l t)) as Htc.
  { rewrite Hb', !Forall_app in Hb. tauto. }
  destruct (squeeze_spec (len t) t ltac:(done)) as (Hd & Hf & Hh & Hl).
  set (q := squeeze (len t) t) in *. specialize (Hf _ Htc).
  assert (hyphen_end q = false) as Hq.
  { rewrite hyphen_end_false, Hh, Hl. by apply hyphen_end_false. }
  set (z := if (MaxNameLength <? len q)%nat then _ else q).
  assert (Forall label_char (s2l z) ∧ no_double (s2l z) ∧ hyphen_end z = false ∧
    (len z ≤ MaxNameLength)%nat) as (H1 & H2 & H3 & H4).
  { unfold z. destruct (Nat.ltb_spec MaxNameLength (len q)) as [Hlt|Hge]; [|by split_and!].
    destruct (Trim_hyphen (l2s (take MaxNameLength (s2l q)))) as [Hz (k1 & k2 & Hz')].
    rewrite s2l_l2s in Hz'. set (w := Trim (l2s _) "-") in *.
    pose proof (take_drop MaxNameLength (s2l q)) as Htd. rewrite Hz' in Htd.
    rewrite <-Htd in Hf, Hd. rewrite !Forall_app in Hf. rewrite <-app_assoc, <-app_assoc in Hd.
    split_and!; [tauto|by eapply no_double_infix|done|].
    assert (length (k1 ++ s2l w ++ k2) ≤ MaxNameLength)%nat as Hlen.
    { rewrite <-Hz', length_take. lia. }
    rewrite !length_app in Hlen. unfold len. lia. }
  destruct (decide (z = "")) as [E|E].
  - split; [split_and!; [done|vm_compute; lia|done|by repeat constructor]|].
    by apply indexl_double.
  - done.
Qed.

Lemma FoldLabel_id s : is_label s → no_double (s2l s) → FoldLabel s = s.
Proof.
  intros (Hne & Hlen & Hh & Hc) Hd. unfold FoldLabel.
  assert (Forall plain (s2l s)) as Hp by by apply label_plain.
  rewrite TrimSpace_plain, ToLower_plain by done.
  assert (l2s (fold_rune <$> runes s) = s) as ->.
  { rewrite runes_ascii by by apply plain_ascii. apply (inj s2l). rewrite s2l_l2s.
    clear -Hc. induction Hc as [|c l Hc H IH]; [done|]. rewrite !fmap_cons, IH. f_equal.
    by apply fold_rune_code. }
  rewrite Trim_hyphen_id, squeeze_id by done.
  rewrite (proj2 (Nat.ltb_ge _ _)) by done. by rewrite decide_False.
Qed.

(** ** Certificate names *)

Definition dot_free (s : string) : Prop := "."%char ∉ s2l s.

Lemma label_dot_free s : is_label s → dot_free s.
Proof.
  intros (_&_&_&Hc) Hin. rewrite Forall_forall in Hc. specialize (Hc _ Hin). by vm_compute in Hc.
Qed.
Lemma certKind_dot_free kind : dot_free (certKind kind).
Proof. unfold certKind, dot_free. case_decide; vm_compute; set_solver. Qed.

(** Cutting at the last dot. *)
Lemma snoc_dot_inj (a a' b b' : list ascii) :
  "."%char ∉ b → "."%char ∉ b' → a ++ "."%char :: b = a' ++ "."%char :: b' → a = a' ∧ b = b'.
Proof.
  revert b b'. assert (∀ b b', length b = length b' →
    a ++ "."%char :: b = a' ++ "."%char :: b' → a = a' ∧ b = b') as Heq.
  { intros b b' Hl [? [= ?]]%app_inj_2; [done|simpl; lia]. }
  assert (∀ x x' y y' : list ascii, "."%char ∉ y' → x ++ "."%char :: y = x' ++ "."%char :: y' →
    (length y' ≤ length y)%nat) as Hle.
  { intros x x' y y' Hy' H. destruct (decide (length y' ≤ length y)%nat) as [|Hlt]; [done|].
    exfalso. apply Hy'. apply (f_equal (λ l, reverse l !! length y)) in H.
    rewrite !reverse_app, !reverse_cons, <-!app_assoc in H. simpl in H.
    rewrite lookup_app_r in H by (rewrite length_reverse; lia).
    rewrite length_reverse, Nat.sub_diag in H. simpl in H.
    rewrite lookup_app_l in H by (rewrite length_reverse; lia).
    symmetry in H. apply list_elem_of_lookup_2 in H. by rewrite elem_of_reverse in H. }
  intros b b' Hb Hb' H. apply Heq; [|done].
  pose proof (Hle _ _ _ _ Hb' H). pose proof (Hle _ _ _ _ Hb (eq_sym H)). lia.
Qed.
Lemma dotted_inj a a' b b' :
  dot_free b → dot_free b' → a +:+ "." +:+ b = a' +:+ "." +:+ b' → a = a' ∧ b = b'.
Proof.
  intros Hb Hb' H. apply (f_equal s2l) in H. rewrite !s2l_app in H.
  apply snoc_dot_inj in H as [?%(inj s2l) ?%(inj s2l)]; done.
Qed.
Lemma MemberCertName_shape kind name instance :
  MemberCertName kind name instance =
  ((name +:+ "." +:+ certKind kind) +:+ "." +:+ instance) +:+ "." +:+ CertSuffix.
Proof. unfold MemberCertName. by rewrite !string_app_assoc. Qed.
Lemma CertSuffix_dot_free : dot_free CertSuffix.
Proof. vm_compute. set_solver. Qed.

Lemma ParseDomain_shape raw n :
  ParseDomain raw = Ok n → n = RootDomain ∨ Forall is_label (Split n "."%char) ∧ (len n ≤ 253)%nat.
Proof. intros [[-> _]|(_&_&?&?&_)]%ParseDomain_Ok; [by left|by right]. Qed.
Lemma ParseDomain_fixed raw n : ParseDomain raw = Ok n → ParseDomain n = Ok n.
Proof.
  intros [[-> _]|(_ & _ & Hl & Hf & Hne)]%ParseDomain_Ok; [reflexivity|].
  apply ParseDomain_Ok. right.
  rewrite dotted_fold by done. split_and!; try done. by apply dotted_not_root.
Qed.
Lemma ParseDomain_nonempty raw n : ParseDomain raw = Ok n → n ≠ "".
Proof. by intros [[-> _]|(_&_&_&_&?)]%ParseDomain_Ok. Qed.

(** ** Properties *)

(** An accepted instance name or domain is in the form it is stored and
    compared in, a fixed point of its own parser.  An instance name is a DNS
    label (lower case letters, digits and inner hyphens, 1 to 63 bytes) that
    does not read as an instance id; a domain is the root or a sequence of
    such labels of at most 253 bytes. *)
Theorem accepted_names_canonical (raw n : string) :
  (ParseName raw = Ok n → is_label n ∧ (len n =? 16)%nat && isHex n = false ∧ ParseName n = Ok n) ∧
  (ParseDomain raw = Ok n →
     (n = RootDomain ∨ Forall is_label (Split n "."%char) ∧ (len n ≤ 253)%nat) ∧ ParseDomain n = Ok n).
Proof.
  split.
  - intros (_ & Hn & Hx)%ParseName_Ok. split_and!; [done..|]. apply ParseName_Ok.
    pose proof Hn as (_&_&_&Hc). apply label_plain in Hc.
    by rewrite TrimSpace_plain, ToLower_plain.
  - intros H. split; [by eapply ParseDomain_shape|by eapply ParseDomain_fixed].
Qed.
Lemma accepted_names_canonical_witness :
  ParseName " RailWay " = Ok "railway" ∧ ParseName "railway" = Ok "railway" ∧
  ParseDomain " Svc.Cluster.LOCAL. " = Ok "svc.cluster.local" ∧
  ParseDomain "svc.cluster.local" = Ok "svc.cluster.local".
Proof.
  assert (ParseName " RailWay " = Ok "railway") as E by reflexivity.
  assert (ParseDomain " Svc.Cluster.LOCAL. " = Ok "svc.cluster.local") as E' by reflexivity.
  split; [exact E|]. split; [|split; [exact E'|]].
  - apply (proj1 (accepted_names_canonical " RailWay " "railway") E).
  - apply (proj2 (accepted_names_canonical " Svc.Cluster.LOCAL. " "svc.cluster.local") E').
Defined.

(** A member name is checked label by label with [ParseName], which trims
    each label before it looks at it, but the name is kept as it came.  So
    what is accepted is a sequence of labels up to the white space around the
    dots, and that white space survives into the stored name: the name is not
    a fixed point, and two spellings of one name are told apart. *)
Theorem member_name_not_canonical :
  (∀ raw n, ParseMemberName raw = Ok n →
     (len n ≤ 253)%nat ∧ Forall (λ l, is_label (ToLower (TrimSpace l))) (Split n "."%char)) ∧
  ParseMemberName "prod .api ." = Ok "prod .api " ∧ ParseMemberName "prod .api " = Ok "prod .api" ∧
  ParseMemberName "prod.api" = Ok "prod.api".
Proof.
  split; [|done]. intros raw n (_ & Hl & Hf & _)%ParseMemberName_Ok. split; [done|].
  eapply Forall_impl; [exact Hf|]. intros l Hok. simpl in *.
  destruct (ParseName l) as [l'| |] eqn:E; [|done..].
  by apply ParseName_Ok in E as (-> & Hl' & _).
Qed.

(** Folding never refuses.  Whatever a machine is called, the result is a
    DNS label without a double hyphen, and folding it again changes nothing. *)
Theorem FoldLabel_total (raw : string) :
  is_label (FoldLabel raw) ∧ Contains (FoldLabel raw) "--" = false ∧
  FoldLabel (FoldLabel raw) = FoldLabel raw.
Proof.
  destruct (FoldLabel_shape raw) as [Hl Hd]. split_and!; [done|by apply Contains_double|].
  by apply FoldLabel_id.
Qed.

(** Certificate names identify what they name.  Two members share a
    certificate name only when they have the same name, the same side (a
    connector, or a machine) and the same instance; and no member's
    certificate name is that of an instance's lighthouse.  Instance names are
    labels, which is what [ParseName] accepts; member names may be dotted. *)
Theorem cert_names_injective (kind kind' name name' inst inst' : string) :
  is_label inst → is_label inst' →
  (MemberCertName kind name inst = MemberCertName kind' name' inst' →
     name = name' ∧ certKind kind = certKind kind' ∧ inst = inst') ∧
  MemberCertName kind name inst ≠ LighthouseCertName inst'.
Proof.
  intros Hi%label_dot_free Hi'%label_dot_free. rewrite !MemberCertName_shape. split.
  - intros H. apply dotted_inj in H as [H _]; [|apply CertSuffix_dot_free..].
    apply dotted_inj in H as [H ->]; [|done..].
    apply dotted_inj in H as [-> ->]; [done|apply certKind_dot_free..].
  - unfold LighthouseCertName. intros H.
    change ("hub." +:+ inst' +:+ "." +:+ CertSuffix)
      with ("hub" +:+ "." +:+ (inst' +:+ "." +:+ CertSuffix)) in H.
    rewrite <-(string_app_assoc "." inst'), <-(string_app_assoc "hub") in H.
    apply dotted_inj in H as [H _]; [|apply CertSuffix_dot_free..].
    apply dotted_inj in H as [H _]; [|done..].
    assert (dot_free "hub") as Hh by (vm_compute; set_solver).
    apply Hh. rewrite <-H, !s2l_app. set_solver.
Qed.
Lemma cert_names_injective_witness :
  MemberCertName KindOwner "mara" "lab" ≠ LighthouseCertName "lab" ∧
  (MemberCertName KindOwner "mara" "lab" = MemberCertName KindTenant "mara" "lab" → "mara" = "mara").
Proof.
  assert (is_label "lab") as H.
  { split; [discriminate|]. split; [vm_compute; lia|]. split; [reflexivity|]. repeat constructor. }
  split.
  - apply (cert_names_injective KindOwner KindOwner "mara" "mara" "lab" "lab" H H).
  - intros E. exact (proj1 (proj1 (cert_names_injective KindOwner KindTenant "mara" "mara" "lab" "lab" H H) E)).
Defined.
