(* ===== verification/Protocol.v ===== *)
(** * The wire protocol: [internal/enroll/protocol.go]

    The messages the three roles exchange, the bytes a request's
    authentication code covers, and the checks a request passes before the hub
    stores it.  Points in time are integers (nanoseconds), the zero time is 0.
    The hash functions of Go's standard library are a class: every theorem
    holds for all functions with outputs of 32 bytes, and a collision appears
    in a statement as two different inputs with one output. *)

From Stdlib Require Import Ascii.
From S2P Require Export Names.

Open Scope Z_scope.

(** ** Definitions *)

Class Crypto := {
  sha256 : string → list Z;
  (** [hmac.New(sha256.New, key)]: key, then message. *)
  hmac_sha256 : string → string → list Z;
  sha256_bytes : ∀ s, Forall is_byte (sha256 s) ∧ length (sha256 s) = 32%nat;
  hmac_bytes : ∀ k s, Forall is_byte (hmac_sha256 k s) ∧ length (hmac_sha256 k s) = 32%nat;
}.

Definition Time : Type := Z.
Definition TimeZero : Time := 0.

Inductive Status : Type := StatusPending | StatusApproved | StatusRejected | StatusOther (s : string).
#[export] Instance Status_eq_dec : EqDecision Status.
Proof. solve_decision. Defined.

Record Request : Type := mkRequest {
  rq_PublicKey : string;
  rq_Name : string;
  rq_Routes : list Prefix;
  rq_Domain : string;
  rq_Hints : gomap string;
}.
Definition set_Name (n : string) (r : Request) : Request :=
  mkRequest (rq_PublicKey r) n (rq_Routes r) (rq_Domain r) (rq_Hints r).
Definition set_Domain (d : string) (r : Request) : Request :=
  mkRequest (rq_PublicKey r) (rq_Name r) (rq_Routes r) d (rq_Hints r).
Definition set_Hints (h : gomap string) (r : Request) : Request :=
  mkRequest (rq_PublicKey r) (rq_Name r) (rq_Routes r) (rq_Domain r) h.

Definition normalizePEM (s : string) : string := Join (Fields s) " ".

Definition nl : string := l2s [chr 10].

(** The lines of the hints, in the order of their sorted keys. *)
Definition hint_lines (hints : gmap string string) (keys : list string) : string :=
  foldr (λ k rest, "hint." +:+ k +:+ "=" +:+ default "" (hints !! k) +:+ nl +:+ rest) "" keys.
Definition Canonical (ρ : Range) (r : Request) : string :=
  let routes := sort_strings (Prefix_String <$> rq_Routes r) in
  let keys := sort_strings (range ρ (mget (rq_Hints r))).*1 in
  "robinet/v1/enroll" +:+ nl +:+
  "public_key=" +:+ normalizePEM (rq_PublicKey r) +:+ nl +:+
  "name=" +:+ rq_Name r +:+ nl +:+
  "routes=" +:+ Join routes "," +:+ nl +:+
  "domain=" +:+ rq_Domain r +:+ nl +:+
  hint_lines (mget (rq_Hints r)) keys.

Section MAC.
Context `{HC : Crypto}.

Definition MAC (ρ : Range) (r : Request) (token : string) : string :=
  EncodeHex (hmac_sha256 token (Canonical ρ r)).
Definition VerifyMAC (ρ : Range) (r : Request) (token mac : string) : bool :=
  match DecodeHex (MAC ρ r token) with
  | None => false
  | Some want =>
      match DecodeHex mac with
      | None => false
      | Some got => bool_decide (want = got)
      end
  end.
End MAC.

(** The loop over the routes: the first bad one is reported. *)
Fixpoint validate_routes (routes : list Prefix) : res () :=
  match routes with
  | [] => Ok ()
  | p :: routes =>
      if negb (IsValid p) then Err (Errorf "invalid route: %s")
      else if bool_decide (p_addr p ≠ p_addr (Masked p))
      then Err (Errorf "route %s has bits set outside the prefix")
      else validate_routes routes
  end.
(** [Validate] writes the parsed domain back into the request: the answer is
    the request as it is left. *)
Definition Validate (r : Request) : res Request :=
  if decide (TrimSpace (rq_PublicKey r) = "") then Err (Errorf "public key is missing")
  else if (64 <? length (rq_Routes r))%nat then Err (Errorf "too many routes: %d")
  else
    let? _ := validate_routes (rq_Routes r) in
    let? r := (if decide (rq_Domain r = "") then Ok r
               else let? name := ParseDomain (rq_Domain r) in Ok (set_Domain name r)) in
    if (64 <? size (mget (rq_Hints r)))%nat then Err (Errorf "too many hints: %d") else Ok r.

Record Lighthouse : Type := mkLighthouse {
  l_OverlayAddress : Addr;
  l_OverlayAddress6 : Addr;
  l_Endpoints : list string;
  l_Relay : bool;
}.
Record Bundle : Type := mkBundle {
  bu_Certificate : string;
  bu_CA : string;
  bu_OverlayAddress : Prefix;
  bu_OverlayAddress6 : Prefix;
  bu_Lighthouse : Lighthouse;
  bu_MTU : Z;
  bu_Instance : string;
  bu_Blocked : list string;
}.
Definition set_Blocked (l : list string) (b : Bundle) : Bundle :=
  mkBundle (bu_Certificate b) (bu_CA b) (bu_OverlayAddress b) (bu_OverlayAddress6 b)
    (bu_Lighthouse b) (bu_MTU b) (bu_Instance b) l.

(** [enroll.Record]. *)
Record EnrollRecord : Type := mkEnrollRecord {
  er_ID : string;
  er_Status : Status;
  er_Request : Request;
  er_Fingerprint : string;
  er_OverlayAddress : Prefix;
  er_OverlayAddress6 : Prefix;
  er_SourceAddr : string;
  er_ReceivedAt : Time;
  er_DecidedAt : Time;
}.
Record Result : Type := mkResult {
  rs_Status : Status;
  rs_RetryAfter : Z;
  rs_Bundle : option Bundle;
  rs_Reason : string;
}.
Record Decision_ : Type := mkDecision {
  d_Status : Status;
  d_Bundle : option Bundle;
  d_Reason : string;
  d_Name : string;
  d_Routes : list Prefix;
  d_Domain : string;
  d_CertFingerprint : string;
}.

(** ** The canonical form *)

(** The bytes a MAC covers do not depend on the order in which the map of the
    hints is walked. *)
Lemma Canonical_range ρ ρ' r : Canonical ρ r = Canonical ρ' r.
Proof. unfold Canonical. do 5 f_equal. by rewrite !range_perm. Qed.

Lemma VerifyMAC_eq `{Crypto} ρ r token mac :
  VerifyMAC ρ r token mac = true ↔ DecodeHex mac = Some (hmac_sha256 token (Canonical ρ r)).
Proof.
  unfold VerifyMAC, MAC. rewrite DecodeHex_Encode by apply hmac_bytes.
  destruct (DecodeHex mac) as [got|]; [|done]. rewrite bool_decide_eq_true. split; congruence.
Qed.

Lemma validate_routes_Ok routes :
  validate_routes routes = Ok () ↔
  Forall (λ p, IsValid p = true ∧ p_addr p = p_addr (Masked p)) routes.
Proof.
  induction routes as [|p routes IH]; simpl; [by split; constructor|]. rewrite Forall_cons, <-IH.
  destruct (IsValid p); simpl; [|naive_solver]. case_bool_decide; naive_solver.
Qed.

Lemma Validate_Ok r r' :
  Validate r = Ok r' ↔
  TrimSpace (rq_PublicKey r) ≠ "" ∧ (length (rq_Routes r) ≤ 64)%nat ∧
  validate_routes (rq_Routes r) = Ok () ∧
  ∃ d, (rq_Domain r = "" ∧ d = "" ∨ rq_Domain r ≠ "" ∧ ParseDomain (rq_Domain r) = Ok d) ∧
    r' = set_Domain d r ∧ (size (mget (rq_Hints r)) ≤ 64)%nat.
Proof.
  unfold Validate. case_decide as Hk; [naive_solver|].
  destruct (Nat.ltb_spec 64 (length (rq_Routes r))) as [|Hlen]; [split; [done|intros; lia]|].
  destruct (validate_routes (rq_Routes r)) as [[]| |]; [|naive_solver..]. cbn [bindR].
  assert (rq_Domain r = "" → set_Domain "" r = r) as E0 by (destruct r; by intros [= ->]).
  case_decide as Hd; [|destruct (ParseDomain _) as [d| |]; [|naive_solver..]]; cbn [bindR].
  - destruct (Nat.ltb_spec 64 (size (mget (rq_Hints r)))) as [|Hh].
    + split; [done|intros (_&_&_&?&_&_&?); lia].
    + split; [intros [= <-]|]; [split_and!; try done; exists ""; split_and!; try done; [by left|by rewrite E0]|].
      intros (_&_&_&d&[[_ ->]|[? _]]&->&_); [by rewrite E0|done].
  - change (rq_Hints (set_Domain d r)) with (rq_Hints r).
    destruct (Nat.ltb_spec 64 (size (mget (rq_Hints r)))) as [|Hh].
    + split; [done|intros (_&_&_&?&_&_&?); lia].
    + split; [intros [= <-]|]; [split_and!; try done; exists d; split_and!; try done; by right|].
      intros (_&_&_&d'&[[? _]|[_ [= ->]]]&->&_); done.
Qed.

(** ** Properties *)

(** A request authenticates under the shared token exactly when the code
    it came with is the one its own canonical bytes give; the order of its
    routes, the order of the hints in memory, and the line breaks of the key
    do not matter. *)
Theorem MAC_order_independent `{HC : Crypto} (ρ ρ' : Range) (r r' : Request) (token : string) :
  VerifyMAC ρ r token (MAC ρ' r token) = true ∧
  (normalizePEM (rq_PublicKey r) = normalizePEM (rq_PublicKey r') → rq_Name r = rq_Name r' →
   rq_Routes r ≡ₚ rq_Routes r' → rq_Domain r = rq_Domain r' →
   mget (rq_Hints r) = mget (rq_Hints r') →
   ∀ mac, VerifyMAC ρ r token mac = VerifyMAC ρ' r' token mac).
Proof.
  split.
  - apply VerifyMAC_eq. unfold MAC. rewrite DecodeHex_Encode by apply hmac_bytes.
    by rewrite (Canonical_range ρ' ρ).
  - intros Hk Hn Hr Hd Hh mac. apply eq_true_iff_eq. rewrite !VerifyMAC_eq.
    assert (Canonical ρ r = Canonical ρ' r') as ->; [|done].
    unfold Canonical. rewrite Hk, Hn, Hd, Hh. rewrite Hr. by rewrite !range_perm.
Qed.

(** The canonical bytes do not delimit their fields, so a code that was
    computed for one request authenticates another: a domain holding a line
    break reads like a hint.  (Only a domain that [Validate] accepts is ever
    compared this way at the hub, but hints hold arbitrary text: two requests
    with different hints share one canonical form.) *)
Theorem Canonical_ambiguous (ρ : Range) :
  ∃ r r', Validate r = Ok r ∧ Validate r' = Ok r' ∧
    mget (rq_Hints r) ≠ mget (rq_Hints r') ∧ Canonical ρ r = Canonical ρ r'.
Proof.
  exists (mkRequest "key" "db" [] "" (Some {["a" := "1" +:+ nl +:+ "hint.b=2"]})),
    (mkRequest "key" "db" [] "" (Some (<["a" := "1"]> {["b" := "2"]}))).
  split_and!; [reflexivity|reflexivity| |].
  - intros H. apply (f_equal (λ m : gmap string string, m !! "b")) in H. vm_compute in H. discriminate.
  - rewrite !(Canonical_range ρ range_default). vm_compute. reflexivity.
Qed.

(** What [Validate] lets through: a public key that is not blank, at most
    64 routes, every one of them a valid prefix without host bits, at most 64
    hints, and a domain that is absent or in canonical form; nothing but the
    domain is changed, and validating again changes nothing. *)
Theorem Validate_spec (r r' : Request) :
  Validate r = Ok r' →
  TrimSpace (rq_PublicKey r') ≠ "" ∧ (length (rq_Routes r') ≤ 64)%nat ∧
  Forall (λ p, IsValid p = true ∧ p_addr p = p_addr (Masked p)) (rq_Routes r') ∧
  (size (mget (rq_Hints r')) ≤ 64)%nat ∧
  (rq_Domain r' = "" ∨ ParseDomain (rq_Domain r') = Ok (rq_Domain r')) ∧
  set_Domain (rq_Domain r) r' = r ∧ Validate r' = Ok r'.
Proof.
  intros (Hk & Hlen & Hr & d & Hd & -> & Hh)%Validate_Ok.
  assert (rq_Domain (set_Domain d r) = d) as Ed by done. rewrite Ed.
  split_and!; try done; [by apply validate_routes_Ok| | |].
  - destruct Hd as [[? ->]|[? Hd]]; [by left|right; by eapply ParseDomain_fixed].
  - by destruct r.
  - apply Validate_Ok. split_and!; try done. exists d. split_and!; try done. simpl.
    destruct Hd as [[? ->]|[? Hd]]; [by left|right].
    split; [by eapply ParseDomain_nonempty|by eapply ParseDomain_fixed].
Qed.
Lemma Validate_spec_witness :
  let r := mkRequest "key" "db" [mkPrefix (Addr4 167772160) 8] " Corp.Local. " None in
  Validate r = Ok (set_Domain "corp.local" r) ∧
  Validate (set_Domain "corp.local" r) = Ok (set_Domain "corp.local" r).
Proof.
  intros r. assert (Validate r = Ok (set_Domain "corp.local" r)) as E by (vm_compute; reflexivity).
  split; [exact E|]. apply (Validate_spec r (set_Domain "corp.local" r) E).
Defined.

(** A concrete hash, to evaluate runs with: it is no cryptographic hash, and
    nothing but the laws of the class is assumed of one. *)
Definition checksum (s : string) : Z := foldr (λ c acc, (code c + 31 * acc) mod 2 ^ 61) 7 (s2l s).
Lemma toy_bytes z : Forall is_byte (be_bytes 32 z) ∧ length (be_bytes 32 z) = 32%nat.
Proof. split; [apply be_bytes_is_byte|apply length_be_bytes]. Qed.
Definition toy_crypto : Crypto :=
  {| sha256 := λ s, be_bytes 32 (checksum s);
     hmac_sha256 := λ k s, be_bytes 32 (checksum (k +:+ nl +:+ s));
     sha256_bytes := λ s, toy_bytes _;
     hmac_bytes := λ k s, toy_bytes _ |}.

Lemma MAC_order_independent_witness :
  let r := mkRequest "key" "db" [] "" (Some {["host" := "a"]}) in
  VerifyMAC (HC := toy_crypto) range_default r "secret" (MAC (HC := toy_crypto) range_default r "secret") = true ∧
  VerifyMAC (HC := toy_crypto) range_default r "secret" "00" = false.
Proof.
  intros r. split; [|vm_compute; reflexivity].
  exact (proj1 (@MAC_order_independent toy_crypto range_default range_default r r "secret")).
Defined.
