(* ===== verification/Wrak.v ===== *)
(** * Authentication: [internal/wrak]

    Machine identities and signed requests ([identity.go], [nonce.go]), and
    the ssh signature that lets a machine register ([bootstrap.go],
    [sshsig.go]).  Ed25519 and the other primitives of Go's standard library
    are classes with the laws their documentation states; the ssh library, a
    third party, is a class of operations.  A request is what Go's server hands
    to a handler: the query and the header already parsed. *)

From Stdlib Require Import Ascii.
From S2P Require Export GoCodec Protocol.

Open Scope Z_scope.

(** ** Identities *)

Class Ed25519 := {
  (** [private.Public()]. *)
  ed_public : list Z → list Z;
  ed_sign : list Z → string → list Z;
  ed_verify : list Z → string → list Z → bool;
  ed_public_bytes : ∀ k, Forall is_byte (ed_public k) ∧ length (ed_public k) = 32%nat;
  ed_sign_bytes : ∀ k m, Forall is_byte (ed_sign k m) ∧ length (ed_sign k m) = 64%nat;
  ed_correct : ∀ k m, ed_verify (ed_public k) m (ed_sign k m) = true;
}.
Definition PrivateKeySize : nat := 64.
Definition PublicKeySize : nat := 32.

Definition IdentityPrefix : string := "ed25519:".

(** [Identity]: the private key. *)
Record Identity_ : Type := mkIdentity { private : list Z }.
Definition ParseIdentity (encoded : string) : res Identity_ :=
  match DecodeB64 true encoded with
  | None => Err (Wrap "malformed identity key: %w" (Errorf "illegal base64 data"))
  | Some raw =>
      if negb (length raw =? PrivateKeySize)%nat
      then Err (Errorf "identity key is %d bytes, expected %d")
      else Ok (mkIdentity raw)
  end.
Definition Private (i : Identity_) : string := EncodeB64 true (private i).
Definition PublicIdentity (pub : list Z) : string := IdentityPrefix +:+ EncodeB64 true pub.
Definition ParsePublicIdentity (s : string) : res (list Z) :=
  match CutPrefix s IdentityPrefix with
  | None => Err (Errorf "identity %q does not start with %s")
  | Some encoded =>
      match DecodeB64 true encoded with
      | None => Err (Wrap "malformed identity: %w" (Errorf "illegal base64 data"))
      | Some raw =>
          if negb (length raw =? PublicKeySize)%nat
          then Err (Errorf "identity is %d bytes, expected %d")
          else Ok raw
      end
  end.

(** ** Spent nonces *)

(** What a request is checked against: the store answers whether a nonce was
    fresh, at a time, and remembers it. *)
Class NonceStore (S : Type) := {
  Use : Time → string → string → Z → S → bool * S;
  (** A pair that is refused until a point in time. *)
  Spent : string → string → Time → S → Prop;
  use_fresh : ∀ now id n ttl s s', Use now id n ttl s = (true, s') → Spent id n (now + ttl) s';
  use_spent : ∀ now id n ttl until s, Spent id n until s → now < until → (Use now id n ttl s).1 = false;
  use_keeps : ∀ now id n ttl until id' n' s,
    Spent id' n' until s → now < until → Spent id' n' until (Use now id n ttl s).2;
}.

Record MemoryNonces : Type := mkNonces { seen : gmap string Time; swept : Time }.
Definition NewMemoryNonces : MemoryNonces := mkNonces ∅ TimeZero.

Definition nonce_key (identity nonce : string) : string := identity +:+ l2s [chr 0] +:+ nonce.
Definition sweep (now : Time) (ttl : Z) (m : MemoryNonces) : MemoryNonces :=
  if ttl <? TimeSub now (swept m)
  then mkNonces (filter (λ kv, ¬ kv.2 < now) (seen m)) now
  else m.
Definition MemoryUse (now : Time) (identity nonce : string) (ttl : Z) (m : MemoryNonces)
    : bool * MemoryNonces :=
  let key := nonce_key identity nonce in
  let m := sweep now ttl m in
  match seen m !! key with
  | Some expiry =>
      if now <? expiry then (false, m)
      else (true, mkNonces (<[key := now + ttl]> (seen m)) (swept m))
  | None => (true, mkNonces (<[key := now + ttl]> (seen m)) (swept m))
  end.

(** ** Signed requests *)

Record HttpRequest : Type := mkHttp {
  r_Host : string;
  r_Method : string;
  r_Path : string;
  r_Query : gmap string (list string);
  r_Header : gmap string (list string);
  r_Body : string;
  r_RemoteAddr : string;
}.
(** [r.Header.Get], of a canonical header name. *)
Definition Header_Get (r : HttpRequest) (name : string) : string :=
  match r_Header r !! name with Some (v :: _) => v | _ => "" end.
Definition Header_Set (name v : string) (r : HttpRequest) : HttpRequest :=
  mkHttp (r_Host r) (r_Method r) (r_Path r) (r_Query r) (<[name := [v]]> (r_Header r)) (r_Body r)
    (r_RemoteAddr r).

Definition HeaderIdentity : string := "Wrak-Identity".
Definition HeaderTimestamp : string := "Wrak-Timestamp".
Definition HeaderNonce : string := "Wrak-Nonce".
Definition HeaderSignature : string := "Wrak-Signature".

Definition Window : Z := 5 * Minute.

Definition query_pairs (ρ : Range) (query : gmap string (list string)) : list string :=
  range ρ query ≫= λ kv, (λ v, QueryEscape kv.1 +:+ "=" +:+ QueryEscape v) <$> kv.2.
Definition canonicalRequest `{HC : Crypto} (ρ : Range) (host method path : string)
    (query : gmap string (list string)) (body timestamp nonce : string) : string :=
  let pairs := sort_strings (query_pairs ρ query) in
  "wrak/v1/request" +:+ nl +:+
  "host=" +:+ ToLower host +:+ nl +:+
  "method=" +:+ ToUpper method +:+ nl +:+
  "path=" +:+ path +:+ nl +:+
  "query=" +:+ Join pairs "&" +:+ nl +:+
  "body_sha256=" +:+ EncodeHex (sha256 body) +:+ nl +:+
  "timestamp=" +:+ timestamp +:+ nl +:+
  "nonce=" +:+ nonce +:+ nl.

Section Requests.
Context `{HC : Crypto} `{HE : Ed25519}.

(** The bytes [VerifyRequest] checks the signature of. *)
Definition canonical_of (ρ : Range) (r : HttpRequest) (body : string) : string :=
  canonicalRequest ρ (r_Host r) (r_Method r) (r_Path r) (r_Query r) body
    (Header_Get r HeaderTimestamp) (Header_Get r HeaderNonce).

(** [SignRequest], with the sixteen random bytes it draws. *)
Definition SignRequest (ρ : Range) (now : Time) (nonceRaw : list Z) (i : Identity_) (body : string)
    (r : HttpRequest) : HttpRequest :=
  let nonce := EncodeB64 true nonceRaw in
  let timestamp := FormatRFC3339 now in
  let canonical := canonicalRequest ρ (r_Host r) (r_Method r) (r_Path r) (r_Query r) body timestamp nonce in
  let signature := ed_sign (private i) canonical in
  Header_Set HeaderSignature (EncodeB64 true signature)
    (Header_Set HeaderNonce nonce
      (Header_Set HeaderTimestamp timestamp
        (Header_Set HeaderIdentity (PublicIdentity (ed_public (private i))) r))).

Definition VerifyRequest {S} `{!NonceStore S} (ρ : Range) (now : Time) (r : HttpRequest) (body : string)
    : M S string :=
  let identity := Header_Get r HeaderIdentity in
  let timestamp := Header_Get r HeaderTimestamp in
  let nonce := Header_Get r HeaderNonce in
  let signature := Header_Get r HeaderSignature in
  do* guard (negb (bool_decide (identity = "" ∨ timestamp = "" ∨ nonce = "" ∨ signature = "")))
        (Errorf "request is not signed") in
  let* pub := liftR (ParsePublicIdentity identity) in
  match ParseRFC3339 timestamp with
  | None => raise (Wrap "malformed timestamp: %w" (Errorf "parsing time"))
  | Some when =>
      let drift := TimeSub now when in
      do* guard (negb ((Window <? drift) || (drift <? - Window)))
            (Errorf "timestamp is %s away, outside the %s window") in
      match DecodeB64 true signature with
      | None => raise (Wrap "malformed signature: %w" (Errorf "illegal base64 data"))
      | Some raw =>
          let canonical := canonicalRequest ρ (r_Host r) (r_Method r) (r_Path r) (r_Query r) body
                             timestamp nonce in
          do* guard (ed_verify pub canonical raw) (Errorf "signature does not verify") in
          let* fresh := (λ s, let u := Use now identity nonce Window s in (Ok u.1, u.2)) in
          do* guard fresh (Errorf "nonce has already been used") in
          retM identity
      end
  end.
End Requests.

(** [subtle.ConstantTimeCompare] of two strings. *)
Definition ConstantTimeEqual (a b : string) : bool := bool_decide (a = b).

(** ** Signatures of ssh keys *)

Record wrappedSig : Type := mkWrapped {
  w_Magic : string;
  w_Version : Z;
  w_PublicKey : string;
  w_Namespace : string;
  w_Reserved : string;
  w_HashAlgorithm : string;
  w_Signature : string;
}.
Record signedData : Type := mkSigned {
  s_Namespace : string;
  s_Reserved : string;
  s_HashAlgorithm : string;
  s_Hash : string;
}.

(** An ssh public key is its wire encoding, which is what the program compares
    keys by. *)
Abbreviation PublicKey := string (only parsing).

(** The ssh library and the primitives the signatures are made of: keys,
    signatures, and the wire format of the two structures above. *)
Class SshLib := {
  ssh_Signature : Type;
  key_Verify : PublicKey → string → ssh_Signature → bool;
  ParsePublicKey : string → option PublicKey;
  ParseAuthorizedKey : string → option PublicKey;
  MarshalAuthorizedKey : PublicKey → string;
  FingerprintSHA256 : PublicKey → string;
  Marshal_signed : signedData → string;
  Unmarshal_wrapped : string → option wrappedSig;
  Unmarshal_sig : string → option ssh_Signature;
  (** [pem.Decode]: the type and the bytes of the first block. *)
  pem_Decode : string → option (string * string);
  sha512 : string → list Z;
}.

Definition sshsigMagic : string := "SSHSIG".
Definition sshsigVersion : Z := 1.
Definition pemType : string := "SSH SIGNATURE".
Definition BootstrapNamespace : string := "wrak-bootstrap-v1".

Record Bootstrap : Type := mkBootstrap { b_API : string; b_Token : string; b_Name : string; b_Identity : string }.
Definition Message (b : Bootstrap) : string :=
  "wrak/v1/bootstrap" +:+ nl +:+
  "api=" +:+ ToLower (b_API b) +:+ nl +:+
  "registry_token=" +:+ b_Token b +:+ nl +:+
  "name=" +:+ b_Name b +:+ nl +:+
  "identity=" +:+ b_Identity b +:+ nl.

Section Ssh.
Context `{HC : Crypto} `{HS : SshLib}.

Definition bytes_string (l : list Z) : string := l2s (chr <$> l).
Definition marshal (s : signedData) : string := sshsigMagic +:+ Marshal_signed s.
Definition hash (algorithm message : string) : res (list Z) :=
  if decide (algorithm = "sha256") then Ok (sha256 message)
  else if decide (algorithm = "sha512") then Ok (sha512 message)
  else Err (Errorf "unsupported hash algorithm %q").

Definition VerifySSHSIG (armored message namespace : string) : res PublicKey :=
  match pem_Decode armored with
  | None => Err (Errorf "not an armored ssh signature")
  | Some (type, bytes) =>
      if decide (type ≠ pemType) then Err (Errorf "expected %q, got %q") else
      match Unmarshal_wrapped bytes with
      | None => Err (Wrap "malformed ssh signature: %w" (Errorf "ssh: unmarshal error"))
      | Some wrapped =>
          if decide (w_Magic wrapped ≠ sshsigMagic) then Err (Errorf "bad signature preamble")
          else if negb (w_Version wrapped =? sshsigVersion)
          then Err (Errorf "unsupported signature version %d")
          else if decide (w_Namespace wrapped ≠ namespace)
          then Err (Errorf "signature is for namespace %q, expected %q") else
          match ParsePublicKey (w_PublicKey wrapped) with
          | None => Err (Wrap "malformed public key: %w" (Errorf "ssh: short read"))
          | Some key =>
              match Unmarshal_sig (w_Signature wrapped) with
              | None => Err (Wrap "malformed signature: %w" (Errorf "ssh: unmarshal error"))
              | Some sig =>
                  let? digest := hash (w_HashAlgorithm wrapped) message in
                  let blob := marshal (mkSigned (w_Namespace wrapped) "" (w_HashAlgorithm wrapped)
                                         (bytes_string digest)) in
                  if key_Verify key blob sig then Ok key
                  else Err (Wrap "signature does not verify: %w" (Errorf "ssh: signature did not verify"))
              end
          end
      end
  end.

Definition AuthorizedKey (key : PublicKey) : string := TrimSpace (MarshalAuthorizedKey key).
(** Two keys, neither of them nil. *)
Definition key_Marshal (k : PublicKey) : list Z := bytes_of k.
Definition SameKey (a b : PublicKey) : bool :=
  bool_decide (EncodeB64 false (key_Marshal a) = EncodeB64 false (key_Marshal b)).

(** [Bootstrap.Verify]. *)
Definition Verify (b : Bootstrap) (armored : string) (authorized : list PublicKey) : res PublicKey :=
  let? key := VerifySSHSIG armored (Message b) BootstrapNamespace in
  if existsb (SameKey key) authorized then Ok key
  else Err (Errorf "signature is valid but the key is not authorized").

Fixpoint ParseAuthorizedKeys (entries : list string) : res (list PublicKey) :=
  match entries with
  | [] => Ok []
  | entry :: entries =>
      let entry := TrimSpace entry in
      if bool_decide (entry = "") || HasPrefix entry "#" then ParseAuthorizedKeys entries else
      match ParseAuthorizedKey entry with
      | None => Err (Wrap "could not read authorized key %q: %w" (Errorf "ssh: no key found"))
      | Some key => let? out := ParseAuthorizedKeys entries in Ok (key :: out)
      end
  end.

(** [SignerFor], over the public keys of the signers an agent holds. *)
Definition SignerFor (signers : list PublicKey) (authorizedKey : string) : res PublicKey :=
  if decide (TrimSpace authorizedKey = "") then
    match signers with
    | [k] => Ok k
    | _ => Err (Errorf "the agent holds %d keys, say which one to use")
    end
  else
    match ParseAuthorizedKey authorizedKey with
    | None => Err (Wrap "could not read the requested key: %w" (Errorf "ssh: no key found"))
    | Some want =>
        match find_first (λ s, SameKey s want) signers with
        | Some s => Ok s
        | None => Err (Errorf "the agent does not hold %s")
        end
    end.
End Ssh.

(** ** The memory store keeps the promise of a nonce store *)

(** A nonce is kept under its owner's identity until it expires. *)
Definition MemorySpent (identity nonce : string) (until : Time) (m : MemoryNonces) : Prop :=
  seen m !! nonce_key identity nonce = Some until.

Lemma sweep_keeps now ttl until key m :
  seen m !! key = Some until → now < until → seen (sweep now ttl m) !! key = Some until.
Proof.
  intros H Hn. unfold sweep. case_match; [|done]. simpl.
  apply map_lookup_filter_Some_2; [done|]. simpl. lia.
Qed.
Lemma sweep_subset now ttl key until m : seen (sweep now ttl m) !! key = Some until → seen m !! key = Some until.
Proof. unfold sweep. case_match; [|done]. simpl. by intros [? _]%map_lookup_filter_Some. Qed.

#[export] Program Instance MemoryNonces_store : NonceStore MemoryNonces := {
  Use := MemoryUse;
  Spent := MemorySpent;
}.
Next Obligation.
  intros now id n ttl m m'. unfold MemoryUse, MemorySpent.
  destruct (seen (sweep now ttl m) !! nonce_key id n) as [e|]; [case_match; [done|]|];
    intros [= <-]; simpl; by rewrite lookup_insert_eq.
Qed.
Next Obligation.
  intros now id n ttl until m H Hn. unfold MemoryUse. rewrite (sweep_keeps _ _ until) by done.
  by rewrite (proj2 (Z.ltb_lt _ _)) by lia.
Qed.
Next Obligation.
  intros now id n ttl until id' n' m H Hn. unfold MemoryUse, MemorySpent in *.
  pose proof (sweep_keeps now ttl until _ m H Hn) as Hk.
  destruct (decide (nonce_key id n = nonce_key id' n')) as [->|Hne].
  - rewrite Hk, (proj2 (Z.ltb_lt _ _)) by lia. done.
  - destruct (seen (sweep now ttl m) !! nonce_key id n) as [e|]; [case_match; [done|]|];
      simpl; by rewrite lookup_insert_ne.
Qed.

(** An expired or unknown nonce is fresh. *)
Lemma MemoryUse_expired now id n ttl m :
  (∀ until, MemorySpent id n until m → until ≤ now) → (MemoryUse now id n ttl m).1 = true.
Proof.
  intros H. unfold MemoryUse. destruct (seen (sweep now ttl m) !! _) as [e|] eqn:E; [|done].
  apply sweep_subset in E. rewrite (proj2 (Z.ltb_ge _ _)); [done|]. by apply H.
Qed.

(** ** Identities *)

Lemma ParsePublicIdentity_Ok s pub :
  ParsePublicIdentity s = Ok pub ↔
  ∃ enc, s = IdentityPrefix +:+ enc ∧ DecodeB64 true enc = Some pub ∧ length pub = PublicKeySize.
Proof.
  unfold ParsePublicIdentity. destruct (CutPrefix s IdentityPrefix) as [enc|] eqn:E.
  - apply CutPrefix_Some in E as ->. split.
    + destruct (DecodeB64 true enc) as [raw|] eqn:Hd; [|done].
      destruct (Nat.eqb_spec (length raw) PublicKeySize); [|done]. intros [= ->]. eauto.
    + intros (enc' & He & Hd & Hl).
      assert (enc = enc') as -> by (apply (f_equal s2l) in He; rewrite !s2l_app in He;
        apply app_inv_head in He; by apply (inj s2l)).
      rewrite Hd, Hl. done.
  - split; [done|]. intros (enc & -> & _). by rewrite CutPrefix_app in E.
Qed.

Lemma ParsePublicIdentity_Public `{Ed25519} k : ParsePublicIdentity (PublicIdentity (ed_public k)) = Ok (ed_public k).
Proof.
  apply ParsePublicIdentity_Ok. eexists. split; [done|]. destruct (ed_public_bytes k).
  split; [by apply DecodeB64_Encode|done].
Qed.

(** The characters of an identity: never an equals sign, nor a null byte. *)
Lemma DecodeB64_chars url s l :
  DecodeB64 url s = Some l → ∀ c, c ∈ s2l s → is_break c = true ∨ is_Some (b64_value url c).
Proof.
  unfold DecodeB64. intros (ds & Hd & _)%bind_Some c Hc.
  destruct (is_break c) eqn:Hb; [by left|right].
  apply mapM_Some in Hd.
  assert (c ∈ filter (λ c, is_break c = false) (s2l s)) as Hin by by apply list_elem_of_filter.
  apply list_elem_of_lookup in Hin as [i Hi]. destruct (Forall2_lookup_l _ _ _ _ _ Hd Hi) as (d & _ & E).
  by exists d.
Qed.
Lemma identity_no_equals s pub : ParsePublicIdentity s = Ok pub → "="%char ∉ s2l s.
Proof.
  intros (enc & -> & Hd & _)%ParsePublicIdentity_Ok. rewrite s2l_app, not_elem_of_app.
  split; [by apply (bool_decide_unpack _)|]. intros Hin.
  destruct (DecodeB64_chars _ _ _ Hd _ Hin) as [Hc|[v Hc]]; vm_compute in Hc; discriminate.
Qed.

(** Keys are the same when their wire encodings are. *)
Lemma SameKey_spec (a b : PublicKey) : SameKey a b = true ↔ a = b.
Proof.
  unfold SameKey, key_Marshal. rewrite bool_decide_eq_true. split; [|by intros ->].
  intros E%(f_equal (DecodeB64 false)). rewrite !DecodeB64_Encode in E by apply bytes_of_is_byte.
  injection E as E. by apply (inj (fmap code)), (inj s2l) in E.
Qed.

(** ** Running a verification *)

(** What an accepted request has passed. *)
Definition genuine `{HC : Crypto} `{HE : Ed25519} (ρ : Range) (now : Time) (r : HttpRequest) (body identity : string) : Prop :=
  identity = Header_Get r HeaderIdentity ∧
  Header_Get r HeaderTimestamp ≠ "" ∧ Header_Get r HeaderNonce ≠ "" ∧
  ∃ pub raw when,
    ParsePublicIdentity identity = Ok pub ∧
    ParseRFC3339 (Header_Get r HeaderTimestamp) = Some when ∧ - Window ≤ now - when ≤ Window ∧
    DecodeB64 true (Header_Get r HeaderSignature) = Some raw ∧ Header_Get r HeaderSignature ≠ "" ∧
    ed_verify pub (canonical_of ρ r body) raw = true.

Section Verification.
Context `{HC : Crypto} `{HE : Ed25519} {S : Type} `{!NonceStore S}.

Lemma drift_ok now when :
  (Window <? TimeSub now when) || (TimeSub now when <? - Window) = false ↔ - Window ≤ now - when ≤ Window.
Proof.
  unfold TimeSub. rewrite orb_false_iff, !Z.ltb_ge. change Window with 300000000000.
  split; lia.
Qed.

(** Everything but the nonce decides first, and leaves the store alone. *)
Lemma VerifyRequest_run ρ now r body (s : S) :
  (∃ identity, genuine ρ now r body identity ∧
     VerifyRequest ρ now r body s =
       (let u := Use now identity (Header_Get r HeaderNonce) Window s in
        if u.1 then (Ok identity, u.2) else (Err (Errorf "nonce has already been used"), u.2))) ∨
  (∃ e, VerifyRequest ρ now r body s = (Err e, s) ∧ ∀ identity, ¬ genuine ρ now r body identity).
Proof.
  unfold VerifyRequest. set (id := Header_Get r HeaderIdentity). set (ts := Header_Get r HeaderTimestamp).
  set (n := Header_Get r HeaderNonce). set (sg := Header_Get r HeaderSignature).
  rewrite bind_guard. case_bool_decide as Hne; simpl.
  { right. eexists. split; [done|]. intros ? (-> & ? & ? & ? & ? & ? & Hp & _ & _ & _ & ? & _).
    destruct Hne as [He|[?|[?|?]]]; try done. fold id in Hp. by rewrite He in Hp. }
  rewrite bind_liftR. destruct (ParsePublicIdentity id) as [pub|e|] eqn:Hp.
  2: { right. eexists. split; [done|]. intros ? (-> & _ & _ & ? & ? & ? & Hp' & _).
       fold id in Hp'. by rewrite Hp in Hp'. }
  2: { exfalso. revert Hp. unfold ParsePublicIdentity. repeat case_match; done. }
  destruct (ParseRFC3339 ts) as [when|] eqn:Ht.
  2: { right. eexists. split; [done|]. intros ? (_ & _ & _ & ? & ? & ? & _ & Ht' & _).
       fold ts in Ht'. by rewrite Ht in Ht'. }
  rewrite bind_guard. destruct (_ || _) eqn:Hd; simpl.
  { right. eexists. split; [done|]. intros ? (_ & _ & _ & ? & ? & ? & _ & Ht' & Hd' & _).
    fold ts in Ht'. rewrite Ht in Ht'. injection Ht' as <-. apply drift_ok in Hd'. congruence. }
  apply drift_ok in Hd.
  destruct (DecodeB64 true sg) as [raw|] eqn:Hs.
  2: { right. eexists. split; [done|]. intros ? (_ & _ & _ & ? & ? & ? & _ & _ & _ & Hs' & _).
       fold sg in Hs'. by rewrite Hs in Hs'. }
  rewrite bind_guard. destruct (ed_verify pub _ raw) eqn:Hv.
  2: { right. eexists. split; [done|]. intros ? (-> & _ & _ & pub' & raw' & ? & Hp' & _ & _ & Hs' & _ & Hv').
       fold id in Hp'. fold sg in Hs'. rewrite Hp in Hp'. rewrite Hs in Hs'. simplify_eq.
       unfold canonical_of in Hv'. fold ts n in Hv'. congruence. }
  left. exists id. split.
  - unfold genuine. fold id ts n sg. split_and!; [done|naive_solver..|]. exists pub, raw, when.
    split_and!; try done; naive_solver.
  - unfold bindM. simpl. destruct (Use now id n Window s) as [[] s']; done.
Qed.

Lemma VerifyRequest_accepts ρ now r body (s s' : S) identity :
  VerifyRequest ρ now r body s = (Ok identity, s') →
  genuine ρ now r body identity ∧ Use now identity (Header_Get r HeaderNonce) Window s = (true, s').
Proof.
  destruct (VerifyRequest_run ρ now r body s) as [(id & Hg & ->)|(e & -> & _)]; [|done].
  simpl. destruct (Use now id _ Window s) as [[] s1] eqn:E; simpl; [|done]. by intros [= <- <-].
Qed.

(** The bytes a signature covers do not depend on the order the query is
    walked in. *)
Lemma query_pairs_perm ρ ρ' query : query_pairs ρ query ≡ₚ query_pairs ρ' query.
Proof. unfold query_pairs. by rewrite !range_perm. Qed.
Lemma canonical_range ρ ρ' r body : canonical_of ρ r body = canonical_of ρ' r body.
Proof.
  unfold canonical_of, canonicalRequest. by rewrite (sort_strings_proper _ _ (query_pairs_perm ρ ρ' _)).
Qed.
Lemma genuine_range ρ ρ' now r body identity : genuine ρ now r body identity → genuine ρ' now r body identity.
Proof. unfold genuine. by rewrite (canonical_range ρ ρ'). Qed.
End Verification.
