(* ===== verification/WrakSpec.v ===== *)
(** * What a signed request and a bootstrap signature prove

    A signature is bound to the request it was made for; a request that was
    accepted is refused when it comes again, except where the two clocks
    differ; and what an ssh key signs to register a machine names that machine
    and its identity. *)

From Stdlib Require Import Ascii.
From S2P Require Export Wrak.

Open Scope Z_scope.

(** ** Lines *)

Definition line_break : ascii := chr 10.
Definition one_line (s : string) : Prop := line_break ∉ s2l s.
#[export] Instance one_line_dec s : Decision (one_line s).
Proof. unfold one_line. apply _. Defined.

#[export] Instance append_inj p : Inj (=) (=) (String.append p).
Proof.
  intros x y H. apply (f_equal s2l) in H. rewrite !s2l_app in H. apply (inj s2l).
  by apply app_inv_head in H.
Qed.
Lemma s2l_nl : s2l nl = [line_break].
Proof. done. Qed.
Lemma one_line_app s t : one_line (s +:+ t) ↔ one_line s ∧ one_line t.
Proof. unfold one_line. by rewrite s2l_app, not_elem_of_app. Qed.

Lemma line_first a b x y :
  one_line a → one_line b → a +:+ nl +:+ x = b +:+ nl +:+ y → a = b ∧ x = y.
Proof.
  intros Ha Hb H. apply (f_equal s2l) in H. rewrite !s2l_app in H.
  apply first_sep_inj in H as [H1 H2]; [|done..]. split; by apply (inj s2l).
Qed.
Lemma line_last a b x y :
  one_line a → one_line b → x +:+ nl +:+ a = y +:+ nl +:+ b → x = y ∧ a = b.
Proof.
  intros Ha Hb H. apply (f_equal s2l) in H. rewrite !s2l_app in H.
  apply last_sep_inj in H as [H1 H2]; [|done..]. split; by apply (inj s2l).
Qed.

(** A text made of ASCII characters, as a host, a method or a header value is. *)
Definition ascii_line (s : string) : Prop := Forall (λ c, 32 ≤ code c < 128) (s2l s).
#[export] Instance ascii_line_dec s : Decision (ascii_line s).
Proof. unfold ascii_line. apply _. Defined.
Lemma ascii_line_one_line s : ascii_line s → one_line s.
Proof. intros H Hin. eapply Forall_forall in Hin; [|exact H]. vm_compute in Hin. by destruct Hin. Qed.

Lemma mapped_one_line (f : Z → Z) s :
  (∀ r, 32 ≤ r < 128 → 32 ≤ f r < 128) → ascii_line s →
  one_line (string_of_runes (f <$> runes s)).
Proof.
  intros Hf Hs. apply ascii_line_one_line. unfold ascii_line, string_of_runes.
  rewrite s2l_l2s, runes_ascii by (eapply Forall_impl; [exact Hs|simpl; lia]).
  induction Hs as [|c l Hc Hs IH]; [constructor|]. rewrite !fmap_cons, bind_cons. apply Forall_app.
  split; [|done]. specialize (Hf (code c) Hc). unfold encode_rune.
  rewrite (proj2 (Z.leb_le _ _)), (proj2 (Z.ltb_lt _ _)) by lia. repeat constructor; rewrite code_chr; lia.
Qed.
Lemma ToLower_one_line s : ascii_line s → one_line (ToLower s).
Proof.
  apply mapped_one_line. intros r Hr. unfold lowerRune.
  repeat case_match; rewrite ?andb_true_iff, ?Z.leb_le in *; lia.
Qed.
Lemma ToUpper_one_line s : ascii_line s → one_line (ToUpper s).
Proof.
  apply mapped_one_line. intros r Hr. unfold upperRune.
  repeat case_match; rewrite ?andb_true_iff, ?Z.leb_le in *; lia.
Qed.

Lemma EncodeHex_one_line l : Forall is_byte l → one_line (EncodeHex l).
Proof.
  intros Hl. apply ascii_line_one_line. unfold ascii_line, EncodeHex. rewrite s2l_l2s.
  assert (∀ d, 0 ≤ d < 16 → 32 ≤ code (hex_digit d) < 128) as Hd.
  { intros d Hd. unfold hex_digit. rewrite code_chr; case_match; lia. }
  induction Hl as [|b l Hb Hl IH]; [constructor|]. rewrite bind_cons. apply Forall_app. split; [|done].
  unfold is_byte in Hb. repeat constructor; apply Hd; Z.div_mod_to_equations; lia.
Qed.

(** ** The query *)

Definition query_values (ρ : Range) (query : gmap string (list string)) : list (string * string) :=
  range ρ query ≫= λ kv, (λ v, (kv.1, v)) <$> kv.2.
Definition pair_text (kv : string * string) : string := QueryEscape kv.1 +:+ "=" +:+ QueryEscape kv.2.

Lemma query_pairs_values ρ query : query_pairs ρ query = pair_text <$> query_values ρ query.
Proof.
  unfold query_pairs, query_values. induction (range ρ query) as [|kv l IH]; [done|].
  rewrite !bind_cons, fmap_app, IH. f_equal. by rewrite <-list_fmap_compose.
Qed.

Lemma query_safe_not c s : query_safe c = false → c ∉ s2l (QueryEscape s).
Proof.
  intros Hc Hin. pose proof (QueryEscape_safe s) as H. rewrite Forall_forall in H.
  rewrite (H _ Hin) in Hc. done.
Qed.
#[export] Instance pair_text_inj : Inj (=) (=) pair_text.
Proof.
  intros [k v] [k' v'] H. apply (f_equal s2l) in H. unfold pair_text in H. simpl in H.
  rewrite !s2l_app in H. apply first_sep_inj in H as [H1 H2]; [|by apply query_safe_not..].
  f_equal; by apply (inj QueryEscape), (inj s2l).
Qed.
Lemma pair_text_chars kv c : query_safe c = false → c ≠ "="%char → c ∉ s2l (pair_text kv).
Proof.
  intros Hc Hne. unfold pair_text. rewrite !s2l_app, !not_elem_of_app.
  split_and!; [by apply query_safe_not| |by apply query_safe_not]. set_solver.
Qed.
Lemma pair_text_nonempty kv : pair_text kv ≠ "".
Proof.
  intros H. apply (f_equal s2l) in H. unfold pair_text in H. rewrite !s2l_app in H.
  apply app_nil in H as [_ [H _]%app_nil]. done.
Qed.

Lemma Join_amp_inj l l' :
  Forall (λ s, s ≠ "" ∧ "&"%char ∉ s2l s) l → Forall (λ s, s ≠ "" ∧ "&"%char ∉ s2l s) l' →
  Join l "&" = Join l' "&" → l = l'.
Proof.
  intros Hl. revert l'. induction Hl as [|s l [Hs Hc] Hl IH]; intros l' [|s' r' [Hs' Hc'] Hl'].
  - done.
  - destruct r'; simpl; intros H; [by rewrite <-H in Hs'|].
    apply (f_equal s2l) in H. rewrite !s2l_app in H. symmetry in H.
    apply app_nil in H as [H _]. by apply (inj s2l s' "") in H.
  - destruct l; simpl; intros H; [by subst|].
    apply (f_equal s2l) in H. rewrite !s2l_app in H.
    apply app_nil in H as [H _]. by apply (inj s2l s "") in H.
  - destruct l as [|t l], r' as [|t' r'].
    + simpl. by intros ->.
    + rewrite (Join_cons s') by done. simpl. intros ->. rewrite !s2l_app, !not_elem_of_app in Hc.
      destruct Hc as (_ & Hc & _). destruct Hc. left.
    + rewrite (Join_cons s) by done. simpl. intros <-. rewrite !s2l_app, !not_elem_of_app in Hc'.
      destruct Hc' as (_ & Hc' & _). destruct Hc'. left.
    + rewrite (Join_cons s), (Join_cons s') by done. intros H. apply (f_equal s2l) in H. rewrite !s2l_app in H.
      apply first_sep_inj in H as [H1 H2]; [|done..]. apply (inj s2l) in H1 as ->.
      f_equal. apply IH; [done|]. by apply (inj s2l).
Qed.

Lemma query_text_inj ρ ρ' q q' :
  Join (sort_strings (query_pairs ρ q)) "&" = Join (sort_strings (query_pairs ρ' q')) "&" →
  query_values ρ q ≡ₚ query_values ρ' q'.
Proof.
  assert (∀ ρ q, Forall (λ s, s ≠ "" ∧ "&"%char ∉ s2l s) (sort_strings (query_pairs ρ q))) as Hf.
  { intros ρ0 q0. rewrite sort_strings_perm, query_pairs_values, Forall_fmap. apply Forall_true.
    intros kv. split; [apply pair_text_nonempty|by apply pair_text_chars]. }
  intros H%Join_amp_inj; [|apply Hf..].
  assert (query_pairs ρ q ≡ₚ query_pairs ρ' q') as Hp
    by by rewrite <-(sort_strings_perm (query_pairs ρ q)), H, sort_strings_perm.
  rewrite !query_pairs_values in Hp.
  apply Permutation_map_inv in Hp as (l & He & Hl). rewrite Hl.
  by apply (inj (fmap pair_text)) in He as ->.
Qed.
Lemma query_text_one_line ρ q : one_line (Join (sort_strings (query_pairs ρ q)) "&").
Proof.
  assert (Forall (λ s, one_line s) (sort_strings (query_pairs ρ q))) as H.
  { rewrite sort_strings_perm, query_pairs_values, Forall_fmap. apply Forall_true.
    intros kv. by apply pair_text_chars. }
  induction H as [|s l Hs Hl IH]; [apply not_elem_of_nil|].
  destruct l as [|t l]; [done|]. rewrite Join_cons by done.
  rewrite !one_line_app. split_and!; [done| |done]. by apply (bool_decide_unpack _).
Qed.

(** ** Signed requests *)

(** A label of one line, before a value of one line. *)
Lemma labelled_one_line label v : one_line v → bool_decide (one_line label) = true → one_line (label +:+ v).
Proof. intros Hv Hl. apply one_line_app. split; [by apply bool_decide_dec in Hl|done]. Qed.
(** The lines after the path, read from the end. *)
Lemma last_lines p q b t n :
  p +:+ nl +:+ "query=" +:+ q +:+ nl +:+ "body_sha256=" +:+ b +:+ nl +:+ "timestamp=" +:+ t +:+ nl +:+
    "nonce=" +:+ n +:+ nl =
  ((((p +:+ nl +:+ ("query=" +:+ q)) +:+ nl +:+ ("body_sha256=" +:+ b)) +:+ nl +:+ ("timestamp=" +:+ t))
    +:+ nl +:+ ("nonce=" +:+ n)) +:+ nl +:+ "".
Proof. by rewrite !string_app_assoc, string_app_nil_r. Qed.

(** C37: a signature cannot be moved.  Two requests have the same canonical
    bytes only when they are for one host and one method up to case, for one
    path, with the same query parameters, with bodies of one hash, and with
    the same timestamp and nonce.  Host, method, timestamp and nonce are what a
    header can carry; the path, the query and the body are arbitrary. *)
Theorem signature_binds_request `{HC : Crypto} (ρ ρ' : Range) (host host' method method' path path' : string)
    (q q' : gmap string (list string)) (body body' ts ts' n n' : string) :
  ascii_line host → ascii_line host' → ascii_line method → ascii_line method' →
  one_line ts → one_line ts' → one_line n → one_line n' →
  canonicalRequest ρ host method path q body ts n = canonicalRequest ρ' host' method' path' q' body' ts' n' →
  ToLower host = ToLower host' ∧ ToUpper method = ToUpper method' ∧ path = path' ∧
  query_values ρ q ≡ₚ query_values ρ' q' ∧ sha256 body = sha256 body' ∧ ts = ts' ∧ n = n'.
Proof.
  intros Hh%ToLower_one_line Hh'%ToLower_one_line Hm%ToUpper_one_line Hm'%ToUpper_one_line Ht Ht' Hn Hn'.
  pose proof (EncodeHex_one_line _ (proj1 (sha256_bytes body))) as Hb.
  pose proof (EncodeHex_one_line _ (proj1 (sha256_bytes body'))) as Hb'.
  pose proof (query_text_one_line ρ q) as Hq. pose proof (query_text_one_line ρ' q') as Hq'.
  unfold canonicalRequest. intros H.
  do 3 apply (inj (String.append _)) in H.
  apply line_first in H as [Eh H]; [|done..]. apply (inj (String.append _)) in H.
  apply line_first in H as [Em H]; [|done..]. apply (inj (String.append _)) in H.
  rewrite !last_lines in H.
  apply line_last in H as [H _]; [|by apply (bool_decide_unpack _)..].
  apply line_last in H as [H En]; [|by apply labelled_one_line..].
  apply line_last in H as [H Et]; [|by apply labelled_one_line..].
  apply line_last in H as [H Eb]; [|by apply labelled_one_line..].
  apply line_last in H as [-> Eq]; [|by apply labelled_one_line..].
  apply (inj (String.append _)) in En as ->, Et as ->, Eb, Eq.
  split_and!; try done; [by apply query_text_inj|].
  apply (f_equal DecodeHex) in Eb. rewrite !DecodeHex_Encode in Eb by apply sha256_bytes.
  by injection Eb.
Qed.

Section Replay.
Context `{HC : Crypto} `{HE : Ed25519} {S : Type} `{HN : !NonceStore S}.

(** Other requests, verified one after another. *)
Record Attempt : Type := mkAttempt { at_time : Time; at_request : HttpRequest; at_body : string; at_range : Range }.
Definition attempt (a : Attempt) : M S string := VerifyRequest (at_range a) (at_time a) (at_request a) (at_body a).
Definition attempts (l : list Attempt) (s : S) : S := foldl (λ s a, (attempt a s).2) s l.

Lemma attempts_keep l id n until s :
  Spent id n until s → Forall (λ a, at_time a < until) l → Spent id n until (attempts l s).
Proof.
  intros Hs Hl. revert s Hs. induction Hl as [|a l Ha Hl IH]; intros s Hs; [done|].
  apply IH. unfold attempt.
  destruct (VerifyRequest_run (at_range a) (at_time a) (at_request a) (at_body a) s) as [(id' & _ & ->)|(e & -> & _)]; [|done].
  simpl. pose proof (use_keeps (at_time a) id' (Header_Get (at_request a) HeaderNonce) Window until id n s Hs Ha).
  by destruct (Use _ _ _ _ s) as [[] s'].
Qed.

(** C36: a request is accepted once.  After one was accepted at [t1], whatever
    else is verified in between, a request with the same identity and nonce is
    accepted again only when the window has passed since; and the same request,
    timestamp included, only when its timestamp was not behind the clock that
    first accepted it.  The nonce store is any that keeps the promise of
    [NonceStore]. *)
Theorem accepted_once (ρ ρ' : Range) (t1 t2 : Time) (r r' : HttpRequest) (body body' id id' : string)
    (s s1 s2 : S) (between : list Attempt) :
  VerifyRequest ρ t1 r body s = (Ok id, s1) →
  Forall (λ a, at_time a ≤ t2) between →
  VerifyRequest ρ' t2 r' body' (attempts between s1) = (Ok id', s2) →
  Header_Get r' HeaderIdentity = Header_Get r HeaderIdentity →
  Header_Get r' HeaderNonce = Header_Get r HeaderNonce →
  t1 + Window ≤ t2 ∧
  (Header_Get r' HeaderTimestamp = Header_Get r HeaderTimestamp →
   ∀ when, ParseRFC3339 (Header_Get r HeaderTimestamp) = Some when → t1 ≤ when).
Proof.
  intros [Hg Hu]%VerifyRequest_accepts Hb [Hg' Hu']%VerifyRequest_accepts Hid Hn.
  destruct Hg as (Hi & _). destruct Hg' as (Hi' & _ & _ & _ & _ & when' & _ & Hw & Hd & _).
  assert (t1 + Window ≤ t2) as Hlate.
  { destruct (Z.le_gt_cases (t1 + Window) t2) as [|Hlt]; [done|exfalso].
    assert (Spent id' (Header_Get r' HeaderNonce) (t1 + Window) (attempts between s1)) as Hs.
    { rewrite Hn, Hi', Hid, <-Hi. apply attempts_keep; [by eapply use_fresh|].
      eapply Forall_impl; [exact Hb|]. simpl. lia. }
    pose proof (use_spent t2 id' (Header_Get r' HeaderNonce) Window _ _ Hs Hlt) as Hf.
    by rewrite Hu' in Hf. }
  split; [done|]. intros Ht when Hwhen. rewrite Ht, Hwhen in Hw. injection Hw as <-.
  unfold Window in *. lia.
Qed.
End Replay.

(** And it is accepted twice when the caller's clock was ahead.  A nonce is
    kept for the window from the moment it was spent, but a timestamp is good
    for the window on either side of it: from the moment the nonce expires
    until the timestamp does, the very same request is accepted again. *)
Theorem replayed_after_the_nonce_expired `{HC : Crypto} `{HE : Ed25519} (ρ ρ' : Range) (t1 t2 when : Time)
    (r : HttpRequest) (body id : string) (m m1 : MemoryNonces) :
  VerifyRequest ρ t1 r body m = (Ok id, m1) →
  ParseRFC3339 (Header_Get r HeaderTimestamp) = Some when →
  t1 + Window ≤ t2 ≤ when + Window →
  (VerifyRequest ρ' t2 r body m1).1 = Ok id.
Proof.
  intros [Hg Hu]%VerifyRequest_accepts Hw Ht.
  assert (genuine ρ' t2 r body id) as Hg2.
  { destruct (genuine_range ρ ρ' _ _ _ _ Hg) as (-> & H1 & H2 & pub & raw & w & Hp & Hw' & Hd & H3).
    rewrite Hw in Hw'. injection Hw' as <-. split_and!; [done..|]. exists pub, raw, when.
    unfold Window, Minute, Second in *. destruct H3 as (?&?&?). split_and!; try done; lia. }
  destruct (VerifyRequest_run ρ' t2 r body m1) as [(id' & Hg' & ->)|(e & _ & Hn)]; [|by apply Hn in Hg2].
  assert (id' = id) as -> by (destruct Hg' as [-> _]; by destruct Hg2 as [-> _]).
  assert (MemorySpent id (Header_Get r HeaderNonce) (t1 + Window) m1) as Hs by (by apply use_fresh in Hu).
  assert ((Use t2 id (Header_Get r HeaderNonce) Window m1).1 = true) as Hf.
  { apply MemoryUse_expired. intros e Hu'. unfold MemorySpent in *. rewrite Hs in Hu'. injection Hu'. lia. }
  cbv zeta. destruct (Use t2 id _ Window m1) as [b m2]. simpl in *. by subst.
Qed.

Lemma signed_headers `{HC : Crypto} `{HE : Ed25519} ρ now nonceRaw i body r :
  let R := SignRequest ρ now nonceRaw i body r in
  Header_Get R HeaderIdentity = PublicIdentity (ed_public (private i)) ∧
  Header_Get R HeaderTimestamp = FormatRFC3339 now ∧ Header_Get R HeaderNonce = EncodeB64 true nonceRaw ∧
  Header_Get R HeaderSignature = EncodeB64 true (ed_sign (private i) (canonical_of ρ R body)).
Proof.
  intros R.
  assert (Header_Get R HeaderTimestamp = FormatRFC3339 now) as Et
    by (unfold R, SignRequest, Header_Get, Header_Set; simpl; by rewrite !lookup_insert_ne, lookup_insert_eq by done).
  assert (Header_Get R HeaderNonce = EncodeB64 true nonceRaw) as En
    by (unfold R, SignRequest, Header_Get, Header_Set; simpl; by rewrite !lookup_insert_ne, lookup_insert_eq by done).
  split_and!; [|done..|].
  - unfold R, SignRequest, Header_Get, Header_Set. simpl. by rewrite !lookup_insert_ne, lookup_insert_eq by done.
  - unfold canonical_of. rewrite Et, En. unfold R, SignRequest, Header_Get at 1, Header_Set at 1.
    simpl. by rewrite lookup_insert_eq.
Qed.
Lemma FormatRFC3339_nonempty t : FormatRFC3339 t ≠ "".
Proof. intros H. apply (f_equal s2l) in H. unfold FormatRFC3339, pad4, pad2 in H. by rewrite s2l_l2s in H. Qed.

(** A signed request has everything but a fresh nonce. *)
Lemma SignRequest_run `{HC : Crypto} `{HE : Ed25519} {S : Type} `{HN : !NonceStore S}
    (ρ ρ' : Range) (now now' : Time) (nonceRaw : list Z) (i : Identity_) (r : HttpRequest) (body : string) (s : S) :
  length nonceRaw = 16%nat → Forall is_byte nonceRaw →
  0 ≤ now < 3652059 * Day * Second →
  - Window ≤ now' - now / Second * Second ≤ Window →
  let id := PublicIdentity (ed_public (private i)) in
  let u := Use now' id (EncodeB64 true nonceRaw) Window s in
  VerifyRequest ρ' now' (SignRequest ρ now nonceRaw i body r) body s =
    if u.1 then (Ok id, u.2) else (Err (Errorf "nonce has already been used"), u.2).
Proof.
  intros Hl Hb Hnow Hw. cbv zeta. set (R := SignRequest ρ now nonceRaw i body r).
  assert (Header_Get R HeaderIdentity = PublicIdentity (ed_public (private i)) ∧
          Header_Get R HeaderTimestamp = FormatRFC3339 now ∧
          Header_Get R HeaderNonce = EncodeB64 true nonceRaw ∧
          Header_Get R HeaderSignature = EncodeB64 true (ed_sign (private i) (canonical_of ρ R body)))
    as (Ei & Et & En & Es) by apply signed_headers.
  destruct (ed_public_bytes (private i)) as [_ Hp].
  assert (genuine ρ' now' R body (PublicIdentity (ed_public (private i)))) as Hg.
  { unfold genuine. rewrite Ei, Et, En. split_and!; [done|by apply FormatRFC3339_nonempty| |].
    { apply EncodeB64_nonempty. by destruct nonceRaw. }
    exists (ed_public (private i)), (ed_sign (private i) (canonical_of ρ R body)), (now / Second * Second).
    destruct (ed_sign_bytes (private i) (canonical_of ρ R body)) as [Hs Hs'].
    rewrite Es.
    split_and!; try apply Hw; [apply ParsePublicIdentity_Public|by apply Parse_Format|by apply DecodeB64_Encode| |].
    - apply EncodeB64_nonempty. intros E. by rewrite E in Hs'.
    - rewrite (canonical_range ρ' ρ). apply ed_correct. }
  destruct (VerifyRequest_run ρ' now' R body s) as [(id' & [-> _] & ->)|(e & _ & Hn)]; [|by apply Hn in Hg].
  by rewrite Ei, En.
Qed.

(** What a machine signs, the hub accepts as that machine's: when the two
    clocks are within the window of each other (the timestamp is whole seconds)
    and the nonce is fresh. *)
Theorem signed_request_accepted `{HC : Crypto} `{HE : Ed25519} {S : Type} `{HN : !NonceStore S}
    (ρ ρ' : Range) (now now' : Time) (nonceRaw : list Z) (i : Identity_) (r : HttpRequest) (body : string) (s : S) :
  length nonceRaw = 16%nat → Forall is_byte nonceRaw →
  0 ≤ now < 3652059 * Day * Second →
  - Window ≤ now' - now / Second * Second ≤ Window →
  (Use now' (PublicIdentity (ed_public (private i))) (EncodeB64 true nonceRaw) Window s).1 = true →
  (VerifyRequest ρ' now' (SignRequest ρ now nonceRaw i body r) body s).1 = Ok (PublicIdentity (ed_public (private i))).
Proof. intros Hl Hb Hnow Hw Hf. rewrite SignRequest_run by done. cbv zeta. by rewrite Hf. Qed.

(** ** Registering *)

Section Registering.
Context `{HC : Crypto} `{HS : SshLib}.


(** The bytes an ssh key signs, given what it signs the digest of. *)
Definition signed_blob (namespace algorithm : string) (digest : list Z) : string :=
  marshal (mkSigned namespace "" algorithm (bytes_string digest)).

Lemma VerifySSHSIG_Ok armored message namespace key :
  VerifySSHSIG armored message namespace = Ok key →
  ∃ algorithm digest sig, (algorithm = "sha256" ∨ algorithm = "sha512") ∧ hash algorithm message = Ok digest ∧
    key_Verify key (signed_blob namespace algorithm digest) sig = true.
Proof.
  unfold VerifySSHSIG. destruct (pem_Decode armored) as [[type bytes]|]; [|done]. case_decide; [done|].
  destruct (Unmarshal_wrapped bytes) as [w|]; [|done]. case_decide; [done|].
  destruct (w_Version w =? sshsigVersion); [|done]. simpl. case_decide as Hns; [done|].
  destruct (ParsePublicKey _) as [k|]; [|done].
  destruct (Unmarshal_sig _) as [sig|]; [|done]. destruct (hash _ message) as [digest| |] eqn:Hh; [|done..].
  cbn [bindR]. destruct (key_Verify k _ sig) eqn:Hv; [|done]. intros [= <-].
  exists (w_HashAlgorithm w), digest, sig. rewrite Hns in Hv. split_and!; [|done..].
  unfold hash in Hh. do 2 (case_decide; [by auto|]). done.
Qed.

(** The message of a machine that registers, given the hub's token. *)
Lemma Message_inj b b' pub pub' :
  ascii_line (b_API b) → ascii_line (b_API b') → b_Token b = b_Token b' →
  ParsePublicIdentity (b_Identity b) = Ok pub → ParsePublicIdentity (b_Identity b') = Ok pub' →
  Message b = Message b' →
  ToLower (b_API b) = ToLower (b_API b') ∧ b_Name b = b_Name b' ∧ b_Identity b = b_Identity b'.
Proof.
  intros Ha%ToLower_one_line Ha'%ToLower_one_line Ht Hi%identity_no_equals Hi'%identity_no_equals.
  unfold Message. intros H. do 3 apply (inj (String.append _)) in H.
  apply line_first in H as [Eapi H]; [|done..]. rewrite Ht in H. do 4 apply (inj (String.append _)) in H.
  apply (f_equal s2l) in H. rewrite !s2l_app in H.
  change (s2l "identity=") with (s2l "identity" ++ ["="%char]) in H. rewrite <-!app_assoc in H.
  rewrite !(app_assoc (s2l nl)), !(app_assoc (s2l (b_Name _))) in H. simpl (["="%char] ++ _) in H.
  assert (∀ i, "="%char ∉ s2l i → "="%char ∉ s2l i ++ s2l nl) as Hnl
    by (intros i ?; rewrite not_elem_of_app; split; [done|by apply (bool_decide_unpack _)]).
  apply last_sep_inj in H as [En Ei]; [|by apply Hnl..].
  apply app_inv_tail in Ei. do 2 apply app_inv_tail in En.
  split_and!; [done|by apply (inj s2l)..].
Qed.

(** C38: what an accepted registration proves.  An authorized ssh key signed,
    for the purpose of registering and with one of the two allowed hashes, the
    digest of the message this hub built; and with the hub's token fixed, that
    message names the machine and its identity: the digest is that of no other
    name, identity or hub unless two different messages collide. *)
Theorem bootstrap_names_the_machine (b : Bootstrap) (armored : string) (authorized : list PublicKey)
    (key : PublicKey) (pub : list Z) :
  Verify b armored authorized = Ok key → ascii_line (b_API b) → ParsePublicIdentity (b_Identity b) = Ok pub →
  key ∈ authorized ∧
  ∃ algorithm digest sig, (algorithm = "sha256" ∨ algorithm = "sha512") ∧ hash algorithm (Message b) = Ok digest ∧
    key_Verify key (signed_blob BootstrapNamespace algorithm digest) sig = true ∧
    ∀ b' pub', b_Token b' = b_Token b → ascii_line (b_API b') → ParsePublicIdentity (b_Identity b') = Ok pub' →
      hash algorithm (Message b') = Ok digest →
      ToLower (b_API b) = ToLower (b_API b') ∧ b_Name b = b_Name b' ∧ b_Identity b = b_Identity b' ∨
      Message b ≠ Message b'.
Proof.
  intros H Ha Hi. unfold Verify in H. apply bindR_Ok in H as (k & Hk & H).
  destruct (existsb (SameKey k) authorized) eqn:He; [|done]. injection H as ->.
  apply VerifySSHSIG_Ok in Hk as (alg & digest & sig & Halg & Hh & Hv). split.
  - by apply existsb_exists in He as (k & Hk%list_elem_of_In & ->%SameKey_spec).
  - exists alg, digest, sig. split_and!; [done..|]. intros b' pub' Ht Ha' Hi' _.
    destruct (decide (Message b = Message b')) as [E|]; [left|by right].
    by eapply Message_inj.
Qed.
End Registering.

(** ** Concrete runs *)

(** A signature scheme to run the definitions with: a signature is the public
    key and a checksum of the message. *)
Definition toy_public (k : list Z) : list Z := be_bytes 32 (foldr Z.add 0 k).
Definition toy_sign (pub : list Z) (m : string) : list Z := pub ++ be_bytes 32 (checksum m).
Lemma toy_sign_bytes k m : Forall is_byte (toy_sign (toy_public k) m) ∧ length (toy_sign (toy_public k) m) = 64%nat.
Proof.
  unfold toy_sign, toy_public. rewrite Forall_app, length_app, !length_be_bytes.
  split_and!; [apply be_bytes_is_byte..|done].
Qed.
Definition toy_ed25519 : Ed25519 :=
  {| ed_public := toy_public;
     ed_sign := λ k m, toy_sign (toy_public k) m;
     ed_verify := λ pub m s, bool_decide (s = toy_sign pub m);
     ed_public_bytes := λ k, toy_bytes _;
     ed_sign_bytes := toy_sign_bytes;
     ed_correct := λ k m, bool_decide_eq_true_2 _ eq_refl |}.

Definition ex_identity : Identity_ := mkIdentity [1; 2; 3].
Definition ex_http : HttpRequest :=
  mkHttp "hub.example" "POST" "/v1/instances" {["x" := ["1"; "2"]]} ∅ "{}" "192.0.2.7:4242".
(** Noon of the first of January 2026, and a caller one minute ahead. *)
Definition ex_noon : Time := (days_of_date 2026 1 1 * Day + 43200) * Second.
Definition ex_signed : HttpRequest :=
  SignRequest (HC := toy_crypto) (HE := toy_ed25519) range_default (ex_noon + Minute) (replicate 16 9) ex_identity
    (r_Body ex_http) ex_http.
Definition ex_verify (t : Time) : M MemoryNonces string :=
  VerifyRequest (HC := toy_crypto) (HE := toy_ed25519) range_default t ex_signed (r_Body ex_signed).
Definition ex_id : string := PublicIdentity (toy_public [1; 2; 3]).
Definition ex_spent : MemoryNonces := (ex_verify ex_noon NewMemoryNonces).2.

Lemma ex_accepted : ex_verify ex_noon NewMemoryNonces = (Ok ex_id, ex_spent).
Proof. vm_compute. reflexivity. Qed.
Lemma ex_when : ParseRFC3339 (Header_Get ex_signed HeaderTimestamp) = Some (ex_noon + Minute).
Proof. vm_compute. reflexivity. Qed.
Lemma ex_refused : (ex_verify (ex_noon + 1) ex_spent).1 = Err (Errorf "nonce has already been used").
Proof. vm_compute. reflexivity. Qed.

Lemma replayed_after_the_nonce_expired_witness :
  (ex_verify (ex_noon + Window + 30 * Second) ex_spent).1 = Ok ex_id.
Proof.
  apply (@replayed_after_the_nonce_expired toy_crypto toy_ed25519 range_default range_default ex_noon
           (ex_noon + Window + 30 * Second) (ex_noon + Minute) ex_signed (r_Body ex_signed) ex_id
           NewMemoryNonces ex_spent ex_accepted ex_when).
  vm_compute. split; discriminate.
Defined.

Definition ex_spent2 : MemoryNonces := (ex_verify (ex_noon + Window + 30 * Second) ex_spent).2.
Lemma ex_accepted2 : ex_verify (ex_noon + Window + 30 * Second) ex_spent = (Ok ex_id, ex_spent2).
Proof. vm_compute. reflexivity. Qed.

Lemma accepted_once_witness : ex_noon + Window ≤ ex_noon + Window + 30 * Second ∧ ex_noon ≤ ex_noon + Minute.
Proof.
  destruct (@accepted_once toy_crypto toy_ed25519 MemoryNonces MemoryNonces_store range_default range_default
    ex_noon (ex_noon + Window + 30 * Second) ex_signed ex_signed (r_Body ex_signed) (r_Body ex_signed) ex_id ex_id
    NewMemoryNonces ex_spent ex_spent2 [] ex_accepted (Forall_nil_2 _) ex_accepted2 eq_refl eq_refl) as [H1 H2].
  split; [exact H1|exact (H2 eq_refl _ ex_when)].
Defined.

Lemma signed_request_accepted_witness :
  (ex_verify ex_noon NewMemoryNonces).1 = Ok (PublicIdentity (ed_public (Ed25519 := toy_ed25519) (private ex_identity))).
Proof.
  apply (@signed_request_accepted toy_crypto toy_ed25519 MemoryNonces MemoryNonces_store range_default range_default
    (ex_noon + Minute) ex_noon (replicate 16 9) ex_identity ex_http (r_Body ex_http) NewMemoryNonces).
  - reflexivity.
  - repeat constructor; vm_compute; congruence.
  - split; vm_compute; congruence.
  - split; vm_compute; congruence.
  - vm_compute. reflexivity.
Defined.

Lemma signature_binds_request_witness :
  "/v1/x" = "/v1/x" ∧ sha256 (Crypto := toy_crypto) "{}" = sha256 (Crypto := toy_crypto) "{}".
Proof.
  destruct (@signature_binds_request toy_crypto range_default range_default "Hub.example" "hub.EXAMPLE" "post" "POST"
    "/v1/x" "/v1/x" {["a" := ["b c"]]} {["a" := ["b c"]]} "{}" "{}" "t" "t" "n" "n") as (_ & _ & H1 & _ & H2 & _).
  1-8: apply (bool_decide_unpack _); vm_compute; exact I.
  - vm_compute. reflexivity.
  - exact (conj H1 H2).
Defined.

(** A stand-in for the ssh library: a key and a signature are texts, and a
    signature is the key and the signed bytes. *)
Definition toy_ssh : SshLib :=
  {| ssh_Signature := string;
     key_Verify := λ k m s, bool_decide (s = k +:+ m);
     ParsePublicKey := Some;
     ParseAuthorizedKey := Some;
     MarshalAuthorizedKey := id;
     FingerprintSHA256 := id;
     Marshal_signed := λ s, Join [s_Namespace s; s_Reserved s; s_HashAlgorithm s; s_Hash s] "|";
     Unmarshal_wrapped := λ s, Some (mkWrapped sshsigMagic 1 "k" BootstrapNamespace "" "sha256" s);
     Unmarshal_sig := Some;
     pem_Decode := λ s, Some (pemType, s);
     sha512 := λ s, be_bytes 32 (checksum s) |}.
Definition ex_bootstrap : Bootstrap := mkBootstrap "hub.example" "token" "laptop" ex_id.
Definition ex_armored : string :=
  "k" +:+ @signed_blob toy_ssh BootstrapNamespace "sha256" (sha256 (Crypto := toy_crypto) (Message ex_bootstrap)).

Lemma bootstrap_names_the_machine_witness :
  "k" ∈ ["j"; "k"].
Proof.
  refine (proj1 (@bootstrap_names_the_machine toy_crypto toy_ssh ex_bootstrap ex_armored ["j"; "k"] "k" (toy_public [1; 2; 3]) _ _ _)).
  - vm_compute. reflexivity.
  - apply (bool_decide_unpack _). vm_compute. exact I.
  - vm_compute. reflexivity.
Defined.
