(* ===== verification/Pin.v ===== *)
(** * Pins: [internal/pin/pin.go]

    How a hub's public key is written, read and compared.  A certificate is
    what [x509.ParseCertificate] makes of its bytes, of which the program uses
    the public key info only. *)

From Stdlib Require Import Ascii.
From S2P Require Export GoCodec Protocol.

Open Scope Z_scope.

(** ** Definitions *)

Record Certificate : Type := mkCertificate { RawSubjectPublicKeyInfo : string }.
Class X509 := { ParseCertificate : string → option Certificate }.

Definition PinPrefix : string := "SHA256:".
Definition legacyPrefix : string := "sha256/".
Definition sha256_Size : nat := 32.

Definition has_fold_prefix (value p : string) : bool :=
  (len p <=? len value)%nat && EqualFold (str_take (len p) value) p.

Definition Written (raw : string) : bool :=
  let value := TrimSpace raw in has_fold_prefix value PinPrefix.

Definition decode_pin (value : string) : option (list Z) :=
  let value := TrimRight value "=" in
  match DecodeB64 true value with
  | Some sum => Some sum
  | None => DecodeB64 false value
  end.

Definition strip_prefix (value : string) : string :=
  match find_first (has_fold_prefix value) [PinPrefix; legacyPrefix] with
  | Some p => str_drop (len p) value
  | None => value
  end.
(** [pin.Parse]. *)
Definition ParsePin (raw : string) : res (list Z) :=
  let value := TrimSpace raw in
  if decide (value = "") then Err (Errorf "a pin cannot be empty") else
  match decode_pin (strip_prefix value) with
  | None => Err (Wrap "pin %q is not base64: %w" (Errorf "illegal base64 data"))
  | Some sum =>
      if negb (length sum =? sha256_Size)%nat then Err (Errorf "pin %q is %d bytes, wanted %d") else Ok sum
  end.

Lemma trim_right_by_all {A} (p : A → bool) l : Forall (λ x, p x = false) l → trim_right_by p l = l.
Proof.
  intros H%Forall_rev. unfold trim_right_by. destruct (rev l) as [|x r] eqn:E.
  - by destruct l as [|? l]; [|apply (f_equal length) in E; rewrite length_rev in E].
  - simpl. apply Forall_cons in H as [-> _]. by rewrite <-E, rev_involutive.
Qed.

Section Pins.
Context `{HC : Crypto} `{HX : X509}.

Definition sumOf (cert : Certificate) : list Z := sha256 (RawSubjectPublicKeyInfo cert).
(** [pin.Of]. *)
Definition PinOf (cert : Certificate) : string := PinPrefix +:+ EncodeB64 true (sumOf cert).
Definition Rewritten (raw : string) : res string :=
  let? sum := ParsePin raw in Ok (PinPrefix +:+ EncodeB64 true sum).

(** The check of [TLSConfig]: what [VerifyPeerCertificate] answers for the
    certificates the peer presented, in order, its own first. *)
Fixpoint verify_peer (want : list Z) (rawCerts : list string) : res () :=
  match rawCerts with
  | [] => Err (Errorf "the hub's public key does not match the pin this binary carries")
  | der :: rawCerts =>
      match ParseCertificate der with
      | None => verify_peer want rawCerts
      | Some cert => if bool_decide (sumOf cert = want) then Ok () else verify_peer want rawCerts
      end
  end.
Definition TLSConfig (raw : string) : res (list string → res ()) :=
  let? want := ParsePin raw in Ok (verify_peer want).

(** ** Lemmas *)

Lemma verify_peer_Ok want certs :
  verify_peer want certs = Ok () ↔
  ∃ der cert, der ∈ certs ∧ ParseCertificate der = Some cert ∧ sumOf cert = want.
Proof.
  induction certs as [|der certs IH]; simpl.
  - split; [done|]. intros (? & ? & []%elem_of_nil & _).
  - destruct (ParseCertificate der) as [cert|] eqn:E; [case_bool_decide|].
    + split; [|done]. intros _. exists der, cert. split_and!; [left|done..].
    + rewrite IH. split; intros (d & c & Hd & ? & ?).
      * exists d, c. split_and!; [by right|done..].
      * apply elem_of_cons in Hd as [->|]; [congruence|eauto].
    + rewrite IH. split; intros (d & c & Hd & ? & ?).
      * exists d, c. split_and!; [by right|done..].
      * apply elem_of_cons in Hd as [->|]; [congruence|eauto].
Qed.

Lemma str_drop_app p s : str_drop (len p) (p +:+ s) = s.
Proof. unfold str_drop, len. rewrite s2l_app, drop_app_length. apply l2s_s2l. Qed.
Lemma str_take_app p s : str_take (len p) (p +:+ s) = p.
Proof. unfold str_take, len. rewrite s2l_app, take_app_length. apply l2s_s2l. Qed.

(** A written pin has nothing to trim. *)
Lemma b64_digit_plain url d : 0 ≤ d < 64 →
  32 < code (b64_digit url d) < 128 ∧ code (b64_digit url d) ≠ 61.
Proof.
  intros Hd. eapply (proj1 (bool_decide_dec _)). revert d Hd.
  apply (all_below_spec (λ d, bool_decide (32 < code (b64_digit url d) < 128 ∧ code (b64_digit url d) ≠ 61)) 64).
  by destruct url.
Qed.
Lemma TrimSpace_visible s : Forall (λ c, 32 < code c < 128) (s2l s) → TrimSpace s = s.
Proof.
  intros H. unfold TrimSpace. rewrite chunks_ascii by (eapply Forall_impl; [exact H|simpl; lia]).
  rewrite trim_by_id.
  - rewrite <-list_fmap_compose. apply (inj s2l). rewrite s2l_l2s.
    clear H. induction (s2l s) as [|c l IH]; [done|]. rewrite fmap_cons. simpl. by f_equal.
  - apply Forall_fmap. eapply Forall_impl; [exact H|]. intros c Hc. simpl in *.
    unfold isSpace. rewrite bool_decide_false by (intros Hin; repeat (apply elem_of_cons in Hin as [Hin|Hin]; [lia|]); by apply elem_of_nil in Hin).
    destruct (Z.leb_spec 9 (code c)), (Z.leb_spec (code c) 13), (Z.leb_spec 8192 (code c)); simpl; try lia; done.
Qed.

Lemma ParsePin_written sum :
  Forall is_byte sum → length sum = sha256_Size → ParsePin (PinPrefix +:+ EncodeB64 true sum) = Ok sum.
Proof.
  intros Hb Hl. unfold ParsePin.
  pose proof (b64_digits_range sum Hb) as Hd.
  rewrite TrimSpace_visible.
  2: { rewrite s2l_app. apply Forall_app. split; [by apply (bool_decide_unpack _)|].
       unfold EncodeB64. rewrite s2l_l2s, Forall_fmap. eapply Forall_impl; [exact Hd|].
       intros d ?. by apply b64_digit_plain. }
  rewrite decide_False by (intros H; by apply (f_equal s2l) in H).
  assert (strip_prefix (PinPrefix +:+ EncodeB64 true sum) = EncodeB64 true sum) as ->.
  { unfold strip_prefix. cbn [find_first].
    assert (has_fold_prefix (PinPrefix +:+ EncodeB64 true sum) PinPrefix = true) as ->; [|apply str_drop_app].
    unfold has_fold_prefix. rewrite str_take_app, len_app. rewrite (proj2 (Nat.leb_le _ _)) by lia. done. }
  unfold decode_pin, TrimRight. rewrite trim_right_by_all.
  - rewrite l2s_s2l, DecodeB64_Encode by done. by rewrite Hl.
  - unfold EncodeB64. rewrite s2l_l2s, Forall_fmap. eapply Forall_impl; [exact Hd|].
    intros d Hd'. simpl. unfold in_cutset. apply bool_decide_eq_false. intros [E|[]%elem_of_nil]%elem_of_cons.
    apply (proj2 (b64_digit_plain true d Hd')). by rewrite E.
Qed.
End Pins.

Lemma ParsePin_bytes raw sum : ParsePin raw = Ok sum → Forall is_byte sum ∧ length sum = sha256_Size.
Proof.
  unfold ParsePin. case_decide; [done|]. unfold decode_pin.
  destruct (DecodeB64 true _) as [s|] eqn:E; [|destruct (DecodeB64 false _) as [s|] eqn:E'; [|done]].
  all: destruct (Nat.eqb_spec (length s) sha256_Size); [|done]; intros [= <-]; split; [|done];
    by eapply DecodeB64_range.
Qed.

(** ** Properties *)

(** A pin reads back as the hash it was written for, and rewriting a pin,
    whatever notation it came in, changes its notation only: the result names
    the same key and rewriting it again changes nothing. *)
Theorem pin_roundtrip `{HC : Crypto} (cert : Certificate) (raw p : string) :
  ParsePin (PinOf cert) = Ok (sumOf cert) ∧ Written (PinOf cert) = true ∧
  (Rewritten raw = Ok p → ParsePin p = ParsePin raw ∧ Rewritten p = Ok p).
Proof.
  assert (ParsePin (PinOf cert) = Ok (sumOf cert)) as Hp by (apply ParsePin_written; apply sha256_bytes).
  split_and!; [done| |].
  - unfold Written, PinOf. pose proof (b64_digits_range (sumOf cert) (proj1 (sha256_bytes _))) as Hd.
    rewrite TrimSpace_visible.
    + unfold has_fold_prefix. rewrite str_take_app, len_app. rewrite (proj2 (Nat.leb_le _ _)) by lia. done.
    + rewrite s2l_app. apply Forall_app. split; [by apply (bool_decide_unpack _)|].
      unfold EncodeB64. rewrite s2l_l2s, Forall_fmap. eapply Forall_impl; [exact Hd|].
      intros d ?. by apply b64_digit_plain.
  - unfold Rewritten. intros (sum & Hs & [= <-])%bindR_Ok. destruct (ParsePin_bytes _ _ Hs).
    by rewrite Hs, ParsePin_written.
Qed.

(** A connection is let through when any of the certificates the peer sent
    carries the pinned key, and only then.  The peer only has to hold the key
    of the first: whoever answers with a certificate of their own, followed by
    the hub's, which is public, is accepted. *)
Theorem pin_accepts_any_certificate `{HC : Crypto} `{HX : X509} (raw : string) (want : list Z)
    (certs : list string) (own der : string) (cert : Certificate) :
  ParsePin raw = Ok want →
  ∃ check, TLSConfig raw = Ok check ∧
    (check certs = Ok () ↔ ∃ der cert, der ∈ certs ∧ ParseCertificate der = Some cert ∧ sumOf cert = want) ∧
    (ParseCertificate der = Some cert → sumOf cert = want → check [own; der] = Ok ()).
Proof.
  intros Hw. exists (verify_peer want). unfold TLSConfig. rewrite Hw. split_and!; [done|apply verify_peer_Ok|].
  intros Hc Hs. apply verify_peer_Ok. exists der, cert. split_and!; [right; left|done..].
Qed.

Lemma pin_roundtrip_witness :
  Rewritten "sha256/AAAAAAAAAAAAAAAAAAAAAAAAAAAAAAAAAAAAAAAAAAA=" = Ok "SHA256:AAAAAAAAAAAAAAAAAAAAAAAAAAAAAAAAAAAAAAAAAAA" ∧
  ParsePin "SHA256:AAAAAAAAAAAAAAAAAAAAAAAAAAAAAAAAAAAAAAAAAAA" = Ok (replicate 32 0).
Proof.
  assert (Rewritten "sha256/AAAAAAAAAAAAAAAAAAAAAAAAAAAAAAAAAAAAAAAAAAA=" = Ok "SHA256:AAAAAAAAAAAAAAAAAAAAAAAAAAAAAAAAAAAAAAAAAAA") as H
    by (vm_compute; reflexivity).
  split; [exact H|].
  destruct (@pin_roundtrip toy_crypto (mkCertificate "k")
    "sha256/AAAAAAAAAAAAAAAAAAAAAAAAAAAAAAAAAAAAAAAAAAA="
    "SHA256:AAAAAAAAAAAAAAAAAAAAAAAAAAAAAAAAAAAAAAAAAAA") as (_ & _ & Hr). rewrite (proj1 (Hr H)).
  vm_compute. reflexivity.
Defined.

(** A certificate whose bytes are its key, and anything starting with a dash
    none. *)
Definition toy_x509 : X509 :=
  {| ParseCertificate := λ der, if HasPrefix der "-" then None else Some (mkCertificate der) |}.
Definition ex_pin : string := @PinOf toy_crypto (mkCertificate "hub").
Lemma pin_accepts_any_certificate_witness :
  ∃ check, @TLSConfig toy_crypto toy_x509 ex_pin = Ok check ∧ check ["evil"; "hub"] = Ok () ∧ check ["evil"] ≠ Ok ().
Proof.
  assert (ParsePin ex_pin = Ok (@sumOf toy_crypto (mkCertificate "hub"))) as H by (vm_compute; reflexivity).
  destruct (@pin_accepts_any_certificate toy_crypto toy_x509 ex_pin _ ["evil"] "evil" "hub" (mkCertificate "hub") H)
    as (check & Hc & Hiff & Ha).
  exists check. split; [exact Hc|]. split; [by apply Ha|].
  intros (der & cert & Hd & Hp & Hs)%Hiff.
  apply list_elem_of_singleton in Hd as ->. vm_compute in Hp. injection Hp as <-. by vm_compute in Hs.
Defined.
