(* ===== verification/HubState.v ===== *)
(** * The hub's state: [internal/hub/store.go]

    What the hub keeps, and the store that every operation goes through: the
    state in memory, the state on disk, and the writes that carry one over to
    the other. *)

From Stdlib Require Import Ascii.
From S2P Require Export Protocol.

Open Scope Z_scope.

(** ** Data *)

Record Registration : Type := mkRegistration {
  g_Identity : string;
  g_Binder : string;
  g_Name : string;
  g_Key : string;
  g_RegisteredAt : Time;
  g_LastSeenAt : Time;
}.

Definition EventBan : string := "ban".
Definition EventUnban : string := "unban".
Record MemberEvent : Type := mkEvent { e_Kind : string; e_Note : string; e_At : Time }.

Record Member : Type := mkMember {
  m_Kind : string;
  m_Name : string;
  m_Fingerprint : string;
  m_Identity : string;
  m_Binder : string;
  m_Address : Prefix;
  m_Address6 : Prefix;
  m_Routes : list Prefix;
  m_Domain : string;
  m_CertFingerprint : string;
  m_Events : list MemberEvent;
  m_JoinedAt : Time;
}.
Definition set_Events (l : list MemberEvent) (m : Member) : Member :=
  mkMember (m_Kind m) (m_Name m) (m_Fingerprint m) (m_Identity m) (m_Binder m) (m_Address m)
    (m_Address6 m) (m_Routes m) (m_Domain m) (m_CertFingerprint m) l (m_JoinedAt m).

(** [m.Banned()]: the last decision was a ban. *)
Definition Banned (m : Member) : bool :=
  match last (m_Events m) with
  | None => false
  | Some e => bool_decide (e_Kind e = EventBan)
  end.

Record Burned : Type := mkBurned { b_Fingerprint : string; b_CertFingerprint : string }.

(** [hub.Record]: the request as [enroll] has it, plus what was decided. *)
Record HubRecord : Type := mkHubRecord {
  hr_Record : EnrollRecord;
  hr_Kind : string;
  hr_Identity : string;
  hr_Binder : string;
  hr_Bundle : option Bundle;
  hr_Reason : string;
}.
Definition hr_ID (r : HubRecord) : string := er_ID (hr_Record r).
Definition hr_Status (r : HubRecord) : Status := er_Status (hr_Record r).
Definition hr_Request (r : HubRecord) : Request := er_Request (hr_Record r).
Definition hr_Fingerprint (r : HubRecord) : string := er_Fingerprint (hr_Record r).

(** The assignments the hub makes to a record. *)
Definition with_decision (st : Status) (bundle : option Bundle) (reason : string) (at_ : Time)
    (r : HubRecord) : HubRecord :=
  let e := hr_Record r in
  mkHubRecord
    (mkEnrollRecord (er_ID e) st (er_Request e) (er_Fingerprint e) (er_OverlayAddress e)
       (er_OverlayAddress6 e) (er_SourceAddr e) (er_ReceivedAt e) at_)
    (hr_Kind r) (hr_Identity r) (hr_Binder r) bundle reason.
Definition with_request (req : Request) (source : string) (r : HubRecord) : HubRecord :=
  let e := hr_Record r in
  mkHubRecord
    (mkEnrollRecord (er_ID e) (er_Status e) req (er_Fingerprint e) (er_OverlayAddress e)
       (er_OverlayAddress6 e) source (er_ReceivedAt e) (er_DecidedAt e))
    (hr_Kind r) (hr_Identity r) (hr_Binder r) (hr_Bundle r) (hr_Reason r).

Record Instance_ : Type := mkInstance {
  i_ID : string;
  i_Name : string;
  i_Owner : string;
  i_Binder : string;
  i_Overlay : Prefix;
  i_Overlay6 : Prefix;
  i_Port : Z;
  i_LighthouseAddress : Addr;
  i_LighthouseAddress6 : Addr;
  i_TenantAddress : Addr;
  i_TenantAddress6 : Addr;
  i_LighthousePublicKey : string;
  i_LighthouseKey : string;
  i_LighthouseCert : string;
  i_CACert : string;
  i_Relay : bool;
  i_SharedToken : string;
  i_Allocations : gomap Addr;
  i_Allocations6 : gomap Addr;
  i_Requests : gomap HubRecord;
  i_Members : gomap Member;
  i_Burned : list Burned;
  i_CreatedAt : Time;
}.

(** The fields an instance changes in after it was created. *)
Definition with_fields (i : Instance_) (lcert cacert token : string) (al al6 : gomap Addr)
    (rq : gomap HubRecord) (mb : gomap Member) (bu : list Burned) : Instance_ :=
  mkInstance (i_ID i) (i_Name i) (i_Owner i) (i_Binder i) (i_Overlay i) (i_Overlay6 i) (i_Port i)
    (i_LighthouseAddress i) (i_LighthouseAddress6 i) (i_TenantAddress i) (i_TenantAddress6 i)
    (i_LighthousePublicKey i) (i_LighthouseKey i) lcert cacert (i_Relay i) token al al6 rq mb bu
    (i_CreatedAt i).
Definition set_Certs (ca lcert : string) (i : Instance_) : Instance_ :=
  with_fields i lcert ca (i_SharedToken i) (i_Allocations i) (i_Allocations6 i) (i_Requests i)
    (i_Members i) (i_Burned i).
Definition set_Token (token : string) (i : Instance_) : Instance_ :=
  with_fields i (i_LighthouseCert i) (i_CACert i) token (i_Allocations i) (i_Allocations6 i)
    (i_Requests i) (i_Members i) (i_Burned i).
Definition set_Allocations (al : gomap Addr) (i : Instance_) : Instance_ :=
  with_fields i (i_LighthouseCert i) (i_CACert i) (i_SharedToken i) al (i_Allocations6 i)
    (i_Requests i) (i_Members i) (i_Burned i).
Definition set_Allocations6 (al : gomap Addr) (i : Instance_) : Instance_ :=
  with_fields i (i_LighthouseCert i) (i_CACert i) (i_SharedToken i) (i_Allocations i) al
    (i_Requests i) (i_Members i) (i_Burned i).
Definition set_Requests (rq : gomap HubRecord) (i : Instance_) : Instance_ :=
  with_fields i (i_LighthouseCert i) (i_CACert i) (i_SharedToken i) (i_Allocations i)
    (i_Allocations6 i) rq (i_Members i) (i_Burned i).
Definition set_Members (mb : gomap Member) (i : Instance_) : Instance_ :=
  with_fields i (i_LighthouseCert i) (i_CACert i) (i_SharedToken i) (i_Allocations i)
    (i_Allocations6 i) (i_Requests i) mb (i_Burned i).
Definition set_Burned (bu : list Burned) (i : Instance_) : Instance_ :=
  with_fields i (i_LighthouseCert i) (i_CACert i) (i_SharedToken i) (i_Allocations i)
    (i_Allocations6 i) (i_Requests i) (i_Members i) bu.

Record state : Type := mkState {
  s_Instances : gmap string Instance_;
  s_Identities : gmap string Registration;
}.
Definition set_Instances (l : gmap string Instance_) (s : state) : state := mkState l (s_Identities s).

(** [Store]: the state behind the lock, and the file: [None] while it does not
    exist.  What the file holds is the state that was written; writing drops
    empty maps ([omitempty]), so they come back nil. *)
Record Store : Type := mkStore { mem : state; disk : option state }.

(** What one call meets outside the program: the clock, what the random source
    and the key generator give, whether the state file can be written, what
    nebula answers, and the order maps are walked in. *)
Record Env : Type := mkEnv {
  now : Time;
  newID : string;
  GenerateHostKey : error + (string * string);
  save_fault : option error;
  nebula_start : option error;
  nebula_reload : option error;
  ρ_of : Range;
}.

(** ** Opening and saving *)

Definition omitempty {A} (m : gomap A) : gomap A :=
  if decide (mget m = ∅) then None else m.
(** An instance as it comes back from its JSON form. *)
Definition reread (i : Instance_) : Instance_ :=
  with_fields i (i_LighthouseCert i) (i_CACert i) (i_SharedToken i) (omitempty (i_Allocations i))
    (omitempty (i_Allocations6 i)) (omitempty (i_Requests i)) (omitempty (i_Members i)) (i_Burned i).

Definition ensureMaps (i : Instance_) : Instance_ :=
  set_Members (ensure (i_Members i))
    (set_Requests (ensure (i_Requests i)) (set_Allocations (ensure (i_Allocations i)) i)).

Definition OpenStore (file : option state) : Store :=
  match file with
  | None => mkStore (mkState ∅ ∅) None
  | Some s => mkStore (mkState ((ensureMaps ∘ reread) <$> s_Instances s) (s_Identities s)) file
  end.

(** [save]: the file is replaced by a rename, so a failed write leaves the old
    one. *)
Definition save (env : Env) : M Store () := λ s,
  match save_fault env with
  | Some e => (Err e, s)
  | None => (Ok (), mkStore (mem s) (Some (mem s)))
  end.

(** ** Operations *)

Definition set_mem (f : state → state) : M Store () := modify (λ s, mkStore (f (mem s)) (disk s)).

Definition Register (env : Env) (r : Registration) : M Store () :=
  let* s := getM in
  do* (match s_Identities (mem s) !! g_Identity r with
       | Some old =>
           set_mem (λ st, mkState (s_Instances st)
             (<[g_Identity r := mkRegistration (g_Identity old) (g_Binder r) (g_Name r) (g_Key r)
                                 (g_RegisteredAt old) (now env)]> (s_Identities st)))
       | None =>
           set_mem (λ st, mkState (s_Instances st)
             (<[g_Identity r := mkRegistration (g_Identity r) (g_Binder r) (g_Name r) (g_Key r)
                                 (now env) (g_LastSeenAt r)]> (s_Identities st)))
       end) in
  save env.

Definition Identity (s : Store) (identity : string) : res Registration :=
  match s_Identities (mem s) !! identity with Some r => Ok r | None => Err ErrNotFound end.

(** [Update]: [fn] works on the instance in place, so what it did before it
    returned an error stays in memory; only a run without error is saved. *)
Definition Update {A} (env : Env) (id : string) (fn : M Instance_ A) : M Store A := λ s,
  match s_Instances (mem s) !! id with
  | None => (Err ErrNotFound, s)
  | Some inst =>
      let '(r, inst') := fn (ensureMaps inst) in
      let s' := mkStore (set_Instances (<[id := inst']> (s_Instances (mem s))) (mem s)) (disk s) in
      match r with
      | Ok a => (do* save env in retM a) s'
      | Err e => (Err e, s')
      | Panic => (Panic, s')
      end
  end.

Definition Add (env : Env) (inst : Instance_) : M Store () :=
  let* s := getM in
  match s_Instances (mem s) !! i_ID inst with
  | Some _ => raise (Errorf "instance %s already exists")
  | None =>
      match find_first (λ kv, bool_decide (i_Name kv.2 = i_Name inst))
              (range (ρ_of env) (s_Instances (mem s))) with
      | Some _ => raise (Errorf "%s already has an instance called %s")
      | None =>
          do* set_mem (λ st, set_Instances (<[i_ID inst := inst]> (s_Instances st)) st) in
          save env
      end
  end.

Definition Remove (env : Env) (id : string) : M Store () :=
  let* s := getM in
  match s_Instances (mem s) !! id with
  | None => raise ErrNotFound
  | Some _ =>
      do* set_mem (λ st, set_Instances (delete id (s_Instances st)) st) in
      save env
  end.

Definition Get (s : Store) (id : string) : res Instance_ :=
  match s_Instances (mem s) !! id with Some inst => Ok inst | None => Err ErrNotFound end.

(** The loop of [Resolve] over the instances. *)
Fixpoint resolve_loop (name : string) (found : option Instance_) (l : list Instance_) : res Instance_ :=
  match l with
  | [] => match found with None => Err ErrNotFound | Some inst => Ok inst end
  | inst :: l =>
      if decide (i_Name inst ≠ name) then resolve_loop name found l
      else match found with
           | Some _ => Err ErrAmbiguous
           | None => resolve_loop name (Some inst) l
           end
  end.
Definition Resolve (ρ : Range) (s : Store) (ref : string) : res Instance_ :=
  match s_Instances (mem s) !! ref with
  | Some inst => Ok inst
  | None => resolve_loop (ToLower (TrimSpace ref)) None (range ρ (s_Instances (mem s))).*2
  end.

Definition List (ρ : Range) (s : Store) : list Instance_ := (range ρ (s_Instances (mem s))).*2.
Definition Registrations (ρ : Range) (s : Store) : list Registration :=
  (range ρ (s_Identities (mem s))).*2.

(** The sets of what is in use, built by walking the instances. *)
Definition instances_of (s : Store) : list Instance_ := (map_to_list (s_Instances (mem s))).*2.
Definition UsedOverlays (s : Store) : gset Prefix := list_to_set (i_Overlay <$> instances_of s).
Definition UsedOverlays6 (s : Store) : gset Prefix :=
  list_to_set (filter (λ p, IsValid p = true) (i_Overlay6 <$> instances_of s)).
Definition UsedPorts (s : Store) : gset Z := list_to_set (i_Port <$> instances_of s).

(** [inst.MemberOf]. *)
Definition MemberOf (ρ : Range) (inst : Instance_) (identity : string) : option Member :=
  if decide (identity = "") then None else
  match find_first (λ kv, bool_decide (m_Identity kv.2 = identity) && negb (Banned kv.2))
          (range ρ (mget (i_Members inst))) with
  | Some (_, m) => Some m
  | None =>
      if decide (identity = i_Owner inst)
      then Some (mkMember KindOwner "" "" identity "" PrefixZero PrefixZero [] "" "" [] TimeZero)
      else None
  end.
