(* ===== verification/HubOps.v ===== *)
(** * The hub's operations: [internal/hub/hub.go], [internal/hub/lighthouse.go] and the
    allocation of [internal/hub/ipam.go]

    Every method of the hub, as a computation over its state.  The closures
    handed to [Store.Update] are computations over one instance, so what they
    leave behind on an error is part of the model. *)

From Stdlib Require Import Ascii.
From S2P Require Export Wrak HubState.

Open Scope Z_scope.

(** ** Configuration and lighthouses *)

(** The keys of a binder, as their wire encodings. *)
Definition Binder : Type := list PublicKey.
Definition Binders : Type := gmap string Binder.

Record Config : Type := mkConfig {
  c_APIAddr : string;
  c_NebulaBind : string;
  c_PublicEndpoint : string;
  c_PortMin : Z;
  c_PortMax : Z;
  c_Overlays : list Pool;
  c_Overlays6 : list Pool;
  c_Token : string;
  c_Binders : Binders;
  c_StatePath : string;
  c_MTU : Z;
  c_Relay : bool;
  c_DNS : bool;
  c_NoLighthouseTun : bool;
}.

(** [net.JoinHostPort]. *)
Definition JoinHostPort (host port : string) : string :=
  if bool_decide (":"%char ∈ s2l host)
  then "[" +:+ host +:+ "]:" +:+ port else host +:+ ":" +:+ port.

(** The certificates a ban has to make useless: those of the banned members
    and of the burned credentials. *)
Definition blockedIn (ρ : Range) (inst : Instance_) : list string :=
  let banned := filter (λ m, Banned m = true ∧ m_CertFingerprint m ≠ "")
                  (range ρ (mget (i_Members inst))).*2 in
  let burned := filter (λ b, b_CertFingerprint b ≠ "") (i_Burned inst) in
  sort_strings ((m_CertFingerprint <$> banned) ++ (b_CertFingerprint <$> burned)).

(** The nebula configuration of a lighthouse: the values of the tree that
    depend on the instance or the hub. *)
Record NebulaConf : Type := mkNebulaConf {
  nc_ca : string;
  nc_cert : string;
  nc_key : string;
  nc_blocklist : option (list string);
  nc_serve_dns : bool;
  nc_dns_host : string;
  nc_listen_host : string;
  nc_listen_port : Z;
  nc_am_relay : bool;
  nc_tun_dev : string;
  nc_tun_disabled : bool;
}.
Definition lighthouseDevice (inst : Instance_) : string := "robinet-lh" +:+ Itoa (i_Port inst).
Definition lighthouseConfig (ρ : Range) (inst : Instance_) (bind : string) (dns noTun : bool)
    : res NebulaConf :=
  if decide (i_CACert inst = "" ∨ i_LighthouseCert inst = "")
  then Err (Errorf "instance %s has no certificate yet") else
  let blocked := blockedIn ρ inst in
  Ok {| nc_ca := i_CACert inst;
        nc_cert := i_LighthouseCert inst;
        nc_key := i_LighthouseKey inst;
        nc_blocklist := if (0 <? length blocked)%nat then Some blocked else None;
        nc_serve_dns := dns && negb noTun;
        nc_dns_host := Addr_String (i_LighthouseAddress inst);
        nc_listen_host := bind;
        nc_listen_port := i_Port inst;
        nc_am_relay := i_Relay inst;
        nc_tun_dev := lighthouseDevice inst;
        nc_tun_disabled := noTun |}.

Definition RedactedKey : string := "<redacted, --show-keys>".
Definition RedactKey (c : NebulaConf) : NebulaConf :=
  {| nc_ca := nc_ca c; nc_cert := nc_cert c; nc_key := RedactedKey; nc_blocklist := nc_blocklist c;
     nc_serve_dns := nc_serve_dns c; nc_dns_host := nc_dns_host c;
     nc_listen_host := nc_listen_host c; nc_listen_port := nc_listen_port c;
     nc_am_relay := nc_am_relay c; nc_tun_dev := nc_tun_dev c; nc_tun_disabled := nc_tun_disabled c |}.
Definition LighthouseConfig (ρ : Range) (inst : Instance_) (cfg : Config) (showKeys : bool) : res NebulaConf :=
  let? raw := lighthouseConfig ρ inst (c_NebulaBind cfg) (c_DNS cfg) (c_NoLighthouseTun cfg) in
  if showKeys then Ok raw else Ok (RedactKey raw).

(** The running lighthouses, each with the configuration it runs. *)
Definition lighthouses : Type := gmap string NebulaConf.

(** [Hub]. *)
Record Hub : Type := mkHub { h_cfg : Config; h_store : Store; h_lhs : lighthouses }.
Definition set_store (s : Store) (h : Hub) : Hub := mkHub (h_cfg h) s (h_lhs h).
Definition set_lhs (l : lighthouses) (h : Hub) : Hub := mkHub (h_cfg h) (h_store h) l.

Definition onStore {A} (c : M Store A) : M Hub A := λ h,
  let '(r, s) := c (h_store h) in (r, set_store s h).

(** [lighthouses.start], [reload] and [stop]. *)
Definition lhs_start (env : Env) (inst : Instance_) : M Hub () :=
  let* h := getM in
  match h_lhs h !! i_ID inst with
  | Some _ => retM ()
  | None =>
      let* raw := liftR (lighthouseConfig (ρ_of env) inst (c_NebulaBind (h_cfg h)) (c_DNS (h_cfg h))
                           (c_NoLighthouseTun (h_cfg h))) in
      match nebula_start env with
      | Some e => raise (Wrap "could not start nebula: %w" e)
      | None => modify (λ h, set_lhs (<[i_ID inst := raw]> (h_lhs h)) h)
      end
  end.
Definition lhs_reload (env : Env) (inst : Instance_) : M Hub () :=
  let* h := getM in
  match h_lhs h !! i_ID inst with
  | None => retM ()
  | Some _ =>
      let* raw := liftR (lighthouseConfig (ρ_of env) inst (c_NebulaBind (h_cfg h)) (c_DNS (h_cfg h))
                           (c_NoLighthouseTun (h_cfg h))) in
      match nebula_reload env with
      | Some e => raise e
      | None => modify (λ h, set_lhs (<[i_ID inst := raw]> (h_lhs h)) h)
      end
  end.
Definition lhs_stop (id : string) : M Hub () := modify (λ h, set_lhs (delete id (h_lhs h)) h).
Definition stopAll : M Hub () := modify (set_lhs ∅).
Definition isRunning (h : Hub) (id : string) : bool := bool_decide (is_Some (h_lhs h !! id)).

(** [applyBlocklist]: the decision is recorded by the time this runs. *)
Definition applyBlocklist (env : Env) (id : string) : M Hub () :=
  let* h := getM in
  let* inst := liftR (Get (h_store h) id) in
  λ h, match lhs_reload env inst h with
       | (Err e, h) => (Err (Wrap "recorded, but the lighthouse did not take the new blocklist: %w" e), h)
       | r => r
       end.

(** ** Addresses *)

(** [m[k] = v] on a field of the instance: a nil map panics. *)
Definition assignM {A} (get : Instance_ → gomap A) (set : gomap A → Instance_ → Instance_)
    (k : string) (v : A) : M Instance_ () := λ i,
  match massign (get i) k v with
  | Some m => (Ok (), set m i)
  | None => (Panic, i)
  end.

Definition memberAddresses (ρ : Range) (inst : Instance_) (six : bool) : list Addr :=
  (λ m, p_addr (if six then m_Address6 m else m_Address m)) <$> (range ρ (mget (i_Members inst))).*2.

(** The address and the error are both answers, as in the source. *)
Definition allocate (ρ : Range) (fingerprint kind : string) : M Instance_ (Addr * option error) :=
  do* modify (λ i, match i_Allocations i with None => set_Allocations (Some ∅) i | _ => i end) in
  let* inst := getM in
  match fromPool (i_Overlay inst) (mget (i_Allocations inst)) fingerprint kind
          (memberAddresses ρ inst false ++ [i_LighthouseAddress inst; i_TenantAddress inst]) with
  | Ok addr =>
      do* assignM i_Allocations set_Allocations fingerprint addr in
      retM (addr, None)
  | Err e => retM (AddrZero, Some e)
  | Panic => panic
  end.
Definition allocate6 (ρ : Range) (fingerprint kind : string) : M Instance_ (Addr * option error) :=
  let* inst := getM in
  if negb (IsValid (i_Overlay6 inst)) then retM (AddrZero, None) else
  do* modify (λ i, match i_Allocations6 i with None => set_Allocations6 (Some ∅) i | _ => i end) in
  let* inst := getM in
  match fromPool (i_Overlay6 inst) (mget (i_Allocations6 inst)) fingerprint kind
          (memberAddresses ρ inst true ++ [i_LighthouseAddress6 inst; i_TenantAddress6 inst]) with
  | Ok addr =>
      do* assignM i_Allocations6 set_Allocations6 fingerprint addr in
      retM (addr, None)
  | Err e => retM (AddrZero, Some e)
  | Panic => panic
  end.

Definition prefixOf (addr : Addr) (overlay : Prefix) : Prefix :=
  if negb (Addr_IsValid addr) || negb (IsValid overlay) then PrefixZero
  else PrefixFrom addr (p_bits overlay).

(** The loop of [freePort] over [uint16] numbers: the test before the
    increment keeps a range that ends at 65535 from wrapping around. *)
Fixpoint port_loop (fuel : nat) (p max : Z) (used : gset Z) : option (option Z) :=
  match fuel with
  | O => None
  | S fuel =>
      if p <=? max then
        if negb (bool_decide (p ∈ used)) then Some (Some p)
        else if p =? max then Some None
        else port_loop fuel ((p + 1) mod 65536) max used
      else Some None
  end.
Definition freePort (cfg : Config) (used : gset Z) : res Z :=
  match port_loop (Z.to_nat (c_PortMax cfg - c_PortMin cfg) + 1) (c_PortMin cfg) (c_PortMax cfg) used with
  | Some (Some p) => Ok p
  | Some None => Err (Errorf "no free port in %d-%d")
  | None => Panic
  end.

Section Fingerprint.
Context `{HC : Crypto}.
Definition fingerprintOf (publicKeyPEM : string) : string :=
  EncodeHex (sha256 (Join (Fields publicKeyPEM) " ")).
End Fingerprint.

(** ** Creating and activating *)

Definition CreateInstance (env : Env) (binder owner name sharedToken : string) : M Hub Instance_ :=
  let* h := getM in
  let cfg := h_cfg h in
  let* overlay := liftR (allocateOverlay (c_Overlays cfg) (UsedOverlays (h_store h))) in
  let* port := liftR (freePort cfg (UsedPorts (h_store h))) in
  let* lighthouseAddr := liftR (reserveLighthouse overlay) in
  let* tenantAddr := liftR (lowestFree overlay {[lighthouseAddr]}) in
  let* (overlay6, lighthouseAddr6, tenantAddr6) :=
    (match c_Overlays6 cfg with
     | [] => retM (PrefixZero, AddrZero, AddrZero)
     | pools6 =>
         let* overlay6 := liftR (allocateOverlay pools6 (UsedOverlays6 (h_store h))) in
         let* lighthouseAddr6 := liftR (reserveLighthouse overlay6) in
         let* tenantAddr6 := liftR (lowestFree overlay6 {[lighthouseAddr6]}) in
         retM (overlay6, lighthouseAddr6, tenantAddr6)
     end) in
  let* (pubPEM, keyPEM) := (match GenerateHostKey env with inl e => raise e | inr k => retM k end) in
  let inst :=
    {| i_ID := newID env; i_Name := name; i_Owner := owner; i_Binder := binder;
       i_Overlay := overlay; i_Overlay6 := overlay6; i_Port := port;
       i_LighthouseAddress := lighthouseAddr; i_LighthouseAddress6 := lighthouseAddr6;
       i_TenantAddress := tenantAddr; i_TenantAddress6 := tenantAddr6;
       i_LighthousePublicKey := pubPEM; i_LighthouseKey := keyPEM;
       i_LighthouseCert := ""; i_CACert := "";
       i_Relay := c_Relay cfg; i_SharedToken := sharedToken;
       i_Allocations := Some ∅; i_Allocations6 := Some ∅; i_Requests := Some ∅;
       i_Members := Some {[owner :=
         {| m_Kind := KindOwner; m_Name := name; m_Fingerprint := ""; m_Identity := owner;
            m_Binder := binder; m_Address := PrefixFrom tenantAddr (p_bits overlay);
            m_Address6 := prefixOf tenantAddr6 overlay6; m_Routes := []; m_Domain := "";
            m_CertFingerprint := ""; m_Events := []; m_JoinedAt := now env |}]};
       i_Burned := []; i_CreatedAt := now env |} in
  do* onStore (Add env inst) in
  retM inst.

Definition activate_fn (caCert lighthouseCert : string) : M Instance_ () :=
  do* guard (negb (bool_decide (TrimSpace caCert = "" ∨ TrimSpace lighthouseCert = "")))
        (Errorf "both the authority and the lighthouse certificate are required") in
  modify (set_Certs caCert lighthouseCert).
Definition ActivateInstance (env : Env) (id caCert lighthouseCert : string) : M Hub () :=
  do* onStore (Update env id (activate_fn caCert lighthouseCert)) in
  let* h := getM in
  let* inst := liftR (Get (h_store h) id) in
  do* lhs_stop id in
  lhs_start env inst.

(** ** Enrolling *)

Record Applicant : Type := mkApplicant {
  a_Kind : string;
  a_Identity : string;
  a_Binder : string;
  a_MAC : string;
  a_SourceAddr : string;
}.

(** [inst.burned]. *)
Definition burned (inst : Instance_) (fingerprint : string) : bool :=
  existsb (λ b, bool_decide (b_Fingerprint b = fingerprint)) (i_Burned inst).

(** The name a connector asked for, made usable or dropped into the hints. *)
Definition applicant_name (req : Request) (who : Applicant) : Request :=
  if decide (a_Kind who = KindConnector ∧ rq_Name req ≠ "") then
    match ParseMemberName (rq_Name req) with
    | Ok name => set_Name name req
    | _ => set_Name "" (set_Hints (Some (<["asked to be called" := rq_Name req]> (mget (rq_Hints req)))) req)
    end
  else req.

(** A record that exists already, when its key enrolls again. *)
Definition reenrolled (req : Request) (source : string) (existing : HubRecord) : HubRecord :=
  let existing := with_request req source existing in
  if decide (hr_Status existing = StatusRejected)
  then with_decision StatusPending (hr_Bundle existing) "" TimeZero existing
  else existing.

Section Enroll.
Context `{HC : Crypto}.

Definition enroll_fn (env : Env) (req : Request) (who : Applicant) (fingerprint : string)
    : M Instance_ HubRecord :=
  let* inst := getM in
  do* guard (negb (bool_decide (a_Kind who = KindConnector ∧ i_SharedToken inst ≠ "") &&
                   negb (VerifyMAC (ρ_of env) req (i_SharedToken inst) (a_MAC who))))
        (Errorf "bad or missing request authentication") in
  do* guard (negb (burned inst fingerprint))
        (Errorf "this key was removed from %s and will not be admitted again") in
  match find_first (λ kv, bool_decide (hr_Fingerprint kv.2 = fingerprint))
          (range (ρ_of env) (mget (i_Requests inst))) with
  | Some (k, existing) =>
      let existing := reenrolled req (a_SourceAddr who) existing in
      do* assignM i_Requests set_Requests k existing in
      retM existing
  | None =>
      let* (addr, err4) := allocate (ρ_of env) fingerprint (a_Kind who) in
      let* (addr6, err6) := allocate6 (ρ_of env) fingerprint (a_Kind who) in
      if negb (Addr_IsValid addr) && negb (Addr_IsValid addr6) then
        match err4, err6 with
        | Some e, _ => raise e
        | None, Some e => raise e
        | None, None => panic
        end
      else
        let record :=
          {| hr_Record :=
               {| er_ID := newID env; er_Status := StatusPending; er_Request := req;
                  er_Fingerprint := fingerprint;
                  er_OverlayAddress := PrefixFrom addr (p_bits (i_Overlay inst));
                  er_OverlayAddress6 := prefixOf addr6 (i_Overlay6 inst);
                  er_SourceAddr := a_SourceAddr who;
                  er_ReceivedAt := now env; er_DecidedAt := TimeZero |};
             hr_Kind := a_Kind who; hr_Identity := a_Identity who; hr_Binder := a_Binder who;
             hr_Bundle := None; hr_Reason := "" |} in
        do* assignM i_Requests set_Requests (newID env) record in
        retM record
  end.

Definition Enroll (env : Env) (ref : string) (req : Request) (who : Applicant) : M Hub HubRecord :=
  let* req := liftR (Validate req) in
  let req := applicant_name req who in
  let* h := getM in
  do* (if decide (a_Kind who = KindTenant ∧ a_Identity who ≠ "") then
         match Resolve (ρ_of env) (h_store h) ref with
         | Ok inst => guard (negb (bool_decide (i_Owner inst = a_Identity who)))
                        (Errorf "this machine owns %s and is already in it")
         | _ => retM ()
         end
       else retM ()) in
  do* guard (negb (bool_decide (a_Kind who = KindTenant) && (0 <? length (rq_Routes req))%nat))
        (Errorf "a tenant does not announce routes") in
  let* target := liftR (Resolve (ρ_of env) (h_store h) ref) in
  onStore (Update env (i_ID target) (enroll_fn env req who (fingerprintOf (rq_PublicKey req)))).
End Enroll.

(** ** Results and decisions *)

Definition withBlocklist (ρ : Range) (bundle : option Bundle) (inst : Instance_) : option Bundle :=
  set_Blocked (blockedIn ρ inst) <$> bundle.

Definition result_of (ρ : Range) (inst : Instance_) (record : HubRecord) (retry : Z) : Result :=
  match hr_Status record with
  | StatusApproved => mkResult (hr_Status record) 0 (withBlocklist ρ (hr_Bundle record) inst) (hr_Reason record)
  | _ => mkResult (hr_Status record) retry None (hr_Reason record)
  end.
(** [Hub.Result]. *)
Definition ResultOf (ρ : Range) (h : Hub) (ref requestID : string) : res Result :=
  let? inst := Resolve ρ (h_store h) ref in
  match mlookup (i_Requests inst) requestID with
  | None => Err ErrNotFound
  | Some record => Ok (result_of ρ inst record 30)
  end.

Definition Pending (ρ : Range) (h : Hub) (id : string) : res (list HubRecord) :=
  let? inst := Get (h_store h) id in
  Ok (filter (λ r, hr_Status r = StatusPending) (range ρ (mget (i_Requests inst))).*2).

Definition lighthouse_of (cfg : Config) (inst : Instance_) : Lighthouse :=
  {| l_OverlayAddress := i_LighthouseAddress inst;
     l_OverlayAddress6 := i_LighthouseAddress6 inst;
     l_Endpoints := [JoinHostPort (c_PublicEndpoint cfg) (Itoa (i_Port inst))];
     l_Relay := i_Relay inst |}.

(** The bundle an approval is answered with. *)
Definition approved_bundle (ρ : Range) (cfg : Config) (inst : Instance_) (record : HubRecord)
    (b : Bundle) : Bundle :=
  {| bu_Certificate := bu_Certificate b;
     bu_CA := bu_CA b;
     bu_OverlayAddress := er_OverlayAddress (hr_Record record);
     bu_OverlayAddress6 := er_OverlayAddress6 (hr_Record record);
     bu_Lighthouse := lighthouse_of cfg inst;
     bu_MTU := if bu_MTU b =? 0 then c_MTU cfg else bu_MTU b;
     bu_Instance := if decide (bu_Instance b = "") then i_Name inst else bu_Instance b;
     bu_Blocked := blockedIn ρ inst |}.

(** Writes through the pointer to a stored record. *)
Definition set_record (id : string) (r : HubRecord) : M Instance_ () :=
  modify (λ i, set_Requests (<[id := r]> <$> i_Requests i) i).

Definition admitted (env : Env) (record : HubRecord) (name : string) (d : Decision_) : Member :=
  {| m_Kind := hr_Kind record; m_Name := name; m_Fingerprint := hr_Fingerprint record;
     m_Identity := hr_Identity record; m_Binder := hr_Binder record;
     m_Address := er_OverlayAddress (hr_Record record);
     m_Address6 := er_OverlayAddress6 (hr_Record record);
     m_Routes := d_Routes d; m_Domain := d_Domain d; m_CertFingerprint := d_CertFingerprint d;
     m_Events := []; m_JoinedAt := now env |}.

Definition decide_fn (env : Env) (cfg : Config) (requestID : string) (d : Decision_) : M Instance_ () :=
  let* inst := getM in
  match mlookup (i_Requests inst) requestID with
  | None => raise ErrNotFound
  | Some record =>
      match d_Status d with
      | StatusApproved =>
          match d_Bundle d with
          | None => raise (Errorf "an approval needs a certificate")
          | Some b =>
              do* guard (negb (bool_decide (bu_Certificate b = "")))
                    (Errorf "an approval needs a certificate") in
              let bundle := approved_bundle (ρ_of env) cfg inst record b in
              let approved := with_decision StatusApproved (Some bundle) (hr_Reason record)
                                (er_DecidedAt (hr_Record record)) record in
              do* set_record requestID approved in
              do* modify (λ i, match i_Members i with None => set_Members (Some ∅) i | _ => i end) in
              let name := if decide (d_Name d = "") then rq_Name (hr_Request record) else d_Name d in
              do* guard (negb (existsb (λ kv, bool_decide (kv.1 ≠ hr_Fingerprint record ∧
                                                           m_Name kv.2 = name ∧ name ≠ ""))
                                 (range (ρ_of env) (mget (i_Members inst)))))
                    (Errorf "a %s is already called %s: retire it first") in
              do* assignM i_Members set_Members (hr_Fingerprint record) (admitted env record name d) in
              set_record requestID (with_decision StatusApproved (Some bundle) (hr_Reason record)
                                      (now env) record)
          end
      | StatusRejected =>
          set_record requestID (with_decision StatusRejected None (d_Reason d) (now env) record)
      | _ => raise (Errorf "unknown decision %q")
      end
  end.
Definition Decide (env : Env) (id requestID : string) (d : Decision_) : M Hub () :=
  let* h := getM in
  onStore (Update env id (decide_fn env (h_cfg h) requestID d)).

Definition forget_fn (requestID : string) : M Instance_ () :=
  let* inst := getM in
  match mlookup (i_Requests inst) requestID with
  | None => raise ErrNotFound
  | Some _ => modify (λ i, set_Requests (mdelete (i_Requests i) requestID) i)
  end.
Definition Forget (env : Env) (id requestID : string) : M Hub () :=
  onStore (Update env id (forget_fn requestID)).

(** ** The route table *)

Record Route : Type := mkRoute { rt_Prefix : Prefix; rt_Via : Addr; rt_Connector : string }.
Record Resolver : Type := mkResolver {
  rv_Domain : string;
  rv_Via : Addr;
  rv_Via6 : Addr;
  rv_Connector : string;
}.
Record RouteTable : Type := mkRouteTable {
  tb_Instance : string;
  tb_Overlay : Prefix;
  tb_Lighthouse : Lighthouse;
  tb_Routes : list Route;
  tb_Resolvers : list Resolver;
  tb_Blocked : list string;
  tb_MTU : Z;
}.

(** The members a table is made from: the connectors that are not banned. *)
Definition carries (m : Member) : bool := bool_decide (m_Kind m = KindConnector) && negb (Banned m).

Definition routes_of_member (m : Member) : list Route :=
  (λ p, mkRoute p (p_addr (m_Address m)) (m_Name m)) <$> m_Routes m.
Definition routesOf (ρ : Range) (inst : Instance_) : list Route :=
  sort_by (Prefix_String ∘ rt_Prefix)
    (filter (λ m, carries m = true) (range ρ (mget (i_Members inst))).*2 ≫= routes_of_member).

Definition resolver_of_member (m : Member) : Resolver :=
  {| rv_Domain := m_Domain m; rv_Via := p_addr (m_Address m);
     rv_Via6 := if IsValid (m_Address6 m) then p_addr (m_Address6 m) else AddrZero;
     rv_Connector := m_Name m |}.
Definition resolversOf (ρ : Range) (inst : Instance_) : list Resolver :=
  sort_by rv_Domain
    (resolver_of_member <$>
      filter (λ m, carries m = true ∧ m_Domain m ≠ "") (range ρ (mget (i_Members inst))).*2).

Definition RouteTableOf (ρ : Range) (cfg : Config) (inst : Instance_) : RouteTable :=
  {| tb_Instance := i_Name inst;
     tb_Overlay := i_Overlay inst;
     tb_Lighthouse :=
       {| l_OverlayAddress := i_LighthouseAddress inst; l_OverlayAddress6 := AddrZero;
          l_Endpoints := [JoinHostPort (c_PublicEndpoint cfg) (Itoa (i_Port inst))];
          l_Relay := i_Relay inst |};
     tb_Routes := routesOf ρ inst;
     tb_Resolvers := resolversOf ρ inst;
     tb_Blocked := blockedIn ρ inst;
     tb_MTU := c_MTU cfg |}.
Definition Routes (ρ : Range) (h : Hub) (id : string) : res RouteTable :=
  let? inst := Get (h_store h) id in Ok (RouteTableOf ρ (h_cfg h) inst).

Definition MemberCount (inst : Instance_) : nat :=
  length (filter (λ m, m_Kind m ≠ KindOwner ∧ Banned m = false) (map_to_list (mget (i_Members inst))).*2).

(** ** Members *)

Definition Delete (env : Env) (id : string) : M Hub () :=
  let* h := getM in
  let* inst := liftR (Get (h_store h) id) in
  do* lhs_stop (i_ID inst) in
  onStore (Remove env (i_ID inst)).

(** The member a reference names: the first one met whose fingerprint is the
    reference, or starts with it, or whose name it is. *)
Definition memberIn (ρ : Range) (inst : Instance_) (ref : string) : res (string * Member) :=
  match find_first (λ kv, bool_decide (kv.1 = ref) || HasPrefix kv.1 ref || bool_decide (m_Name kv.2 = ref))
          (range ρ (mget (i_Members inst))) with
  | Some kv => Ok kv
  | None => Err (Wrap "no member %s: %w" ErrNotFound)
  end.

(** [m.Events = append(m.Events, ...)], through the pointer to the member. *)
Definition append_event (fp : string) (m : Member) (e : MemberEvent) : M Instance_ () :=
  modify (λ i, set_Members (<[fp := set_Events (m_Events m ++ [e]) m]> <$> i_Members i) i).

Definition ban_fn (env : Env) (ref note : string) : M Instance_ () :=
  let* inst := getM in
  let* (fp, m) := liftR (memberIn (ρ_of env) inst ref) in
  do* guard (negb (Banned m)) (Errorf "%s is already banned") in
  append_event fp m (mkEvent EventBan note (now env)).
Definition unban_fn (env : Env) (ref note : string) : M Instance_ () :=
  let* inst := getM in
  let* (fp, m) := liftR (memberIn (ρ_of env) inst ref) in
  do* guard (Banned m) (Errorf "%s is not banned") in
  append_event fp m (mkEvent EventUnban note (now env)).
Definition Ban (env : Env) (id ref note : string) : M Hub () :=
  do* onStore (Update env id (ban_fn env ref note)) in
  applyBlocklist env id.
Definition Unban (env : Env) (id ref note : string) : M Hub () :=
  do* onStore (Update env id (unban_fn env ref note)) in
  applyBlocklist env id.

Definition remove_fn (env : Env) (ref : string) : M Instance_ Member :=
  let* inst := getM in
  let* (fp, m) := liftR (memberIn (ρ_of env) inst ref) in
  do* guard (negb (bool_decide (m_Kind m = KindOwner)))
        (Errorf "%s owns this instance and cannot be removed from it") in
  do* guard (Banned m) (Errorf "%s is not banned: ban it first") in
  do* modify (λ i, set_Burned (i_Burned i ++ [mkBurned fp (m_CertFingerprint m)]) i) in
  do* modify (λ i, set_Members (mdelete (i_Members i) fp) i) in
  do* modify (λ i, set_Allocations (mdelete (i_Allocations i) fp) i) in
  do* modify (λ i, set_Allocations6 (mdelete (i_Allocations6 i) fp) i) in
  do* modify (λ i, set_Requests
                (filter (λ kv : string * HubRecord, hr_Fingerprint kv.2 ≠ fp) <$> i_Requests i) i) in
  retM m.
Definition RemoveMember (env : Env) (id ref : string) : M Hub Member :=
  onStore (Update env id (remove_fn env ref)).

Definition SetSharedToken (env : Env) (id token : string) : M Hub () :=
  do* guard (negb (bool_decide (token = ""))) (Errorf "a shared token is required") in
  onStore (Update env id (modify (set_Token token))).

(** [Hub.Members]. *)
Definition MembersOf (ρ : Range) (h : Hub) (id : string) : res (list Member) :=
  let? inst := Get (h_store h) id in
  Ok (sort_by m_Name (range ρ (mget (i_Members inst))).*2).

(** ** Starting *)

Definition start_all (env : Env) : list Instance_ → M Hub () :=
  fix go l :=
    match l with
    | [] => retM ()
    | inst :: l =>
        if decide (i_LighthouseCert inst = "") then go l
        else λ h, match lhs_start env inst h with
                  | (Panic, h) => (Panic, h)
                  | (_, h) => go l h
                  end
    end.
(** [New]: a lighthouse that does not start is logged and left out. *)
Definition New (env : Env) (cfg : Config) (file : option state) : res Hub :=
  if (c_PortMin cfg =? 0) || (c_PortMax cfg =? 0) || (c_PortMax cfg <? c_PortMin cfg)
  then Err (Errorf "invalid port range %d-%d")
  else if (length (c_Overlays cfg) =? 0)%nat then Err (Errorf "an overlay pool is required")
  else
    let store := OpenStore file in
    match start_all env (List (ρ_of env) store) (mkHub cfg store ∅) with
    | (Panic, _) => Panic
    | (_, h) => Ok h
    end.
