(* ===== verification/HubInv.v ===== *)
(** * What holds of the hub's state in every reachable state *)

From Stdlib Require Import Ascii.
From S2P Require Export Wrak HubOps.

Open Scope Z_scope.

(** ** The invariant of an instance *)

(** One address family of an instance: its prefix, the two addresses it keeps
    for itself and what it handed out.  A family may be absent. *)
Definition family_ok (overlay : Prefix) (lh ta : Addr) (al : gmap string Addr) : Prop :=
  (overlay = PrefixZero ∧ lh = AddrZero ∧ ta = AddrZero ∧ al = ∅) ∨
  (prefix_ok overlay ∧ usable overlay lh ∧ usable overlay ta ∧ lh ≠ ta ∧
   (∀ fp a, al !! fp = Some a → usable overlay a ∧ a ≠ lh ∧ a ≠ ta) ∧
   (∀ fp fp' a, al !! fp = Some a → al !! fp' = Some a → fp = fp')).

(** The address written into a record or a member is the one allocated to its
    key, if there is one at all. *)
Definition holds (overlay : Prefix) (al : gmap string Addr) (fp : string) (p : Prefix) : Prop :=
  p = PrefixZero ∨ ∃ a, al !! fp = Some a ∧ p = PrefixFrom a (p_bits overlay).

(** A key fingerprint is never an identity: identities carry a prefix. *)
Definition is_fingerprint (fp : string) : Prop := HasPrefix fp IdentityPrefix = false.

Definition request_ok (i : Instance_) (r : HubRecord) : Prop :=
  is_fingerprint (hr_Fingerprint r) ∧ hr_Kind r ≠ KindOwner ∧
  holds (i_Overlay i) (mget (i_Allocations i)) (hr_Fingerprint r) (er_OverlayAddress (hr_Record r)) ∧
  holds (i_Overlay6 i) (mget (i_Allocations6 i)) (hr_Fingerprint r) (er_OverlayAddress6 (hr_Record r)).

Definition member_ok (i : Instance_) (fp : string) (m : Member) : Prop :=
  (fp = i_Owner i ∧ m_Kind m = KindOwner ∧
   m_Address m = PrefixFrom (i_TenantAddress i) (p_bits (i_Overlay i)) ∧
   m_Address6 m = prefixOf (i_TenantAddress6 i) (i_Overlay6 i)) ∨
  (is_fingerprint fp ∧ m_Kind m ≠ KindOwner ∧ m_Fingerprint m = fp ∧
   holds (i_Overlay i) (mget (i_Allocations i)) fp (m_Address m) ∧
   holds (i_Overlay6 i) (mget (i_Allocations6 i)) fp (m_Address6 m)).

Record inst_wf (i : Instance_) : Prop := {
  wf_overlay : prefix_ok (i_Overlay i);
  wf_four : family_ok (i_Overlay i) (i_LighthouseAddress i) (i_TenantAddress i) (mget (i_Allocations i));
  wf_six : family_ok (i_Overlay6 i) (i_LighthouseAddress6 i) (i_TenantAddress6 i) (mget (i_Allocations6 i));
  wf_owner : HasPrefix (i_Owner i) IdentityPrefix = true;
  wf_requests : ∀ k r, mget (i_Requests i) !! k = Some r → request_ok i r;
  wf_unique : ∀ k k' r r', mget (i_Requests i) !! k = Some r → mget (i_Requests i) !! k' = Some r' →
    hr_Fingerprint r = hr_Fingerprint r' → k = k';
  wf_members : ∀ fp m, mget (i_Members i) !! fp = Some m → member_ok i fp m;
  wf_burned : ∀ b, b ∈ i_Burned i → mget (i_Members i) !! b_Fingerprint b = None ∧
    (∀ k r, mget (i_Requests i) !! k = Some r → hr_Fingerprint r ≠ b_Fingerprint b);
}.

(** What no operation on an instance changes. *)
Definition static (i : Instance_) :=
  (i_ID i, i_Name i, i_Owner i, i_Binder i, i_Port i, (i_Overlay i, i_Overlay6 i),
   (i_LighthouseAddress i, i_LighthouseAddress6 i, i_TenantAddress i, i_TenantAddress6 i)).

(** The maps an operation may write to. *)
Definition nonnil (i : Instance_) : Prop :=
  is_Some (i_Allocations i) ∧ is_Some (i_Requests i) ∧ is_Some (i_Members i).

(** A computation over an instance that keeps the invariant and what is
    static, whatever its outcome, and does not panic. *)
Definition keeps {A} (fn : M Instance_ A) : Prop :=
  ∀ i, inst_wf i → nonnil i →
    (fn i).1 ≠ Panic ∧ inst_wf (fn i).2 ∧ static (fn i).2 = static i.

(** ** The pieces *)

(** The invariant only looks at what the maps hold. *)
Lemma inst_wf_ext i i' :
  static i' = static i → mget (i_Allocations i') = mget (i_Allocations i) →
  mget (i_Allocations6 i') = mget (i_Allocations6 i) → mget (i_Requests i') = mget (i_Requests i) →
  mget (i_Members i') = mget (i_Members i) → i_Burned i' = i_Burned i →
  inst_wf i → inst_wf i'.
Proof.
  unfold static. intros [= E1 E2 E3 E4 E5 E6 E7 E8 E9 E10 E11] Ha Ha6 Hr Hm Hb [].
  constructor; unfold request_ok, member_ok in *; rewrite ?E1, ?E2, ?E3, ?E4, ?E5, ?E6, ?E7, ?E8, ?E9, ?E10, ?E11, ?Ha, ?Ha6, ?Hr, ?Hm, ?Hb; done.
Qed.
Lemma ensureMaps_wf i : inst_wf i → inst_wf (ensureMaps i).
Proof. by apply inst_wf_ext. Qed.
Lemma ensureMaps_nonnil i : nonnil (ensureMaps i).
Proof. repeat split; by eexists. Qed.
Lemma ensureMaps_static i : static (ensureMaps i) = static i.
Proof. done. Qed.
Lemma mget_omitempty {A} (m : gomap A) : mget (omitempty m) = mget m.
Proof. unfold omitempty. by case_decide as H; [rewrite H|]. Qed.
Lemma reread_wf i : inst_wf i → inst_wf (reread i).
Proof. apply inst_wf_ext; simpl; by rewrite ?mget_omitempty. Qed.

Lemma holds_mono overlay (al al' : gmap string Addr) fp p :
  (∀ a, al !! fp = Some a → al' !! fp = Some a) → holds overlay al fp p → holds overlay al' fp p.
Proof. intros H [->|(a & Ha & ->)]; [by left|right]. eauto. Qed.

(** Handing out an address keeps the family in order. *)
Lemma family_alloc overlay lh ta al fp kind reserved a :
  family_ok overlay lh ta al → prefix_ok overlay → lh ∈ reserved → ta ∈ reserved →
  fromPool overlay al fp kind reserved = Ok a →
  family_ok overlay lh ta (<[fp := a]> al) ∧ Addr_IsValid a = true ∧
  (∀ b, al !! fp = Some b → b = a).
Proof.
  intros Hf Hp Hlh Hta Ha. pose proof (fromPool_result overlay al fp kind reserved Hp) as Hr.
  cbv zeta in Hr. rewrite Ha in Hr.
  destruct Hf as [(-> & _)|(_ & Hul & Hut & Hne & Hal & Hinj)]; [by destruct Hp as (?&?&?)|].
  assert (usable overlay a ∧ a ≠ lh ∧ a ≠ ta ∧ (∀ fp', al !! fp' = Some a → fp' = fp) ∧
    (∀ b, al !! fp = Some b → b = a)) as (Hu & Hnl & Hnt & Hown & Hb).
  { destruct Hr as [Hr|(Hn & [Hu _] & Hfresh & Hres & _)].
    - destruct (Hal _ _ Hr) as (?&?&?). split_and!; try done; [eauto|]. intros b. rewrite Hr. congruence.
    - split_and!; try done; [set_solver..| |].
      + intros fp' H. by destruct (Hfresh fp').
      + intros b. rewrite Hn. done. }
  split_and!; [|by destruct Hu as [Hc _]; destruct a; [rewrite ContainsAddr_zero in Hc|..]|done].
  right. split_and!; try done.
  - intros fp' a' [[<- <-]|[? Hl]]%lookup_insert_Some; [done|by eapply Hal].
  - intros fp1 fp2 a' [[<- <-]|[? Hl1]]%lookup_insert_Some [[<- E2]|[? Hl2]]%lookup_insert_Some; try done.
    + symmetry. by apply Hown.
    + subst a'. by apply Hown.
    + by eapply Hinj.
Qed.

(** What [allocate] and [allocate6] leave: the same instance with more
    addresses handed out; an answer that is not an address comes with an
    error. *)
Definition extends (i i' : Instance_) : Prop :=
  static i' = static i ∧ i_Requests i' = i_Requests i ∧ i_Members i' = i_Members i ∧
  i_Burned i' = i_Burned i ∧ i_SharedToken i' = i_SharedToken i ∧
  (∀ fp a, mget (i_Allocations i) !! fp = Some a → mget (i_Allocations i') !! fp = Some a) ∧
  (∀ fp a, mget (i_Allocations6 i) !! fp = Some a → mget (i_Allocations6 i') !! fp = Some a).

Lemma extends_refl i : extends i i.
Proof. done. Qed.
Lemma extends_trans i1 i2 i3 : extends i1 i2 → extends i2 i3 → extends i1 i3.
Proof.
  intros (?&?&?&?&?&?&?) (?&?&?&?&?&?&?). unfold extends. split_and!; try congruence; eauto.
Qed.

Lemma extends_wf i i' :
  extends i i' →
  family_ok (i_Overlay i') (i_LighthouseAddress i') (i_TenantAddress i') (mget (i_Allocations i')) →
  family_ok (i_Overlay6 i') (i_LighthouseAddress6 i') (i_TenantAddress6 i') (mget (i_Allocations6 i')) →
  inst_wf i → inst_wf i'.
Proof.
  intros (Es & Er & Em & Eb & _ & Ha & Ha6) H4 H6 [].
  unfold static in Es. injection Es as E1 E2 E3 E4 E5 E6 E7 E8 E9 E10 E11.
  constructor; try done; rewrite ?E3, ?E6, ?Er, ?Em, ?Eb; try done.
  - intros k r Hr. destruct (wf_requests0 k r Hr) as (?&?&?&?). unfold request_ok.
    rewrite E6, E7. split_and!; try done; (eapply holds_mono; [|done]; auto).
  - intros fp m Hm. unfold member_ok. rewrite E3, E6, E7, E10, E11.
    destruct (wf_members0 fp m Hm) as [?|(?&?&?&?&?)]; [by left|right].
    split_and!; try done; (eapply holds_mono; [|done]; auto).
Qed.

Lemma allocate_spec ρ fp kind i :
  inst_wf i →
  ∃ addr err i', allocate ρ fp kind i = (Ok (addr, err), i') ∧ inst_wf i' ∧ extends i i' ∧
    (Addr_IsValid addr = true → mget (i_Allocations i') !! fp = Some addr) ∧
    (Addr_IsValid addr = false → err ≠ None) ∧ is_Some (i_Allocations i').
Proof.
  intros Hwf. unfold allocate, modify, bindM, getM.
  set (i0 := match i_Allocations i with None => _ | _ => i end).
  assert (mget (i_Allocations i0) = mget (i_Allocations i) ∧ is_Some (i_Allocations i0) ∧
    extends i i0 ∧ i_Allocations6 i0 = i_Allocations6 i) as (Ea & [al Hal] & Hext & Ea6).
  { unfold i0. destruct (i_Allocations i) eqn:E; [by rewrite E|].
    split_and!; [done|by eexists| |done]. unfold extends. split_and!; try done. simpl. by rewrite E. }
  assert (inst_wf i0) as Hwf0.
  { revert Hwf. destruct Hext as (?&Er&Em&?&_). apply inst_wf_ext; congruence. }
  clearbody i0. pose proof (wf_overlay _ Hwf0) as Hp. pose proof (wf_four _ Hwf0) as H4.
  destruct (fromPool _ _ _ _ _) as [addr|e|] eqn:Hf.
  - unfold assignM, massign, retM. rewrite Hal.
    rewrite Hal in H4, Hf. simpl in H4, Hf.
    apply (family_alloc _ (i_LighthouseAddress i0) (i_TenantAddress i0)) in Hf as (Hf & Hv & Hold); [|done|done|set_solver..].
    eexists addr, None, _. split; [done|].
    assert (extends i0 (set_Allocations (Some (<[fp:=addr]> al)) i0)) as Hext'.
    { split_and!; try done. simpl. rewrite Hal. simpl. intros fp' a' H.
      destruct (decide (fp' = fp)) as [->|Hne].
      - rewrite (Hold _ H). apply lookup_insert_eq.
      - by rewrite lookup_insert_ne. }
    split_and!; [|by eapply extends_trans| |by rewrite Hv|by eexists].
    + apply (extends_wf _ _ Hext'); [exact Hf|apply (wf_six _ Hwf0)|done].
    + intros _. simpl. apply lookup_insert_eq.
  - eexists AddrZero, (Some e), i0. split_and!; try done.
  - pose proof (fromPool_result (i_Overlay i0) (mget (i_Allocations i0)) fp kind
      (memberAddresses ρ i0 false ++ [i_LighthouseAddress i0; i_TenantAddress i0]) Hp) as Hr.
    cbv zeta in Hr. by rewrite Hf in Hr.
Qed.
Lemma allocate6_spec ρ fp kind i :
  inst_wf i →
  ∃ addr err i', allocate6 ρ fp kind i = (Ok (addr, err), i') ∧ inst_wf i' ∧ extends i i' ∧
    (Addr_IsValid addr = true → mget (i_Allocations6 i') !! fp = Some addr) ∧
    (is_Some (i_Allocations i) → is_Some (i_Allocations i')) ∧
    mget (i_Allocations i') = mget (i_Allocations i).
Proof.
  intros Hwf. unfold allocate6, modify, bindM, getM.
  destruct (IsValid (i_Overlay6 i)) eqn:Hv6; cbn [negb]; cbn beta iota.
  2: { eexists AddrZero, None, i. split_and!; try done. }
  set (i0 := match i_Allocations6 i with None => _ | _ => i end).
  assert (mget (i_Allocations6 i0) = mget (i_Allocations6 i) ∧ is_Some (i_Allocations6 i0) ∧
    extends i i0 ∧ i_Allocations i0 = i_Allocations i ∧ i_Overlay6 i0 = i_Overlay6 i)
    as (Ea & [al Hal] & Hext & Ea4 & Eo).
  { unfold i0. destruct (i_Allocations6 i) eqn:E; [by rewrite E|].
    split_and!; [done|by eexists| |done|done]. unfold extends. split_and!; try done. simpl. by rewrite E. }
  assert (inst_wf i0) as Hwf0.
  { revert Hwf. destruct Hext as (?&Er&Em&?&_). apply inst_wf_ext; congruence. }
  clearbody i0. pose proof (wf_six _ Hwf0) as H6.
  assert (prefix_ok (i_Overlay6 i0)) as Hp.
  { rewrite <-Eo in Hv6. by destruct H6 as [(E & _)|(Hp & _)]; [rewrite E in Hv6|]. }
  destruct (fromPool _ _ _ _ _) as [addr|e|] eqn:Hf.
  - unfold assignM, massign, retM. rewrite Hal.
    rewrite Hal in H6, Hf. simpl in H6, Hf.
    apply (family_alloc _ (i_LighthouseAddress6 i0) (i_TenantAddress6 i0)) in Hf as (Hf & Hv & Hold); [|done|done|set_solver..].
    eexists addr, None, _. split; [done|].
    assert (extends i0 (set_Allocations6 (Some (<[fp:=addr]> al)) i0)) as Hext'.
    { split_and!; try done. simpl. rewrite Hal. simpl. intros fp' a' H.
      destruct (decide (fp' = fp)) as [->|Hne].
      - rewrite (Hold _ H). apply lookup_insert_eq.
      - by rewrite lookup_insert_ne. }
    split_and!; [|by eapply extends_trans| |by simpl; rewrite Ea4|simpl; by rewrite Ea4].
    + apply (extends_wf _ _ Hext'); [apply (wf_four _ Hwf0)|exact Hf|done].
    + intros _. simpl. apply lookup_insert_eq.
  - eexists AddrZero, (Some e), i0. split_and!; try done; by rewrite Ea4.
  - pose proof (fromPool_result (i_Overlay6 i0) (mget (i_Allocations6 i0)) fp kind
      (memberAddresses ρ i0 true ++ [i_LighthouseAddress6 i0; i_TenantAddress6 i0]) Hp) as Hr.
    cbv zeta in Hr. by rewrite Hf in Hr.
Qed.

(** ** The operations on an instance *)

(** Writing a record over another of the same key, or a new one. *)
Lemma requests_insert_wf i k r :
  inst_wf i → request_ok i r →
  (∀ b, b ∈ i_Burned i → hr_Fingerprint r ≠ b_Fingerprint b) →
  (∀ k' r', mget (i_Requests i) !! k' = Some r' → hr_Fingerprint r' = hr_Fingerprint r → k' = k) →
  inst_wf (set_Requests (Some (<[k := r]> (mget (i_Requests i)))) i).
Proof.
  intros [] Hr Hb Hk. constructor; try done; simpl.
  - intros k' r' [[<- <-]|[? Hl]]%lookup_insert_Some; [done|by eapply wf_requests0].
  - intros k1 k2 r1 r2 [[<- <-]|[? Hl1]]%lookup_insert_Some [[<- <-]|[? Hl2]]%lookup_insert_Some Hf; eauto.
    symmetry. eauto.
  - intros b Hin. destruct (wf_burned0 b Hin) as [? Hreq]. split; [done|].
    intros k' r' [[<- <-]|[? Hbu]]%lookup_insert_Some; [by apply Hb|by eapply Hreq].
Qed.
Lemma requests_update_wf i k r r' :
  inst_wf i → mget (i_Requests i) !! k = Some r →
  hr_Fingerprint r' = hr_Fingerprint r → hr_Kind r' = hr_Kind r →
  er_OverlayAddress (hr_Record r') = er_OverlayAddress (hr_Record r) →
  er_OverlayAddress6 (hr_Record r') = er_OverlayAddress6 (hr_Record r) →
  inst_wf (set_Requests (Some (<[k := r']> (mget (i_Requests i)))) i).
Proof.
  intros Hwf Hr Ef Ek Ea Ea6. apply requests_insert_wf; [done|..].
  - destruct (wf_requests _ Hwf _ _ Hr) as (?&?&?&?). unfold request_ok. by rewrite Ef, Ek, Ea, Ea6.
  - intros b Hb. rewrite Ef. destruct (wf_burned _ Hwf b Hb) as [_ H]. by eapply H.
  - intros k' r'' Hk' Hf. rewrite Ef in Hf. by eapply (wf_unique _ Hwf).
Qed.
Lemma mget_Some {A} (m : gomap A) : is_Some m → Some (mget m) = m.
Proof. by intros [x ->]. Qed.
Lemma set_record_run k r i :
  is_Some (i_Requests i) →
  set_record k r i = (Ok (), set_Requests (Some (<[k := r]> (mget (i_Requests i)))) i).
Proof. intros [rq Hrq]. unfold set_record, modify. by rewrite Hrq. Qed.
Lemma assignM_run {A} (get : Instance_ → gomap A) set k (v : A) i :
  is_Some (get i) → assignM get set k v i = (Ok (), set (Some (<[k := v]> (mget (get i)))) i).
Proof. intros [m Hm]. unfold assignM, massign. by rewrite Hm. Qed.

Lemma with_request_fp req src r : hr_Fingerprint (with_request req src r) = hr_Fingerprint r.
Proof. done. Qed.
Lemma reenrolled_same req src r :
  let r' := reenrolled req src r in
  hr_Fingerprint r' = hr_Fingerprint r ∧ hr_Kind r' = hr_Kind r ∧ hr_ID r' = hr_ID r ∧
  er_OverlayAddress (hr_Record r') = er_OverlayAddress (hr_Record r) ∧
  er_OverlayAddress6 (hr_Record r') = er_OverlayAddress6 (hr_Record r).
Proof. unfold reenrolled. by case_decide. Qed.

Lemma burned_false i fp : burned i fp = false ↔ ∀ b, b ∈ i_Burned i → b_Fingerprint b ≠ fp.
Proof.
  unfold burned. rewrite <-not_true_iff_false, existsb_exists. split.
  - intros H b Hb He. apply H. exists b. split; [by apply list_elem_of_In|by apply bool_decide_eq_true].
  - intros H (b & Hb & He%bool_decide_eq_true). apply list_elem_of_In in Hb. by eapply H.
Qed.

Lemma forget_keeps k : keeps (forget_fn k).
Proof.
  intros i Hwf (? & Hr & ?). unfold forget_fn, bindM, getM.
  destruct (mlookup _ _) as [r|]; [|done]. simpl. split_and!; [done| |done].
  destruct Hwf. constructor; try done; simpl; rewrite mget_mdelete.
  - intros k' r' [? Hl]%lookup_delete_Some. by eapply wf_requests0.
  - intros k1 k2 r1 r2 [? Hl1]%lookup_delete_Some [? Hl2]%lookup_delete_Some. by eapply wf_unique0.
  - intros b Hb. destruct (wf_burned0 b Hb) as [? Hreq]. split; [done|].
    intros k' r' [? Hl]%lookup_delete_Some. by eapply Hreq.
Qed.
Lemma activate_keeps ca cert : keeps (activate_fn ca cert).
Proof.
  intros i Hwf Hn. unfold activate_fn, bindM, guard, retM, raise, modify.
  destruct (negb _); simpl; split_and!; try done. by apply (inst_wf_ext i).
Qed.
Lemma set_Token_keeps token : keeps (modify (set_Token token)).
Proof. intros i Hwf Hn. simpl. split_and!; try done. by apply (inst_wf_ext i). Qed.

Lemma memberIn_Ok ρ i ref fp m :
  memberIn ρ i ref = Ok (fp, m) →
  mget (i_Members i) !! fp = Some m ∧ (fp = ref ∨ HasPrefix fp ref = true ∨ m_Name m = ref).
Proof.
  unfold memberIn. destruct (find_first _ _) as [kv|] eqn:Hf; [|done]. intros [= ->].
  apply find_first_Some in Hf as [Hin Hp]. apply elem_of_range in Hin. split; [done|].
  apply orb_true_iff in Hp as [[Hp|Hp]%orb_true_iff|Hp]; [|tauto|].
  - left. by apply bool_decide_eq_true in Hp.
  - right; right. by apply bool_decide_eq_true in Hp.
Qed.
Lemma memberIn_not_panic ρ i ref : memberIn ρ i ref ≠ Panic.
Proof. unfold memberIn. by destruct (find_first _ _). Qed.

Lemma append_event_keeps fp m e i :
  inst_wf i → nonnil i → mget (i_Members i) !! fp = Some m →
  (append_event fp m e i).1 ≠ Panic ∧ inst_wf (append_event fp m e i).2 ∧
  static (append_event fp m e i).2 = static i.
Proof.
  intros Hwf (_ & _ & [mb Hmb]) Hm. unfold append_event, modify. rewrite Hmb in *. simpl in *.
  split_and!; [done| |done]. pose proof Hwf as []. constructor; try done; simpl.
  - intros fp' m' [[<- <-]|[? Hl]]%lookup_insert_Some.
    + assert (mget (i_Members i) !! fp = Some m) as Hm' by by rewrite Hmb. exact (wf_members0 fp m Hm').
    + apply wf_members0. by rewrite Hmb.
  - intros b Hb. destruct (wf_burned0 b Hb) as [Hbm ?]. split; [|done]. rewrite Hmb in Hbm. simpl in Hbm.
    rewrite lookup_insert_None. split; [done|congruence].
Qed.
Lemma ban_keeps env ref note : keeps (ban_fn env ref note).
Proof.
  intros i Hwf Hn. unfold ban_fn, bindM, getM, liftR. pose proof (memberIn_not_panic (ρ_of env) i ref).
  destruct (memberIn _ _ _) as [[fp m]|e|] eqn:Hm; [|done..]. apply memberIn_Ok in Hm as [Hm _].
  unfold guard, raise, retM. destruct (negb (Banned m)); [|done]. by apply append_event_keeps.
Qed.
Lemma unban_keeps env ref note : keeps (unban_fn env ref note).
Proof.
  intros i Hwf Hn. unfold unban_fn, bindM, getM, liftR. pose proof (memberIn_not_panic (ρ_of env) i ref).
  destruct (memberIn _ _ _) as [[fp m]|e|] eqn:Hm; [|done..]. apply memberIn_Ok in Hm as [Hm _].
  unfold guard, raise, retM. destruct (Banned m); [|done]. by apply append_event_keeps.
Qed.

Lemma remove_keeps env ref : keeps (remove_fn env ref).
Proof.
  intros i Hwf Hn. unfold remove_fn, bindM, getM, liftR. pose proof (memberIn_not_panic (ρ_of env) i ref).
  destruct (memberIn _ _ _) as [[fp m]|e|] eqn:Hm; [|done..]. apply memberIn_Ok in Hm as [Hm _].
  unfold guard, raise, retM, modify.
  destruct (bool_decide_reflect (m_Kind m = KindOwner)) as [|Hk]; [done|].
  destruct (Banned m); [|done]. simpl. split_and!; [done| |done].
  assert (is_fingerprint fp) as Hfp.
  { destruct (wf_members _ Hwf fp m Hm) as [(_&?&_)|(?&_)]; done. }
  destruct Hwf. constructor; try done; simpl; rewrite ?mget_mdelete.
  - destruct wf_four0 as [(?&?&?&->)|(?&?&?&?&Hal&Hinj)]; [left; by rewrite delete_empty|right].
    split_and!; try done.
    + intros fp' a [? Hl]%lookup_delete_Some. by eapply Hal.
    + intros fp1 fp2 a [? Hl1]%lookup_delete_Some [? Hl2]%lookup_delete_Some. by eapply Hinj.
  - destruct wf_six0 as [(?&?&?&->)|(?&?&?&?&Hal&Hinj)]; [left; by rewrite delete_empty|right].
    split_and!; try done.
    + intros fp' a [? Hl]%lookup_delete_Some. by eapply Hal.
    + intros fp1 fp2 a [? Hl1]%lookup_delete_Some [? Hl2]%lookup_delete_Some. by eapply Hinj.
  - intros k r Hr. rewrite mget_filter in Hr. apply map_lookup_filter_Some in Hr as [Hr Hne]. simpl in Hne.
    destruct (wf_requests0 k r Hr) as (?&?&?&?). unfold request_ok. simpl. rewrite !mget_mdelete.
    split_and!; try done; (eapply holds_mono; [|done]); intros a Ha; by rewrite lookup_delete_ne.
  - intros k1 k2 r1 r2. rewrite mget_filter. intros [Hl1 _]%map_lookup_filter_Some [Hl2 _]%map_lookup_filter_Some.
    by eapply wf_unique0.
  - intros fp' m' [Hne Hl]%lookup_delete_Some. unfold member_ok. simpl. rewrite !mget_mdelete.
    destruct (wf_members0 fp' m' Hl) as [?|(?&?&?&?&?)]; [by left|right].
    split_and!; try done; (eapply holds_mono; [|done]); intros a Ha; by rewrite lookup_delete_ne.
  - intros b [Hb|Hb%list_elem_of_singleton]%elem_of_app.
    + destruct (wf_burned0 b Hb) as [Hbm Hreq]. split; [by apply lookup_delete_None; right|].
      intros k r. rewrite mget_filter. intros [Hl _]%map_lookup_filter_Some. by eapply Hreq.
    + subst b. simpl. split; [by apply lookup_delete_None; left|].
      intros k r. rewrite mget_filter. by intros [_ Hl]%map_lookup_filter_Some.
Qed.

Lemma decide_keeps env cfg rid d : keeps (decide_fn env cfg rid d).
Proof.
  intros i Hwf (Hal & Hrq & [mb Hmb]). unfold decide_fn, mlookup. rewrite bind_get.
  destruct (mget (i_Requests i) !! rid) as [r|] eqn:Hr; [|done].
  destruct (d_Status d); [done| | |done].
  - destruct (d_Bundle d) as [b|]; [|done]. rewrite bind_guard. destruct (negb _); [|done].
    rewrite (bind_run _ _ _ _ _ (set_record_run _ _ _ Hrq)).
    set (i1 := set_Requests _ i).
    assert (inst_wf i1) as Hwf1 by by eapply requests_update_wf.
    rewrite bind_modify. assert (i_Members i1 = Some mb) as -> by done. cbn iota.
    rewrite bind_guard. destruct (negb _); [|by split_and!].
    assert (is_Some (i_Members i1)) as Hm1 by by eexists.
    rewrite (bind_run _ _ _ _ _ (assignM_run _ _ _ _ _ Hm1)).
    rewrite set_record_run by by eexists. split_and!; [done| |done].
    set (name := if decide _ then _ else _). set (m := admitted env r name d).
    destruct (wf_requests _ Hwf _ _ Hr) as (Hfp & Hkind & H4 & H6).
    assert (inst_wf (set_Members (Some (<[hr_Fingerprint r := m]> (mget (i_Members i1)))) i1)) as Hwf2.
    { destruct Hwf1. constructor; try done; simpl.
      - intros fp' m' [[<- <-]|[? Hl]]%lookup_insert_Some; [|by apply wf_members0].
        right. exact (conj Hfp (conj Hkind (conj eq_refl (conj H4 H6)))).
      - intros b' Hb'. destruct (wf_burned0 b' Hb') as [Hbm Hreq]. split; [|done].
        rewrite lookup_insert_None. split; [done|]. intros He.
        by eapply (Hreq rid); [apply lookup_insert_eq|]. }
    eapply requests_update_wf; [exact Hwf2|apply lookup_insert_eq|done..].
  - rewrite set_record_run by done. split_and!; [done| |done]. by eapply requests_update_wf.
Qed.

Section Enroll.
Context `{HC : Crypto}.

Lemma fingerprint_not_identity key : is_fingerprint (fingerprintOf key).
Proof.
  unfold is_fingerprint. apply not_true_iff_false. intros [rest Hr]%HasPrefix_spec.
  apply (f_equal s2l) in Hr. unfold fingerprintOf, EncodeHex in Hr.
  destruct (sha256_bytes (Join (Fields key) " ")) as [Hb Hl].
  destruct (sha256 _) as [|b0 [|b1 [|b2 [|b3 l]]]]; try done.
  rewrite s2l_l2s in Hr. rewrite !bind_cons in Hr. simpl in Hr.
  injection Hr as _ _ _ _ _ _ _ H7 _. revert H7.
  apply Forall_cons in Hb as [_ [_ [_ [Hb _]%Forall_cons]%Forall_cons]%Forall_cons].
  unfold is_byte in Hb. intros H7.
  assert (0 ≤ b3 mod 16 < 16) as Hm by (apply Z.mod_pos_bound; lia).
  pose proof (hex_value_digit _ Hm) as Hv. rewrite H7 in Hv. by vm_compute in Hv.
Qed.

Lemma enroll_keeps env req who key :
  a_Kind who ≠ KindOwner → keeps (enroll_fn env req who (fingerprintOf key)).
Proof.
  intros Hkind i Hwf Hn. pose proof Hn as (Hal & Hrq & Hmb).
  unfold enroll_fn, bindM, getM, guard, retM, raise. set (fp := fingerprintOf key).
  destruct (negb (_ && _)); [|done]. destruct (burned i fp) eqn:Hburn; [done|]. cbn [negb].
  destruct (find_first _ _) as [[k r]|] eqn:Hfind.
  - apply find_first_Some in Hfind as [Hin Hf]. apply elem_of_range in Hin.
    rewrite assignM_run by done. destruct (reenrolled_same req (a_SourceAddr who) r) as (?&?&?&?&?).
    split_and!; [done| |done]. by eapply requests_update_wf.
  - destruct (allocate_spec (ρ_of env) fp (a_Kind who) i Hwf)
      as (addr & err & i1 & -> & Hwf1 & Hext1 & Ha1 & He1 & Hal1).
    destruct (allocate6_spec (ρ_of env) fp (a_Kind who) i1 Hwf1)
      as (addr6 & err6 & i2 & -> & Hwf2 & Hext2 & Ha2 & Hal2 & Hsame).
    pose proof (extends_trans _ _ _ Hext1 Hext2) as Hext.
    pose proof Hext as (Es & Er & Em & Eb & Et & _).
    destruct (negb (Addr_IsValid addr) && negb (Addr_IsValid addr6)) eqn:Hv.
    { apply andb_true_iff in Hv as [Hv%negb_true_iff _]. specialize (He1 Hv).
      destruct err; [|done]. by split_and!. }
    rewrite assignM_run by by rewrite Er. split_and!; [done| |done].
    apply requests_insert_wf; [done|..].
    + assert (i_Overlay i2 = i_Overlay i ∧ i_Overlay6 i2 = i_Overlay6 i) as [Eo Eo6].
      { unfold static in Es. by injection Es. }
      unfold request_ok. rewrite Eo, Eo6. split_and!; [apply fingerprint_not_identity|done|..]; cbn.
      * destruct addr eqn:Eaddr; [by left|..]; right; eexists; (split; [rewrite Hsame; by apply Ha1|done]).
      * unfold prefixOf. destruct (Addr_IsValid addr6) eqn:Hv6; cbn [negb orb]; [|by left].
        destruct (IsValid (i_Overlay6 i)) eqn:Ho6; cbn [negb]; [|by left].
        right. eexists. split; [by apply Ha2|done].
    + intros b. rewrite Eb. intros Hb. cbn. intros He. symmetry in He. revert He.
      by apply (proj1 (burned_false i fp)).
    + intros k' r'. rewrite Er. intros Hl He. exfalso.
      pose proof (proj1 (find_first_None _ _) Hfind (k', r')) as Hno.
      rewrite elem_of_range in Hno. specialize (Hno Hl). apply bool_decide_eq_false in Hno.
      by apply Hno.
Qed.
End Enroll.

(** ** The invariant of the hub *)

(** The configurations [Config] produces: pools that can be carved, and a range
    of UDP ports. *)
Record config_ok (cfg : Config) : Prop := {
  cf_pools : Forall pool_ok (c_Overlays cfg);
  cf_pools6 : Forall pool_ok (c_Overlays6 cfg);
  cf_ports : 0 < c_PortMin cfg ∧ c_PortMin cfg ≤ c_PortMax cfg ∧ c_PortMax cfg < 65536;
}.

Record state_ok (cfg : Config) (s : state) : Prop := {
  so_inst : ∀ id i, s_Instances s !! id = Some i → i_ID i = id ∧ inst_wf i;
  so_name : ∀ id id' i i', s_Instances s !! id = Some i → s_Instances s !! id' = Some i' →
    i_Name i = i_Name i' → id = id';
  so_overlay : ∀ id id' i i', s_Instances s !! id = Some i → s_Instances s !! id' = Some i' →
    i_Overlay i = i_Overlay i' → id = id';
  so_overlay6 : ∀ id id' i i', s_Instances s !! id = Some i → s_Instances s !! id' = Some i' →
    IsValid (i_Overlay6 i) = true → i_Overlay6 i = i_Overlay6 i' → id = id';
  so_port : ∀ id id' i i', s_Instances s !! id = Some i → s_Instances s !! id' = Some i' →
    i_Port i = i_Port i' → id = id';
  so_pools : ∀ id i, s_Instances s !! id = Some i →
    (c_PortMin cfg ≤ i_Port i ≤ c_PortMax cfg) ∧
    (∃ pool, pool ∈ c_Overlays cfg ∧ pool_subnet pool (i_Overlay i)) ∧
    (i_Overlay6 i = PrefixZero ∨ ∃ pool, pool ∈ c_Overlays6 cfg ∧ pool_subnet pool (i_Overlay6 i));
}.

Definition store_ok (cfg : Config) (s : Store) : Prop :=
  state_ok cfg (mem s) ∧ ∀ d, disk s = Some d → state_ok cfg d.
Definition hub_ok (cfg : Config) (h : Hub) : Prop := h_cfg h = cfg ∧ store_ok cfg (h_store h).

Lemma state_ok_empty cfg ids : state_ok cfg (mkState ∅ ids).
Proof. constructor; simpl; intros *; by rewrite lookup_empty. Qed.
Lemma state_ok_ids cfg l ids ids0 : state_ok cfg (mkState l ids) → state_ok cfg (mkState l ids0).
Proof. intros []. by constructor. Qed.

(** An instance replaced by one with the same static part. *)
Lemma state_ok_update cfg s id i i' :
  state_ok cfg s → s_Instances s !! id = Some i → inst_wf i' → static i' = static i →
  state_ok cfg (set_Instances (<[id := i']> (s_Instances s)) s).
Proof.
  intros [] Hi Hwf Hs. unfold static in Hs. injection Hs as E1 E2 E3 E4 E5 E6 E7 E8 E9 E10 E11.
  assert (∀ id0 i0, <[id := i']> (s_Instances s) !! id0 = Some i0 →
    ∃ j, s_Instances s !! id0 = Some j ∧ i_ID i0 = i_ID j ∧ i_Name i0 = i_Name j ∧
      i_Overlay i0 = i_Overlay j ∧ i_Overlay6 i0 = i_Overlay6 j ∧ i_Port i0 = i_Port j ∧ inst_wf i0)
    as Hback.
  { intros id0 i0 [[<- <-]|[? Hl]]%lookup_insert_Some.
    - exists i. by split_and!.
    - exists i0. split_and!; try done. by destruct (so_inst0 _ _ Hl). }
  constructor; simpl.
  - intros id0 i0 (j & Hj & -> & _ & _ & _ & _ & ?)%Hback. by destruct (so_inst0 _ _ Hj).
  - intros id0 id1 i0 i1 (j & Hj & _ & -> & _)%Hback (j' & Hj' & _ & -> & _)%Hback. eauto.
  - intros id0 id1 i0 i1 (j & Hj & _ & _ & -> & _)%Hback (j' & Hj' & _ & _ & -> & _)%Hback. eauto.
  - intros id0 id1 i0 i1 (j & Hj & _ & _ & _ & -> & _)%Hback (j' & Hj' & _ & _ & _ & -> & _)%Hback. eauto.
  - intros id0 id1 i0 i1 (j & Hj & _ & _ & _ & _ & -> & _)%Hback (j' & Hj' & _ & _ & _ & _ & -> & _)%Hback. eauto.
  - intros id0 i0 (j & Hj & _ & _ & -> & -> & -> & _)%Hback. eauto.
Qed.
Lemma state_ok_delete cfg s id : state_ok cfg s → state_ok cfg (set_Instances (delete id (s_Instances s)) s).
Proof.
  intros []. constructor; simpl.
  - intros id0 i0 [_ Hl]%lookup_delete_Some. eauto.
  - intros id0 id1 i0 i1 [_ Hl]%lookup_delete_Some [_ Hl']%lookup_delete_Some. eauto.
  - intros id0 id1 i0 i1 [_ Hl]%lookup_delete_Some [_ Hl']%lookup_delete_Some. eauto.
  - intros id0 id1 i0 i1 [_ Hl]%lookup_delete_Some [_ Hl']%lookup_delete_Some. eauto.
  - intros id0 id1 i0 i1 [_ Hl]%lookup_delete_Some [_ Hl']%lookup_delete_Some. eauto.
  - intros id0 i0 [_ Hl]%lookup_delete_Some. eauto.
Qed.

(** ** The store *)

Lemma save_ok cfg env s : store_ok cfg s → (save env s).1 ≠ Panic ∧ store_ok cfg (save env s).2.
Proof.
  intros [Hm Hd]. unfold save. destruct (save_fault env); [done|]. simpl. split; [done|].
  split; [done|]. by intros d [= <-].
Qed.
Lemma save_mem env s : mem (save env s).2 = mem s.
Proof. unfold save. by destruct (save_fault env). Qed.

(** An operation that keeps the invariant of its instance keeps the store's. *)
Lemma Update_ok {A} cfg env id (fn : M Instance_ A) s :
  keeps fn → store_ok cfg s → (Update env id fn s).1 ≠ Panic ∧ store_ok cfg (Update env id fn s).2.
Proof.
  intros Hfn [Hm Hd]. unfold Update. destruct (s_Instances (mem s) !! id) as [i|] eqn:Hi; [|done].
  destruct (so_inst _ _ Hm _ _ Hi) as [Hid Hwf].
  destruct (Hfn (ensureMaps i) (ensureMaps_wf _ Hwf) (ensureMaps_nonnil i)) as (Hp & Hwf' & Hs).
  rewrite ensureMaps_static in Hs. destruct (fn (ensureMaps i)) as [r i']. simpl in Hp, Hwf', Hs.
  set (s' := mkStore _ _).
  assert (store_ok cfg s') as Hs'.
  { split; [by eapply state_ok_update|done]. }
  destruct r as [a|e|]; [|done..].
  destruct (save_ok cfg env s' Hs') as [Hp' Hok]. unfold bindM.
  destruct (save env s') as [[[]|e|] s'']; done.
Qed.
Lemma onStore_ok {A} cfg (c : M Store A) h :
  (∀ s, store_ok cfg s → (c s).1 ≠ Panic ∧ store_ok cfg (c s).2) →
  hub_ok cfg h → (onStore c h).1 ≠ Panic ∧ hub_ok cfg (onStore c h).2.
Proof.
  intros Hc [Hcfg Hs]. destruct (Hc _ Hs) as [Hp Hs']. unfold onStore.
  destruct (c (h_store h)) as [r s']. done.
Qed.

Lemma instances_of_elem s i : i ∈ instances_of s ↔ ∃ id, s_Instances (mem s) !! id = Some i.
Proof.
  unfold instances_of. rewrite list_elem_of_fmap. split.
  - intros ([id i'] & -> & Hin%elem_of_map_to_list). by exists id.
  - intros (id & Hin%elem_of_map_to_list). by exists (id, i).
Qed.

(** ** What a new instance is made of *)

Lemma allocateOverlay_ok pools taken :
  Forall pool_ok pools →
  match allocateOverlay pools taken with
  | Ok c => (∃ pool, pool ∈ pools ∧ pool_subnet pool c) ∧ (c ∉ taken) ∧ prefix_ok c
  | Err _ => True
  | Panic => False
  end.
Proof.
  intros Hpools. pose proof (allocate_pools_result pools taken Hpools) as H.
  unfold allocateOverlay. destruct pools as [|p0 pools0]; [done|].
  destruct (allocate_pools _ taken) as [c|e|]; [|done..].
  destruct H as (before & pool & after & He & Hc & Hn & _).
  assert (pool ∈ p0 :: pools0) as Hin by (rewrite He; set_solver).
  split_and!; [by exists pool|done|].
  apply (pool_subnet_ok pool c); [|done]. by eapply (proj1 (Forall_forall _ _) Hpools).
Qed.

Lemma port_loop_result n p max used :
  0 ≤ p → max < 65536 → (Z.to_nat (max - p) < n)%nat →
  match port_loop n p max used with
  | Some (Some q) => p ≤ q ≤ max ∧ (q ∉ used) ∧ ∀ q', p ≤ q' < q → q' ∈ used
  | Some None => ∀ q, p ≤ q ≤ max → q ∈ used
  | None => False
  end.
Proof.
  revert p. induction n as [|n IH]; intros p Hp Hmax Hn; [lia|]. cbn [port_loop].
  destruct (Z.leb_spec p max) as [Hle|Hgt]; [|intros; lia].
  destruct (bool_decide_reflect (p ∈ used)) as [Hin|Hnin]; cbn [negb].
  - destruct (Z.eqb_spec p max) as [->|Hne].
    + intros q Hq. by replace q with max by lia.
    + rewrite Z.mod_small by lia. specialize (IH (p + 1) ltac:(lia) Hmax ltac:(lia)).
      assert (∀ q, p ≤ q → q ≠ p → p + 1 ≤ q) as Hstep by lia.
      destruct (port_loop n (p + 1) max used) as [[q|]|]; [| |done].
      * destruct IH as (Hq & Hu & Hall). split_and!; [lia..|done|]. intros q' Hq'.
        destruct (decide (q' = p)) as [->|]; [done|]. apply Hall. lia.
      * intros q Hq. destruct (decide (q = p)) as [->|]; [done|]. apply IH. lia.
  - split_and!; [lia..|done|lia].
Qed.
Lemma freePort_result cfg used :
  config_ok cfg →
  match freePort cfg used with
  | Ok p => c_PortMin cfg ≤ p ≤ c_PortMax cfg ∧ (p ∉ used) ∧ ∀ q, c_PortMin cfg ≤ q < p → q ∈ used
  | Err _ => ∀ q, c_PortMin cfg ≤ q ≤ c_PortMax cfg → q ∈ used
  | Panic => False
  end.
Proof.
  intros Hc. pose proof (cf_ports _ Hc). unfold freePort.
  pose proof (port_loop_result (Z.to_nat (c_PortMax cfg - c_PortMin cfg) + 1) (c_PortMin cfg)
    (c_PortMax cfg) used ltac:(lia) ltac:(lia) ltac:(lia)) as Hl.
  by destruct (port_loop _ _ _ _) as [[p|]|].
Qed.

(** The two addresses an instance keeps for itself. *)
Lemma reserved_pair p lh ta :
  prefix_ok p → reserveLighthouse p = Ok lh → lowestFree p {[lh]} = Ok ta →
  family_ok p lh ta ∅ ∧ lh ≠ ta.
Proof.
  intros Hp Hl Ht. pose proof (lowestFree_result p Hp ∅) as H1. pose proof (lowestFree_result p Hp {[lh]}) as H2.
  unfold reserveLighthouse in Hl. rewrite Hl in H1. rewrite Ht in H2.
  destruct H1 as (? & _), H2 as (? & Hne & _). assert (lh ≠ ta) by set_solver.
  split; [|done]. right. split_and!; try done; intros *; by rewrite lookup_empty.
Qed.

Lemma find_first_range_None {A} (p : string * A → bool) ρ (m : gmap string A) :
  find_first p (range ρ m) = None → ∀ k v, m !! k = Some v → p (k, v) = false.
Proof. intros H k v Hk. apply (proj1 (find_first_None _ _) H). by apply elem_of_range. Qed.

(** Storing a new instance with an overlay and a port nobody uses. *)
Lemma Add_ok cfg env inst s :
  store_ok cfg s → inst_wf inst →
  i_Overlay inst ∉ UsedOverlays s → i_Port inst ∉ UsedPorts s →
  (IsValid (i_Overlay6 inst) = true → i_Overlay6 inst ∉ UsedOverlays6 s) →
  (c_PortMin cfg ≤ i_Port inst ≤ c_PortMax cfg) →
  (∃ pool, pool ∈ c_Overlays cfg ∧ pool_subnet pool (i_Overlay inst)) →
  (i_Overlay6 inst = PrefixZero ∨ ∃ pool, pool ∈ c_Overlays6 cfg ∧ pool_subnet pool (i_Overlay6 inst)) →
  (Add env inst s).1 ≠ Panic ∧ store_ok cfg (Add env inst s).2.
Proof.
  intros Hs Hwf Ho Hp Ho6 Hport Hpool Hpool6. pose proof Hs as [Hm Hd]. unfold Add. rewrite bind_get.
  destruct (s_Instances (mem s) !! i_ID inst) eqn:Hid; [done|].
  destruct (find_first _ _) eqn:Hname; [done|]. unfold set_mem. rewrite bind_modify. apply save_ok.
  split; [|done]. pose proof (find_first_range_None _ _ _ Hname) as Hnames. simpl in Hnames.
  assert (∀ id i, s_Instances (mem s) !! id = Some i →
    i_Name i ≠ i_Name inst ∧ i_Overlay i ≠ i_Overlay inst ∧ i_Port i ≠ i_Port inst ∧
    (IsValid (i_Overlay6 inst) = true → i_Overlay6 i ≠ i_Overlay6 inst)) as Hfresh.
  { intros id i Hi. assert (i ∈ instances_of s) as Hin by (apply instances_of_elem; eauto). split_and!.
    - intros He. specialize (Hnames _ _ Hi). by apply bool_decide_eq_false in Hnames.
    - intros He. apply Ho. unfold UsedOverlays. rewrite elem_of_list_to_set, <-He. by apply list_elem_of_fmap_2.
    - intros He. apply Hp. unfold UsedPorts. rewrite elem_of_list_to_set, <-He. by apply list_elem_of_fmap_2.
    - intros Hv He. apply (Ho6 Hv). unfold UsedOverlays6.
      rewrite elem_of_list_to_set, list_elem_of_filter, <-He. split; [by rewrite He|].
      by apply list_elem_of_fmap_2. }
  destruct Hm. constructor; simpl.
  - intros id i [[<- <-]|[? Hl]]%lookup_insert_Some; eauto.
  - intros id id' i i' [[<- <-]|[? Hl]]%lookup_insert_Some [[<- <-]|[? Hl']]%lookup_insert_Some He; eauto;
      [destruct (Hfresh _ _ Hl')|destruct (Hfresh _ _ Hl)]; congruence.
  - intros id id' i i' [[<- <-]|[? Hl]]%lookup_insert_Some [[<- <-]|[? Hl']]%lookup_insert_Some He; eauto;
      [destruct (Hfresh _ _ Hl') as (?&?&_)|destruct (Hfresh _ _ Hl) as (?&?&_)]; congruence.
  - intros id id' i i' [[<- <-]|[? Hl]]%lookup_insert_Some [[<- <-]|[? Hl']]%lookup_insert_Some Hv He; eauto.
    + destruct (Hfresh _ _ Hl') as (_&_&_&Hf). specialize (Hf Hv). congruence.
    + destruct (Hfresh _ _ Hl) as (_&_&_&Hf). rewrite He in Hv. specialize (Hf Hv). congruence.
  - intros id id' i i' [[<- <-]|[? Hl]]%lookup_insert_Some [[<- <-]|[? Hl']]%lookup_insert_Some He; eauto;
      [destruct (Hfresh _ _ Hl') as (?&?&?&_)|destruct (Hfresh _ _ Hl) as (?&?&?&_)]; congruence.
  - intros id i [[<- <-]|[? Hl]]%lookup_insert_Some; eauto.
Qed.

(** An instance nobody has joined yet. *)
Lemma new_inst_wf (i : Instance_) o :
  prefix_ok (i_Overlay i) → i_Allocations i = Some ∅ → i_Allocations6 i = Some ∅ →
  i_Requests i = Some ∅ → i_Burned i = [] → i_Members i = Some {[i_Owner i := o]} →
  family_ok (i_Overlay i) (i_LighthouseAddress i) (i_TenantAddress i) ∅ →
  family_ok (i_Overlay6 i) (i_LighthouseAddress6 i) (i_TenantAddress6 i) ∅ →
  HasPrefix (i_Owner i) IdentityPrefix = true →
  m_Kind o = KindOwner → m_Address o = PrefixFrom (i_TenantAddress i) (p_bits (i_Overlay i)) →
  m_Address6 o = prefixOf (i_TenantAddress6 i) (i_Overlay6 i) →
  inst_wf i.
Proof.
  intros Hp Ha Ha6 Hr Hb Hm H4 H6 Ho Hk Haddr Haddr6.
  constructor; rewrite ?Ha, ?Ha6, ?Hr, ?Hb, ?Hm; try done; simpl.
  - intros fp m [<- <-]%lookup_singleton_Some. by left.
  - intros b Hin. by apply elem_of_nil in Hin.
Qed.

Lemma CreateInstance_ok cfg env binder owner name token h :
  config_ok cfg → HasPrefix owner IdentityPrefix = true → hub_ok cfg h →
  (CreateInstance env binder owner name token h).1 ≠ Panic ∧
  hub_ok cfg (CreateInstance env binder owner name token h).2.
Proof.
  intros Hcfg Howner Hh. pose proof Hh as [Ec Hs]. unfold CreateInstance. rewrite bind_get, Ec, bind_liftR.
  pose proof (allocateOverlay_ok _ (UsedOverlays (h_store h)) (cf_pools _ Hcfg)) as Hov.
  destruct (allocateOverlay _ _) as [ov|e|]; [|done..]. destruct Hov as (Hpool & Hfree & Hovok).
  rewrite bind_liftR. pose proof (freePort_result cfg (UsedPorts (h_store h)) Hcfg) as Hport.
  destruct (freePort _ _) as [port|e|]; [|done..]. destruct Hport as (Hport & Hpfree & _).
  rewrite bind_liftR. pose proof (lowestFree_result ov Hovok ∅) as Hl.
  destruct (reserveLighthouse ov) as [lh|e|] eqn:Elh; unfold reserveLighthouse in Elh; rewrite Elh in Hl; [|done..].
  rewrite bind_liftR. pose proof (lowestFree_result ov Hovok {[lh]}) as Ht.
  destruct (lowestFree ov {[lh]}) as [ta|e|] eqn:Eta; [|done..].
  destruct (reserved_pair ov lh ta Hovok Elh Eta) as [H4 _].
  set (six := match c_Overlays6 cfg with [] => _ | _ => _ end).
  assert ((six h).1 ≠ Panic ∧ (six h).2 = h ∧
    ∀ o6 l6 t6, (six h).1 = Ok (o6, l6, t6) → family_ok o6 l6 t6 ∅ ∧
      (IsValid o6 = true → o6 ∉ UsedOverlays6 (h_store h)) ∧
      (o6 = PrefixZero ∨ ∃ pool, pool ∈ c_Overlays6 cfg ∧ pool_subnet pool o6)) as (Hsp & Hsh & Hsix).
  { unfold six. destruct (c_Overlays6 cfg) as [|p6 pools6] eqn:E6.
    { simpl. split_and!; try done. intros o6 l6 t6 [= <- <- <-]. split_and!; [by left|done|by left]. }
    rewrite bind_liftR.
    pose proof (allocateOverlay_ok (p6 :: pools6) (UsedOverlays6 (h_store h))
      ltac:(rewrite <-E6; apply (cf_pools6 _ Hcfg))) as Hov6.
    destruct (allocateOverlay _ _) as [ov6|e|]; [|done..]. destruct Hov6 as (Hpool6 & Hfree6 & Hok6).
    rewrite bind_liftR. pose proof (lowestFree_result ov6 Hok6 ∅) as Hl6.
    destruct (reserveLighthouse ov6) as [lh6|e|] eqn:Elh6; unfold reserveLighthouse in Elh6; rewrite Elh6 in Hl6; [|done..].
    rewrite bind_liftR. pose proof (lowestFree_result ov6 Hok6 {[lh6]}) as Ht6.
    destruct (lowestFree ov6 {[lh6]}) as [ta6|e|] eqn:Eta6; [|done..].
    destruct (reserved_pair ov6 lh6 ta6 Hok6 Elh6 Eta6) as [H6 _].
    simpl. split_and!; try done. intros o6 l6 t6 [= <- <- <-]. split_and!; [done|done|by right]. }
  clearbody six. destruct (six h) as [[[[o6 l6] t6]|e|] h'] eqn:Esix; simpl in Hsp, Hsh; subst h'.
  2: { by rewrite (bind_run_Err _ _ _ _ _ Esix). }
  2: { done. }
  rewrite (bind_run _ _ _ _ _ Esix). destruct (Hsix _ _ _ eq_refl) as (H6 & Hfree6 & Hpool6).
  destruct (GenerateHostKey env) as [e|[pub key]]; [done|]. rewrite bind_ret. cbn zeta.
  match goal with |- context [onStore (Add env ?i)] => set (inst := i) end.
  assert ((Add env inst (h_store h)).1 ≠ Panic ∧ store_ok cfg (Add env inst (h_store h)).2) as [Hp Hok].
  { apply Add_ok; try done. by eapply new_inst_wf. }
  unfold bindM, onStore. destruct (Add env inst (h_store h)) as [[[]|e|] s']; done.
Qed.

(** ** Every operation *)

Lemma Add_not_panic env inst s : (Add env inst s).1 ≠ Panic.
Proof.
  unfold Add. rewrite bind_get. destruct (_ !! _); [done|]. destruct (find_first _ _); [done|].
  unfold set_mem. rewrite bind_modify. unfold save. by destruct (save_fault env).
Qed.
Lemma Remove_ok cfg env id s :
  store_ok cfg s → (Remove env id s).1 ≠ Panic ∧ store_ok cfg (Remove env id s).2.
Proof.
  intros [Hm Hd]. unfold Remove. rewrite bind_get. destruct (_ !! _); [|done].
  unfold set_mem. rewrite bind_modify. apply save_ok. split; [|done]. by apply state_ok_delete.
Qed.
Lemma Register_ok cfg env r s :
  store_ok cfg s → (Register env r s).1 ≠ Panic ∧ store_ok cfg (Register env r s).2.
Proof.
  intros [Hm Hd]. unfold Register, set_mem. rewrite bind_get.
  destruct (_ !! _); rewrite bind_modify; apply save_ok; (split; [|done]); cbn [mem];
    destruct (mem s); by eapply state_ok_ids.
Qed.

Section Lighthouses.
Context (cfg : Config).

(** Starting, reloading and stopping lighthouses leaves the store alone. *)
Lemma lighthouseConfig_not_panic ρ inst bind dns noTun : lighthouseConfig ρ inst bind dns noTun ≠ Panic.
Proof. unfold lighthouseConfig. by case_decide. Qed.
Lemma lhs_start_ok env inst h :
  (lhs_start env inst h).1 ≠ Panic ∧ h_cfg (lhs_start env inst h).2 = h_cfg h ∧
  h_store (lhs_start env inst h).2 = h_store h.
Proof.
  unfold lhs_start. rewrite bind_get. destruct (_ !! _); [done|]. rewrite bind_liftR.
  pose proof (lighthouseConfig_not_panic (ρ_of env) inst (c_NebulaBind (h_cfg h)) (c_DNS (h_cfg h))
    (c_NoLighthouseTun (h_cfg h))).
  destruct (lighthouseConfig _ _ _ _ _); [|done..]. by destruct (nebula_start env).
Qed.
Lemma lhs_reload_ok env inst h :
  (lhs_reload env inst h).1 ≠ Panic ∧ h_cfg (lhs_reload env inst h).2 = h_cfg h ∧
  h_store (lhs_reload env inst h).2 = h_store h.
Proof.
  unfold lhs_reload. rewrite bind_get. destruct (_ !! _); [|done]. rewrite bind_liftR.
  pose proof (lighthouseConfig_not_panic (ρ_of env) inst (c_NebulaBind (h_cfg h)) (c_DNS (h_cfg h))
    (c_NoLighthouseTun (h_cfg h))).
  destruct (lighthouseConfig _ _ _ _ _); [|done..]. by destruct (nebula_reload env).
Qed.
Lemma applyBlocklist_ok env id h :
  (applyBlocklist env id h).1 ≠ Panic ∧ h_cfg (applyBlocklist env id h).2 = h_cfg h ∧
  h_store (applyBlocklist env id h).2 = h_store h.
Proof.
  unfold applyBlocklist. rewrite bind_get, bind_liftR. unfold Get. destruct (_ !! _) as [inst|]; [|done].
  destruct (lhs_reload_ok env inst h) as (?&?&?).
  by destruct (lhs_reload env inst h) as [[[]|e|] h'].
Qed.
Lemma start_all_ok env l h :
  (start_all env l h).1 ≠ Panic ∧ h_cfg (start_all env l h).2 = h_cfg h ∧
  h_store (start_all env l h).2 = h_store h.
Proof.
  revert h. induction l as [|inst l IH]; intros h; [done|]. simpl. case_decide; [apply IH|].
  destruct (lhs_start_ok env inst h) as (Hp&Hc&Hs).
  destruct (lhs_start env inst h) as [[[]|e|] h']; simpl in *; [..|done];
    rewrite <-Hc, <-Hs; apply IH.
Qed.
End Lighthouses.

(** Reopening the file: the empty maps it does not hold are made again. *)
Lemma OpenStore_ok cfg file :
  (∀ d, file = Some d → state_ok cfg d) → store_ok cfg (OpenStore file).
Proof.
  intros Hd. destruct file as [d|]; simpl; [|split; [apply state_ok_empty|done]].
  specialize (Hd d eq_refl). split; [|by intros ? [= <-]].
  assert (∀ id i, (ensureMaps ∘ reread <$> s_Instances d) !! id = Some i →
    ∃ j, s_Instances d !! id = Some j ∧ i = ensureMaps (reread j)) as Hback.
  { intros id i. rewrite lookup_fmap. intros (j & Hj & ->)%fmap_Some. eauto. }
  constructor; cbn [s_Instances mem].
  - intros id i (j & Hj & ->)%Hback. destruct (so_inst _ _ Hd _ _ Hj). split; [done|].
    by apply ensureMaps_wf, reread_wf.
  - intros id id' i i' (j & Hj & ->)%Hback (j' & Hj' & ->)%Hback. by exact (so_name _ _ Hd id id' j j' Hj Hj').
  - intros id id' i i' (j & Hj & ->)%Hback (j' & Hj' & ->)%Hback. by exact (so_overlay _ _ Hd id id' j j' Hj Hj').
  - intros id id' i i' (j & Hj & ->)%Hback (j' & Hj' & ->)%Hback. by exact (so_overlay6 _ _ Hd id id' j j' Hj Hj').
  - intros id id' i i' (j & Hj & ->)%Hback (j' & Hj' & ->)%Hback. by exact (so_port _ _ Hd id id' j j' Hj Hj').
  - intros id i (j & Hj & ->)%Hback. by exact (so_pools _ _ Hd id j Hj).
Qed.
Lemma New_ok cfg env file h :
  (∀ d, file = Some d → state_ok cfg d) → New env cfg file = Ok h → hub_ok cfg h.
Proof.
  intros Hd. unfold New. destruct (_ || _); [done|]. destruct (_ =? _)%nat; [done|].
  pose proof (start_all_ok env (List (ρ_of env) (OpenStore file)) (mkHub cfg (OpenStore file) ∅)) as (_&Hc&Hs).
  destruct (start_all _ _ _) as [[[]|e|] h'] eqn:E; simpl in *; [..|done]; intros [= <-];
    (split; [done|]); rewrite Hs; by apply OpenStore_ok.
Qed.
Lemma New_not_panic cfg env file : New env cfg file ≠ Panic.
Proof.
  unfold New. destruct (_ || _); [done|]. destruct (_ =? _)%nat; [done|].
  pose proof (start_all_ok env (List (ρ_of env) (OpenStore file)) (mkHub cfg (OpenStore file) ∅)) as (Hp&_).
  by destruct (start_all _ _ _) as [[[]|e|] h'].
Qed.

(** ** Steps *)

(** What can happen to a hub.  The applicants of the API are connectors and
    tenants; the owner of a new instance is a registered identity. *)
Inductive Op : Type :=
  | OpRegister (r : Registration)
  | OpCreate (binder owner name token : string)
  | OpActivate (id ca cert : string)
  | OpEnroll (ref : string) (req : Request) (who : Applicant)
  | OpDecide (id rid : string) (d : Decision_)
  | OpForget (id rid : string)
  | OpBan (id ref note : string)
  | OpUnban (id ref note : string)
  | OpRemove (id ref : string)
  | OpSetToken (id token : string)
  | OpDelete (id : string)
  | OpRestart.

Definition legal (op : Op) : Prop :=
  match op with
  | OpCreate _ owner _ _ => HasPrefix owner IdentityPrefix = true
  | OpEnroll _ _ who => a_Kind who = KindConnector ∨ a_Kind who = KindTenant
  | _ => True
  end.

Definition ignore {S A} (c : M S A) : M S () := do* c in retM ().

Section Steps.
Context `{HC : Crypto}.

(** A restart reads the file the store last wrote. *)
Definition run_op (env : Env) (op : Op) : M Hub () :=
  match op with
  | OpRegister r => onStore (Register env r)
  | OpCreate binder owner name token => ignore (CreateInstance env binder owner name token)
  | OpActivate id ca cert => ActivateInstance env id ca cert
  | OpEnroll ref req who => ignore (Enroll env ref req who)
  | OpDecide id rid d => Decide env id rid d
  | OpForget id rid => Forget env id rid
  | OpBan id ref note => Ban env id ref note
  | OpUnban id ref note => Unban env id ref note
  | OpRemove id ref => ignore (RemoveMember env id ref)
  | OpSetToken id token => SetSharedToken env id token
  | OpDelete id => Delete env id
  | OpRestart => λ h,
      match New env (h_cfg h) (disk (h_store h)) with
      | Ok h' => (Ok (), h')
      | Err e => (Err e, h)
      | Panic => (Panic, h)
      end
  end.

(** Whatever the outcome of an operation, the hub goes on from where it left
    the state. *)
Inductive step : Hub → Hub → Prop :=
  | step_op env op h : legal op → step h (run_op env op h).2.
Inductive reachable (cfg : Config) : Hub → Prop :=
  | reachable_new env h : New env cfg None = Ok h → reachable cfg h
  | reachable_step h h' : reachable cfg h → step h h' → reachable cfg h'.

Lemma ignore_ok {S A} (I : S → Prop) (c : M S A) s :
  (c s).1 ≠ Panic ∧ I (c s).2 → (ignore c s).1 ≠ Panic ∧ I (ignore c s).2.
Proof. unfold ignore, bindM. destruct (c s) as [[]]; intros []; done. Qed.

(** A program that ends with something the store does not notice. *)
Lemma bind_ok {A B} cfg (c : M Hub A) (k : A → M Hub B) h :
  (c h).1 ≠ Panic ∧ hub_ok cfg (c h).2 →
  (∀ a h', hub_ok cfg h' → (k a h').1 ≠ Panic ∧ hub_ok cfg (k a h').2) →
  (bindM c k h).1 ≠ Panic ∧ hub_ok cfg (bindM c k h).2.
Proof. intros [Hp Hok] Hk. unfold bindM. destruct (c h) as [[a|e|] h']; [by apply Hk|done..]. Qed.

Lemma Resolve_id cfg ρ s ref i :
  store_ok cfg s → Resolve ρ s ref = Ok i → s_Instances (mem s) !! i_ID i = Some i.
Proof.
  intros [Hm _]. unfold Resolve. destruct (s_Instances (mem s) !! ref) as [j|] eqn:Hj.
  - intros [= ->]. by destruct (so_inst _ _ Hm _ _ Hj) as [-> _].
  - assert (∀ name found l, (∀ j, j ∈ l → s_Instances (mem s) !! i_ID j = Some j) →
      (∀ j, found = Some j → s_Instances (mem s) !! i_ID j = Some j) →
      resolve_loop name found l = Ok i → s_Instances (mem s) !! i_ID i = Some i) as Hg.
    { intros name found l. revert found. induction l as [|j l IH]; intros found Hl Hf; simpl.
      - destruct found; [|done]. intros [= ->]. by apply Hf.
      - case_decide; [apply IH; [|done]; intros; apply Hl; by right|].
        destruct found; [done|]. apply IH; [intros; apply Hl; by right|].
        intros j' [= <-]. apply Hl. by left. }
    apply Hg; [|done]. intros j ([id j'] & -> & Hin)%list_elem_of_fmap.
    apply elem_of_range in Hin. simpl. by destruct (so_inst _ _ Hm _ _ Hin) as [-> _].
Qed.
Lemma Resolve_not_panic ρ s ref : Resolve ρ s ref ≠ Panic.
Proof.
  unfold Resolve. destruct (_ !! _); [done|].
  assert (∀ name found l, resolve_loop name found l ≠ Panic) as Hg; [|apply Hg].
  intros name found l. revert found. induction l as [|j l IH]; intros found; simpl; [by destruct found|].
  case_decide; [apply IH|]. destruct found; [done|apply IH].
Qed.
Lemma validate_routes_not_panic l : validate_routes l ≠ Panic.
Proof. induction l as [|p l IH]; simpl; [done|]. repeat case_match; done. Qed.
Lemma each_label_not_panic f l : (∀ x, f x ≠ Panic) → each_label f l ≠ Panic.
Proof.
  intros Hf. induction l as [|x l IH]; simpl; [done|]. specialize (Hf x). by destruct (f x).
Qed.
Lemma ParseDomain_not_panic raw : ParseDomain raw ≠ Panic.
Proof.
  unfold ParseDomain. repeat case_decide; try done. case_match; [done|].
  pose proof (each_label_not_panic domain_label (Split (TrimSuffix (ToLower (TrimSpace raw)) ".") "."%char)) as Hp.
  destruct (each_label _ _); [done|done|]. destruct Hp; [|done].
  intros x. unfold domain_label. repeat case_match; done.
Qed.
Lemma Validate_not_panic r : Validate r ≠ Panic.
Proof.
  unfold Validate. case_decide; [done|]. case_match; [done|].
  pose proof (validate_routes_not_panic (rq_Routes r)). destruct (validate_routes _); [|done..].
  cbn [bindR]. pose proof (ParseDomain_not_panic (rq_Domain r)).
  case_decide; [|destruct (ParseDomain _); [|done..]]; cbn [bindR]; by case_match.
Qed.

Lemma Enroll_ok cfg env ref req who h :
  a_Kind who = KindConnector ∨ a_Kind who = KindTenant → hub_ok cfg h →
  (Enroll env ref req who h).1 ≠ Panic ∧ hub_ok cfg (Enroll env ref req who h).2.
Proof.
  intros Hk Hh. unfold Enroll. rewrite bind_liftR. pose proof (Validate_not_panic req).
  destruct (Validate req) as [req'|e|]; [|done..]. rewrite bind_get.
  apply bind_ok.
  { case_decide; [|done]. pose proof (Resolve_not_panic (ρ_of env) (h_store h) ref).
    destruct (Resolve _ _ _); [|done..]. unfold guard. by destruct (negb _). }
  intros _ h' Hh'. rewrite bind_guard. destruct (negb _); [|done]. rewrite bind_liftR.
  pose proof (Resolve_not_panic (ρ_of env) (h_store h) ref).
  destruct (Resolve _ _ _) as [i|e|]; [|done..]. apply onStore_ok; [|done].
  intros s Hs. apply Update_ok; [|done]. apply enroll_keeps. by destruct Hk as [-> | ->].
Qed.

Lemma run_op_ok cfg env op h :
  config_ok cfg → legal op → hub_ok cfg h →
  (run_op env op h).1 ≠ Panic ∧ hub_ok cfg (run_op env op h).2.
Proof.
  intros Hcfg Hlegal Hh.
  assert (∀ A id (fn : M Instance_ A), keeps fn →
    (onStore (Update env id fn) h).1 ≠ Panic ∧ hub_ok cfg (onStore (Update env id fn) h).2) as Hup.
  { intros A id fn Hfn. apply onStore_ok; [|done]. intros s Hs. by apply Update_ok. }
  assert (∀ id h', hub_ok cfg h' →
    (applyBlocklist env id h').1 ≠ Panic ∧ hub_ok cfg (applyBlocklist env id h').2) as Hap.
  { intros id h' [Hc Hs]. destruct (applyBlocklist_ok env id h') as (?&Ec&Es).
    split; [done|]. unfold hub_ok. by rewrite Ec, Es. }
  destruct op; cbn [run_op].
  - apply onStore_ok; [|done]. intros s. apply Register_ok.
  - apply ignore_ok. by apply CreateInstance_ok.
  - unfold ActivateInstance. apply bind_ok; [apply Hup, activate_keeps|].
    intros _ h' Hh'. rewrite bind_get, bind_liftR. unfold Get.
    destruct (_ !! _) as [i|]; [|done]. unfold lhs_stop. rewrite bind_modify.
    pose proof (lhs_start_ok env i (set_lhs (delete id (h_lhs h')) h')) as (?&Ec&Es).
    split; [done|]. unfold hub_ok. by rewrite Ec, Es.
  - apply ignore_ok. by apply Enroll_ok.
  - unfold Decide. rewrite bind_get. apply Hup, decide_keeps.
  - apply Hup, forget_keeps.
  - unfold Ban. apply bind_ok; [apply Hup, ban_keeps|]. intros _. apply Hap.
  - unfold Unban. apply bind_ok; [apply Hup, unban_keeps|]. intros _. apply Hap.
  - apply ignore_ok, Hup, remove_keeps.
  - unfold SetSharedToken. rewrite bind_guard. destruct (negb _); [|done]. apply Hup, set_Token_keeps.
  - unfold Delete. rewrite bind_get, bind_liftR. unfold Get. destruct (_ !! _) as [i|]; [|done].
    unfold lhs_stop. rewrite bind_modify. apply onStore_ok; [|done]. intros s. apply Remove_ok.
  - destruct Hh as [Hc [Hm Hd]]. pose proof (New_not_panic (h_cfg h) env (disk (h_store h))).
    destruct (New _ _ _) as [h'|e|] eqn:E; [|done..]. split; [done|]. simpl.
    rewrite Hc in E. by eapply New_ok.
Qed.

Lemma reachable_ok cfg h : config_ok cfg → reachable cfg h → hub_ok cfg h.
Proof.
  intros Hcfg. induction 1 as [env h Hn|h h' Hr IH Hs]; [eapply New_ok; [|exact Hn]; done|].
  destruct Hs as [env op h Hlegal]. by apply run_op_ok.
Qed.

(** ** Consequences *)

Lemma member_address_cases i fp m :
  inst_wf i → mget (i_Members i) !! fp = Some m → IsValid (m_Address m) = true →
  p_addr (m_Address m) ≠ i_LighthouseAddress i ∧ ContainsAddr (i_Overlay i) (p_addr (m_Address m)) = true ∧
  (fp = i_Owner i ∧ p_addr (m_Address m) = i_TenantAddress i ∨
   p_addr (m_Address m) ≠ i_TenantAddress i ∧
   mget (i_Allocations i) !! fp = Some (p_addr (m_Address m))).
Proof.
  intros Hwf Hm Hv. pose proof (wf_overlay _ Hwf) as Hp.
  destruct (wf_four _ Hwf) as [(E&_)|(_&Hl&Ht&Hne&Hal&Hinj)]; [rewrite E in Hp; by destruct Hp as (?&?&?)|].
  destruct (wf_members _ Hwf _ _ Hm) as [(->&_&Ha&_)|(_&_&_&[Ha|(a&Hla&Ha)]&_)]; rewrite Ha in *.
  - cbn. destruct Ht as [Hc _]. split_and!; [done|done|by left].
  - done.
  - cbn. destruct (Hal _ _ Hla) as ([Hc _]&?&?). split_and!; [done|done|by right].
Qed.
Lemma member_address6_cases i fp m :
  inst_wf i → mget (i_Members i) !! fp = Some m → IsValid (m_Address6 m) = true →
  p_addr (m_Address6 m) ≠ i_LighthouseAddress6 i ∧ ContainsAddr (i_Overlay6 i) (p_addr (m_Address6 m)) = true ∧
  (fp = i_Owner i ∧ p_addr (m_Address6 m) = i_TenantAddress6 i ∨
   p_addr (m_Address6 m) ≠ i_TenantAddress6 i ∧
   mget (i_Allocations6 i) !! fp = Some (p_addr (m_Address6 m))).
Proof.
  intros Hwf Hm Hv.
  destruct (wf_six _ Hwf) as [(E&_&Et&Ea)|(Hp&Hl&Ht&Hne&Hal&Hinj)].
  - exfalso. destruct (wf_members _ Hwf _ _ Hm) as [(->&_&_&Ha)|(_&_&_&_&[Ha|(a&Hla&Ha)])]; rewrite Ha in *.
    + unfold prefixOf in Hv. by rewrite Et in Hv.
    + done.
    + by rewrite Ea in Hla.
  - destruct (wf_members _ Hwf _ _ Hm) as [(->&_&_&Ha)|(_&_&_&_&[Ha|(a&Hla&Ha)])]; rewrite Ha in *.
    + unfold prefixOf in *. destruct (_ || _); [done|]. cbn.
      destruct Ht as [Hc _]. split_and!; [done|done|by left].
    + done.
    + cbn. destruct (Hal _ _ Hla) as ([Hc _]&?&?). split_and!; [done|done|by right].
Qed.
Lemma member_addresses_inj i fp fp' m m' :
  inst_wf i → mget (i_Members i) !! fp = Some m → mget (i_Members i) !! fp' = Some m' →
  (IsValid (m_Address m) = true → IsValid (m_Address m') = true →
     p_addr (m_Address m) = p_addr (m_Address m') → fp = fp') ∧
  (IsValid (m_Address6 m) = true → IsValid (m_Address6 m') = true →
     p_addr (m_Address6 m) = p_addr (m_Address6 m') → fp = fp').
Proof.
  intros Hwf Hm Hm'. split; intros Hv Hv' He.
  - destruct (member_address_cases _ _ _ Hwf Hm Hv) as (_&_&[[-> H1]|[H1 H2]]);
      destruct (member_address_cases _ _ _ Hwf Hm' Hv') as (_&_&[[-> H3]|[H3 H4]]); try congruence.
    destruct (wf_four _ Hwf) as [(_&_&_&Ea)|(_&_&_&_&_&Hinj)]; [by rewrite Ea in H2|].
    eapply Hinj; [exact H2|]. by rewrite He.
  - destruct (member_address6_cases _ _ _ Hwf Hm Hv) as (_&_&[[-> H1]|[H1 H2]]);
      destruct (member_address6_cases _ _ _ Hwf Hm' Hv') as (_&_&[[-> H3]|[H3 H4]]); try congruence.
    destruct (wf_six _ Hwf) as [(_&_&_&Ea)|(_&_&_&_&_&Hinj)]; [by rewrite Ea in H2|].
    eapply Hinj; [exact H2|]. by rewrite He.
Qed.

(** ** Properties *)

(** C1: in every state a hub can reach, through any sequence of operations,
    failed writes and restarts, every address is somebody's alone.  Two
    members of an instance never hold the same address; no member holds the
    lighthouse's; every address lies in its instance's overlay; and what a
    pending or decided request promises is what the allocation map says of its
    key: all of that in both families. *)
Theorem addresses_unique (cfg : Config) (h : Hub) (id : string) (i : Instance_) :
  config_ok cfg → reachable cfg h → s_Instances (mem (h_store h)) !! id = Some i →
  (∀ fp fp' m m', mget (i_Members i) !! fp = Some m → mget (i_Members i) !! fp' = Some m' →
     (IsValid (m_Address m) = true → IsValid (m_Address m') = true →
        p_addr (m_Address m) = p_addr (m_Address m') → fp = fp') ∧
     (IsValid (m_Address6 m) = true → IsValid (m_Address6 m') = true →
        p_addr (m_Address6 m) = p_addr (m_Address6 m') → fp = fp')) ∧
  (∀ fp m, mget (i_Members i) !! fp = Some m → IsValid (m_Address m) = true →
     p_addr (m_Address m) ≠ i_LighthouseAddress i ∧
     ContainsAddr (i_Overlay i) (p_addr (m_Address m)) = true) ∧
  (∀ rid r, mget (i_Requests i) !! rid = Some r → IsValid (er_OverlayAddress (hr_Record r)) = true →
     mget (i_Allocations i) !! hr_Fingerprint r = Some (p_addr (er_OverlayAddress (hr_Record r)))) ∧
  (∀ fp m, mget (i_Members i) !! fp = Some m → IsValid (m_Address6 m) = true →
     p_addr (m_Address6 m) ≠ i_LighthouseAddress6 i ∧
     ContainsAddr (i_Overlay6 i) (p_addr (m_Address6 m)) = true) ∧
  (∀ rid r, mget (i_Requests i) !! rid = Some r → IsValid (er_OverlayAddress6 (hr_Record r)) = true →
     mget (i_Allocations6 i) !! hr_Fingerprint r = Some (p_addr (er_OverlayAddress6 (hr_Record r)))).
Proof.
  intros Hcfg Hr Hi. destruct (reachable_ok _ _ Hcfg Hr) as [_ [Hm _]].
  destruct (so_inst _ _ Hm _ _ Hi) as [_ Hwf]. split_and!.
  - intros. by eapply member_addresses_inj.
  - intros fp m Hfp Hv. by destruct (member_address_cases _ _ _ Hwf Hfp Hv) as (?&?&_).
  - intros rid r Hrid Hv. destruct (wf_requests _ Hwf _ _ Hrid) as (_&_&[Hz|(a&Ha&He)]&_).
    + by rewrite Hz in Hv.
    + by rewrite He.
  - intros fp m Hfp Hv. by destruct (member_address6_cases _ _ _ Hwf Hfp Hv) as (?&?&_).
  - intros rid r Hrid Hv. destruct (wf_requests _ Hwf _ _ Hrid) as (_&_&_&[Hz|(a&Ha&He)]).
    + by rewrite Hz in Hv.
    + by rewrite He.
Qed.

(** C7: in every reachable state the instances of a hub do not get in each
    other's way: names, ports and overlays are unique, ports stay in the
    configured range, every overlay was carved from a configured pool, and
    when the pools of a family share one instance size no two overlays
    overlap. *)
Theorem instances_disjoint (cfg : Config) (h : Hub) (id id' : string) (i i' : Instance_) :
  config_ok cfg → reachable cfg h →
  s_Instances (mem (h_store h)) !! id = Some i → s_Instances (mem (h_store h)) !! id' = Some i' →
  id ≠ id' →
  i_Name i ≠ i_Name i' ∧ i_Port i ≠ i_Port i' ∧ i_Overlay i ≠ i_Overlay i' ∧
  (c_PortMin cfg ≤ i_Port i ≤ c_PortMax cfg) ∧
  ((∀ p q, p ∈ c_Overlays cfg → q ∈ c_Overlays cfg → Pool_Size p = Pool_Size q) →
   Overlaps (i_Overlay i) (i_Overlay i') = false) ∧
  ((∀ p q, p ∈ c_Overlays6 cfg → q ∈ c_Overlays6 cfg → Pool_Size p = Pool_Size q) →
   Overlaps (i_Overlay6 i) (i_Overlay6 i') = false).
Proof.
  intros Hcfg Hr Hi Hi' Hne. destruct (reachable_ok _ _ Hcfg Hr) as [_ [Hm _]].
  assert (i_Overlay i ≠ i_Overlay i') as Hov.
  { intros He. apply Hne. by apply (so_overlay _ _ Hm id id' i i'). }
  destruct (so_pools _ _ Hm _ _ Hi) as (Hport & (p & Hp & Hsub) & Hsix).
  destruct (so_pools _ _ Hm _ _ Hi') as (_ & (p' & Hp' & Hsub') & Hsix').
  pose proof (cf_pools _ Hcfg) as Hok. pose proof (cf_pools6 _ Hcfg) as Hok6. rewrite Forall_forall in Hok, Hok6.
  split_and!; [| |done|lia|lia| |].
  - intros He. apply Hne. by apply (so_name _ _ Hm id id' i i').
  - intros He. apply Hne. by apply (so_port _ _ Hm id id' i i').
  - intros Hsize. apply (pool_subnets_disjoint p p'); auto.
  - intros Hsize. destruct Hsix as [->|(q & Hq & Hqs)]; [done|].
    destruct Hsix' as [->|(q' & Hq' & Hqs')]; [by unfold Overlaps; rewrite andb_false_r|].
    apply (pool_subnets_disjoint q q'); auto. intros He. apply Hne.
    apply (so_overlay6 _ _ Hm id id' i i'); try done.
    apply prefix_ok_valid. by apply (pool_subnet_ok q _ (Hok6 _ Hq) Hqs).
Qed.

(** C8: no operation of the hub panics, whatever was done before and whatever
    the state file held: the maps an operation writes to are made first, also
    after a restart that read them back as nil. *)
Theorem hub_never_panics (cfg : Config) (env : Env) (op : Op) (h : Hub) :
  config_ok cfg → reachable cfg h → legal op → (run_op env op h).1 ≠ Panic.
Proof.
  intros Hcfg Hr Hl. exact (proj1 (run_op_ok cfg env op h Hcfg Hl (reachable_ok _ _ Hcfg Hr))).
Qed.

(** C6: a removed member's key never comes back: in every reachable state no
    member and no request of an instance carries a burned key. *)
Theorem burned_keys_stay_out (cfg : Config) (h : Hub) (id : string) (i : Instance_) (b : Burned) :
  config_ok cfg → reachable cfg h → s_Instances (mem (h_store h)) !! id = Some i → b ∈ i_Burned i →
  mget (i_Members i) !! b_Fingerprint b = None ∧
  (∀ rid r, mget (i_Requests i) !! rid = Some r → hr_Fingerprint r ≠ b_Fingerprint b).
Proof.
  intros Hcfg Hr Hi Hb. destruct (reachable_ok _ _ Hcfg Hr) as [_ [Hm _]].
  destruct (so_inst _ _ Hm _ _ Hi) as [_ Hwf]. by apply (wf_burned _ Hwf).
Qed.
End Steps.
