(* ===== verification/HubSpec.v ===== *)
(** * What the hub's operations do

    The functional behaviour of the operations of [internal/hub/hub.go] and
    [internal/hub/store.go] on every branch, and the runs in which they do
    something else than their comments say. *)

From Stdlib Require Import Ascii.
From S2P Require Export HubInv.

Open Scope Z_scope.

(** ** The tables every member reads *)

Definition members_of (i : Instance_) : list Member := (map_to_list (mget (i_Members i))).*2.
Lemma members_range ρ i : (range ρ (mget (i_Members i))).*2 ≡ₚ members_of i.
Proof. unfold members_of. by rewrite range_perm. Qed.
Lemma members_of_elem i m : m ∈ members_of i ↔ ∃ fp, mget (i_Members i) !! fp = Some m.
Proof.
  unfold members_of. rewrite list_elem_of_fmap. split.
  - intros ([fp m'] & -> & Hin%elem_of_map_to_list). by exists fp.
  - intros (fp & Hin%elem_of_map_to_list). by exists (fp, m).
Qed.

(** The certificates that must be refused, as a multiset. *)
Definition blocked_certs (i : Instance_) : list string :=
  (m_CertFingerprint <$> filter (λ m, Banned m = true ∧ m_CertFingerprint m ≠ "") (members_of i)) ++
  (b_CertFingerprint <$> filter (λ b, b_CertFingerprint b ≠ "") (i_Burned i)).
Lemma blockedIn_perm ρ i : blockedIn ρ i ≡ₚ blocked_certs i.
Proof. unfold blockedIn, blocked_certs. by rewrite sort_strings_perm, members_range. Qed.
Lemma blockedIn_ext ρ ρ' i i' :
  blocked_certs i ≡ₚ blocked_certs i' → blockedIn ρ i = blockedIn ρ' i'.
Proof.
  intros H. apply (sorted_perm_eq String.le); [apply sort_strings_sorted..|].
  by rewrite !blockedIn_perm.
Qed.
Lemma blockedIn_elem ρ i c :
  c ∈ blockedIn ρ i ↔ c ≠ "" ∧
    ((∃ fp m, mget (i_Members i) !! fp = Some m ∧ Banned m = true ∧ m_CertFingerprint m = c) ∨
     (∃ b, b ∈ i_Burned i ∧ b_CertFingerprint b = c)).
Proof.
  rewrite blockedIn_perm. unfold blocked_certs. rewrite elem_of_app, !list_elem_of_fmap.
  setoid_rewrite list_elem_of_filter. setoid_rewrite members_of_elem. naive_solver.
Qed.
Lemma carries_spec m : carries m = true ↔ m_Kind m = KindConnector ∧ Banned m = false.
Proof. unfold carries. by rewrite andb_true_iff, bool_decide_eq_true, negb_true_iff. Qed.
Lemma routesOf_perm ρ i :
  routesOf ρ i ≡ₚ filter (λ m, carries m = true) (members_of i) ≫= routes_of_member.
Proof. unfold routesOf. by rewrite sort_by_perm, members_range. Qed.
Lemma routesOf_elem ρ i r :
  r ∈ routesOf ρ i ↔ ∃ fp m p, mget (i_Members i) !! fp = Some m ∧ m_Kind m = KindConnector ∧
    Banned m = false ∧ p ∈ m_Routes m ∧ r = mkRoute p (p_addr (m_Address m)) (m_Name m).
Proof.
  rewrite routesOf_perm, list_elem_of_bind. setoid_rewrite list_elem_of_filter.
  setoid_rewrite members_of_elem. setoid_rewrite carries_spec. unfold routes_of_member.
  setoid_rewrite list_elem_of_fmap. naive_solver.
Qed.
Lemma resolversOf_perm ρ i :
  resolversOf ρ i ≡ₚ resolver_of_member <$> filter (λ m, carries m = true ∧ m_Domain m ≠ "") (members_of i).
Proof. unfold resolversOf. by rewrite sort_by_perm, members_range. Qed.
Lemma resolversOf_elem ρ i r :
  r ∈ resolversOf ρ i ↔ ∃ fp m, mget (i_Members i) !! fp = Some m ∧ m_Kind m = KindConnector ∧
    Banned m = false ∧ m_Domain m ≠ "" ∧ r = resolver_of_member m.
Proof.
  rewrite resolversOf_perm, list_elem_of_fmap. setoid_rewrite list_elem_of_filter.
  setoid_rewrite members_of_elem. setoid_rewrite carries_spec. naive_solver.
Qed.

(** ** Replacing one member *)

Lemma members_insert i fp m m' mb :
  i_Members i = Some mb → mb !! fp = Some m →
  ∃ rest, members_of i ≡ₚ m :: rest ∧
    members_of (set_Members (Some (<[fp := m']> mb)) i) ≡ₚ m' :: rest.
Proof.
  intros Hmb Hm. exists (map_to_list (delete fp mb)).*2. unfold members_of. rewrite Hmb. simpl. split.
  - by rewrite <-(map_to_list_delete _ _ _ Hm).
  - rewrite <-insert_delete_eq. rewrite map_to_list_insert by apply lookup_delete_eq. done.
Qed.
Lemma members_delete i fp m mb :
  i_Members i = Some mb → mb !! fp = Some m →
  members_of i ≡ₚ m :: members_of (set_Members (Some (delete fp mb)) i).
Proof.
  intros Hmb Hm. unfold members_of. rewrite Hmb. simpl. by rewrite <-(map_to_list_delete _ _ _ Hm).
Qed.
Lemma Banned_append m e : Banned (set_Events (m_Events m ++ [e]) m) = bool_decide (e_Kind e = EventBan).
Proof. unfold Banned. simpl. by rewrite last_snoc. Qed.

(** ** Inverting a run *)

Definition inst_at (h : Hub) (id : string) : option Instance_ := s_Instances (mem (h_store h)) !! id.

Lemma Update_inv {A} env id (fn : M Instance_ A) s i :
  s_Instances (mem s) !! id = Some i →
  let '(r, i') := fn (ensureMaps i) in
  let m' := set_Instances (<[id := i']> (s_Instances (mem s))) (mem s) in
  Update env id fn s =
    match r with
    | Ok a => match save_fault env with
              | Some e => (Err e, mkStore m' (disk s))
              | None => (Ok a, mkStore m' (Some m'))
              end
    | Err e => (Err e, mkStore m' (disk s))
    | Panic => (Panic, mkStore m' (disk s))
    end.
Proof.
  intros Hi. unfold Update. rewrite Hi. destruct (fn (ensureMaps i)) as [[a|e|] i']; [|done..].
  unfold bindM, save. by destruct (save_fault env).
Qed.
(** The hub with one instance replaced, and what is on disk then. *)
Definition put (h : Hub) (id : string) (i' : Instance_) (d : option state) : Hub :=
  set_store (mkStore (set_Instances (<[id := i']> (s_Instances (mem (h_store h)))) (mem (h_store h))) d) h.
Definition put_saved (h : Hub) (id : string) (i' : Instance_) : Hub :=
  put h id i' (Some (set_Instances (<[id := i']> (s_Instances (mem (h_store h)))) (mem (h_store h)))).
Lemma inst_at_put h id i' d : inst_at (put h id i' d) id = Some i'.
Proof. unfold inst_at. simpl. apply lookup_insert_eq. Qed.
Lemma inst_at_put_ne h id id' i' d : id' ≠ id → inst_at (put h id i' d) id' = inst_at h id'.
Proof. intros H. unfold inst_at. simpl. by apply lookup_insert_ne. Qed.

Lemma onStore_Update_run {A} env id (fn : M Instance_ A) h i r i' :
  inst_at h id = Some i → fn (ensureMaps i) = (r, i') →
  onStore (Update env id fn) h =
    match r with
    | Ok a => match save_fault env with
              | Some e => (Err e, put h id i' (disk (h_store h)))
              | None => (Ok a, put_saved h id i')
              end
    | Err e => (Err e, put h id i' (disk (h_store h)))
    | Panic => (Panic, put h id i' (disk (h_store h)))
    end.
Proof.
  intros Hi Hfn. unfold onStore. pose proof (Update_inv env id fn (h_store h) i Hi) as H.
  rewrite Hfn in H. rewrite H. destruct r; [destruct (save_fault env)|..]; done.
Qed.

(** ** Bans *)

Lemma ban_run env ref note i fp m mb :
  i_Members i = Some mb → memberIn (ρ_of env) i ref = Ok (fp, m) → Banned m = false →
  ban_fn env ref note i =
    (Ok (), set_Members (Some (<[fp := set_Events (m_Events m ++ [mkEvent EventBan note (now env)]) m]> mb)) i).
Proof.
  intros Hmb Hm Hb. unfold ban_fn. rewrite bind_get, bind_liftR, Hm, bind_guard, Hb.
  unfold append_event, modify. by rewrite Hmb.
Qed.
Lemma unban_run env ref note i fp m mb :
  i_Members i = Some mb → memberIn (ρ_of env) i ref = Ok (fp, m) → Banned m = true →
  unban_fn env ref note i =
    (Ok (), set_Members (Some (<[fp := set_Events (m_Events m ++ [mkEvent EventUnban note (now env)]) m]> mb)) i).
Proof.
  intros Hmb Hm Hb. unfold unban_fn. rewrite bind_get, bind_liftR, Hm, bind_guard, Hb.
  unfold append_event, modify. by rewrite Hmb.
Qed.

(** What a member contributes to the tables. *)
Definition cert_of (m : Member) : list string :=
  if decide (Banned m = true ∧ m_CertFingerprint m ≠ "") then [m_CertFingerprint m] else [].
Lemma blocked_certs_members i l :
  members_of i ≡ₚ l → blocked_certs i ≡ₚ (l ≫= cert_of) ++
    (b_CertFingerprint <$> filter (λ b, b_CertFingerprint b ≠ "") (i_Burned i)).
Proof.
  intros Hl. unfold blocked_certs. rewrite Hl. apply Permutation_app; [|done]. clear Hl.
  induction l as [|m l IH]; [done|]. rewrite filter_cons, bind_cons. unfold cert_of at 1.
  case_decide; simpl; by rewrite IH.
Qed.
Lemma routes_members ρ i l :
  members_of i ≡ₚ l → routesOf ρ i ≡ₚ l ≫= (λ m, if carries m then routes_of_member m else []).
Proof.
  intros Hl. rewrite routesOf_perm, Hl. clear Hl.
  induction l as [|m l IH]; [done|]. rewrite filter_cons, bind_cons.
  destruct (carries m) eqn:E; [rewrite decide_True, bind_cons by done|rewrite decide_False by done];
    by rewrite IH.
Qed.
Lemma resolvers_members ρ i l :
  members_of i ≡ₚ l → resolversOf ρ i ≡ₚ
    l ≫= (λ m, if decide (carries m = true ∧ m_Domain m ≠ "") then [resolver_of_member m] else []).
Proof.
  intros Hl. rewrite resolversOf_perm, Hl. clear Hl.
  induction l as [|m l IH]; [done|]. rewrite filter_cons, bind_cons.
  case_decide; simpl; by rewrite IH.
Qed.

(** ** Properties *)

(** C4: a ban takes effect the moment it is recorded, even when the
    lighthouse does not take the new list.  The member named by the reference
    stays, with the decision and its note added to its history; its
    certificate is on the blocklist every member reads; the routes and the
    resolvers every member reads are those of the other connectors that are not
    banned, and nothing else changes; what was recorded is on disk. *)
Theorem Ban_spec (env : Env) (id ref note fp : string) (h : Hub) (i : Instance_) (m : Member) :
  inst_at h id = Some i → memberIn (ρ_of env) (ensureMaps i) ref = Ok (fp, m) →
  Banned m = false → save_fault env = None →
  ∃ r h' i', Ban env id ref note h = (r, h') ∧ inst_at h' id = Some i' ∧
    (r = Ok () ∨ ∃ e, r = Err (Wrap "recorded, but the lighthouse did not take the new blocklist: %w" e)) ∧
    disk (h_store h') = Some (mem (h_store h')) ∧
    (∀ id', id' ≠ id → inst_at h' id' = inst_at h id') ∧
    mget (i_Members i') =
      <[fp := set_Events (m_Events m ++ [mkEvent EventBan note (now env)]) m]> (mget (i_Members i)) ∧
    (m_CertFingerprint m ≠ "" → ∀ ρ, m_CertFingerprint m ∈ blockedIn ρ i') ∧
    (∀ ρ route, route ∈ routesOf ρ i' ↔ ∃ fp' m' p, fp' ≠ fp ∧ mget (i_Members i) !! fp' = Some m' ∧
       carries m' = true ∧ p ∈ m_Routes m' ∧ route = mkRoute p (p_addr (m_Address m')) (m_Name m')) ∧
    (∀ ρ resolver, resolver ∈ resolversOf ρ i' ↔ ∃ fp' m', fp' ≠ fp ∧ mget (i_Members i) !! fp' = Some m' ∧
       m_Kind m' = KindConnector ∧ Banned m' = false ∧ m_Domain m' ≠ "" ∧ resolver = resolver_of_member m').
Proof.
  intros Hi Hm Hb Hsave. set (mb := mget (i_Members i)).
  set (m' := set_Events (m_Events m ++ [mkEvent EventBan note (now env)]) m).
  pose proof (ban_run env ref note (ensureMaps i) fp m mb eq_refl Hm Hb) as Hrun.
  fold m' in Hrun. set (i' := set_Members (Some (<[fp := m']> mb)) (ensureMaps i)) in Hrun.
  pose proof (onStore_Update_run env id (ban_fn env ref note) h i _ _ Hi Hrun) as Hst.
 rewrite Hsave in Hst. unfold Ban. rewrite (bind_run _ _ _ _ _ Hst).
  set (h1 := put_saved h id i').
  destruct (applyBlocklist_ok env id h1) as (Hnp & _ & Hs).
  assert (inst_at h1 id = Some i') as Hi1 by apply inst_at_put.
  assert ((applyBlocklist env id h1).1 = Ok () ∨ ∃ e, (applyBlocklist env id h1).1 =
    Err (Wrap "recorded, but the lighthouse did not take the new blocklist: %w" e)) as Hout.
  { revert Hnp. unfold applyBlocklist. rewrite bind_get, bind_liftR. unfold Get.
    unfold inst_at in Hi1. rewrite Hi1. destruct (lhs_reload env i' h1) as [[[]|e|] ?]; simpl; eauto. done. }
  destruct (applyBlocklist env id h1) as [r h'] eqn:Ea. simpl in Hs, Hout.
  exists r, h', i'. unfold inst_at. rewrite Hs. split_and!; try done.
  - intros id' Hne. simpl. by rewrite lookup_insert_ne.
  - intros Hc ρ. apply blockedIn_elem. split; [done|]. left. exists fp, m'. simpl.
    split_and!; [apply lookup_insert_eq|by unfold m'; rewrite Banned_append|done].
  - intros ρ route. rewrite routesOf_elem. setoid_rewrite carries_spec. simpl. split.
    + intros (fp' & x & p & [[<- <-]|[Hne Hl]]%lookup_insert_Some & Hk & Hnb & Hp & ->).
      * unfold m' in Hnb. by rewrite Banned_append in Hnb.
      * exists fp', x, p. by split_and!.
    + intros (fp' & x & p & Hne & Hl & [Hk Hnb] & Hp & ->). exists fp', x, p.
      split_and!; try done. by rewrite lookup_insert_ne.
  - intros ρ resolver. rewrite resolversOf_elem. simpl. split.
    + intros (fp' & x & [[<- <-]|[Hne Hl]]%lookup_insert_Some & Hk & Hnb & Hd & ->).
      * unfold m' in Hnb. by rewrite Banned_append in Hnb.
      * exists fp', x. by split_and!.
    + intros (fp' & x & Hne & Hl & Hk & Hnb & Hd & ->). exists fp', x.
      split_and!; try done. by rewrite lookup_insert_ne.
Qed.

(** Unbanning undoes a ban: the tables every member reads are again what
    they were, the blocklist to the letter, and only the history of the member
    has grown. *)
Theorem ban_unban_restores (env env' : Env) (ref ref' note note' fp : string) (m m1 : Member)
    (i i1 i2 : Instance_) (ρ ρ' : Range) :
  memberIn (ρ_of env) i ref = Ok (fp, m) → ban_fn env ref note i = (Ok (), i1) →
  memberIn (ρ_of env') i1 ref' = Ok (fp, m1) → unban_fn env' ref' note' i1 = (Ok (), i2) →
  is_Some (i_Members i) →
  blockedIn ρ i2 = blockedIn ρ' i ∧ routesOf ρ i2 ≡ₚ routesOf ρ' i ∧
  resolversOf ρ i2 ≡ₚ resolversOf ρ' i ∧
  mget (i_Members i2) =
    <[fp := set_Events (m_Events m ++ [mkEvent EventBan note (now env); mkEvent EventUnban note' (now env')]) m]>
      (mget (i_Members i)).
Proof.
  intros Hm Hban Hm1 Hunban [mb Hmb].
  assert (Banned m = false) as Hb.
  { unfold ban_fn in Hban. rewrite bind_get, bind_liftR, Hm, bind_guard in Hban. by destruct (Banned m). }
  rewrite (ban_run env ref note i fp m mb Hmb Hm Hb) in Hban. injection Hban as <-.
  set (mban := set_Events _ m) in *.
  pose proof Hm1 as [Hl1 _]%memberIn_Ok. simpl in Hl1. rewrite lookup_insert_eq in Hl1. injection Hl1 as <-.
  assert (Banned mban = true) as Hb1 by (unfold mban; by rewrite Banned_append).
  rewrite (unban_run env' ref' note' (set_Members (Some (<[fp := mban]> mb)) i) fp mban
    (<[fp := mban]> mb) eq_refl Hm1 Hb1) in Hunban. injection Hunban as <-.
  set (m2 := set_Events _ mban). simpl. rewrite insert_insert_eq.
  pose proof Hm as [Hl _]%memberIn_Ok. rewrite Hmb in Hl. simpl in Hl.
  destruct (members_insert i fp m m2 mb Hmb Hl) as (rest & Hi & Hi2).
  assert (Banned m2 = false) as Hb2 by (unfold Banned; simpl; by rewrite last_snoc).
  set (i2 := set_Members (Some (<[fp := m2]> mb)) i) in *.
  assert (members_of (set_Members (Some (<[fp:=m2]> mb))
    (set_Members (Some (<[fp:=mban]> mb)) i)) = members_of i2) as E by done.
  rewrite <-E in Hi2.
  split_and!.
  - apply blockedIn_ext. rewrite (blocked_certs_members _ _ Hi2), (blocked_certs_members _ _ Hi).
    rewrite !bind_cons. unfold cert_of at 1 3. rewrite Hb, Hb2. rewrite !decide_False by naive_solver. done.
  - rewrite (routes_members _ _ _ Hi2), (routes_members _ _ _ Hi). rewrite !bind_cons.
    assert (carries m2 = carries m) as -> by (unfold carries; by rewrite Hb, Hb2). done.
  - rewrite (resolvers_members _ _ _ Hi2), (resolvers_members _ _ _ Hi). rewrite !bind_cons.
    assert (carries m2 = carries m) as -> by (unfold carries; by rewrite Hb, Hb2). done.
  - rewrite Hmb. simpl. f_equal. unfold m2, mban. simpl. by rewrite <-app_assoc.
Qed.

(** C3: a removal only follows a ban, and never removes the owner.  It frees
    the name, both addresses and every request of the key, burns the key, and
    leaves the blocklist every member reads exactly as it was: the certificate
    stays refused.  Nobody else is touched. *)
Theorem RemoveMember_spec (env : Env) (id ref : string) (h h' : Hub) (m : Member) :
  RemoveMember env id ref h = (Ok m, h') →
  ∃ i i' fp, inst_at h id = Some i ∧ inst_at h' id = Some i' ∧
    mget (i_Members i) !! fp = Some m ∧ m_Kind m ≠ KindOwner ∧ Banned m = true ∧
    mget (i_Members i') = delete fp (mget (i_Members i)) ∧
    mget (i_Allocations i') = delete fp (mget (i_Allocations i)) ∧
    mget (i_Allocations6 i') = delete fp (mget (i_Allocations6 i)) ∧
    (∀ rid r, mget (i_Requests i') !! rid = Some r ↔
       mget (i_Requests i) !! rid = Some r ∧ hr_Fingerprint r ≠ fp) ∧
    burned i' fp = true ∧
    (∀ ρ ρ', blockedIn ρ i' = blockedIn ρ' i ∧ routesOf ρ i' ≡ₚ routesOf ρ' i) ∧
    disk (h_store h') = Some (mem (h_store h')).
Proof.
  unfold RemoveMember. destruct (inst_at h id) as [i|] eqn:Hi; cycle 1.
  { unfold onStore, Update. unfold inst_at in Hi. by rewrite Hi. }
  destruct (remove_fn env ref (ensureMaps i)) as [r i'] eqn:Hrun.
  pose proof (onStore_Update_run env id _ h i _ _ Hi Hrun) as Hst. rewrite Hst. clear Hst.
  intros H. assert (r = Ok m ∧ save_fault env = None) as [-> Hsave].
  { destruct r; [destruct (save_fault env)|..]; by simplify_eq. }
  rewrite Hsave in H. injection H as <-.
  unfold remove_fn in Hrun. rewrite bind_get, bind_liftR in Hrun.
  destruct (memberIn _ _ _) as [[fp m0]| |] eqn:Hm; [|done..].
  rewrite !bind_guard in Hrun. destruct (bool_decide_reflect (m_Kind m0 = KindOwner)) as [|Hk]; [done|].
  destruct (Banned m0) eqn:Hb; [|done]. cbn [negb] in Hrun. rewrite !bind_modify in Hrun.
  injection Hrun as <- Hi'. apply memberIn_Ok in Hm as [Hm _]. change (mget (i_Members i) !! fp = Some m0) in Hm.
  exists i, i', fp. split; [done|]. split; [apply inst_at_put|].
  assert (mget (i_Members i') = delete fp (mget (i_Members i))) as Em by by subst i'.
  assert (i_Burned i' = i_Burned i ++ [mkBurned fp (m_CertFingerprint m0)]) as Eb by by subst i'.
  assert (members_of i ≡ₚ m0 :: members_of i') as Hperm.
  { unfold members_of. rewrite Em. by rewrite <-(map_to_list_delete _ _ _ Hm). }
  split_and!; try done; try by subst i'.
  - subst i'. exact (mget_mdelete (i_Allocations6 i) fp).
  - intros rid r. subst i'. simpl. rewrite map_lookup_filter_Some. done.
  - unfold burned. rewrite Eb, existsb_app. simpl. rewrite bool_decide_true by done. by rewrite orb_true_r.
  - intros ρ ρ'. split.
    + apply blockedIn_ext. rewrite (blocked_certs_members _ _ Hperm). rewrite bind_cons.
      rewrite (blocked_certs_members i' (members_of i')) by done.
      rewrite Eb, filter_app, fmap_app. unfold cert_of at 2. rewrite filter_cons, filter_nil. simpl.
      destruct (decide (m_CertFingerprint m0 = "")) as [E|E].
      * rewrite decide_False by naive_solver. rewrite decide_False by naive_solver. by rewrite app_nil_r.
      * rewrite decide_True by done. rewrite decide_True by done. simpl. rewrite app_assoc.
        by rewrite <-Permutation_cons_append.
    + rewrite (routes_members _ _ _ Hperm), (routes_members _ i' _ (reflexivity _)), bind_cons.
      unfold carries at 2. rewrite Hb, andb_false_r. done.
Qed.

(** ** Decisions *)

Definition decided_name (d : Decision_) (r : HubRecord) : string :=
  if decide (d_Name d = "") then rq_Name (hr_Request r) else d_Name d.

Lemma approve_run env cfg rid d b r i mb :
  mget (i_Requests i) !! rid = Some r → d_Status d = StatusApproved → d_Bundle d = Some b →
  bu_Certificate b ≠ "" → i_Members i = Some mb → is_Some (i_Requests i) →
  let bundle := approved_bundle (ρ_of env) cfg i r b in
  let name := decided_name d r in
  let record at_ := with_decision StatusApproved (Some bundle) (hr_Reason r) at_ r in
  let clash := ∃ fp' m', mb !! fp' = Some m' ∧ fp' ≠ hr_Fingerprint r ∧ m_Name m' = name ∧ name ≠ "" in
  (clash ∧ decide_fn env cfg rid d i =
     (Err (Errorf "a %s is already called %s: retire it first"),
      set_Requests (Some (<[rid := record (er_DecidedAt (hr_Record r))]> (mget (i_Requests i)))) i)) ∨
  (¬ clash ∧ decide_fn env cfg rid d i =
     (Ok (), set_Requests (Some (<[rid := record (now env)]> (mget (i_Requests i))))
               (set_Members (Some (<[hr_Fingerprint r := admitted env r name d]> mb)) i))).
Proof.
  intros Hr Hs Hb Hc Hmb Hrq bundle name record clash.
  assert (decide_fn env cfg rid d i =
    if negb (existsb (λ kv, bool_decide (kv.1 ≠ hr_Fingerprint r ∧ m_Name kv.2 = name ∧ name ≠ ""))
          (range (ρ_of env) mb))
    then (Ok (), set_Requests (Some (<[rid := record (now env)]> (mget (i_Requests i))))
               (set_Members (Some (<[hr_Fingerprint r := admitted env r name d]> mb)) i))
    else (Err (Errorf "a %s is already called %s: retire it first"),
      set_Requests (Some (<[rid := record (er_DecidedAt (hr_Record r))]> (mget (i_Requests i)))) i)) as ->.
  { unfold decide_fn, mlookup. rewrite bind_get, Hr, Hs, Hb, bind_guard, bool_decide_false by done.
    cbn [negb]. rewrite (bind_run _ _ _ _ _ (set_record_run _ _ _ Hrq)), bind_modify.
    set (i1 := set_Requests _ i). assert (i_Members i1 = Some mb) as Em by done. rewrite Em.
    rewrite bind_guard, Hmb. cbn [mget default]. fold name.
    destruct (negb _); [|done].
    rewrite (bind_run _ _ _ _ _ (assignM_run _ _ _ _ _ ltac:(by rewrite Em))).
    rewrite set_record_run by by eexists. rewrite Em. cbn [mget default].
    unfold i1. simpl. rewrite insert_insert_eq. done. }
  destruct (existsb _ _) eqn:He; cbn [negb]; [left|right]; (split; [|done]).
  - apply existsb_exists in He as ([fp' m'] & Hin & Hp%bool_decide_eq_true).
    apply list_elem_of_In, elem_of_range in Hin. exists fp', m'. simpl in Hp. naive_solver.
  - intros (fp' & m' & Hl & Hp). apply not_true_iff_false in He. apply He, existsb_exists.
    exists (fp', m'). split; [by apply list_elem_of_In, elem_of_range|]. by apply bool_decide_eq_true.
Qed.

(** C2: what an approval does, on both of its branches.  When nobody else has
    the name, the applicant becomes a member under it, with the addresses its
    request was given and the routes and domain the owner granted; polling for
    the request now answers with the bundle, carrying the refusals of the
    moment; everybody else stays.  When the name is taken the call fails and
    no member changes: but the request has been marked approved in memory
    before the name is looked at, so polling hands out the bundle of an
    approval that was refused and that is not on disk. *)
Theorem Decide_approve (env : Env) (id rid : string) (d : Decision_) (h : Hub) (i : Instance_)
    (r : HubRecord) (b : Bundle) :
  inst_at h id = Some i → mget (i_Requests i) !! rid = Some r → d_Status d = StatusApproved →
  d_Bundle d = Some b → bu_Certificate b ≠ "" → save_fault env = None →
  let bundle := approved_bundle (ρ_of env) (h_cfg h) i r b in
  let clash := ∃ fp' m', mget (i_Members i) !! fp' = Some m' ∧ fp' ≠ hr_Fingerprint r ∧
                 m_Name m' = decided_name d r ∧ decided_name d r ≠ "" in
  ∃ i' h', inst_at h' id = Some i' ∧
    (∀ ρ, ResultOf ρ h' id rid =
       Ok (mkResult StatusApproved 0 (Some (set_Blocked (blockedIn ρ i') bundle)) (hr_Reason r))) ∧
    ((¬ clash ∧ Decide env id rid d h = (Ok (), h') ∧
      mget (i_Members i') = <[hr_Fingerprint r := admitted env r (decided_name d r) d]> (mget (i_Members i)) ∧
      disk (h_store h') = Some (mem (h_store h'))) ∨
     (clash ∧ (∃ e, Decide env id rid d h = (Err e, h')) ∧
      mget (i_Members i') = mget (i_Members i) ∧ disk (h_store h') = disk (h_store h))).
Proof.
  intros Hi Hr Hs Hb Hc Hsave bundle clash.
  assert (∀ ρ h' i' at_, inst_at h' id = Some i' →
    mget (i_Requests i') !! rid = Some (with_decision StatusApproved (Some bundle) (hr_Reason r) at_ r) →
    ResultOf ρ h' id rid =
      Ok (mkResult StatusApproved 0 (Some (set_Blocked (blockedIn ρ i') bundle)) (hr_Reason r))) as Hres.
  { intros ρ h' i' at_ Hi' Hreq. unfold ResultOf, Resolve. unfold inst_at in Hi'. rewrite Hi'.
    cbn [bindR]. unfold mlookup. by rewrite Hreq. }
  assert (is_Some (i_Requests (ensureMaps i))) as Hrq by by eexists.
  pose proof (approve_run env (h_cfg h) rid d b r (ensureMaps i) (mget (i_Members i)) Hr Hs Hb Hc eq_refl Hrq) as Hrun.
  cbv zeta in Hrun. unfold Decide. rewrite bind_get.
  destruct Hrun as [[Hcl Hrun]|[Hcl Hrun]];
    pose proof (onStore_Update_run env id _ h i _ _ Hi Hrun) as Hst; rewrite Hst;
    rewrite ?Hsave.
  - match type of Hrun with _ = (_, ?j) => set (i1 := j) in * end.
    exists i1, (put h id i1 (disk (h_store h))). split; [apply inst_at_put|]. split.
    + intros ρ. eapply Hres; [apply inst_at_put|]. simpl. apply lookup_insert_eq.
    + right. split_and!; [done|by eexists|done|done].
  - match type of Hrun with _ = (_, ?j) => set (i1 := j) in * end.
    exists i1, (put_saved h id i1). split; [apply inst_at_put|]. split.
    + intros ρ. eapply Hres; [apply inst_at_put|]. simpl. apply lookup_insert_eq.
    + left. by split_and!.
Qed.

(** ** Persistence *)

Definition durable (h h' : Hub) : Prop :=
  disk (h_store h') = disk (h_store h) ∨ disk (h_store h') = Some (mem (h_store h')).

(** A run over the store that writes what is in memory, or nothing. *)
Definition writes {A} (c : M Store A) : Prop := ∀ s,
  match c s with
  | (Ok _, s') => disk s' = Some (mem s')
  | (_, s') => disk s' = disk s
  end.
Lemma Update_writes {A} env id (fn : M Instance_ A) : writes (Update env id fn).
Proof.
  intros s. destruct (s_Instances (mem s) !! id) as [i|] eqn:Hi.
  - pose proof (Update_inv env id fn s i Hi) as H. destruct (fn (ensureMaps i)) as [r i'].
    rewrite H. destruct r; [destruct (save_fault env)|..]; done.
  - unfold Update. by rewrite Hi.
Qed.
Lemma save_writes env (f : state → state) : writes (do* set_mem f in save env).
Proof. intros s. unfold set_mem. rewrite bind_modify. unfold save. by destruct (save_fault env). Qed.
Lemma Add_writes env inst : writes (Add env inst).
Proof.
  intros s. unfold Add. rewrite bind_get. destruct (_ !! _); [done|]. destruct (find_first _ _); [done|].
  apply save_writes.
Qed.
Lemma Remove_writes env id : writes (Remove env id).
Proof. intros s. unfold Remove. rewrite bind_get. destruct (_ !! _); [|done]. apply save_writes. Qed.
Lemma Register_writes env r : writes (Register env r).
Proof.
  intros s. unfold Register. rewrite bind_get.
  destruct (_ !! _); unfold set_mem; rewrite bind_modify; unfold save; by destruct (save_fault env).
Qed.

(** A run over the hub, the same. *)
Definition hub_writes {A} (c : M Hub A) (h : Hub) : Prop :=
  durable h (c h).2 ∧ (is_ok (c h).1 = true → disk (h_store (c h).2) = Some (mem (h_store (c h).2))).
Lemma onStore_writes {A} (c : M Store A) h : writes c → hub_writes (onStore c) h.
Proof.
  intros Hc. specialize (Hc (h_store h)). unfold hub_writes, durable, onStore.
  destruct (c (h_store h)) as [[a|e|] s']; simpl in *; auto; (split; [by left|done]).
Qed.
Lemma bind_writes {A B} (c : M Hub A) (k : A → M Hub B) h :
  hub_writes c h → (∀ a h', h_store (k a h').2 = h_store h') → hub_writes (bindM c k) h.
Proof.
  intros [Hd Hok] Hk. unfold hub_writes, durable, bindM in *. destruct (c h) as [[a|e|] h']; simpl in *; [|done..].
  rewrite (Hk a h'). auto.
Qed.
Lemma unchanged_writes {A} (c : M Hub A) h :
  (c h).2 = h → is_ok (c h).1 = false → hub_writes c h.
Proof. unfold hub_writes, durable. intros -> ->. split; [by left|done]. Qed.
Lemma Delete_writes env id h : hub_writes (Delete env id) h.
Proof.
  unfold Delete, hub_writes. rewrite bind_get, bind_liftR. unfold Get.
  destruct (_ !! _) as [i|]; [|split; [by left|done]].
  unfold lhs_stop. rewrite bind_modify.
  apply (onStore_writes (Remove env (i_ID i)) (set_lhs (delete (i_ID i) (h_lhs h)) h)), Remove_writes.
Qed.
(** A statement that does not change the hub. *)
Definition quiet {A} (c : M Hub A) : Prop := ∀ h, (c h).2 = h.
Lemma quiet_liftR {A} (r : res A) : quiet (liftR r).
Proof. done. Qed.
Lemma quiet_ret {A} (a : A) : quiet (retM a).
Proof. done. Qed.
Lemma quiet_raise {A} e : quiet (raise (A := A) e).
Proof. done. Qed.
Lemma quiet_get : quiet getM.
Proof. done. Qed.
Lemma quiet_guard b e : quiet (guard b e).
Proof. by destruct b. Qed.
Lemma quiet_bind {A B} (c : M Hub A) (k : A → M Hub B) : quiet c → (∀ a, quiet (k a)) → quiet (bindM c k).
Proof.
  intros Hc Hk h. specialize (Hc h). unfold bindM. destruct (c h) as [[a|e|] h']; simpl in *; subst; [|done..].
  apply Hk.
Qed.
Create HintDb writes discriminated.
#[export] Hint Resolve quiet_liftR quiet_ret quiet_raise quiet_get quiet_guard quiet_bind : writes.
Lemma after_quiet {A B} (c : M Hub A) (k : A → M Hub B) h :
  quiet c → (∀ a, hub_writes (k a) h) → hub_writes (bindM c k) h.
Proof.
  intros Hc Hk. specialize (Hc h). unfold hub_writes, bindM in *. destruct (c h) as [[a|e|] h']; simpl in *; subst.
  - apply Hk.
  - split; [by left|done].
  - split; [by left|done].
Qed.
Lemma ret_after_writes {A B} (c : M Hub A) (f : A → B) h :
  hub_writes c h → hub_writes (let* a := c in retM (f a)) h.
Proof. intros Hc. by apply bind_writes. Qed.
#[export] Hint Resolve onStore_writes Update_writes Add_writes Remove_writes Register_writes Delete_writes : writes.

Lemma CreateInstance_writes env binder owner name token h :
  hub_writes (CreateInstance env binder owner name token) h.
Proof.
  unfold CreateInstance, hub_writes. rewrite bind_get.
  apply after_quiet; [auto with writes|intros overlay]. apply after_quiet; [auto with writes|intros port].
  apply after_quiet; [auto with writes|intros lh]. apply after_quiet; [auto with writes|intros ta].
  apply after_quiet; [|intros [[o6 l6] t6]].
  { destruct (c_Overlays6 _); [apply quiet_ret|]. repeat (apply quiet_bind; [apply quiet_liftR|intros ?]). apply quiet_ret. }
  apply after_quiet; [by destruct (GenerateHostKey env)|intros [pub key]]. cbn zeta.
  apply bind_writes; [auto with writes|done].
Qed.

Section Writes.
Context `{HC : Crypto}.

Lemma Enroll_writes env ref req who h : hub_writes (Enroll env ref req who) h.
Proof.
  unfold Enroll. apply after_quiet; [auto with writes|intros req'].
  unfold hub_writes. rewrite bind_get. apply after_quiet.
  { case_decide; [|apply quiet_ret]. destruct (Resolve _ _ _); [apply quiet_guard|apply quiet_ret..]. }
  intros _. apply after_quiet; [apply quiet_guard|intros _]. apply after_quiet; [auto with writes|intros target].
  auto with writes.
Qed.
Lemma applyBlocklist_store env id a h' :
  h_store ((λ _ : (), applyBlocklist env id) a h').2 = h_store h'.
Proof. by destruct (applyBlocklist_ok env id h') as (_&_&?). Qed.

Lemma run_op_writes env op h : op ≠ OpRestart → hub_writes (run_op env op) h.
Proof.
  intros Hop. destruct op; cbn [run_op]; try done; auto with writes.
  - apply ret_after_writes, CreateInstance_writes.
  - unfold ActivateInstance. apply bind_writes; [auto with writes|]. intros _ h'. rewrite bind_get, bind_liftR.
    unfold Get. destruct (_ !! _) as [i|]; [|done]. unfold lhs_stop. rewrite bind_modify.
    by destruct (lhs_start_ok env i (set_lhs (delete id (h_lhs h')) h')) as (_&_&?).
  - apply ret_after_writes, Enroll_writes.
  - unfold Decide, hub_writes. rewrite bind_get. apply onStore_writes, Update_writes.
  - unfold Forget. auto with writes.
  - apply bind_writes; [auto with writes|apply applyBlocklist_store].
  - apply bind_writes; [auto with writes|apply applyBlocklist_store].
  - apply ret_after_writes. unfold RemoveMember. auto with writes.
  - unfold SetSharedToken. apply after_quiet; [apply quiet_guard|intros _]. auto with writes.
Qed.

(** The state file is written whole or not at all.  After any operation
    the file is what it was before, or exactly the state in memory; after one
    that succeeded it is the state in memory, so nothing a caller was told
    about is lost by a restart; and after one that failed before it could
    write, the file does not hold what the failed operation left in memory. *)
Theorem file_is_old_or_current (env : Env) (op : Op) (h : Hub) :
  op ≠ OpRestart →
  (disk (h_store (run_op env op h).2) = disk (h_store h) ∨
   disk (h_store (run_op env op h).2) = Some (mem (h_store (run_op env op h).2))) ∧
  ((run_op env op h).1 = Ok () →
   disk (h_store (run_op env op h).2) = Some (mem (h_store (run_op env op h).2))).
Proof.
  intros Hop. destruct (run_op_writes env op h Hop) as [Hd Hok]. split; [exact Hd|].
  intros Hr. apply Hok. by rewrite Hr.
Qed.

(** ** Naming an instance *)

Lemma resolve_loop_spec name found l :
  resolve_loop name found l =
    match found, filter (λ i, i_Name i = name) l with
    | None, [] => Err ErrNotFound
    | None, [i] => Ok i
    | Some i, [] => Ok i
    | _, _ => Err ErrAmbiguous
    end.
Proof.
  revert found. induction l as [|i l IH]; intros found; simpl; [by destruct found|].
  rewrite filter_cons. destruct (decide (i_Name i = name)) as [E|E].
  - rewrite decide_False by naive_solver. destruct found; [done|]. rewrite IH. by destruct (filter _ l).
  - rewrite decide_True by done. apply IH.
Qed.

Lemma filter_values_unique (P : Instance_ → Prop) `{∀ i, Decision (P i)} (L : list (string * Instance_)) :
  NoDup L → (∀ kv kv', kv ∈ L → kv' ∈ L → P kv.2 → P kv'.2 → kv = kv') →
  filter P L.*2 = [] ∨ ∃ i, filter P L.*2 = [i].
Proof.
  induction L as [|kv L IH]; intros Hnd Hu; [by left|]. apply NoDup_cons in Hnd as [Hn Hnd].
  rewrite fmap_cons, filter_cons.
  assert (∀ kv kv', kv ∈ L → kv' ∈ L → P kv.2 → P kv'.2 → kv = kv') as Hu'.
  { intros x y Hx Hy. apply Hu; by right. }
  destruct (decide (P kv.2)) as [HP|HP]; [|by apply IH]. right. exists kv.2. f_equal.
  destruct (filter P L.*2) as [|j l] eqn:E; [done|]. exfalso.
  assert (j ∈ filter P L.*2) as Hj by (rewrite E; left).
  apply list_elem_of_filter in Hj as [HPj (kv' & -> & Hkv')%list_elem_of_fmap].
  apply Hn. rewrite (Hu kv kv'); [done|left|by right|done..].
Qed.

(** Naming an instance.  In every reachable state an id wins; a name,
    trimmed and in any case, finds the one instance that has it, whatever
    order the instances are walked in; and nothing else is found.  Since
    [Add] keeps names unique, the ambiguity a caller is warned about does not
    arise. *)
Theorem Resolve_spec (cfg : Config) (h : Hub) (ρ : Range) (ref : string) :
  config_ok cfg → reachable cfg h →
  match Resolve ρ (h_store h) ref with
  | Ok i => inst_at h ref = Some i ∨
            inst_at h ref = None ∧ inst_at h (i_ID i) = Some i ∧ i_Name i = ToLower (TrimSpace ref)
  | Err e => e = ErrNotFound ∧ inst_at h ref = None ∧
             ∀ id i, inst_at h id = Some i → i_Name i ≠ ToLower (TrimSpace ref)
  | Panic => False
  end.
Proof.
  intros Hcfg Hr. pose proof (reachable_ok _ _ Hcfg Hr) as [_ [Hm _]].
  unfold Resolve. change (s_Instances (mem (h_store h)) !! ref) with (inst_at h ref).
  destruct (inst_at h ref) as [i|] eqn:Href; [by left|].
  rewrite resolve_loop_spec. set (name := ToLower (TrimSpace ref)).
  set (L := range ρ (s_Instances (mem (h_store h)))).
  assert (∀ i, i ∈ filter (λ i, i_Name i = name) L.*2 ↔ i_Name i = name ∧ ∃ id, inst_at h id = Some i) as Hl.
  { intros i. rewrite list_elem_of_filter, list_elem_of_fmap. unfold inst_at, L. split.
    - intros (? & [id i'] & -> & Hin%elem_of_range). eauto.
    - intros (? & id & Hi). split; [done|]. exists (id, i). split; [done|]. by apply elem_of_range. }
  destruct (filter_values_unique (λ i, i_Name i = name) L) as [E|[i E]].
  - unfold L. rewrite range_perm. apply NoDup_map_to_list.
  - intros [k x] [k' y] Hx%elem_of_range Hy%elem_of_range Hn Hn'. simpl in *.
    assert (k = k') as -> by (apply (so_name _ _ Hm k k' x y); congruence). congruence.
  - rewrite E in *. split_and!; [done..|]. intros id i Hi Hn.
    by apply (elem_of_nil (A := Instance_) i), Hl; eauto.
  - rewrite E in *. destruct (proj1 (Hl i)) as [Hn [id Hi]]; [by left|]. right. split_and!; [done| |done].
    by destruct (so_inst _ _ Hm _ _ Hi) as [-> _].
Qed.

(** ** Enrolling *)

Lemma Enroll_inv cfg env ref req who h record h' :
  hub_ok cfg h → Enroll env ref req who h = (Ok record, h') →
  ∃ v i i', Validate req = Ok v ∧ Resolve (ρ_of env) (h_store h) ref = Ok i ∧ inst_at h (i_ID i) = Some i ∧
    enroll_fn env (applicant_name v who) who (fingerprintOf (rq_PublicKey (applicant_name v who)))
      (ensureMaps i) = (Ok record, i') ∧ h' = put_saved h (i_ID i) i'.
Proof.
  intros [_ Hs]. unfold Enroll. rewrite bind_liftR. destruct (Validate req) as [v|e|]; [|done..].
  rewrite bind_get. set (pre := if decide _ then _ else _).
  assert (quiet pre) as Hq.
  { unfold pre. case_decide; [|apply quiet_ret]. destruct (Resolve _ _ _); [apply quiet_guard|apply quiet_ret..]. }
  clearbody pre. unfold bindM at 1. specialize (Hq h). destruct (pre h) as [[[]|e|] h1]; [|done..].
  simpl in Hq. subst h1. rewrite bind_guard. destruct (negb _); [|done]. rewrite bind_liftR.
  destruct (Resolve _ _ _) as [i|e|] eqn:Hr; [|done..]. pose proof (Resolve_id _ _ _ _ _ Hs Hr) as Hi.
  match goal with |- context [enroll_fn ?a ?b ?c ?d] =>
    destruct (enroll_fn a b c d (ensureMaps i)) as [r i'] eqn:Hrun end.
  rewrite (onStore_Update_run env _ _ h i r i' Hi Hrun). intros Hrs.
  assert (r = Ok record ∧ h' = put_saved h (i_ID i) i') as [-> ->].
  { destruct r; [destruct (save_fault env)|..]; by simplify_eq. }
  exists v, i, i'. by split_and!.
Qed.

Lemma reenrolled_request req src r : hr_Request (reenrolled req src r) = req.
Proof. unfold reenrolled. by case_decide. Qed.

(** A run of [enroll_fn] that succeeds: either the key had a record, which now
    carries the new request, or it is given one. *)
Lemma enroll_fn_inv env req who fp i record i' :
  enroll_fn env req who fp i = (Ok record, i') → is_Some (i_Requests i) → inst_wf i →
  (a_Kind who = KindConnector → i_SharedToken i ≠ "" →
     VerifyMAC (ρ_of env) req (i_SharedToken i) (a_MAC who) = true) ∧
  burned i fp = false ∧ hr_Request record = req ∧ hr_Fingerprint record = fp ∧
  ((∃ k existing, mget (i_Requests i) !! k = Some existing ∧ hr_Fingerprint existing = fp ∧
      record = reenrolled req (a_SourceAddr who) existing ∧
      i' = set_Requests (Some (<[k := record]> (mget (i_Requests i)))) i) ∨
   ((∀ k r, mget (i_Requests i) !! k = Some r → hr_Fingerprint r ≠ fp) ∧
      mget (i_Requests i') = <[newID env := record]> (mget (i_Requests i)))).
Proof.
  intros H Hrq Hwf. unfold enroll_fn in H. rewrite bind_get, bind_guard in H.
  destruct (negb (_ && _)) eqn:Hmac; [|done]. rewrite bind_guard in H.
  destruct (burned i fp) eqn:Hb; [done|]. cbn [negb] in H.
  split.
  { intros Hk Ht. rewrite bool_decide_true in Hmac by done. simpl in Hmac.
    by rewrite negb_involutive in Hmac. }
  split; [done|].
  destruct (find_first _ _) as [[k existing]|] eqn:Hf.
  - apply find_first_Some in Hf as [Hin Hfp%bool_decide_eq_true]. apply elem_of_range in Hin. simpl in Hfp.
    rewrite (bind_run _ _ _ _ _ (assignM_run _ _ _ _ _ Hrq)) in H. injection H as <- <-.
    destruct (reenrolled_same req (a_SourceAddr who) existing) as (Ef&_&_&_&_).
    split; [apply reenrolled_request|]. split; [by rewrite Ef|]. left. by exists k, existing.
  - pose proof (find_first_range_None _ _ _ Hf) as Hno.
    destruct (allocate_spec (ρ_of env) fp (a_Kind who) i Hwf) as (addr & err & i1 & E1 & Hwf1 & Hext1 & _).
    rewrite (bind_run _ _ _ _ _ E1) in H.
    destruct (allocate6_spec (ρ_of env) fp (a_Kind who) i1 Hwf1) as (addr6 & err6 & i2 & E2 & Hwf2 & Hext2 & _).
    rewrite (bind_run _ _ _ _ _ E2) in H.
    pose proof (extends_trans _ _ _ Hext1 Hext2) as (_&Er&_).
    destruct (negb _ && negb _); [by destruct err, err6|].
    assert (is_Some (i_Requests i2)) as Hrq2 by by rewrite Er.
    rewrite (bind_run _ _ _ _ _ (assignM_run _ _ _ _ _ Hrq2)) in H. injection H as <- <-.
    split; [done|]. split; [done|]. right. split; [|by simpl; rewrite Er].
    intros k r Hk. specialize (Hno k r Hk). by apply bool_decide_eq_false in Hno.
Qed.

(** C5: what a connector's request is stored as, when the instance has a
    shared token, is what the code it came with authenticates; and a key that
    was removed from the instance is refused. *)
Theorem Enroll_authenticated (cfg : Config) (env : Env) (ref : string) (req : Request)
    (who : Applicant) (h h' : Hub) (record : HubRecord) :
  config_ok cfg → reachable cfg h → Enroll env ref req who h = (Ok record, h') →
  a_Kind who = KindConnector →
  ∃ i i', inst_at h (i_ID i) = Some i ∧ inst_at h' (i_ID i) = Some i' ∧
    (i_SharedToken i ≠ "" →
       VerifyMAC (ρ_of env) (hr_Request record) (i_SharedToken i) (a_MAC who) = true) ∧
    burned i (hr_Fingerprint record) = false ∧
    (∃ rid, mget (i_Requests i') !! rid = Some record) ∧
    disk (h_store h') = Some (mem (h_store h')).
Proof.
  intros Hcfg Hr Hen Hk. pose proof (reachable_ok _ _ Hcfg Hr) as Hok.
  destruct (Enroll_inv _ _ _ _ _ _ _ _ Hok Hen) as (v & i & i' & Hv & Hres & Hi & Hrun & ->).
  destruct Hok as [_ [Hm _]]. destruct (so_inst _ _ Hm _ _ Hi) as [_ Hwf].
  destruct (enroll_fn_inv _ _ _ _ _ _ _ Hrun ltac:(by eexists) (ensureMaps_wf _ Hwf))
    as (Hmac & Hb & Hreq & Hfp & Hcase).
  exists i, i'. split_and!; [done|apply inst_at_put| | | |done].
  - intros Ht. rewrite Hreq. by apply Hmac.
  - by rewrite Hfp.
  - destruct Hcase as [(k & ex & _ & _ & _ & ->)|[_ ->]]; eexists; apply lookup_insert_eq.
Qed.

(** The hub rewrites a connector's request before it checks its code: the
    name is folded to lower case, or dropped into the hints, and the domain is
    put in canonical form.  So a connector that signs the request it sends,
    under the shared token, is let in under a name the hub rewrote only when
    the two different canonical forms collide under the hash: in practice it
    is refused for its spelling, with an authentication error. *)
Theorem rewritten_request_needs_collision (cfg : Config) (env : Env) (ref : string) (req v : Request)
    (who : Applicant) (h h' : Hub) (record : HubRecord) (i : Instance_) :
  config_ok cfg → reachable cfg h → a_Kind who = KindConnector →
  Resolve (ρ_of env) (h_store h) ref = Ok i → i_SharedToken i ≠ "" →
  a_MAC who = MAC (ρ_of env) req (i_SharedToken i) →
  Validate req = Ok v →
  Canonical (ρ_of env) (applicant_name v who) ≠ Canonical (ρ_of env) req →
  Enroll env ref req who h = (Ok record, h') →
  ∃ c c', c ≠ c' ∧ hmac_sha256 (i_SharedToken i) c = hmac_sha256 (i_SharedToken i) c'.
Proof.
  intros Hcfg Hr Hk Hres Ht Hmac Hv Hne Hen. pose proof (reachable_ok _ _ Hcfg Hr) as Hok.
  destruct (Enroll_inv _ _ _ _ _ _ _ _ Hok Hen) as (v' & j & i' & Hv' & Hres' & Hi & Hrun & _).
  assert (v' = v) as -> by congruence. assert (j = i) as -> by congruence.
  destruct Hok as [_ [Hm _]]. destruct (so_inst _ _ Hm _ _ Hi) as [_ Hwf].
  destruct (enroll_fn_inv _ _ _ _ _ _ _ Hrun ltac:(by eexists) (ensureMaps_wf _ Hwf)) as (Hver & _).
  specialize (Hver Hk Ht). apply VerifyMAC_eq in Hver. rewrite Hmac in Hver. unfold MAC in Hver.
  rewrite DecodeHex_Encode in Hver by apply hmac_bytes. injection Hver as Hver.
  eexists _, _. split; [exact Hne|]. by rewrite Hver.
Qed.

Lemma find_record ρ i fp rid r :
  inst_wf i → mget (i_Requests i) !! rid = Some r → hr_Fingerprint r = fp →
  find_first (λ kv, bool_decide (hr_Fingerprint kv.2 = fp)) (range ρ (mget (i_Requests i))) = Some (rid, r).
Proof.
  intros Hwf Hr Hfp. destruct (find_first _ _) as [[k r']|] eqn:Hf.
  - apply find_first_Some in Hf as [Hin Hfp'%bool_decide_eq_true]. apply elem_of_range in Hin. simpl in Hfp'.
    assert (k = rid) as -> by (eapply (wf_unique _ Hwf); [done..|congruence]). congruence.
  - pose proof (find_first_range_None _ _ _ Hf rid r Hr) as Hno. by apply bool_decide_eq_false in Hno.
Qed.

(** Enrolling again with a key that has a record is idempotent.  The
    record keeps its id, its kind, its addresses and its decision, except that
    a rejected one is pending again; only its request and where it came from
    are new; nothing is allocated and no member changes. *)
Theorem Enroll_again (cfg : Config) (env : Env) (ref rid : string) (req : Request) (who : Applicant)
    (h h' : Hub) (i : Instance_) (r record : HubRecord) :
  config_ok cfg → reachable cfg h → Resolve (ρ_of env) (h_store h) ref = Ok i →
  mget (i_Requests i) !! rid = Some r → hr_Fingerprint r = hr_Fingerprint record →
  Enroll env ref req who h = (Ok record, h') →
  hr_ID record = hr_ID r ∧ hr_Kind record = hr_Kind r ∧
  er_OverlayAddress (hr_Record record) = er_OverlayAddress (hr_Record r) ∧
  er_OverlayAddress6 (hr_Record record) = er_OverlayAddress6 (hr_Record r) ∧
  hr_Status record = (if decide (hr_Status r = StatusRejected) then StatusPending else hr_Status r) ∧
  hr_Bundle record = hr_Bundle r ∧
  ∃ i', inst_at h' (i_ID i) = Some i' ∧ mget (i_Requests i') = <[rid := record]> (mget (i_Requests i)) ∧
    mget (i_Allocations i') = mget (i_Allocations i) ∧ mget (i_Allocations6 i') = mget (i_Allocations6 i) ∧
    mget (i_Members i') = mget (i_Members i).
Proof.
  intros Hcfg Hreach Hres Hr Hfp Hen. pose proof (reachable_ok _ _ Hcfg Hreach) as Hok.
  destruct (Enroll_inv _ _ _ _ _ _ _ _ Hok Hen) as (v & j & i' & Hv & Hres' & Hi & Hrun & ->).
  assert (j = i) as -> by congruence.
  destruct Hok as [_ [Hm _]]. destruct (so_inst _ _ Hm _ _ Hi) as [_ Hwf].
  destruct (enroll_fn_inv _ _ _ _ _ _ _ Hrun ltac:(by eexists) (ensureMaps_wf _ Hwf))
    as (_ & _ & _ & Hfp' & Hcase).
  change (mget (i_Requests (ensureMaps i))) with (mget (i_Requests i)) in Hcase.
  destruct Hcase as [(k & ex & Hex & Hexfp & Hrec & ->)|[Hno _]]; [|exfalso; eapply Hno; [exact Hr|congruence]].
  assert (k = rid) as -> by (eapply (wf_unique _ Hwf); [done..|congruence]).
  rewrite Hr in Hex. injection Hex as <-.
  destruct (reenrolled_same (applicant_name v who) (a_SourceAddr who) r) as (_&Ek&Eid&Ea&Ea6).
  rewrite Hrec, Ek, Eid, Ea, Ea6. split_and!; try done.
  - unfold reenrolled. case_decide as Hs; [|by rewrite decide_False]. by rewrite decide_True.
  - unfold reenrolled. by case_decide.
  - eexists. split; [apply inst_at_put|done].
Qed.

(** The code a shared token asks of a connector is not asked of a machine,
    and records are matched by key alone: a registered machine that asks to
    join with a connector's public key replaces what that connector asked for
    (its name, its domain, its routes), under the connector's record, without
    knowing the token. *)
Theorem tenant_rewrites_connector_request (cfg : Config) (env : Env) (ref rid : string) (req : Request)
    (who : Applicant) (h : Hub) (i : Instance_) (r : HubRecord) :
  config_ok cfg → reachable cfg h → Resolve (ρ_of env) (h_store h) ref = Ok i →
  mget (i_Requests i) !! rid = Some r → hr_Kind r = KindConnector →
  hr_Fingerprint r = fingerprintOf (rq_PublicKey req) →
  a_Kind who = KindTenant → a_Identity who ≠ i_Owner i →
  Validate req = Ok req → rq_Routes req = [] → save_fault env = None →
  ∃ record h' i', Enroll env ref req who h = (Ok record, h') ∧ inst_at h' (i_ID i) = Some i' ∧
    mget (i_Requests i') !! rid = Some record ∧
    hr_Kind record = KindConnector ∧ hr_Request record = req.
Proof.
  intros Hcfg Hreach Hres Hr Hkind Hfp Hten Hown Hval Hroutes Hsave.
  pose proof (reachable_ok _ _ Hcfg Hreach) as [_ Hs]. pose proof (Resolve_id _ _ _ _ _ Hs Hres) as Hi.
  destruct Hs as [Hm _]. destruct (so_inst _ _ Hm _ _ Hi) as [_ Hwf].
  pose proof (find_record (ρ_of env) i _ rid r Hwf Hr Hfp) as Hfind.
  assert (applicant_name req who = req) as Ename.
  { unfold applicant_name. by rewrite Hten, decide_False by (intros [[=] _]). }
  assert (enroll_fn env req who (fingerprintOf (rq_PublicKey req)) (ensureMaps i) =
    (Ok (reenrolled req (a_SourceAddr who) r),
     set_Requests (Some (<[rid := reenrolled req (a_SourceAddr who) r]> (mget (i_Requests i)))) (ensureMaps i))) as Hrun.
  { unfold enroll_fn. rewrite bind_get, bind_guard, Hten, bool_decide_false by (intros [[=] _]). cbn [negb andb].
    rewrite bind_guard. assert (burned (ensureMaps i) (fingerprintOf (rq_PublicKey req)) = false) as ->.
    { apply burned_false. intros b Hb He. destruct (wf_burned _ Hwf b Hb) as [_ Hno].
      apply (Hno rid r Hr). congruence. }
    cbn [negb]. change (mget (i_Requests (ensureMaps i))) with (mget (i_Requests i)). rewrite Hfind.
    assert (is_Some (i_Requests (ensureMaps i))) as Hrq by by eexists.
    by rewrite (bind_run _ _ _ _ _ (assignM_run _ _ _ _ _ Hrq)). }
  pose proof (onStore_Update_run env _ _ h i _ _ Hi Hrun) as Hst. rewrite Hsave in Hst.
  eexists _, _, _. split_and!.
  - unfold Enroll. rewrite bind_liftR, Hval, bind_get, Ename.
    case_decide; [rewrite Hres, bind_guard, bool_decide_false by congruence|rewrite bind_ret]; cbn [negb].
    + rewrite Hten, Hroutes. rewrite bind_guard.
      change (0 <? length (@nil Prefix))%nat with false. rewrite andb_false_r. cbn [negb].
      rewrite bind_liftR, ?Hres. exact Hst.
    + rewrite Hten, Hroutes. rewrite bind_guard.
      change (0 <? length (@nil Prefix))%nat with false. rewrite andb_false_r. cbn [negb].
      rewrite bind_liftR, ?Hres. exact Hst.
  - apply inst_at_put.
  - simpl. apply lookup_insert_eq.
  - by destruct (reenrolled_same req (a_SourceAddr who) r) as (_&->&_).
  - apply reenrolled_request.
Qed.
End Writes.
