(* ===== verification/HubExamples.v ===== *)
(** * A hub at work: a concrete run of the operations, and the theorems of
    [HubInv] and [HubSpec] at it.

    An instance is created, a connector enrolls and is admitted, it is banned
    and removed, and a second instance is created beside it. *)

From Stdlib Require Import Ascii.
From S2P Require Export HubSpec.

Open Scope Z_scope.

#[local] Existing Instance toy_crypto.

Definition ex_pool : Pool := mkPool (mkPrefix (Addr4 3323133952) 16) 24.
Definition ex_pool6 : Pool := mkPool (mkPrefix (Addr6 (253 * 2 ^ 120)) 48) 112.
Definition ex_cfg : Config :=
  {| c_APIAddr := ":8443"; c_NebulaBind := "0.0.0.0"; c_PublicEndpoint := "hub.example";
     c_PortMin := 20000; c_PortMax := 20001; c_Overlays := [ex_pool]; c_Overlays6 := [ex_pool6];
     c_Token := "token"; c_Binders := ∅; c_StatePath := "hub.json"; c_MTU := 1500;
     c_Relay := true; c_DNS := true; c_NoLighthouseTun := false |}.
Definition ex_env (n : Z) : Env :=
  {| now := n; newID := "id" +:+ Itoa n; GenerateHostKey := inr ("pub", "key"); save_fault := None;
     nebula_start := None; nebula_reload := None; ρ_of := range_default |}.

Definition ex_owner : string := "ed25519:mara".
Definition ex_request : Request := mkRequest "key A" "db" [mkPrefix (Addr4 167772160) 8] "" None.
Definition ex_applicant (req : Request) : Applicant :=
  mkApplicant KindConnector "" "" (MAC range_default req "secret") "192.0.2.1".
Definition ex_bundle : Bundle :=
  mkBundle "certificate" "authority" PrefixZero PrefixZero (mkLighthouse AddrZero AddrZero [] false) 0 "" [].
Definition ex_decision : Decision_ :=
  mkDecision StatusApproved (Some ex_bundle) "" "db" [mkPrefix (Addr4 167772160) 8] "" "cert A".

Definition ex_run (n : Z) (op : Op) (h : Hub) : Hub := (run_op (ex_env n) op h).2.
Definition ex_h0 : Hub := mkHub ex_cfg (OpenStore None) ∅.
Definition ex_h1 : Hub := ex_run 1 (OpCreate "mara" ex_owner "lab" "secret") ex_h0.
Definition ex_h2 : Hub := ex_run 2 (OpEnroll "lab" ex_request (ex_applicant ex_request)) ex_h1.
Definition ex_h3 : Hub := ex_run 3 (OpDecide "id1" "id2" ex_decision) ex_h2.
Definition ex_h4 : Hub := ex_run 4 (OpCreate "jo" "ed25519:jo" "attic" "") ex_h3.
Definition ex_h5 : Hub := ex_run 5 (OpBan "id1" "db" "lost") ex_h4.
Definition ex_h6 : Hub := ex_run 6 (OpRemove "id1" "db") ex_h5.

Definition ex_fp : string := fingerprintOf "key A".
Definition ex_inst (h : Hub) (id : string) : Instance_ :=
  match inst_at h id with
  | Some i => i
  | None => mkInstance "" "" "" "" PrefixZero PrefixZero 0 AddrZero AddrZero AddrZero AddrZero "" "" "" ""
              false "" None None None None [] 0
  end.

Lemma ex_config_ok : config_ok ex_cfg.
Proof. constructor; [repeat constructor; done|repeat constructor; done|done]. Qed.
Lemma ex_reachable0 : reachable ex_cfg ex_h0.
Proof. apply (reachable_new _ (ex_env 0)). reflexivity. Qed.
Lemma ex_reach n op h : legal op → reachable ex_cfg h → reachable ex_cfg (ex_run n op h).
Proof. intros Hl Hr. eapply reachable_step; [exact Hr|]. by apply step_op. Qed.
Lemma ex_reachable1 : reachable ex_cfg ex_h1.
Proof. apply ex_reach; [reflexivity|apply ex_reachable0]. Qed.
Lemma ex_reachable2 : reachable ex_cfg ex_h2.
Proof. apply ex_reach; [by left|apply ex_reachable1]. Qed.
Lemma ex_reachable3 : reachable ex_cfg ex_h3.
Proof. by apply ex_reach, ex_reachable2. Qed.
Lemma ex_reachable4 : reachable ex_cfg ex_h4.
Proof. apply ex_reach; [reflexivity|apply ex_reachable3]. Qed.
Lemma ex_reachable5 : reachable ex_cfg ex_h5.
Proof. by apply ex_reach, ex_reachable4. Qed.
Lemma ex_reachable6 : reachable ex_cfg ex_h6.
Proof. by apply ex_reach, ex_reachable5. Qed.

(** The members and requests along the run. *)
Example ex_admitted :
  (λ m, (m_Name m, Addr_String (p_addr (m_Address m)))) <$> mget (i_Members (ex_inst ex_h4 "id1")) !! ex_fp
  = Some ("db", "198.19.0.254").
Proof. vm_compute. reflexivity. Qed.
Example ex_removed :
  mget (i_Members (ex_inst ex_h6 "id1")) !! ex_fp = None ∧
  blockedIn range_default (ex_inst ex_h6 "id1") = ["cert A"].
Proof. split; vm_compute; reflexivity. Qed.

(** ** The theorems at this run *)

Lemma ex_at3 : inst_at ex_h3 "id1" = Some (ex_inst ex_h3 "id1").
Proof. vm_compute. reflexivity. Qed.
Lemma ex_at4 : inst_at ex_h4 "id1" = Some (ex_inst ex_h4 "id1").
Proof. vm_compute. reflexivity. Qed.
Lemma ex_at4' : inst_at ex_h4 "id4" = Some (ex_inst ex_h4 "id4").
Proof. vm_compute. reflexivity. Qed.
Lemma ex_at6 : inst_at ex_h6 "id1" = Some (ex_inst ex_h6 "id1").
Proof. vm_compute. reflexivity. Qed.

Definition ex_member : Member :=
  default (mkMember "" "" "" "" "" PrefixZero PrefixZero [] "" "" [] 0)
    (mget (i_Members (ex_inst ex_h4 "id1")) !! ex_fp).
Lemma ex_member_at : mget (i_Members (ex_inst ex_h4 "id1")) !! ex_fp = Some ex_member.
Proof. vm_compute. reflexivity. Qed.

Lemma addresses_unique_witness :
  p_addr (m_Address ex_member) ≠ i_LighthouseAddress (ex_inst ex_h4 "id1") ∧
  ContainsAddr (i_Overlay (ex_inst ex_h4 "id1")) (p_addr (m_Address ex_member)) = true ∧
  Addr_String (p_addr (m_Address6 ex_member)) = "fd00::ffff" ∧
  ContainsAddr (i_Overlay6 (ex_inst ex_h4 "id1")) (p_addr (m_Address6 ex_member)) = true.
Proof.
  pose proof (addresses_unique ex_cfg ex_h4 "id1" _ ex_config_ok ex_reachable4 ex_at4) as (_ & H & _ & H6 & _).
  destruct (H ex_fp ex_member ex_member_at) as [H1 H2]; [vm_compute; reflexivity|]. split; [exact H1|]. split; [exact H2|].
  split; [vm_compute; reflexivity|]. apply (H6 ex_fp ex_member ex_member_at). vm_compute. reflexivity.
Defined.

Lemma instances_disjoint_witness :
  i_Port (ex_inst ex_h4 "id1") ≠ i_Port (ex_inst ex_h4 "id4") ∧
  Overlaps (i_Overlay (ex_inst ex_h4 "id1")) (i_Overlay (ex_inst ex_h4 "id4")) = false.
Proof.
  assert ("id1" ≠ "id4") as Hne by discriminate.
  pose proof (instances_disjoint ex_cfg ex_h4 "id1" "id4" _ _ ex_config_ok ex_reachable4 ex_at4 ex_at4' Hne)
    as (_ & Hp & _ & _ & Ho & _).
  split; [exact Hp|]. apply Ho. intros p q Hp' Hq'.
  apply list_elem_of_singleton in Hp' as ->. apply list_elem_of_singleton in Hq' as ->. reflexivity.
Defined.

Lemma hub_never_panics_witness :
  (run_op (ex_env 7) (OpEnroll "attic" ex_request (ex_applicant ex_request)) ex_h6).1 ≠ Panic.
Proof.
  apply (hub_never_panics ex_cfg); [exact ex_config_ok|exact ex_reachable6|]. left. reflexivity.
Defined.

Lemma burned_keys_stay_out_witness :
  mget (i_Members (ex_inst ex_h6 "id1")) !! ex_fp = None ∧
  (run_op (ex_env 7) (OpEnroll "lab" ex_request (ex_applicant ex_request)) ex_h6).1 =
    Err (Errorf "this key was removed from %s and will not be admitted again").
Proof.
  assert (mkBurned ex_fp "cert A" ∈ i_Burned (ex_inst ex_h6 "id1")) as Hb.
  { assert (i_Burned (ex_inst ex_h6 "id1") = [mkBurned ex_fp "cert A"]) as -> by (vm_compute; reflexivity). left. }
  split; [|vm_compute; reflexivity].
  pose proof (burned_keys_stay_out ex_cfg ex_h6 "id1" _ _ ex_config_ok ex_reachable6 ex_at6 Hb) as [H _].
  cbn [b_Fingerprint] in H. exact H.
Defined.

Lemma Ban_spec_witness :
  ∃ r h' i', Ban (ex_env 5) "id1" "db" "lost" ex_h4 = (r, h') ∧ inst_at h' "id1" = Some i' ∧
    "cert A" ∈ blockedIn range_default i' ∧ (∀ r, r ∈ resolversOf range_default i' → ∃ m, Banned m = false ∧ r = resolver_of_member m).
Proof.
  assert (memberIn (ρ_of (ex_env 5)) (ensureMaps (ex_inst ex_h4 "id1")) "db" = Ok (ex_fp, ex_member)) as Hm
    by (vm_compute; reflexivity).
  assert (Banned ex_member = false) as Hb by (vm_compute; reflexivity).
  destruct (Ban_spec (ex_env 5) "id1" "db" "lost" ex_fp ex_h4 _ ex_member ex_at4 Hm Hb eq_refl)
    as (r & h' & i' & H1 & H2 & _ & _ & _ & _ & H3 & _ & H5).
  exists r, h', i'. split; [exact H1|]. split; [exact H2|].
  assert (m_CertFingerprint ex_member = "cert A") as Hc by (vm_compute; reflexivity).
  split; [rewrite <-Hc; apply H3; rewrite Hc; discriminate|].
  intros r' (fp' & m' & _ & _ & _ & Hnb & _ & ->)%H5. exists m'. split; [exact Hnb|reflexivity].
Defined.

Definition ex_banned : Instance_ := (ban_fn (ex_env 5) "db" "lost" (ex_inst ex_h4 "id1")).2.
Definition ex_unbanned : Instance_ := (unban_fn (ex_env 6) "db" "found" ex_banned).2.
Lemma ban_unban_restores_witness :
  blockedIn range_default ex_banned = ["cert A"] ∧
  blockedIn range_default ex_unbanned = blockedIn range_default (ex_inst ex_h4 "id1").
Proof.
  split; [vm_compute; reflexivity|].
  assert (memberIn range_default (ex_inst ex_h4 "id1") "db" = Ok (ex_fp, ex_member)) as H1 by (vm_compute; reflexivity).
  assert (ban_fn (ex_env 5) "db" "lost" (ex_inst ex_h4 "id1") = (Ok (), ex_banned)) as H2 by (vm_compute; reflexivity).
  assert (memberIn range_default ex_banned "db" =
    Ok (ex_fp, set_Events [mkEvent EventBan "lost" 5] ex_member)) as H3 by (vm_compute; reflexivity).
  assert (unban_fn (ex_env 6) "db" "found" ex_banned = (Ok (), ex_unbanned)) as H4 by (vm_compute; reflexivity).
  assert (bool_decide (is_Some (i_Members (ex_inst ex_h4 "id1"))) = true) as H5 by (vm_compute; reflexivity).
  apply bool_decide_eq_true in H5.
  apply (ban_unban_restores (ex_env 5) (ex_env 6) "db" "db" "lost" "found" ex_fp ex_member _ _ _ _
    range_default range_default H1 H2 H3 H4 H5).
Defined.

Lemma RemoveMember_spec_witness :
  ∃ m h', RemoveMember (ex_env 6) "id1" "db" ex_h5 = (Ok m, h') ∧ Banned m = true ∧ m_Kind m ≠ KindOwner.
Proof.
  assert (∃ m, RemoveMember (ex_env 6) "id1" "db" ex_h5 = (Ok m, (RemoveMember (ex_env 6) "id1" "db" ex_h5).2))
    as [m Hm] by (eexists; vm_compute; reflexivity).
  exists m, (RemoveMember (ex_env 6) "id1" "db" ex_h5).2. split; [exact Hm|].
  destruct (RemoveMember_spec _ _ _ _ _ _ Hm) as (i & i' & fp & _ & _ & _ & Hk & Hb & _).
  split; [exact Hb|exact Hk].
Defined.

Lemma ex_at2 : inst_at ex_h2 "id1" = Some (ex_inst ex_h2 "id1").
Proof. vm_compute. reflexivity. Qed.
Definition ex_record : HubRecord :=
  default (mkHubRecord (mkEnrollRecord "" StatusPending ex_request "" PrefixZero PrefixZero "" 0 0) "" "" "" None "")
    (mget (i_Requests (ex_inst ex_h2 "id1")) !! "id2").
Lemma ex_record_at : mget (i_Requests (ex_inst ex_h2 "id1")) !! "id2" = Some ex_record.
Proof. vm_compute. reflexivity. Qed.

(** An approval under the name of the owner's own node: refused, but the
    connector is answered with the bundle. *)
Definition ex_clash : Decision_ :=
  mkDecision StatusApproved (Some ex_bundle) "" "lab" [] "" "cert A".
Lemma Decide_approve_witness :
  ∃ h', (∃ e, Decide (ex_env 3) "id1" "id2" ex_clash ex_h2 = (Err e, h')) ∧
    (∀ ρ, ∃ res, ResultOf ρ h' "id1" "id2" = Ok res ∧ rs_Status res = StatusApproved) ∧
    disk (h_store h') = disk (h_store ex_h2).
Proof.
  assert (bu_Certificate ex_bundle ≠ "") as Hc by discriminate.
  destruct (Decide_approve (ex_env 3) "id1" "id2" ex_clash ex_h2 _ ex_record ex_bundle ex_at2 ex_record_at
    eq_refl eq_refl Hc eq_refl) as (i' & h' & _ & Hres & [(_ & Hok & _)|(_ & He & _ & Hd)]).
  - exfalso. assert ((Decide (ex_env 3) "id1" "id2" ex_clash ex_h2).1 =
      Err (Errorf "a %s is already called %s: retire it first")) as E by (vm_compute; reflexivity).
    rewrite Hok in E. discriminate E.
  - exists h'. split; [exact He|]. split; [|exact Hd]. intros ρ. eexists. split; [apply Hres|reflexivity].
Defined.

Lemma file_is_old_or_current_witness :
  disk (h_store ex_h2) = Some (mem (h_store ex_h2)).
Proof.
  assert (OpEnroll "lab" ex_request (ex_applicant ex_request) ≠ OpRestart) as Hne by discriminate.
  destruct (file_is_old_or_current (ex_env 2) _ ex_h1 Hne) as [_ H].
  assert ((run_op (ex_env 2) (OpEnroll "lab" ex_request (ex_applicant ex_request)) ex_h1).1 = Ok ()) as E
    by (vm_compute; reflexivity).
  specialize (H E). unfold ex_h2, ex_run. exact H.
Defined.

Lemma Resolve_spec_witness :
  match Resolve range_default (h_store ex_h4) " LAB " with
  | Ok i => i_Name i = "lab"
  | _ => False
  end.
Proof.
  pose proof (Resolve_spec ex_cfg ex_h4 range_default " LAB " ex_config_ok ex_reachable4) as H.
  assert (is_ok (Resolve range_default (h_store ex_h4) " LAB ") = true) as Hok by (vm_compute; reflexivity).
  destruct (Resolve _ _ _) as [i|e|]; [|discriminate Hok|discriminate Hok].
  destruct H as [H|(_ & _ & H)].
  - exfalso. assert (inst_at ex_h4 " LAB " = None) as E by (vm_compute; reflexivity).
    rewrite E in H. discriminate H.
  - exact H.
Defined.

Lemma ex_enrolled : ∃ record h',
  Enroll (ex_env 2) "lab" ex_request (ex_applicant ex_request) ex_h1 = (Ok record, h').
Proof. eexists _, _. vm_compute. reflexivity. Qed.
Lemma Enroll_authenticated_witness :
  ∃ record h' i i', Enroll (ex_env 2) "lab" ex_request (ex_applicant ex_request) ex_h1 = (Ok record, h') ∧
    inst_at ex_h1 (i_ID i) = Some i ∧ inst_at h' (i_ID i) = Some i' ∧
    (∃ rid, mget (i_Requests i') !! rid = Some record).
Proof.
  destruct ex_enrolled as (record & h' & He).
  destruct (Enroll_authenticated ex_cfg _ _ _ _ _ _ _ ex_config_ok ex_reachable1 He eq_refl)
    as (i & i' & H1 & H2 & _ & _ & H3 & _).
  exists record, h', i, i'. split; [exact He|]. split; [exact H1|]. split; [exact H2|exact H3].
Defined.

(** A connector that writes its name in capitals and signs what it sends is
    refused for it. *)
Definition ex_upper : Request := set_Name "DB" ex_request.
Example ex_upper_refused :
  (Enroll (ex_env 2) "lab" ex_upper (ex_applicant ex_upper) ex_h1).1 =
    Err (Errorf "bad or missing request authentication").
Proof. vm_compute. reflexivity. Qed.

Lemma Enroll_again_witness :
  ∃ record h', Enroll (ex_env 9) "lab" ex_request (ex_applicant ex_request) ex_h2 = (Ok record, h') ∧
    hr_ID record = hr_ID ex_record ∧ hr_Status record = StatusPending.
Proof.
  assert (∃ record h', Enroll (ex_env 9) "lab" ex_request (ex_applicant ex_request) ex_h2 = (Ok record, h') ∧
    hr_Fingerprint ex_record = hr_Fingerprint record) as (record & h' & He & Hf).
  { eexists _, _. split; [vm_compute; reflexivity|vm_compute; reflexivity]. }
  assert (Resolve (ρ_of (ex_env 9)) (h_store ex_h2) "lab" = Ok (ex_inst ex_h2 "id1")) as Hres
    by (vm_compute; reflexivity).
  destruct (Enroll_again ex_cfg _ _ "id2" _ _ _ _ _ _ _ ex_config_ok ex_reachable2 Hres ex_record_at Hf He)
    as (H1 & _ & _ & _ & H2 & _).
  exists record, h'. split; [exact He|]. split; [exact H1|]. rewrite H2. reflexivity.
Defined.

Definition ex_machine : Applicant := mkApplicant KindTenant "ed25519:eve" "eve" "" "198.51.100.1".
Definition ex_forged : Request := mkRequest "key A" "other" [] "forged.example" None.
Lemma tenant_rewrites_connector_request_witness :
  ∃ record h', Enroll (ex_env 3) "lab" ex_forged ex_machine ex_h2 = (Ok record, h') ∧
    hr_Kind record = KindConnector ∧ hr_Request record = ex_forged.
Proof.
  assert (Resolve (ρ_of (ex_env 3)) (h_store ex_h2) "lab" = Ok (ex_inst ex_h2 "id1")) as Hres
    by (vm_compute; reflexivity).
  assert (hr_Kind ex_record = KindConnector) as Hk by (vm_compute; reflexivity).
  assert (hr_Fingerprint ex_record = fingerprintOf (rq_PublicKey ex_forged)) as Hf by (vm_compute; reflexivity).
  assert (i_Owner (ex_inst ex_h2 "id1") = ex_owner) as Ho by (vm_compute; reflexivity).
  assert (a_Identity ex_machine ≠ i_Owner (ex_inst ex_h2 "id1")) as Hown by (rewrite Ho; discriminate).
  assert (Validate ex_forged = Ok ex_forged) as Hv by (vm_compute; reflexivity).
  destruct (tenant_rewrites_connector_request ex_cfg (ex_env 3) "lab" "id2" ex_forged ex_machine ex_h2 _
    ex_record ex_config_ok ex_reachable2 Hres ex_record_at Hk Hf eq_refl Hown Hv eq_refl eq_refl)
    as (record & h' & i' & H1 & _ & _ & H2 & H3).
  exists record, h'. split; [exact H1|]. split; [exact H2|exact H3].
Defined.

(** A hash without any resistance, under which a rewritten request does pass. *)
Lemma blind_bytes : Forall is_byte (replicate 32 0) ∧ length (replicate 32 0) = 32%nat.
Proof. split; [repeat constructor; done|done]. Qed.
Definition blind_crypto : Crypto :=
  {| sha256 := λ _, replicate 32 0; hmac_sha256 := λ _ _, replicate 32 0;
     sha256_bytes := λ _, blind_bytes; hmac_bytes := λ _ _, blind_bytes |}.
Definition bl_h1 : Hub :=
  (run_op (HC := blind_crypto) (ex_env 1) (OpCreate "mara" ex_owner "lab" "secret") ex_h0).2.
Lemma bl_reachable1 : reachable (HC := blind_crypto) ex_cfg bl_h1.
Proof.
  eapply reachable_step; [apply (reachable_new _ (ex_env 0) ex_h0); reflexivity|]. by apply step_op.
Qed.
Definition bl_applicant : Applicant :=
  mkApplicant KindConnector "" "" (MAC (HC := blind_crypto) range_default ex_upper "secret") "192.0.2.1".
Lemma rewritten_request_needs_collision_witness :
  ∃ c c', c ≠ c' ∧ hmac_sha256 (Crypto := blind_crypto) "secret" c = hmac_sha256 (Crypto := blind_crypto) "secret" c'.
Proof.
  assert (∃ record h', Enroll (HC := blind_crypto) (ex_env 2) "lab" ex_upper bl_applicant bl_h1 = (Ok record, h'))
    as (record & h' & He) by (eexists _, _; vm_compute; reflexivity).
  assert (Resolve (ρ_of (ex_env 2)) (h_store bl_h1) "lab" = Ok (ex_inst bl_h1 "id1")) as Hres
    by (vm_compute; reflexivity).
  assert (i_SharedToken (ex_inst bl_h1 "id1") = "secret") as Ht by (vm_compute; reflexivity).
  assert (i_SharedToken (ex_inst bl_h1 "id1") ≠ "") as Hne by (rewrite Ht; discriminate).
  assert (a_MAC bl_applicant = MAC (HC := blind_crypto) (ρ_of (ex_env 2)) ex_upper (i_SharedToken (ex_inst bl_h1 "id1")))
    as Hmac by (rewrite Ht; reflexivity).
  assert (Validate ex_upper = Ok ex_upper) as Hv by (vm_compute; reflexivity).
  assert (bool_decide (Canonical (ρ_of (ex_env 2)) (applicant_name ex_upper bl_applicant) =
    Canonical (ρ_of (ex_env 2)) ex_upper) = false) as Hd by (vm_compute; reflexivity).
  apply bool_decide_eq_false in Hd.
  pose proof (rewritten_request_needs_collision (HC := blind_crypto) ex_cfg (ex_env 2) "lab" ex_upper ex_upper bl_applicant
    bl_h1 h' record _ ex_config_ok bl_reachable1 eq_refl Hres Hne Hmac Hv Hd He) as H.
  rewrite Ht in H. exact H.
Defined.
