(* ===== verification/HubConfig.v ===== *)
(** * The hub's configuration: [internal/hub/config.go]

    From the files of an operator to the configuration the hub runs on: how
    fragments merge, what is filled in, what is refused.  Reading files and
    decoding YAML is left to parameters. *)

From Stdlib Require Import Ascii.
From S2P Require Export HubInv.
From S2P Require Import WrakSpec.

Open Scope Z_scope.

(** ** Definitions *)

(** One entry of the [binder] list. *)
Record BinderEntry : Type := mkBinderEntry { be_Name : string; be_Key : list string }.
Record File : Type := mkFile {
  f_PublicEndpoint : string;
  f_PublicBind : string;
  f_APIListen : string;
  f_APIEntrypoint : string;
  f_TLSCert : string;
  f_TLSKey : string;
  f_StatePath : string;
  f_Overlays : list string;
  f_Ports : string;
  f_MTU : Z;
  f_Relay : option bool;
  f_DNS : option bool;
  f_Token : string;
  f_Binder : list BinderEntry;
  f_Warnings : list string;
}.

(** [if other != "" { f = other }] and its likes. *)
Definition or_str (other f : string) : string := if decide (other = "") then f else other.
Definition or_Z (other f : Z) : Z := if other =? 0 then f else other.
Definition or_list {A} (other f : list A) : list A := match other with [] => f | _ => other end.
Definition or_opt {A} (other f : option A) : option A := match other with Some _ => other | None => f end.

Definition merge (f other : File) : File :=
  {| f_PublicEndpoint := or_str (f_PublicEndpoint other) (f_PublicEndpoint f);
     f_PublicBind := or_str (f_PublicBind other) (f_PublicBind f);
     f_APIListen := or_str (f_APIListen other) (f_APIListen f);
     f_APIEntrypoint := or_str (f_APIEntrypoint other) (f_APIEntrypoint f);
     f_TLSCert := or_str (f_TLSCert other) (f_TLSCert f);
     f_TLSKey := or_str (f_TLSKey other) (f_TLSKey f);
     f_StatePath := or_str (f_StatePath other) (f_StatePath f);
     f_Overlays := or_list (f_Overlays other) (f_Overlays f);
     f_Ports := or_str (f_Ports other) (f_Ports f);
     f_MTU := or_Z (f_MTU other) (f_MTU f);
     f_Relay := or_opt (f_Relay other) (f_Relay f);
     f_DNS := or_opt (f_DNS other) (f_DNS f);
     f_Token := or_str (f_Token other) (f_Token f);
     f_Binder := f_Binder f ++ f_Binder other;
     f_Warnings := f_Warnings f ++ f_Warnings other |}.

Definition EntrypointHTTP : string := "http".
Definition EntrypointHTTPS : string := "https".

(** [if f.X == "" { f.X = d }]. *)
Definition dflt (f d : string) : string := if decide (f = "") then d else f.
Definition applyDefaults (f : File) : File :=
  {| f_PublicEndpoint := f_PublicEndpoint f;
     f_PublicBind := dflt (f_PublicBind f) "0.0.0.0";
     f_APIListen := dflt (f_APIListen f) ":8443";
     f_APIEntrypoint := dflt (f_APIEntrypoint f) EntrypointHTTPS;
     f_TLSCert := f_TLSCert f;
     f_TLSKey := f_TLSKey f;
     f_StatePath := dflt (f_StatePath f) "/var/lib/robinet/hub.json";
     f_Overlays := match f_Overlays f with [] => ["198.19.0.0/16/24"] | l => l end;
     f_Ports := dflt (f_Ports f) "20000-24999";
     f_MTU := if f_MTU f =? 0 then 1500 else f_MTU f;
     f_Relay := match f_Relay f with None => Some true | r => r end;
     f_DNS := match f_DNS f with None => Some true | r => r end;
     f_Token := f_Token f;
     f_Binder := f_Binder f;
     f_Warnings := f_Warnings f |}.

(** [net.SplitHostPort]. *)
Definition no_char (c : ascii) (s : string) : bool := bool_decide (c ∉ s2l s).
Definition SplitHostPort (s : string) : option (string * string) :=
  match cut_last s ":"%char with
  | None => None
  | Some (host, port) =>
      if HasPrefix s "[" then
        match Cut s "]" with
        | None => None
        | Some (before, after) =>
            match s2l after with
            | ":"%char :: p =>
                if bool_decide (":"%char ∉ p) && no_char "["%char (l2s (drop 1 (s2l s))) && no_char "]"%char after
                then Some (l2s (drop 1 (s2l before)), l2s p) else None
            | _ => None
            end
        end
      else if no_char ":"%char host && no_char "["%char s && no_char "]"%char s then Some (host, port) else None
  end.

Definition bareHost (s : string) : string :=
  let s := match Cut s "://" with Some (_, rest) => rest | None => s end in
  let s := match Cut s "/" with Some (before, _) => before | None => s end in
  if HasPrefix s "[" then
    match SplitHostPort s with
    | Some (host, _) => host
    | None => Trim s "[]"
    end
  else
    match ParseAddr s with
    | Some _ => s
    | None => match SplitHostPort s with Some (host, _) => host | None => s end
    end.

Definition validateEndpoint (endpoint : string) : res () :=
  let endpoint := TrimSpace endpoint in
  if decide (endpoint = "") then Err (Errorf "public.endpoint is required, connectors need a host to dial") else
  let bare := bareHost endpoint in
  if decide (bare = endpoint) then Ok ()
  else if Contains endpoint "://"
  then Err (Errorf "public.endpoint is a bare host, not a url, and each instance brings its own port: write %s")
  else if Contains endpoint "/"
  then Err (Errorf "public.endpoint is a bare host: drop the path, write %s")
  else Err (Errorf "public.endpoint carries no port, each instance has its own: write %s").

Definition validate (f : File) : res () :=
  let? _ := validateEndpoint (f_PublicEndpoint f) in
  if decide (TrimSpace (f_Token f) = "")
  then Err (Errorf "security.token is required, it is what a bootstrap signature proves knowledge of")
  else if (length (f_Binder f) =? 0)%nat then Err ErrNoBinders
  else Ok ().

Definition parsePortRange (s : string) : res (Z * Z) :=
  match Cut s "-" with
  | None => Err (Errorf "port range %q is not low-high")
  | Some (lo, hi) =>
      match ParseUint (TrimSpace lo) 16 with
      | None => Err (Wrap "bad low port: %w" (Errorf "strconv.ParseUint"))
      | Some min =>
          match ParseUint (TrimSpace hi) 16 with
          | None => Err (Wrap "bad high port: %w" (Errorf "strconv.ParseUint"))
          | Some max => if max <? min then Err (Errorf "port range %q is inverted") else Ok (min, max)
          end
      end
  end.

(** The two loops of [refuseOverlap]. *)
Fixpoint refuseOverlap (pools : list Pool) : res () :=
  match pools with
  | [] => Ok ()
  | a :: rest =>
      if existsb (λ b, Overlaps (Pool_Prefix a) (Pool_Prefix b)) rest
      then Err (Errorf "overlays %s and %s overlap") else refuseOverlap rest
  end.

(** The loop over the overlays: the pools of each family, in order. *)
Fixpoint parse_overlays (l : list string) : res (list Pool * list Pool) :=
  match l with
  | [] => Ok ([], [])
  | raw :: l =>
      let? ps := ParsePool raw in
      let? rest := parse_overlays l in
      let pool := mkPool ps.1 ps.2 in
      Ok (if Is4 (p_addr ps.1) then (pool :: rest.1, rest.2) else (rest.1, pool :: rest.2))
  end.

Section Config.
Context `{HS : SshLib}.

(** The loop over the binder entries. *)
Fixpoint declare_binders (l : list BinderEntry) (binders : Binders) : res Binders :=
  match l with
  | [] => Ok binders
  | b :: l =>
      let name := TrimSpace (be_Name b) in
      if decide (name = "") then Err (Errorf "a binder has no name") else
      match binders !! name with
      | Some _ => Err (Errorf "binder %s is declared twice")
      | None =>
          match ParseAuthorizedKeys (be_Key b) with
          | Err e => Err (Wrap "binder %s: %w" e)
          | Panic => Panic
          | Ok [] => Err (Errorf "binder %s has no keys, so nothing could authenticate as it")
          | Ok keys => declare_binders l (<[name := keys]> binders)
          end
      end
  end.

(** The check that no key speaks for two binders, over the keys as they are
    met: the fingerprints seen so far. *)
Fixpoint unique_keys (keys : list PublicKey) (seen : gset string) : res () :=
  match keys with
  | [] => Ok ()
  | key :: keys =>
      let fingerprint := FingerprintSHA256 key in
      if decide (fingerprint ∈ seen) then Err (Errorf "binders %s and %s share a key (%s)")
      else unique_keys keys ({[fingerprint]} ∪ seen)
  end.

(** [Binders.AllKeys] and [Binders.Match]. *)
Definition AllKeys (ρ : Range) (bs : Binders) : list PublicKey := range ρ bs ≫= snd.
Definition Match (ρ : Range) (bs : Binders) (key : PublicKey) : option string :=
  fst <$> find_first (λ nb, existsb (SameKey key) nb.2) (range ρ bs).

(** [File.Config]. *)
Definition ConfigOf (ρ : Range) (f : File) : res Config :=
  let? pools := parse_overlays (f_Overlays f) in
  let? _ := refuseOverlap (pools.1 ++ pools.2) in
  if (length pools.1 =? 0)%nat then Err (Errorf "overlays has no IPv4 pool, and every member gets an IPv4 address")
  else if negb (bool_decide (f_APIEntrypoint f = EntrypointHTTP)) && negb (bool_decide (f_APIEntrypoint f = EntrypointHTTPS))
  then Err (Errorf "api.entrypoint is %q, wanted http or https") else
  let? ports := parsePortRange (f_Ports f) in
  let? binders := declare_binders (f_Binder f) ∅ in
  let? _ := unique_keys (AllKeys ρ binders) ∅ in
  match f_Relay f, f_DNS f with
  | Some relay, Some dns =>
      Ok {| c_APIAddr := f_APIListen f; c_NebulaBind := f_PublicBind f;
            c_PublicEndpoint := f_PublicEndpoint f; c_PortMin := ports.1; c_PortMax := ports.2;
            c_Overlays := pools.1; c_Overlays6 := pools.2; c_Token := f_Token f;
            c_Binders := binders; c_StatePath := f_StatePath f; c_MTU := f_MTU f;
            c_Relay := relay; c_DNS := dns; c_NoLighthouseTun := false |}
  | _, _ => Panic
  end.
End Config.

(** ** Reading files *)

Definition ErrNotExist : error := Errorf "file does not exist".
(** The file system and the YAML decoder: the files of a directory with
    whether each is one itself, and what a file, or a file of a directory,
    decodes to. *)
Class Files := {
  readConfig : string → res File;
  ReadDir : string → res (list (string * bool));
  readConfigIn : string → string → res File;
}.

(** [filepath.Ext] of a file name. *)
Definition Ext (name : string) : string :=
  match cut_last name "."%char with Some (_, ext) => "." +:+ ext | None => "" end.

Section Load.
Context `{HF : Files}.

(** The names, in the order of the paths they are joined to. *)
Definition configFilesIn (dir : string) : res (list string) :=
  match ReadDir dir with
  | Ok entries =>
      Ok (sort_strings (filter (λ n, ToLower (Ext n) = ".yaml" ∨ ToLower (Ext n) = ".yml")
                          (filter (λ e : string * bool, e.2 = false) entries).*1))
  | Err e => Err (Wrap "could not read %s: %w" e)
  | Panic => Panic
  end.

Fixpoint merge_files (dir : string) (names : list string) (f : File) : res File :=
  match names with
  | [] => Ok f
  | n :: names => let? part := readConfigIn dir n in merge_files dir names (merge f part)
  end.
Definition warn (w : string) (f : File) : File :=
  mkFile (f_PublicEndpoint f) (f_PublicBind f) (f_APIListen f) (f_APIEntrypoint f) (f_TLSCert f) (f_TLSKey f)
    (f_StatePath f) (f_Overlays f) (f_Ports f) (f_MTU f) (f_Relay f) (f_DNS f) (f_Token f) (f_Binder f)
    (f_Warnings f ++ [w]).
Fixpoint merge_dirs (dirs : list string) (f : File) : res File :=
  match dirs with
  | [] => Ok f
  | dir :: dirs =>
      match configFilesIn dir with
      | Err e =>
          if errors_Is e ErrNotExist
          then merge_dirs dirs (warn (dir +:+ " does not exist, no binder fragments read from it") f)
          else Err e
      | Panic => Panic
      | Ok names => let? f := merge_files dir names f in merge_dirs dirs f
      end
  end.
(** [LoadFile]: the file is an answer next to the verdict on it. *)
Definition LoadFile (path : string) (dirs : list string) : res (File * res ()) :=
  let? f := readConfig path in
  let? f := merge_dirs dirs f in
  let f := applyDefaults f in
  Ok (f, validate f).
End Load.

Example split_v4 : SplitHostPort "192.0.2.1:80" = Some ("192.0.2.1", "80").
Proof. reflexivity. Qed.
Example split_v6 : SplitHostPort "[::1]:80" = Some ("::1", "80") ∧ SplitHostPort "::1" = None.
Proof. by vm_compute. Qed.
Example bare_url : bareHost "https://hub.example:8443/x" = "hub.example" ∧ bareHost "[::1]:80" = "::1".
Proof. by vm_compute. Qed.

(** ** Lemmas: pools and ports *)

Lemma ParsePool_not_panic s : ParsePool s ≠ Panic.
Proof. unfold ParsePool. repeat case_match; done. Qed.

Lemma parse_overlays_Ok l pools :
  parse_overlays l = Ok pools →
  Forall pool_ok pools.1 ∧ Forall pool_ok pools.2 ∧
  Forall (λ p, Is4 (p_addr (Pool_Prefix p)) = true) pools.1 ∧
  Forall (λ p, Is4 (p_addr (Pool_Prefix p)) = false) pools.2.
Proof.
  revert pools. induction l as [|raw l IH]; intros pools; simpl; [intros [= <-]; simpl; auto|].
  intros ([prefix size] & Hp & (rest & Hr & [= <-])%bindR_Ok)%bindR_Ok. simpl.
  destruct (IH _ Hr) as (?&?&?&?). apply ParsePool_pool_ok in Hp.
  destruct (Is4 (p_addr prefix)) eqn:E; simpl; split_and!; auto.
Qed.
Lemma parse_overlays_not_panic l : parse_overlays l ≠ Panic.
Proof.
  induction l as [|raw l IH]; simpl; [done|]. pose proof (ParsePool_not_panic raw).
  destruct (ParsePool raw); [|done..]. simpl. by destruct (parse_overlays l).
Qed.

(** No pool of the list overlaps a later one. *)
Definition disjoint_pools (pools : list Pool) : Prop :=
  ∀ i j p q, (i < j)%nat → pools !! i = Some p → pools !! j = Some q → Overlaps (Pool_Prefix p) (Pool_Prefix q) = false.

Lemma refuseOverlap_Ok pools : refuseOverlap pools = Ok () → disjoint_pools pools.
Proof.
  induction pools as [|a rest IH]; simpl; [intros _ i j p q _ Hi; by rewrite lookup_nil in Hi|].
  destruct (existsb _ rest) eqn:He; [done|]. intros Hr%IH i [|j] p q Hij Hi Hj; [lia|]. simpl in Hj.
  destruct i as [|i]; simpl in Hi; [|apply (Hr i j); [lia|done..]].
  injection Hi as ->. apply not_true_iff_false. intros Ho.
  assert (existsb (λ b, Overlaps (Pool_Prefix p) (Pool_Prefix b)) rest = true) as He'; [|congruence].
  apply existsb_exists. exists q. split; [|done]. by apply list_elem_of_In, (list_elem_of_lookup_2 _ j).
Qed.
Lemma refuseOverlap_not_panic pools : refuseOverlap pools ≠ Panic.
Proof. induction pools as [|a rest IH]; simpl; [done|]. by case_match. Qed.

Lemma parsePortRange_Ok s ports :
  parsePortRange s = Ok ports → 0 ≤ ports.1 ∧ ports.1 ≤ ports.2 ∧ ports.2 < 65536.
Proof.
  unfold parsePortRange. destruct (Cut s "-") as [[a b]|]; [|done].
  destruct (ParseUint (TrimSpace a) 16) as [min|] eqn:Hl; [|done].
  destruct (ParseUint (TrimSpace b) 16) as [max|] eqn:Hh; [|done].
  apply ParseUint_range in Hl, Hh. destruct (Z.ltb_spec max min); [done|]. intros [= <-]. simpl. lia.
Qed.
Lemma parsePortRange_not_panic s : parsePortRange s ≠ Panic.
Proof. unfold parsePortRange. repeat case_match; done. Qed.

(** ** Lemmas: binders *)

Section Binders.
Context `{HS : SshLib}.

Lemma ParseAuthorizedKeys_not_panic l : ParseAuthorizedKeys l ≠ Panic.
Proof.
  induction l as [|e l IH]; simpl; [done|]. case_match; [done|]. case_match; [|done].
  by destruct (ParseAuthorizedKeys l).
Qed.

(** Every binder has a trimmed name and at least one key. *)
Definition binder_ok (name : string) (keys : Binder) : Prop := name ≠ "" ∧ keys ≠ [].
Lemma declare_binders_Ok l bs bs' :
  declare_binders l bs = Ok bs' → map_Forall binder_ok bs → map_Forall binder_ok bs'.
Proof.
  revert bs. induction l as [|b l IH]; intros bs; simpl; [by intros [= ->]|].
  case_decide; [done|]. case_match; [done|]. destruct (ParseAuthorizedKeys _) as [[|k ks]| |]; [done| |done..].
  intros Hd Hb. apply (IH _ Hd). by apply map_Forall_insert_2.
Qed.
Lemma declare_binders_not_panic l bs : declare_binders l bs ≠ Panic.
Proof.
  revert bs. induction l as [|b l IH]; intros bs; simpl; [done|]. case_decide; [done|]. case_match; [done|].
  pose proof (ParseAuthorizedKeys_not_panic (be_Key b)). by destruct (ParseAuthorizedKeys _) as [[|k ks]| |].
Qed.
Lemma declare_binders_nonempty l bs bs' :
  declare_binders l bs = Ok bs' → (length l =? 0)%nat = false → bs' ≠ ∅.
Proof.
  assert (∀ l bs bs', declare_binders l bs = Ok bs' → bs ⊆ bs') as Hsub.
  { clear. induction l as [|b l IH]; intros bs bs'; simpl; [by intros [= ->]|].
    case_decide; [done|]. case_match eqn:Hn; [done|]. destruct (ParseAuthorizedKeys _) as [[|k ks]| |]; [done| |done..].
    intros Hd%IH. etrans; [|exact Hd]. by apply insert_subseteq. }
  destruct l as [|b l]; [done|]. simpl. case_decide; [done|]. case_match; [done|].
  destruct (ParseAuthorizedKeys _) as [[|k ks]| |]; [done| |done..].
  intros Hd%Hsub _ ->. eapply lookup_weaken in Hd; [|apply lookup_insert_eq]. done.
Qed.

Lemma unique_keys_Ok keys seen :
  unique_keys keys seen = Ok () →
  NoDup keys ∧ ∀ k, k ∈ keys → FingerprintSHA256 k ∉ seen.
Proof.
  revert seen. induction keys as [|k keys IH]; intros seen; simpl.
  - intros _. split; [constructor|]. by intros k []%elem_of_nil.
  - case_decide as Hin; [done|]. intros [Hn Hf]%IH. split.
    + constructor; [|done]. intros Hk%Hf. set_solver.
    + intros x [->|Hx]%elem_of_cons; [done|]. specialize (Hf x Hx). set_solver.
Qed.
Lemma unique_keys_not_panic keys seen : unique_keys keys seen ≠ Panic.
Proof. revert seen. induction keys as [|k keys IH]; intros seen; simpl; [done|]. by case_decide. Qed.

(** When no key occurs twice, a key is found under the one binder that has it,
    in whatever order the binders are walked. *)
Lemma keys_unique_binder ρ (bs : Binders) name name' keys keys' k :
  NoDup (AllKeys ρ bs) → bs !! name = Some keys → bs !! name' = Some keys' → k ∈ keys → k ∈ keys' → name = name'.
Proof.
  unfold AllKeys. intros Hd Hn%(elem_of_range ρ bs) Hn'%(elem_of_range ρ bs) Hk Hk'.
  induction (range ρ bs) as [|[n ks] l IH]; [by apply elem_of_nil in Hn|].
  rewrite bind_cons in Hd. apply NoDup_app in Hd as (_ & Hsep & Hd). simpl in Hsep.
  apply elem_of_cons in Hn as [[= -> ->]|Hn], Hn' as [[= -> ->]|Hn']; [done|exfalso..|by apply IH].
  - apply (Hsep k Hk), list_elem_of_bind. by exists (name', keys').
  - apply (Hsep k Hk'), list_elem_of_bind. by exists (name, keys).
Qed.
Lemma Match_spec ρ (bs : Binders) key :
  match Match ρ bs key with
  | Some name => ∃ keys, bs !! name = Some keys ∧ key ∈ keys
  | None => ∀ name keys, bs !! name = Some keys → key ∉ keys
  end.
Proof.
  unfold Match.
  destruct (find_first (λ nb, existsb (SameKey key) nb.2) (range ρ bs)) as [[name keys]|] eqn:E; simpl.
  - apply find_first_Some in E as [Hin He]. apply elem_of_range in Hin. exists keys. split; [done|].
    apply existsb_exists in He as (k & Hk%list_elem_of_In & ->%SameKey_spec). done.
  - intros name keys Hn%(elem_of_range ρ bs) Hk. rewrite find_first_None in E.
    specialize (E _ Hn). simpl in E. assert (existsb (SameKey key) keys = true); [|congruence].
    apply existsb_exists. exists key. split; [by apply list_elem_of_In|by apply SameKey_spec].
Qed.
End Binders.

(** ** Lemmas: the files *)

(** What [ConfigOf] checked, all at once. *)
Lemma ConfigOf_inv `{HS : SshLib} ρ f c :
  ConfigOf ρ f = Ok c →
  ∃ pools ports, parse_overlays (f_Overlays f) = Ok pools ∧ refuseOverlap (pools.1 ++ pools.2) = Ok () ∧
    pools.1 ≠ [] ∧ parsePortRange (f_Ports f) = Ok ports ∧
    declare_binders (f_Binder f) ∅ = Ok (c_Binders c) ∧ unique_keys (AllKeys ρ (c_Binders c)) ∅ = Ok () ∧
    c_Overlays c = pools.1 ∧ c_Overlays6 c = pools.2 ∧ c_PortMin c = ports.1 ∧ c_PortMax c = ports.2 ∧
    c_PublicEndpoint c = f_PublicEndpoint f ∧ c_Token c = f_Token f.
Proof.
  unfold ConfigOf. intros (pools & Hp & H)%bindR_Ok. apply bindR_Ok in H as ([] & Ho & H).
  destruct (Nat.eqb_spec (length pools.1) 0) as [|Hne]; [done|].
  destruct (negb _ && negb _); [done|].
  apply bindR_Ok in H as (ports & Hr & H). apply bindR_Ok in H as (bs & Hb & H).
  apply bindR_Ok in H as ([] & Hu & H).
  destruct (f_Relay f), (f_DNS f); [|done..]. injection H as <-. exists pools, ports. simpl.
  split_and!; try done. by destruct pools.1.
Qed.

Lemma ConfigOf_not_panic `{HS : SshLib} ρ f : ConfigOf ρ (applyDefaults f) ≠ Panic.
Proof.
  unfold ConfigOf. pose proof (parse_overlays_not_panic (f_Overlays (applyDefaults f))).
  destruct (parse_overlays _) as [pools| |]; [|done..]. cbn [bindR].
  pose proof (refuseOverlap_not_panic (pools.1 ++ pools.2)).
  destruct (refuseOverlap _) as [[]| |]; [|done..]. cbn [bindR]. case_match; [done|]. case_match; [done|].
  pose proof (parsePortRange_not_panic (f_Ports (applyDefaults f))).
  destruct (parsePortRange _) as [ports| |]; [|done..]. cbn [bindR].
  pose proof (declare_binders_not_panic (f_Binder (applyDefaults f)) ∅).
  destruct (declare_binders _ _) as [bs| |]; [|done..]. cbn [bindR].
  pose proof (unique_keys_not_panic (AllKeys ρ bs) ∅).
  destruct (unique_keys _ _) as [[]| |]; [|done..]. cbn [bindR]. simpl. by destruct (f_Relay f), (f_DNS f).
Qed.

(** [merge] is the sum of two files: the later one wins, field by field. *)
Lemma or_str_assoc c b a : or_str c (or_str b a) = or_str (or_str c b) a.
Proof. unfold or_str. repeat case_decide; done. Qed.
Lemma or_Z_assoc c b a : or_Z c (or_Z b a) = or_Z (or_Z c b) a.
Proof. unfold or_Z. destruct (Z.eqb_spec c 0), (Z.eqb_spec b 0); simplify_eq; try done.
  - by destruct (Z.eqb_spec c 0).
  - by destruct (Z.eqb_spec c 0).
Qed.
Lemma or_list_assoc {A} (c b a : list A) : or_list c (or_list b a) = or_list (or_list c b) a.
Proof. by destruct c, b. Qed.
Lemma or_opt_assoc {A} (c b a : option A) : or_opt c (or_opt b a) = or_opt (or_opt c b) a.
Proof. by destruct c, b. Qed.
Lemma merge_assoc a b c : merge (merge a b) c = merge a (merge b c).
Proof.
  unfold merge. simpl. by rewrite !or_str_assoc, !or_Z_assoc, !or_list_assoc, !or_opt_assoc, !app_assoc.
Qed.

Lemma dflt_idem s d : d ≠ "" → dflt (dflt s d) d = dflt s d.
Proof. unfold dflt. intros Hd. repeat case_decide; done. Qed.
Lemma applyDefaults_idem f : applyDefaults (applyDefaults f) = applyDefaults f.
Proof.
  unfold applyDefaults. simpl. rewrite !dflt_idem by done.
  destruct (f_Overlays f), (f_Relay f), (f_DNS f), (Z.eqb_spec (f_MTU f) 0); simpl; f_equal;
    by destruct (Z.eqb_spec (f_MTU f) 0).
Qed.

(** The fragments a load reads, in the order it merges them. *)
Section Fragments.
Context `{HF : Files}.

Fixpoint fragments_in (dir : string) (names : list string) : res (list File) :=
  match names with
  | [] => Ok []
  | n :: names => let? part := readConfigIn dir n in let? rest := fragments_in dir names in Ok (part :: rest)
  end.
(** A file that sets nothing but a warning. *)
Definition warning (w : string) : File :=
  mkFile "" "" "" "" "" "" "" [] "" 0 None None "" [] [w].
Fixpoint fragments (dirs : list string) : res (list File) :=
  match dirs with
  | [] => Ok []
  | dir :: dirs =>
      match configFilesIn dir with
      | Ok names => let? a := fragments_in dir names in let? b := fragments dirs in Ok (a ++ b)
      | Err e =>
          if errors_Is e ErrNotExist
          then let? b := fragments dirs in
               Ok (warning (dir +:+ " does not exist, no binder fragments read from it") :: b)
          else Err e
      | Panic => Panic
      end
  end.

Lemma merge_files_foldl dir names f :
  merge_files dir names f = let? parts := fragments_in dir names in Ok (foldl merge f parts).
Proof.
  revert f. induction names as [|n names IH]; intros f; [done|]. simpl.
  destruct (readConfigIn dir n) as [part| |]; [|done..]. simpl. rewrite IH.
  by destruct (fragments_in dir names).
Qed.
Lemma warn_merge w f : warn w f = merge f (warning w).
Proof. unfold warn, merge. simpl. by rewrite app_nil_r. Qed.
Lemma merge_dirs_foldl dirs f :
  merge_dirs dirs f = let? parts := fragments dirs in Ok (foldl merge f parts).
Proof.
  revert f. induction dirs as [|dir dirs IH]; intros f; [done|]. cbn [merge_dirs fragments].
  destruct (configFilesIn dir) as [names|e|]; [| |done].
  - rewrite merge_files_foldl. destruct (fragments_in dir names) as [a| |]; [|done..]. cbn [bindR].
    rewrite IH. destruct (fragments dirs); [|done..]. cbn [bindR]. by rewrite foldl_app.
  - destruct (errors_Is e ErrNotExist); [|done]. rewrite IH, warn_merge. by destruct (fragments dirs).
Qed.

Lemma foldl_merge_binders f parts :
  f_Binder (foldl merge f parts) = f_Binder f ++ concat (f_Binder <$> parts).
Proof.
  revert f. induction parts as [|p parts IH]; intros f; simpl; [by rewrite app_nil_r|].
  rewrite IH. simpl. by rewrite app_assoc.
Qed.
(** The value of a setting that more than one file gives: the last one's. *)
Lemma foldl_merge_last {A} (get : File → A) (or : A → A → A) (unset : A) f parts :
  (∀ a b, get (merge a b) = or (get b) (get a)) → (∀ v, or unset v = v) →
  (∀ v w, v ≠ unset → or v w = v) → (∀ v, {v = unset} + {v ≠ unset}) →
  (Forall (λ p, get p = unset) parts ∧ get (foldl merge f parts) = get f) ∨
  (∃ before p after, parts = before ++ p :: after ∧ get p ≠ unset ∧ Forall (λ p, get p = unset) after ∧
     get (foldl merge f parts) = get p).
Proof.
  intros Hm H0 H1 Hdec. induction parts as [|p parts IH] using rev_ind; [by left|].
  rewrite foldl_app. simpl. rewrite Hm. destruct (Hdec (get p)) as [Hp|Hp].
  - rewrite Hp, H0. destruct IH as [[Hf He]|(before & q & after & -> & Hq & Hf & He)].
    + left. split; [|done]. apply Forall_app_2; [done|by constructor].
    + right. exists before, q, (after ++ [p]). rewrite <-app_assoc. split_and!; try done.
      apply Forall_app_2; [done|by constructor].
  - right. exists parts, p, []. rewrite H1 by done. by split_and!.
Qed.
End Fragments.

(** ** Properties *)

(** How a configuration is put together.  What is loaded is the main file
    with every fragment merged on top, in the order of the directories and of
    the names within each, and defaults filled in last: the binders of all of
    them add up, the token (like every other setting) is that of the last file
    that gives one, grouping the files differently would change nothing, and
    the result cannot make [Config] panic on an unset switch. *)
Theorem fragments_merge `{HS : SshLib} `{HF : Files} (path : string) (dirs : list string) (f : File) (v : res ()) :
  LoadFile path dirs = Ok (f, v) →
  ∃ base parts, readConfig path = Ok base ∧ fragments dirs = Ok parts ∧
    f = applyDefaults (foldl merge base parts) ∧ v = validate f ∧ applyDefaults f = f ∧
    f_Binder f = f_Binder base ++ concat (f_Binder <$> parts) ∧
    (Forall (λ p, f_Token p = "") parts ∧ f_Token f = f_Token base ∨
     ∃ before p after, parts = before ++ p :: after ∧ f_Token p ≠ "" ∧
       Forall (λ q, f_Token q = "") after ∧ f_Token f = f_Token p) ∧
    (∀ a b c, merge (merge a b) c = merge a (merge b c)) ∧ (∀ ρ, ConfigOf ρ f ≠ Panic).
Proof.
  unfold LoadFile. intros (base & Hb & H)%bindR_Ok. rewrite merge_dirs_foldl in H.
  destruct (fragments dirs) as [parts| |] eqn:Hp; [|done..]. cbn [bindR] in H. injection H as <- <-.
  exists base, parts. split_and!; try done.
  - apply applyDefaults_idem.
  - apply foldl_merge_binders.
  - apply (foldl_merge_last f_Token or_str "").
    + done.
    + intros w. unfold or_str. by rewrite decide_True.
    + intros w w' Hw. unfold or_str. by rewrite decide_False.
    + intros w. apply (decide (w = "")).
  - intros a b c. apply merge_assoc.
  - intros ρ. apply ConfigOf_not_panic.
Qed.

(** C39: the configuration the hub is started with.  Whatever the files said,
    every pool can be carved, the families are told apart by their prefixes,
    no pool overlaps another (so no two instances are handed overlapping
    overlays by different pools), there is an IPv4 pool, and the ports are a
    range of 16 bit numbers.  When that range does not start at 0 the hub
    starts with it from any state file; when it does, [New] refuses what
    [Config] accepted. *)
Theorem config_runs_the_hub `{HS : SshLib} (ρ : Range) (f : File) (c : Config) :
  ConfigOf ρ f = Ok c →
  Forall pool_ok (c_Overlays c) ∧ Forall pool_ok (c_Overlays6 c) ∧ c_Overlays c ≠ [] ∧
  Forall (λ p, Is4 (p_addr (Pool_Prefix p)) = true) (c_Overlays c) ∧
  Forall (λ p, Is4 (p_addr (Pool_Prefix p)) = false) (c_Overlays6 c) ∧
  disjoint_pools (c_Overlays c ++ c_Overlays6 c) ∧
  (0 ≤ c_PortMin c ∧ c_PortMin c ≤ c_PortMax c ∧ c_PortMax c < 65536) ∧
  (0 < c_PortMin c → config_ok c ∧ ∀ env file, is_ok (New env c file) = true) ∧
  (c_PortMin c = 0 → ∀ env file, New env c file = Err (Errorf "invalid port range %d-%d")).
Proof.
  intros (pools & ports & Hp & Ho & Hne & Hr & _ & _ & E4 & E6 & Emin & Emax & _)%ConfigOf_inv.
  apply parse_overlays_Ok in Hp as (H1 & H2 & H3 & H4). apply parsePortRange_Ok in Hr.
  apply refuseOverlap_Ok in Ho. rewrite <-E4, <-E6 in *. rewrite <-Emin, <-Emax in *.
  split_and!; try done; try apply Hr.
  - intros Hpos. split; [constructor; [done|done|lia]|]. intros env file.
    pose proof (New_not_panic c env file) as Hn. unfold New in *.
    destruct (Z.eqb_spec (c_PortMin c) 0), (Z.eqb_spec (c_PortMax c) 0), (Z.ltb_spec (c_PortMax c) (c_PortMin c));
      try lia. simpl in *. destruct (c_Overlays c); [done|]. simpl in *.
    by destruct (start_all _ _ _) as [[]].
  - intros Hz env file. unfold New. by rewrite Hz.
Qed.

(** A key speaks for one binder.  Every binder of an accepted
    configuration has a name and a key, no key belongs to two, so the binder a
    registration is booked under does not depend on the order the binders are
    walked in, and it is the one whose entry lists the key; and the keys a
    signature is checked against are those of the binders, no others. *)
Theorem binders_are_told_apart `{HS : SshLib} (ρ ρ1 ρ2 : Range) (f : File) (c : Config) (key : PublicKey) :
  ConfigOf ρ f = Ok c →
  map_Forall binder_ok (c_Binders c) ∧
  Match ρ1 (c_Binders c) key = Match ρ2 (c_Binders c) key ∧
  (∀ name keys, c_Binders c !! name = Some keys → key ∈ keys → Match ρ1 (c_Binders c) key = Some name) ∧
  (key ∈ AllKeys ρ1 (c_Binders c) ↔ is_Some (Match ρ1 (c_Binders c) key)).
Proof.
  intros (_ & _ & _ & _ & _ & _ & Hd & Hu & _)%ConfigOf_inv. apply unique_keys_Ok in Hu as [Hnd _].
  assert (∀ ρ' name keys, c_Binders c !! name = Some keys → key ∈ keys → Match ρ' (c_Binders c) key = Some name) as Hm.
  { intros ρ' name keys Hn Hk. pose proof (Match_spec ρ' (c_Binders c) key) as Hs.
    destruct (Match ρ' (c_Binders c) key) as [name'|].
    - destruct Hs as (keys' & Hn' & Hk'). f_equal. exact (keys_unique_binder ρ _ _ _ _ _ key Hnd Hn' Hn Hk' Hk).
    - destruct (Hs _ _ Hn Hk). }
  assert (∀ ρ', is_Some (Match ρ' (c_Binders c) key) ↔ ∃ name keys, c_Binders c !! name = Some keys ∧ key ∈ keys) as Hx.
  { intros ρ'. split.
    - intros [name E]. pose proof (Match_spec ρ' (c_Binders c) key) as Hs. rewrite E in Hs.
      destruct Hs as (keys & ? & ?). eauto.
    - intros (name & keys & Hn & Hk). by rewrite (Hm ρ' _ _ Hn Hk). }
  split_and!.
  - by apply (declare_binders_Ok _ _ _ Hd).
  - destruct (Match ρ1 (c_Binders c) key) as [name|] eqn:E.
    + destruct (proj1 (Hx ρ1)) as (n & ks & Hn & Hk); [by rewrite E|].
      rewrite (Hm ρ1 _ _ Hn Hk) in E. injection E as <-. by rewrite (Hm ρ2 _ _ Hn Hk).
    + destruct (Match ρ2 (c_Binders c) key) as [name|] eqn:E2; [|done].
      destruct (proj1 (Hx ρ2)) as (n & ks & Hn & Hk); [by rewrite E2|]. by rewrite (Hm ρ1 _ _ Hn Hk) in E.
  - apply Hm.
  - rewrite Hx. unfold AllKeys. rewrite list_elem_of_bind. split.
    + intros ([name keys] & Hk & Hn%elem_of_range). eauto.
    + intros (name & keys & Hn & Hk). exists (name, keys). split; [done|]. by apply elem_of_range.
Qed.

(** The endpoint is checked without the white space around it, and kept with
    it: the address connectors are told to dial holds the spaces. *)
Lemma spaced_endpoint_accepted :
  validateEndpoint " hub.example " = Ok () ∧
  JoinHostPort " hub.example " "20000" = " hub.example :20000".
Proof. split; vm_compute; reflexivity. Qed.

(** ** Concrete runs *)

Definition ex_base : File :=
  mkFile "hub.example" "" "" "" "" "" "" ["198.19.0.0/16/24"; "fd00::/48/64"] "20000-20100" 0 None None "token" [] [].
Definition ex_fragment (name key token : string) : File :=
  mkFile "" "" "" "" "" "" "" [] "" 0 None None token [mkBinderEntry name [key]] [].
(** A directory of two fragments and a file that is not one, and one that is
    not there. *)
Definition ex_files : Files :=
  {| readConfig := λ _, Ok ex_base;
     ReadDir := λ d, if decide (d = "conf.d") then Ok [("b.yml", false); ("notes.txt", false); ("a.YAML", false); ("c.yaml", true)]
                     else Err ErrNotExist;
     readConfigIn := λ _ n, if decide (n = "b.yml") then Ok (ex_fragment " bea " "ssh-b" "second")
                            else Ok (ex_fragment "ann" "ssh-a" "first") |}.
Definition ex_loaded : File :=
  default ex_base (match @LoadFile ex_files "hub.yaml" ["missing.d"; "conf.d"] with Ok (f, _) => Some f | _ => None end).

Lemma ex_load : @LoadFile ex_files "hub.yaml" ["missing.d"; "conf.d"] = Ok (ex_loaded, Ok ()).
Proof. vm_compute. reflexivity. Qed.
Lemma fragments_merge_witness : f_Token ex_loaded = "second" ∧ @ConfigOf toy_ssh range_default ex_loaded ≠ Panic.
Proof.
  destruct (@fragments_merge toy_ssh ex_files _ _ _ _ ex_load) as (_ & _ & _ & _ & _ & _ & _ & _ & _ & _ & Hp).
  split; [vm_compute; reflexivity|exact (Hp range_default)].
Defined.

Definition ex_config : Config :=
  match @ConfigOf toy_ssh range_default ex_loaded with Ok c => c | _ => mkConfig "" "" "" 0 0 [] [] "" ∅ "" 0 false false false end.
Lemma ex_config_made : @ConfigOf toy_ssh range_default ex_loaded = Ok ex_config.
Proof. vm_compute. reflexivity. Qed.
Lemma config_runs_the_hub_witness : config_ok ex_config ∧ length (c_Overlays ex_config) = 1%nat ∧ length (c_Overlays6 ex_config) = 1%nat.
Proof.
  destruct (@config_runs_the_hub toy_ssh _ _ _ ex_config_made) as (_&_&_&_&_&_&_&Hok&_).
  split; [apply Hok; vm_compute; reflexivity|split; vm_compute; reflexivity].
Defined.
Lemma binders_are_told_apart_witness : Match range_default (c_Binders ex_config) "ssh-b" = Some "bea".
Proof.
  destruct (@binders_are_told_apart toy_ssh range_default range_default range_default _ _ "ssh-b" ex_config_made)
    as (_ & _ & Hm & _).
  apply (Hm "bea" ["ssh-b"]); [vm_compute; reflexivity|left].
Defined.
