(* ===== verification/HubApi.v ===== *)
(** * The hub's HTTP API: [internal/hub/api.go]

    From a request to a response: the table of endpoints, who may call them,
    what each handler does to the hub, and the answers.  Decoding a JSON body
    is left to a parameter; a response is its status and the value encoded in
    it. *)

From Stdlib Require Import Ascii.
From S2P Require Export HubConfig HubSpec.

Open Scope Z_scope.

(** ** Rate limits *)

Record bucket : Type := mkBucket { bk_count : Z; bk_reset : Time }.
Record rateLimiter : Type := mkLimiter { rl_window : Z; rl_limit : Z; rl_buckets : gmap string bucket }.
Definition newRateLimiter (limit window : Z) : rateLimiter := mkLimiter window limit ∅.
Definition allow (now : Time) (key : string) (rl : rateLimiter) : bool * rateLimiter :=
  let put b := mkLimiter (rl_window rl) (rl_limit rl) (<[key := b]> (rl_buckets rl)) in
  match rl_buckets rl !! key with
  | None => (true, put (mkBucket 1 (now + rl_window rl)))
  | Some b =>
      if bk_reset b <? now then (true, put (mkBucket 1 (now + rl_window rl)))
      else (bk_count b + 1 <=? rl_limit rl, put (mkBucket (bk_count b + 1) (bk_reset b)))
  end.

(** ** Messages *)

Record RegisterRequest : Type := mkRegisterRequest { rr_Name : string; rr_Identity : string; rr_Signature : string }.
Record RegisterResponse : Type := mkRegisterResponse { rp_Identity : string; rp_Binder : string; rp_Key : string }.
Record CreateInstanceRequest : Type := mkCreateRequest { cr_Name : string; cr_SharedToken : string }.
Record CreateInstanceResponse : Type := mkCreateResponse {
  cp_ID : string;
  cp_Name : string;
  cp_Binder : string;
  cp_Overlay : Prefix;
  cp_Overlay6 : Prefix;
  cp_Port : Z;
  cp_LighthouseAddress : Addr;
  cp_LighthouseAddress6 : Addr;
  cp_TenantAddress : Addr;
  cp_TenantAddress6 : Addr;
  cp_LighthousePublicKey : string;
  cp_Endpoint : string;
  cp_MTU : Z;
  cp_Relay : bool;
}.
Record InstanceSummary : Type := mkSummary {
  su_ID : string;
  su_Name : string;
  su_Binder : string;
  su_Overlay : Prefix;
  su_Overlay6 : Prefix;
  su_Role : string;
  su_Owner : string;
  su_OwnerMachine : string;
  su_Yours : bool;
  su_Address : Prefix;
  su_Address6 : Prefix;
  su_Routes : list Route;
  su_Members : nat;
  su_Pending : nat;
  su_Lighthouse : Addr;
  su_Running : bool;
}.
Record LighthouseRequest : Type := mkLighthouseRequest { lr_CA : string; lr_Certificate : string }.
Record BanRequest : Type := mkBanRequest { br_Member : string; br_Note : string }.
Record TokenRequest : Type := mkTokenRequest { tr_SharedToken : string }.
Record JoinRequest : Type := mkJoinRequest { jr_Name : string; jr_PublicKey : string }.

(** What a body decodes to, [None] when it does not. *)
Class Json := {
  decode_register : string → option RegisterRequest;
  decode_create : string → option CreateInstanceRequest;
  decode_lighthouse : string → option LighthouseRequest;
  decode_decision : string → option Decision_;
  decode_ban : string → option BanRequest;
  decode_token : string → option TokenRequest;
  decode_join : string → option JoinRequest;
  decode_enroll : string → option Request;
}.

(** The value in a response. *)
Inductive Payload : Type :=
  | PNone
  | PError (code : string) (message : error)
  | PRegistered (r : RegisterResponse)
  | PCreated (r : CreateInstanceResponse)
  | PInstances (l : list InstanceSummary)
  | PMember (m : Member)
  | PRunning (running : bool)
  | PPending (l : list HubRecord)
  | PAccepted (id : string) (status : Status) (retry_after : Z)
  | PResult (r : Result)
  | PMembers (l : list Member)
  | PRoutes (t : RouteTable).
(** [Aborted]: the handler panicked and the server dropped the connection. *)
Inductive Response : Type :=
  | Reply (status : Z) (body : Payload)
  | Aborted.
Definition writeError (status : Z) (code : string) (message : error) : Response := Reply status (PError code message).

Definition StatusOK : Z := 200.
Definition StatusCreated : Z := 201.
Definition StatusAccepted : Z := 202.
Definition StatusNoContent : Z := 204.
Definition StatusBadRequest : Z := 400.
Definition StatusUnauthorized : Z := 401.
Definition StatusForbidden : Z := 403.
Definition StatusNotFound : Z := 404.
Definition StatusMethodNotAllowed : Z := 405.
Definition StatusConflict : Z := 409.
Definition StatusTooManyRequests : Z := 429.
Definition StatusInternalServerError : Z := 500.

(** ** The server *)

Record Api : Type := mkApi { a_hub : Hub; a_nonces : MemoryNonces; a_rl : rateLimiter }.
Definition set_hub (h : Hub) (s : Api) : Api := mkApi h (a_nonces s) (a_rl s).
Definition set_nonces (n : MemoryNonces) (s : Api) : Api := mkApi (a_hub s) n (a_rl s).
Definition set_rl (r : rateLimiter) (s : Api) : Api := mkApi (a_hub s) (a_nonces s) r.
(** The limiter and the nonces a hub starts with. *)
Definition api_of (h : Hub) : Api := mkApi h NewMemoryNonces (newRateLimiter 30 Minute).

(** A handler of one request. *)
Definition Handler : Type := Api → Response * Api.
Definition reply (r : Response) : Handler := λ s, (r, s).
(** A call into the hub, and what is answered to each outcome. *)
Definition call {A} (c : M Hub A) (k : res A → Response) : Handler := λ s,
  let '(r, h) := c (a_hub s) in
  (match r with Panic => Aborted | _ => k r end, set_hub h s).

Definition maxBodyBytes : nat := Z.to_nat (Z.shiftl 64 10).
(** What a handler sees of a body. *)
Definition readBody (r : HttpRequest) : string := str_take maxBodyBytes (r_Body r).
Definition decode {A} (f : string → option A) (r : HttpRequest) (k : A → Handler) : Handler :=
  match f (readBody r) with
  | Some v => k v
  | None => reply (writeError StatusBadRequest "bad_request" (Errorf "json"))
  end.
Definition sourceAddr (r : HttpRequest) : string :=
  match SplitHostPort (r_RemoteAddr r) with Some (host, _) => host | None => r_RemoteAddr r end.

Definition writeMemberError (e : error) : Response :=
  if errors_Is e ErrNotFound then writeError StatusNotFound "not_found" e
  else writeError StatusBadRequest "bad_request" e.

Section Api.
Context `{HC : Crypto} `{HE : Ed25519} `{HS : SshLib} `{HJ : Json}.

Definition limited (env : Env) (source message : string) (k : Handler) : Handler := λ s,
  let '(ok, rl) := allow (now env) source (a_rl s) in
  if ok then k (set_rl rl s) else (writeError StatusTooManyRequests "slow_down" (Errorf message), set_rl rl s).

Definition handleRegister (env : Env) (r : HttpRequest) : Handler :=
  let source := sourceAddr r in
  limited env source "too many attempts" (
  decode decode_register r (λ req,
  if decide (TrimSpace (rr_Name req) = "")
  then reply (writeError StatusBadRequest "bad_request" (Errorf "name is required")) else
  match ParsePublicIdentity (rr_Identity req) with
  | Ok _ => λ s,
      let cfg := h_cfg (a_hub s) in
      let bootstrap := mkBootstrap (r_Host r) (c_Token cfg) (rr_Name req) (rr_Identity req) in
      match Verify bootstrap (rr_Signature req) (AllKeys (ρ_of env) (c_Binders cfg)) with
      | Ok key =>
          match Match (ρ_of env) (c_Binders cfg) key with
          | None => reply (writeError StatusUnauthorized "unauthorized" (Errorf "registration rejected")) s
          | Some binder =>
              let registration := mkRegistration (rr_Identity req) binder (rr_Name req) (AuthorizedKey key)
                                    TimeZero TimeZero in
              call (onStore (Register env registration)) (λ res,
                match res with
                | Err e => writeError StatusInternalServerError "error" e
                | _ => Reply StatusCreated (PRegistered (mkRegisterResponse (rr_Identity req) binder (AuthorizedKey key)))
                end) s
          end
      | _ => reply (writeError StatusUnauthorized "unauthorized" (Errorf "registration rejected")) s
      end
  | Err e => reply (writeError StatusBadRequest "bad_request" e)
  | Panic => reply Aborted
  end)).

Definition handleCreateInstance (env : Env) (r : HttpRequest) (who : Registration) : Handler :=
  decode decode_create r (λ req,
  match ParseName (cr_Name req) with
  | Ok name => λ s,
      let cfg := h_cfg (a_hub s) in
      call (CreateInstance env (g_Binder who) (g_Identity who) name (cr_SharedToken req)) (λ res,
        match res with
        | Ok inst =>
            Reply StatusCreated (PCreated
              {| cp_ID := i_ID inst; cp_Name := i_Name inst; cp_Binder := i_Binder inst;
                 cp_Overlay := i_Overlay inst; cp_Overlay6 := i_Overlay6 inst; cp_Port := i_Port inst;
                 cp_LighthouseAddress := i_LighthouseAddress inst;
                 cp_LighthouseAddress6 := i_LighthouseAddress6 inst;
                 cp_TenantAddress := i_TenantAddress inst; cp_TenantAddress6 := i_TenantAddress6 inst;
                 cp_LighthousePublicKey := i_LighthousePublicKey inst;
                 cp_Endpoint := c_PublicEndpoint cfg; cp_MTU := c_MTU cfg; cp_Relay := i_Relay inst |})
        | Err e => writeError StatusBadRequest "bad_request" e
        | Panic => Aborted
        end) s
  | Err e => reply (writeError StatusBadRequest "bad_request" e)
  | Panic => reply Aborted
  end).

Definition pending_count (inst : Instance_) : nat :=
  length (filter (λ r, hr_Status r = StatusPending) (map_to_list (mget (i_Requests inst))).*2).
Definition summarize (env : Env) (h : Hub) (who : Registration) (inst : Instance_) : InstanceSummary :=
  let member := MemberOf (ρ_of env) inst (g_Identity who) in
  let owns := bool_decide (i_Owner inst = g_Identity who) in
  {| su_ID := i_ID inst; su_Name := i_Name inst; su_Binder := i_Binder inst;
     su_Overlay := i_Overlay inst; su_Overlay6 := i_Overlay6 inst;
     su_Role := match member with Some m => if owns then KindOwner else m_Kind m | None => "" end;
     su_Owner := i_Binder inst;
     su_OwnerMachine := match Identity (h_store h) (i_Owner inst) with Ok owner => g_Name owner | _ => "" end;
     su_Yours := negb (bool_decide (i_Binder inst = "")) && bool_decide (i_Binder inst = g_Binder who);
     su_Address := match member with Some m => m_Address m | None => PrefixZero end;
     su_Address6 := match member with Some m => m_Address6 m | None => PrefixZero end;
     su_Routes := match member with Some _ => routesOf (ρ_of env) inst | None => [] end;
     su_Members := match member with Some _ => size (mget (i_Members inst)) | None => 0%nat end;
     su_Pending := match member with Some _ => if owns then pending_count inst else 0%nat | None => 0%nat end;
     su_Lighthouse := i_LighthouseAddress inst;
     su_Running := isRunning h (i_ID inst) |}.
Definition handleListInstances (env : Env) (r : HttpRequest) (who : Registration) : Handler := λ s,
  let out := summarize env (a_hub s) who <$> List (ρ_of env) (h_store (a_hub s)) in
  reply (Reply StatusOK (PInstances (sort_by su_Name out))) s.

Definition handleRemoveMember (env : Env) (member : string) (inst : Instance_) : Handler :=
  call (RemoveMember env (i_ID inst) member) (λ res,
    match res with Ok m => Reply StatusOK (PMember m) | Err e => writeMemberError e | Panic => Aborted end).
Definition handleDeleteInstance (env : Env) (inst : Instance_) : Handler :=
  call (Delete env (i_ID inst)) (λ res,
    match res with
    | Err e => writeError StatusInternalServerError "error" e
    | _ => Reply StatusNoContent PNone
    end).
Definition handleLighthouse (env : Env) (r : HttpRequest) (inst : Instance_) : Handler :=
  decode decode_lighthouse r (λ req s,
    match call (ActivateInstance env (i_ID inst) (lr_CA req) (lr_Certificate req)) (λ res,
            match res with
            | Err e => writeError StatusBadRequest "bad_request" e
            | _ => Reply StatusOK PNone
            end) s with
    | (Reply st PNone, s') => (Reply st (PRunning (isRunning (a_hub s') (i_ID inst))), s')
    | other => other
    end).
Definition handlePending (env : Env) (inst : Instance_) : Handler := λ s,
  match Pending (ρ_of env) (a_hub s) (i_ID inst) with
  | Ok pending => reply (Reply StatusOK (PPending pending)) s
  | Err e => reply (writeError StatusNotFound "not_found" e) s
  | Panic => reply Aborted s
  end.
Definition handleDecision (env : Env) (r : HttpRequest) (rid : string) (inst : Instance_) : Handler :=
  decode decode_decision r (λ d,
  call (Decide env (i_ID inst) rid d) (λ res,
    match res with
    | Err e => writeError (if errors_Is e ErrNotFound then StatusNotFound else StatusBadRequest) "bad_request" e
    | _ => Reply StatusNoContent PNone
    end)).
Definition handleForget (env : Env) (rid : string) (inst : Instance_) : Handler :=
  call (Forget env (i_ID inst) rid) (λ res,
    match res with
    | Err e => writeError StatusNotFound "not_found" e
    | _ => Reply StatusNoContent PNone
    end).
Definition handleBan (env : Env) (r : HttpRequest) (inst : Instance_) : Handler :=
  decode decode_ban r (λ req,
  call (Ban env (i_ID inst) (br_Member req) (br_Note req)) (λ res,
    match res with Err e => writeMemberError e | _ => Reply StatusNoContent PNone end)).
Definition handleUnban (env : Env) (r : HttpRequest) (inst : Instance_) : Handler :=
  decode decode_ban r (λ req,
  call (Unban env (i_ID inst) (br_Member req) (br_Note req)) (λ res,
    match res with Err e => writeMemberError e | _ => Reply StatusNoContent PNone end)).
Definition handleSetToken (env : Env) (r : HttpRequest) (inst : Instance_) : Handler :=
  decode decode_token r (λ req,
  call (SetSharedToken env (i_ID inst) (tr_SharedToken req)) (λ res,
    match res with
    | Err e => writeError StatusBadRequest "bad_request" e
    | _ => Reply StatusNoContent PNone
    end)).

Definition handleJoin (env : Env) (r : HttpRequest) (id : string) (who : Registration) : Handler :=
  decode decode_join r (λ req,
  let name := if decide (jr_Name req = "") then g_Name who else jr_Name req in
  call (Enroll env id (mkRequest (jr_PublicKey req) name [] "" None)
          (mkApplicant KindTenant (g_Identity who) (g_Binder who) "" (sourceAddr r))) (λ res,
    match res with
    | Ok record => Reply StatusAccepted (PAccepted (hr_ID record) (hr_Status record) 5)
    | Err e => if errors_Is e ErrNotFound then writeError StatusNotFound "not_found" (Errorf "no such instance")
               else writeError StatusBadRequest "bad_request" e
    | Panic => Aborted
    end)).
Definition handleJoinResult (env : Env) (id : string) (who : Registration) : Handler := λ s,
  match Resolve (ρ_of env) (h_store (a_hub s)) id with
  | Ok inst =>
      match find_first (λ kv, bool_decide (hr_Identity kv.2 = g_Identity who)) (range (ρ_of env) (mget (i_Requests inst))) with
      | Some (_, record) => reply (Reply StatusOK (PResult (result_of (ρ_of env) inst record 15))) s
      | None => reply (writeError StatusNotFound "not_found" (Errorf "no request from this machine")) s
      end
  | Err _ => reply (writeError StatusNotFound "not_found" (Errorf "no such instance")) s
  | Panic => reply Aborted s
  end.
Definition handleMembers (env : Env) (inst : Instance_) : Handler := λ s,
  match MembersOf (ρ_of env) (a_hub s) (i_ID inst) with
  | Ok members => reply (Reply StatusOK (PMembers members)) s
  | Err e => reply (writeError StatusNotFound "not_found" e) s
  | Panic => reply Aborted s
  end.
Definition handleRoutes (env : Env) (inst : Instance_) : Handler := λ s,
  reply (Reply StatusOK (PRoutes (RouteTableOf (ρ_of env) (h_cfg (a_hub s)) inst))) s.

Definition MACHeader : string := "Robinet-Mac".
Definition handleEnroll (env : Env) (r : HttpRequest) (id : string) : Handler :=
  let source := sourceAddr r in
  limited env source "too many enrollment attempts" (
  decode decode_enroll r (λ req,
  call (Enroll env id req (mkApplicant KindConnector "" "" (Header_Get r MACHeader) source)) (λ res,
    match res with
    | Ok record =>
        (* the log line slices the fingerprint *)
        if (len (hr_Fingerprint record) <? 16)%nat then Aborted
        else Reply StatusAccepted (PAccepted (hr_ID record) (hr_Status record) 5)
    | Err e =>
        if errors_Is e ErrNotFound then writeError StatusNotFound "not_found" (Errorf "no such instance")
        else if errors_Is e ErrAmbiguous
        then writeError StatusConflict "ambiguous" (Errorf "more than one instance has that name, use its id")
        else writeError StatusBadRequest "bad_request" e
    | Panic => Aborted
    end))).
Definition handleResult (env : Env) (id rid : string) : Handler := λ s,
  match ResultOf (ρ_of env) (a_hub s) id rid with
  | Ok r => reply (Reply StatusOK (PResult r)) s
  | Err _ => reply (writeError StatusNotFound "not_found" (Errorf "no such request")) s
  | Panic => reply Aborted s
  end.

(** ** Who may call *)

Definition signed (env : Env) (r : HttpRequest) (next : Registration → Handler) : Handler := λ s,
  match VerifyRequest (ρ_of env) (now env) r (readBody r) (a_nonces s) with
  | (Ok identity, n) =>
      let s := set_nonces n s in
      match Identity (h_store (a_hub s)) identity with
      | Ok who => next who s
      | Err _ => reply (writeError StatusUnauthorized "unauthorized" (Errorf "this machine is not registered here")) s
      | Panic => reply Aborted s
      end
  | (Err e, n) => reply (writeError StatusUnauthorized "unauthorized" e) (set_nonces n s)
  | (Panic, n) => reply Aborted (set_nonces n s)
  end.
Definition resolved (env : Env) (id : string) (k : Instance_ → Handler) : Handler := λ s,
  match Resolve (ρ_of env) (h_store (a_hub s)) id with
  | Ok inst => k inst s
  | Err _ => reply (writeError StatusNotFound "not_found" (Errorf "no such instance")) s
  | Panic => reply Aborted s
  end.
Definition ownerOnly (env : Env) (r : HttpRequest) (id : string) (next : Instance_ → Handler) : Handler :=
  signed env r (λ who, resolved env id (λ inst,
    if negb (ConstantTimeEqual (g_Identity who) (i_Owner inst))
    then reply (writeError StatusForbidden "forbidden" (Errorf "only the owner of that instance may do that"))
    else next inst)).
Definition memberOnly (env : Env) (r : HttpRequest) (id : string) (next : Instance_ → Handler) : Handler :=
  signed env r (λ who, resolved env id (λ inst,
    match MemberOf (ρ_of env) inst (g_Identity who) with
    | None => reply (writeError StatusForbidden "forbidden" (Errorf "this machine does not belong to that instance"))
    | Some _ => next inst
    end)).

(** ** The table of endpoints *)

Inductive Endpoint : Type :=
  | EHealthz
  | ERegister
  | ECreateInstance
  | EListInstances
  | ELighthouse (id : string)
  | EPending (id : string)
  | EDecision (id rid : string)
  | EForget (id rid : string)
  | EBan (id : string)
  | EUnban (id : string)
  | ESetToken (id : string)
  | EDeleteInstance (id : string)
  | ERemoveMember (id member : string)
  | EJoin (id : string)
  | EJoinResult (id : string)
  | ERoutes (id : string)
  | EMembers (id : string)
  | EEnroll (id : string)
  | EResult (id rid : string).

(** A segment of a pattern: itself, or a wildcard. *)
Inductive Segment : Type := Lit (s : string) | Wild.
Definition arg (l : list string) (i : nat) : string := nth i l "".
Definition mux : list (string * list Segment * (list string → Endpoint)) :=
  [("GET", [Lit "healthz"], λ _, EHealthz);
   ("POST", [Lit "v1"; Lit "register"], λ _, ERegister);
   ("POST", [Lit "v1"; Lit "instances"], λ _, ECreateInstance);
   ("GET", [Lit "v1"; Lit "instances"], λ _, EListInstances);
   ("POST", [Lit "v1"; Lit "instances"; Wild; Lit "lighthouse"], λ a, ELighthouse (arg a 0));
   ("GET", [Lit "v1"; Lit "instances"; Wild; Lit "requests"], λ a, EPending (arg a 0));
   ("POST", [Lit "v1"; Lit "instances"; Wild; Lit "requests"; Wild], λ a, EDecision (arg a 0) (arg a 1));
   ("DELETE", [Lit "v1"; Lit "instances"; Wild; Lit "requests"; Wild], λ a, EForget (arg a 0) (arg a 1));
   ("POST", [Lit "v1"; Lit "instances"; Wild; Lit "ban"], λ a, EBan (arg a 0));
   ("POST", [Lit "v1"; Lit "instances"; Wild; Lit "unban"], λ a, EUnban (arg a 0));
   ("POST", [Lit "v1"; Lit "instances"; Wild; Lit "token"], λ a, ESetToken (arg a 0));
   ("DELETE", [Lit "v1"; Lit "instances"; Wild], λ a, EDeleteInstance (arg a 0));
   ("DELETE", [Lit "v1"; Lit "instances"; Wild; Lit "members"; Wild], λ a, ERemoveMember (arg a 0) (arg a 1));
   ("POST", [Lit "v1"; Lit "instances"; Wild; Lit "join"], λ a, EJoin (arg a 0));
   ("GET", [Lit "v1"; Lit "instances"; Wild; Lit "join"], λ a, EJoinResult (arg a 0));
   ("GET", [Lit "v1"; Lit "instances"; Wild; Lit "routes"], λ a, ERoutes (arg a 0));
   ("GET", [Lit "v1"; Lit "instances"; Wild; Lit "members"], λ a, EMembers (arg a 0));
   ("POST", [Lit "v1"; Lit "enroll"; Wild], λ a, EEnroll (arg a 0));
   ("GET", [Lit "v1"; Lit "enroll"; Wild; Wild], λ a, EResult (arg a 0) (arg a 1))].

(** A pattern against the segments of a path: the wildcards' values. *)
Fixpoint match_path (p : list Segment) (path : list string) : option (list string) :=
  match p, path with
  | [], [] => Some []
  | Lit l :: p, s :: path => if decide (l = s) then match_path p path else None
  | Wild :: p, s :: path => if decide (s = "") then None else cons s <$> match_path p path
  | _, _ => None
  end.
Definition match_method (pattern method : string) : bool :=
  bool_decide (pattern = method) || (bool_decide (pattern = "GET") && bool_decide (method = "HEAD")).
Definition find_endpoint (method : string) (path : list string) : option Endpoint :=
  match find_first (λ e, match_method e.1.1 method && bool_decide (is_Some (match_path e.1.2 path))) mux with
  | Some (_, p, f) => f <$> match_path p path
  | None => None
  end.

Definition handle (env : Env) (r : HttpRequest) (e : Endpoint) : Handler :=
  match e with
  | EHealthz => reply (Reply StatusOK PNone)
  | ERegister => handleRegister env r
  | ECreateInstance => signed env r (handleCreateInstance env r)
  | EListInstances => signed env r (handleListInstances env r)
  | ELighthouse id => ownerOnly env r id (handleLighthouse env r)
  | EPending id => ownerOnly env r id (handlePending env)
  | EDecision id rid => ownerOnly env r id (handleDecision env r rid)
  | EForget id rid => ownerOnly env r id (handleForget env rid)
  | EBan id => ownerOnly env r id (handleBan env r)
  | EUnban id => ownerOnly env r id (handleUnban env r)
  | ESetToken id => ownerOnly env r id (handleSetToken env r)
  | EDeleteInstance id => ownerOnly env r id (handleDeleteInstance env)
  | ERemoveMember id member => ownerOnly env r id (handleRemoveMember env member)
  | EJoin id => signed env r (handleJoin env r id)
  | EJoinResult id => signed env r (handleJoinResult env id)
  | ERoutes id => memberOnly env r id (handleRoutes env)
  | EMembers id => memberOnly env r id (handleMembers env)
  | EEnroll id => handleEnroll env r id
  | EResult id rid => handleResult env id rid
  end.
(** [Hub.Handler]: the request and the segments of its path, each unescaped. *)
Definition HubHandler (env : Env) (r : HttpRequest) (path : list string) : Handler :=
  match find_endpoint (r_Method r) path with
  | Some e => handle env r e
  | None =>
      if existsb (λ e, bool_decide (is_Some (match_path e.1.2 path))) mux
      then reply (Reply StatusMethodNotAllowed PNone) else reply (Reply StatusNotFound PNone)
  end.
End Api.

(** ** Lemmas: one operation per request *)

(** The instance an operation decides about. *)
Definition op_target (op : Op) : option string :=
  match op with
  | OpActivate id _ _ | OpDecide id _ _ | OpForget id _ | OpBan id _ _ | OpUnban id _ _
  | OpRemove id _ | OpSetToken id _ | OpDelete id => Some id
  | _ => None
  end.

(** Every registration is filed under its identity, a public key. *)
Definition ids_ok (h : Hub) : Prop :=
  ∀ k g, s_Identities (mem (h_store h)) !! k = Some g → g_Identity g = k ∧ HasPrefix k IdentityPrefix = true.

Section Operations.
Context `{HC : Crypto} `{HE : Ed25519} `{HS : SshLib} `{HJ : Json}.

(** The request is signed by an identity, fresh and recent. *)
Definition accepted (env : Env) (r : HttpRequest) (s : Api) (identity : string) : Prop :=
  ∃ n, VerifyRequest (ρ_of env) (now env) r (readBody r) (a_nonces s) = (Ok identity, n).

(** What a request can set off, and on whose authority. *)
Inductive caused (env : Env) (r : HttpRequest) (s : Api) : Op → Prop :=
  | by_key reg :
      HasPrefix (g_Identity reg) IdentityPrefix = true → caused env r s (OpRegister reg)
  | by_machine identity binder name token :
      accepted env r s identity → HasPrefix identity IdentityPrefix = true →
      caused env r s (OpCreate binder identity name token)
  | by_connector ref req who : a_Kind who = KindConnector → caused env r s (OpEnroll ref req who)
  | by_tenant ref req who :
      a_Kind who = KindTenant → accepted env r s (a_Identity who) → caused env r s (OpEnroll ref req who)
  | by_owner op inst :
      op_target op = Some (i_ID inst) → inst_at (a_hub s) (i_ID inst) = Some inst →
      accepted env r s (i_Owner inst) → caused env r s op.

(** The hub after a handler: as it was, or after one operation; and the
    handler came to its end. *)
Definition one_op (env : Env) (r : HttpRequest) (s s' : Api) : Prop :=
  a_hub s' = a_hub s ∨ ∃ op, caused env r s op ∧ a_hub s' = (run_op env op (a_hub s)).2.
Definition good (env : Env) (r : HttpRequest) (s : Api) (out : Response * Api) : Prop :=
  out.1 ≠ Aborted ∧ one_op env r s out.2.

Lemma caused_legal env r s op : caused env r s op → legal op ∧ op ≠ OpRestart.
Proof.
  intros [reg Hr|id b n tk Ha Hp|ref req who Hk|ref req who Hk Ha|op' inst Ht Hi Ha]; simpl; auto.
  by destruct op'.
Qed.
Lemma ignore_hub {A} (c : M Hub A) h : (ignore c h).2 = (c h).2.
Proof. unfold ignore, bindM. by destruct (c h) as [[]]. Qed.
Lemma ignore_panic {A} (c : M Hub A) h : (ignore c h).1 ≠ Panic → (c h).1 ≠ Panic.
Proof. unfold ignore, bindM. by destruct (c h) as [[]]. Qed.

Section Request.
Context (cfg : Config) (Hcfg : config_ok cfg).
Context (env : Env) (r : HttpRequest) (s : Api) (Hids : ids_ok (a_hub s)) (Hok : hub_ok cfg (a_hub s)).

Lemma reply_good st body s0 : a_hub s0 = a_hub s → good env r s (reply (Reply st body) s0).
Proof. intros E. split; [done|by left]. Qed.
Lemma error_good st code e s0 : a_hub s0 = a_hub s → good env r s (reply (writeError st code e) s0).
Proof. apply reply_good. Qed.

(** A handler that calls one operation. *)
Lemma call_ignored {A} op (c : M Hub A) k s0 :
  run_op env op = ignore c → caused env r s op → a_hub s0 = a_hub s →
  (∀ res h', res ≠ Panic → c (a_hub s) = (res, h') → k res ≠ Aborted) → good env r s (call c k s0).
Proof.
  intros Ho Hc E Hk. destruct (caused_legal _ _ _ _ Hc) as [Hl _].
  destruct (run_op_ok cfg env op _ Hcfg Hl Hok) as [Hp _]. rewrite Ho in Hp. apply ignore_panic in Hp.
  unfold good, call. rewrite E. destruct (c (a_hub s)) as [res h'] eqn:Er. split.
  - simpl in *. specialize (Hk res h' Hp eq_refl). by destruct res.
  - right. exists op. split; [done|]. by rewrite Ho, ignore_hub, Er.
Qed.
Lemma call_op op k s0 :
  caused env r s op → a_hub s0 = a_hub s → (∀ res, res ≠ Panic → k res ≠ Aborted) →
  good env r s (call (run_op env op) k s0).
Proof.
  intros Hc E Hk. destruct (caused_legal _ _ _ _ Hc) as [Hl _].
  destruct (run_op_ok cfg env op _ Hcfg Hl Hok) as [Hp _].
  unfold good, call. rewrite E. destruct (run_op env op (a_hub s)) as [res h'] eqn:Er. split.
  - simpl in *. specialize (Hk res Hp). by destruct res.
  - right. exists op. split; [done|]. by rewrite Er.
Qed.

Lemma decode_good {A} (f : string → option A) k s0 :
  a_hub s0 = a_hub s → (∀ v, good env r s (k v s0)) → good env r s (decode f r k s0).
Proof. intros E Hk. unfold decode. destruct (f (readBody r)); [apply Hk|by apply error_good]. Qed.
Lemma limited_good source message (k : Handler) s0 :
  a_hub s0 = a_hub s → (∀ s1, a_hub s1 = a_hub s → good env r s (k s1)) →
  good env r s (limited env source message k s0).
Proof. intros E Hk. unfold limited. destruct (allow _ _ _) as [[] rl]; [by apply Hk|by apply error_good]. Qed.
Lemma signed_good next :
  (∀ who s1, accepted env r s (g_Identity who) → HasPrefix (g_Identity who) IdentityPrefix = true →
     a_hub s1 = a_hub s → good env r s (next who s1)) →
  good env r s (signed env r next s).
Proof.
  intros Hn. unfold signed.
  destruct (VerifyRequest_run (ρ_of env) (now env) r (readBody r) (a_nonces s)) as [(id & _ & E)|(e & -> & _)];
    [|by apply error_good].
  destruct (VerifyRequest (ρ_of env) (now env) r (readBody r) (a_nonces s)) as [[identity|e|] n] eqn:Ev;
    [|by apply error_good|by cbv zeta in E; destruct (Use _ _ _ _ _) as [[] ?]].
  cbn zeta. unfold Identity. change (a_hub (set_nonces n s)) with (a_hub s).
  destruct (s_Identities (mem (h_store (a_hub s))) !! identity) as [who|] eqn:Hw; [|by apply error_good].
  destruct (Hids _ _ Hw) as [Hi Hp]. apply Hn; [|by rewrite Hi|done]. rewrite Hi. by exists n.
Qed.
Lemma resolved_good id k s0 :
  a_hub s0 = a_hub s →
  (∀ inst, Resolve (ρ_of env) (h_store (a_hub s)) id = Ok inst → good env r s (k inst s0)) →
  good env r s (resolved env id k s0).
Proof.
  intros E Hk. unfold resolved. rewrite E. pose proof (Resolve_not_panic (ρ_of env) (h_store (a_hub s)) id).
  destruct (Resolve _ _ _) as [inst|e|]; [by apply Hk|by apply error_good|done].
Qed.
Lemma ownerOnly_good id next :
  (∀ inst s1, inst_at (a_hub s) (i_ID inst) = Some inst → accepted env r s (i_Owner inst) →
     a_hub s1 = a_hub s → good env r s (next inst s1)) →
  good env r s (ownerOnly env r id next s).
Proof.
  intros Hn. apply signed_good. intros who s1 Ha _ Es. apply resolved_good; [done|]. intros inst Hr.
  unfold ConstantTimeEqual. case_bool_decide as Ho; simpl; [|by apply error_good].
  apply Hn; [by eapply Resolve_id; [apply Hok|]|by rewrite <-Ho|done].
Qed.
Lemma memberOnly_good id next :
  (∀ inst s1, inst_at (a_hub s) (i_ID inst) = Some inst → a_hub s1 = a_hub s → good env r s (next inst s1)) →
  good env r s (memberOnly env r id next s).
Proof.
  intros Hn. apply signed_good. intros who s1 _ _ Es. apply resolved_good; [done|]. intros inst Hr.
  destruct (MemberOf _ _ _); [|by apply error_good]. apply Hn; [by eapply Resolve_id; [apply Hok|]|done].
Qed.

Lemma Enroll_fingerprint ref req who record h' :
  Enroll env ref req who (a_hub s) = (Ok record, h') → (len (hr_Fingerprint record) <? 16)%nat = false.
Proof.
  intros H. destruct (Enroll_inv _ _ _ _ _ _ _ _ Hok H) as (v & i & i' & _ & _ & Hi & Hrun & _).
  destruct (so_inst _ _ (proj1 (proj2 Hok)) _ _ Hi) as [_ Hwf].
  apply enroll_fn_inv in Hrun as (_ & _ & _ & -> & _); [|by eexists|by apply ensureMaps_wf].
  unfold fingerprintOf. rewrite len_EncodeHex. by destruct (sha256_bytes (Join (Fields (rq_PublicKey (applicant_name v who))) " ")) as [_ ->].
Qed.

Lemma handleRegister_good : good env r s (handleRegister env r s).
Proof.
  apply limited_good; [done|]. intros s1 E1. apply decode_good; [done|]. intros req.
  case_decide; [by apply error_good|].
  destruct (ParsePublicIdentity (rr_Identity req)) as [pub|e|] eqn:Hp; [|by apply error_good|].
  2: { exfalso. revert Hp. unfold ParsePublicIdentity. repeat case_match; done. }
  cbv zeta beta. destruct (Verify _ _ _) as [key|e|]; [|by apply error_good..].
  destruct (Match _ _ _) as [binder|]; [|by apply error_good].
  eapply (call_op (OpRegister _)); [|done|by intros [[]| |]].
  apply by_key. simpl. apply ParsePublicIdentity_Ok in Hp as (enc & -> & _). apply HasPrefix_app.
Qed.
Lemma writeMemberError_reply e : writeMemberError e ≠ Aborted.
Proof. unfold writeMemberError. by destruct (errors_Is e ErrNotFound). Qed.
Lemma handleEnroll_good id : good env r s (handleEnroll env r id s).
Proof.
  apply limited_good; [done|]. intros s1 E1. apply decode_good; [done|]. intros req.
  eapply (call_ignored (OpEnroll _ _ _)); [done|by apply by_connector|done|].
  intros [record|e|] h' Hnp He; [|by destruct (errors_Is e ErrNotFound), (errors_Is e ErrAmbiguous)|done].
  by rewrite (Enroll_fingerprint _ _ _ _ _ He).
Qed.
Lemma handleCreate_good : good env r s (signed env r (handleCreateInstance env r) s).
Proof.
  apply signed_good. intros who s1 Ha Hp E1. apply decode_good; [done|]. intros req.
  destruct (ParseName (cr_Name req)) as [name|e|] eqn:Hn; [|by apply error_good|].
  2: { exfalso. revert Hn. unfold ParseName. repeat case_match; done. }
  eapply (call_ignored (OpCreate _ _ _ _)); [done|by apply by_machine|done|]. by intros [] ?.
Qed.
Lemma handleJoin_good id : good env r s (signed env r (handleJoin env r id) s).
Proof.
  apply signed_good. intros who s1 Ha Hp E1. apply decode_good; [done|]. intros req.
  eapply (call_ignored (OpEnroll _ _ (mkApplicant KindTenant (g_Identity who) (g_Binder who) "" (sourceAddr r))));
    [done|by apply by_tenant|done|].
  intros [record|e|] h' ? _; [done|by destruct (errors_Is e ErrNotFound)|done].
Qed.
Lemma handleLighthouse_good id : good env r s (ownerOnly env r id (handleLighthouse env r) s).
Proof.
  apply ownerOnly_good. intros inst s1 Hi Ha E1. apply decode_good; [done|]. intros req.
  assert (good env r s (call (ActivateInstance env (i_ID inst) (lr_CA req) (lr_Certificate req)) (λ res,
    match res with Err e => writeError StatusBadRequest "bad_request" e | _ => Reply StatusOK PNone end) s1)) as [Hg Ho].
  { eapply (call_op (OpActivate (i_ID inst) (lr_CA req) (lr_Certificate req))); [by eapply by_owner|done|by intros [[]| |]]. }
  destruct (call _ _ s1) as [[st []|] s']; done.
Qed.

(** The endpoints only an owner may call, each with the operation it is. *)
Ltac owner_op :=
  apply ownerOnly_good; intros inst s1 Hi Ha E1; try (apply decode_good; [done|]; intros q).
Ltac by_op op := eapply (call_op op); [by eapply by_owner|done|intros [[]|e|] ?].

Lemma handle_good e : good env r s (handle env r e s).
Proof.
  destruct e; cbn [handle].
  - by apply reply_good.
  - apply handleRegister_good.
  - apply handleCreate_good.
  - apply signed_good. intros who s1 _ _ E1. by apply reply_good.
  - apply handleLighthouse_good.
  - owner_op. unfold handlePending, Pending, Get. rewrite E1.
    destruct (_ !! _); cbn [bindR]; [by apply reply_good|by apply error_good].
  - owner_op. by_op (OpDecide (i_ID inst) rid q); [done|by destruct (errors_Is e ErrNotFound)|done].
  - owner_op. by_op (OpForget (i_ID inst) rid); done.
  - owner_op. by_op (OpBan (i_ID inst) (br_Member q) (br_Note q)); [done|apply writeMemberError_reply|done].
  - owner_op. by_op (OpUnban (i_ID inst) (br_Member q) (br_Note q)); [done|apply writeMemberError_reply|done].
  - owner_op. by_op (OpSetToken (i_ID inst) (tr_SharedToken q)); done.
  - owner_op. by_op (OpDelete (i_ID inst)); done.
  - apply ownerOnly_good. intros inst s1 Hi Ha E1.
    eapply (call_ignored (OpRemove (i_ID inst) member)); [done|by eapply by_owner|done|].
    intros [m|e|] h' ? _; [done|apply writeMemberError_reply|done].
  - apply handleJoin_good.
  - apply signed_good. intros who s1 _ _ E1. unfold handleJoinResult. rewrite E1.
    pose proof (Resolve_not_panic (ρ_of env) (h_store (a_hub s)) id).
    destruct (Resolve _ _ _) as [inst|e|]; [|by apply error_good|done].
    destruct (find_first _ _) as [[]|]; [by apply reply_good|by apply error_good].
  - apply memberOnly_good. intros inst s1 _ E1. by apply reply_good.
  - apply memberOnly_good. intros inst s1 _ E1. unfold handleMembers, MembersOf, Get. rewrite E1.
    destruct (_ !! _); cbn [bindR]; [by apply reply_good|by apply error_good].
  - apply handleEnroll_good.
  - unfold handleResult, ResultOf. pose proof (Resolve_not_panic (ρ_of env) (h_store (a_hub s)) id).
    destruct (Resolve _ _ _) as [inst|e|]; [|by apply error_good|done]. cbn [bindR].
    destruct (mlookup _ _); [by apply reply_good|by apply error_good].
Qed.
Lemma HubHandler_good path : good env r s (HubHandler env r path s).
Proof.
  unfold HubHandler. destruct (find_endpoint _ _) as [e|]; [apply handle_good|].
  destruct (existsb _ mux); by apply reply_good.
Qed.
End Request.
End Operations.

(** ** Lemmas: what an operation leaves alone *)

Definition ids_of (h : Hub) : gmap string Registration := s_Identities (mem (h_store h)).
(** Nothing but one instance is touched. *)
Definition frame (id : string) (h h' : Hub) : Prop :=
  ids_of h' = ids_of h ∧ ∀ id', id' ≠ id → inst_at h' id' = inst_at h id'.
Lemma frame_store id h h' h'' : h_store h'' = h_store h' → frame id h h' → frame id h h''.
Proof. unfold frame, ids_of, inst_at. by intros ->. Qed.
Lemma frame_same id h h' : h_store h' = h_store h → frame id h h'.
Proof. unfold frame, ids_of, inst_at. by intros ->. Qed.

Lemma Update_frame {A} env id (fn : M Instance_ A) h : frame id h (onStore (Update env id fn) h).2.
Proof.
  destruct (inst_at h id) as [i|] eqn:Hi.
  - destruct (fn (ensureMaps i)) as [r i'] eqn:E. rewrite (onStore_Update_run _ _ _ _ _ _ _ Hi E).
    destruct r; [destruct (save_fault env)|..]; (split; [done|]); intros id' Hne; by apply inst_at_put_ne.
  - unfold onStore, Update. change (s_Instances (mem (h_store h)) !! id) with (inst_at h id). by rewrite Hi.
Qed.
Lemma Remove_frame env id h : frame id h (onStore (Remove env id) h).2.
Proof.
  unfold onStore, Remove. rewrite bind_get. destruct (_ !! id); [|by apply frame_same].
  unfold set_mem. rewrite bind_modify. unfold save.
  destruct (save_fault env); (split; [done|]); intros id' Hne; by apply lookup_delete_ne.
Qed.
Lemma bind_frame {A B} id (c : M Hub A) (k : A → M Hub B) h :
  frame id h (c h).2 → (∀ a h', h_store (k a h').2 = h_store h') → frame id h (bindM c k h).2.
Proof.
  intros Hf Hk. unfold bindM. destruct (c h) as [[a|e|] h']; [|done..]. by eapply frame_store; [apply Hk|].
Qed.

(** The part of an instance that only its owner decides about. *)
Definition kept (i i' : Instance_) : Prop :=
  static i' = static i ∧ mget (i_Members i') = mget (i_Members i) ∧ i_Burned i' = i_Burned i ∧
  i_SharedToken i' = i_SharedToken i ∧ i_LighthouseCert i' = i_LighthouseCert i ∧ i_CACert i' = i_CACert i ∧
  (∀ rid r, mget (i_Requests i) !! rid = Some r → ∃ r', mget (i_Requests i') !! rid = Some r' ∧
     hr_Fingerprint r' = hr_Fingerprint r ∧ hr_Kind r' = hr_Kind r ∧ hr_Bundle r' = hr_Bundle r ∧
     (hr_Status r' = hr_Status r ∨ hr_Status r = StatusRejected ∧ hr_Status r' = StatusPending)).
Lemma kept_refl i : kept i i.
Proof. unfold kept. split_and!; try done. intros rid r Hr. exists r. split_and!; auto. Qed.
Lemma kept_ensureMaps i i' : kept (ensureMaps i) i' → kept i i'.
Proof. done. Qed.

(** The identifier drawn for a new request is not one in use. *)
Definition fresh_id (env : Env) (h : Hub) : Prop :=
  ∀ id i, inst_at h id = Some i → mget (i_Requests i) !! newID env = None.

Section Frames.
Context `{HC : Crypto}.

Lemma allocations_kept i i' :
  extends i i' → i_LighthouseCert i' = i_LighthouseCert i → i_CACert i' = i_CACert i → kept i i'.
Proof.
  intros (Es & Er & Em & Eb & Et & _) El Ec. unfold kept. rewrite Er, Em. split_and!; try done.
  intros rid r Hr. exists r. split_and!; auto.
Qed.
Lemma allocate_certs ρ fp kind i :
  i_LighthouseCert (allocate ρ fp kind i).2 = i_LighthouseCert i ∧ i_CACert (allocate ρ fp kind i).2 = i_CACert i.
Proof.
  unfold allocate, bindM, modify, getM, assignM, massign, retM, panic. destruct (i_Allocations i) eqn:E.
  all: case_match; [|done..]; simpl; rewrite ?E; done.
Qed.
Lemma allocate6_certs ρ fp kind i :
  i_LighthouseCert (allocate6 ρ fp kind i).2 = i_LighthouseCert i ∧ i_CACert (allocate6 ρ fp kind i).2 = i_CACert i.
Proof.
  unfold allocate6, bindM, modify, getM, assignM, massign, retM, panic. destruct (negb _); [done|].
  destruct (i_Allocations6 i) eqn:E. all: case_match; [|done..]; simpl; rewrite ?E; done.
Qed.

Lemma enroll_fn_kept env req who fp i :
  inst_wf i → nonnil i → mget (i_Requests i) !! newID env = None → kept i (enroll_fn env req who fp i).2.
Proof.
  intros Hwf Hn Hfresh. pose proof Hn as (Hal & Hrq & Hmb). unfold enroll_fn. rewrite bind_get, bind_guard.
  destruct (negb (_ && _)); [|apply kept_refl]. rewrite bind_guard. destruct (negb (burned i fp)); [|apply kept_refl].
  destruct (find_first _ _) as [[k r]|] eqn:Hf.
  - apply find_first_Some in Hf as [Hin _]. apply elem_of_range in Hin.
    rewrite (bind_run _ _ _ _ _ (assignM_run _ _ _ _ _ Hrq)). unfold kept. simpl. split_and!; try done.
    intros rid r0 Hr0. destruct (decide (rid = k)) as [->|Hne].
    + rewrite Hin in Hr0. injection Hr0 as <-. eexists. rewrite lookup_insert_eq. split; [done|].
      destruct (reenrolled_same req (a_SourceAddr who) r) as (?&?&_). split_and!; [done..| |].
      * unfold reenrolled. by case_decide.
      * unfold reenrolled. case_decide as Hd; [right|left]; done.
    + exists r0. rewrite lookup_insert_ne by done. split_and!; auto.
  - destruct (allocate_spec (ρ_of env) fp (a_Kind who) i Hwf) as (addr & err & i1 & E1 & Hwf1 & Hext1 & _).
    rewrite (bind_run _ _ _ _ _ E1). pose proof (allocate_certs (ρ_of env) fp (a_Kind who) i) as [C1 C2].
    destruct (allocate6_spec (ρ_of env) fp (a_Kind who) i1 Hwf1) as (addr6 & err6 & i2 & E2 & Hwf2 & Hext2 & _).
    rewrite (bind_run _ _ _ _ _ E2). pose proof (allocate6_certs (ρ_of env) fp (a_Kind who) i1) as [C3 C4].
    rewrite E1 in C1, C2. rewrite E2 in C3, C4. simpl in C1, C2, C3, C4.
    pose proof (extends_trans _ _ _ Hext1 Hext2) as Hext.
    assert (kept i i2) as Hk by (apply allocations_kept; [done|congruence..]).
    destruct (negb _ && negb _); [by destruct err, err6|].
    pose proof Hext as (_ & Er & _).
    assert (is_Some (i_Requests i2)) as Hrq2 by by rewrite Er.
    rewrite (bind_run _ _ _ _ _ (assignM_run _ _ _ _ _ Hrq2)). unfold kept in *. simpl.
    destruct Hk as (?&?&?&?&?&?&_). split_and!; try done. rewrite Er. intros rid r Hr. exists r.
    rewrite lookup_insert_ne by congruence. split_and!; auto.
Qed.

Lemma quiet_preserves {A} (Q : Hub → Prop) (c : M Hub A) : quiet c → preserves Q c.
Proof. intros Hq h Hh. by rewrite Hq. Qed.

(** Everything of [h] is still there. *)
Definition grown (h h' : Hub) : Prop :=
  ids_of h' = ids_of h ∧ ∀ id i, inst_at h id = Some i → inst_at h' id = Some i.
Lemma Add_grown env inst h : preserves (grown h) (onStore (Add env inst)).
Proof.
  intros h1 [Hi Hg]. unfold onStore, Add. rewrite bind_get.
  destruct (s_Instances (mem (h_store h1)) !! i_ID inst) eqn:Hn; [done|]. destruct (find_first _ _); [done|].
  unfold set_mem. rewrite bind_modify. unfold save.
  destruct (save_fault env); (split; [done|]); intros id i Hid%Hg; unfold inst_at in *; simpl;
    (rewrite lookup_insert_ne; [done|]); intros <-; congruence.
Qed.
Lemma CreateInstance_grown env binder owner name token h :
  grown h (CreateInstance env binder owner name token h).2.
Proof.
  assert (preserves (grown h) (CreateInstance env binder owner name token)) as Hp; [|by apply Hp].
  unfold CreateInstance. apply preserves_bind; [apply preserves_get|intros h1]. cbn zeta.
  apply preserves_bind; [apply quiet_preserves, quiet_liftR|intros overlay].
  apply preserves_bind; [apply quiet_preserves, quiet_liftR|intros port].
  apply preserves_bind; [apply quiet_preserves, quiet_liftR|intros lh].
  apply preserves_bind; [apply quiet_preserves, quiet_liftR|intros ta].
  apply preserves_bind; [apply quiet_preserves|intros [[o6 l6] t6]].
  { destruct (c_Overlays6 _); [apply quiet_ret|].
    repeat (apply quiet_bind; [apply quiet_liftR|intros ?]). apply quiet_ret. }
  apply preserves_bind; [apply quiet_preserves; by destruct (GenerateHostKey env)|intros [pub key]]. cbn zeta.
  apply preserves_bind; [apply Add_grown|intros _; apply preserves_ret].
Qed.

(** Every instance of [h] is still there, its governed part untouched. *)
Definition undecided (h h' : Hub) : Prop :=
  ids_of h' = ids_of h ∧
  ∀ id i, inst_at h id = Some i → ∃ i', inst_at h' id = Some i' ∧ kept i i'.
Lemma undecided_refl h : undecided h h.
Proof. split; [done|]. intros id i Hi. exists i. split; [done|apply kept_refl]. Qed.
Lemma Enroll_frame cfg env ref req who h :
  hub_ok cfg h → fresh_id env h → undecided h (Enroll env ref req who h).2.
Proof.
  intros [_ Hs] Hfresh. pose proof (undecided_refl h) as H0.
  unfold Enroll. rewrite bind_liftR. destruct (Validate req) as [v|e|]; [|exact H0..]. rewrite bind_get.
  set (pre := if decide _ then _ else _).
  assert (quiet pre) as Hq.
  { unfold pre. case_decide; [|apply quiet_ret]. destruct (Resolve _ _ _); [apply quiet_guard|apply quiet_ret..]. }
  clearbody pre. unfold bindM at 1. specialize (Hq h). destruct (pre h) as [[[]|e|] h1]; simpl in Hq; subst h1; [|exact H0..].
  rewrite bind_guard. destruct (negb _); [|exact H0]. rewrite bind_liftR.
  destruct (Resolve _ _ _) as [t|e|] eqn:Hr; [|exact H0..]. pose proof (Resolve_id _ _ _ _ _ Hs Hr) as Ht.
  destruct (so_inst _ _ (proj1 Hs) _ _ Ht) as [_ Hwf].
  match goal with |- context [enroll_fn ?a ?b ?c ?d] =>
    pose proof (enroll_fn_kept a b c d (ensureMaps t) (ensureMaps_wf _ Hwf) (ensureMaps_nonnil t) (Hfresh _ _ Ht)) as Hk;
    destruct (enroll_fn a b c d (ensureMaps t)) as [r t'] eqn:Hrun;
    pose proof (Update_frame env (i_ID t) (enroll_fn a b c d) h) as [Hids Hfr];
    rewrite (onStore_Update_run env _ _ h t r t' Ht Hrun) in * end.
  split; [exact Hids|]. intros id i Hi. destruct (decide (id = i_ID t)) as [->|Hne].
  - exists t'. split; [destruct r; [destruct (save_fault env)|..]; apply inst_at_put|].
    change (inst_at h (i_ID t) = Some t) in Ht. rewrite Hi in Ht. injection Ht as ->. exact Hk.
  - exists i. split; [rewrite Hfr; done|apply kept_refl].
Qed.

Lemma targeted_frame cfg env op id h :
  hub_ok cfg h → op_target op = Some id → frame id h (run_op env op h).2.
Proof.
  intros [_ Hs] Ht.
  assert (∀ id, h_store (applyBlocklist env id h).2 = h_store h) as _.
  { intros id'. by destruct (applyBlocklist_ok env id' h) as (_&_&?). }
  destruct op; try done; cbn [op_target] in Ht; injection Ht as <-; cbn [run_op].
  - unfold ActivateInstance. apply bind_frame; [apply Update_frame|]. intros _ h'. rewrite bind_get, bind_liftR.
    unfold Get. destruct (_ !! _) as [i|]; [|done]. unfold lhs_stop. rewrite bind_modify.
    by destruct (lhs_start_ok env i (set_lhs (delete id0 (h_lhs h')) h')) as (_&_&?).
  - unfold Decide. rewrite bind_get. apply Update_frame.
  - apply Update_frame.
  - apply bind_frame; [apply Update_frame|]. intros _ h'. by destruct (applyBlocklist_ok env id0 h') as (_&_&?).
  - apply bind_frame; [apply Update_frame|]. intros _ h'. by destruct (applyBlocklist_ok env id0 h') as (_&_&?).
  - unfold ignore. apply bind_frame; [apply Update_frame|done].
  - unfold SetSharedToken. rewrite bind_guard. destruct (negb _); [apply Update_frame|by apply frame_same].
  - unfold Delete. rewrite bind_get, bind_liftR. unfold Get.
    destruct (s_Instances (mem (h_store h)) !! id0) as [i|] eqn:Hi; [|by apply frame_same].
    destruct (so_inst _ _ (proj1 Hs) _ _ Hi) as [-> _]. unfold lhs_stop. rewrite bind_modify.
    apply (Remove_frame env id0 (set_lhs (delete id0 (h_lhs h)) h)).
Qed.

(** An operation that does not decide about an instance leaves its governed
    part alone. *)
Lemma run_op_kept cfg env op h id i :
  hub_ok cfg h → op ≠ OpRestart → fresh_id env h → inst_at h id = Some i → op_target op ≠ Some id →
  ∃ i', inst_at (run_op env op h).2 id = Some i' ∧ kept i i'.
Proof.
  intros Hok Hop Hfresh Hi Ht. destruct (op_target op) as [id'|] eqn:E.
  - exists i. split; [|apply kept_refl]. destruct (targeted_frame cfg env op id' h Hok E) as [_ Hf].
    rewrite Hf; [done|]. congruence.
  - destruct op; try done; cbn [run_op].
    + exists i. split; [|apply kept_refl]. unfold onStore, Register. rewrite bind_get.
      destruct (_ !! _); unfold set_mem; rewrite bind_modify; unfold save; by destruct (save_fault env).
    + exists i. split; [|apply kept_refl]. rewrite ignore_hub. by apply CreateInstance_grown.
    + rewrite ignore_hub. by apply (Enroll_frame cfg).
Qed.

Lemma run_op_ids cfg env op h :
  hub_ok cfg h → op ≠ OpRestart → fresh_id env h →
  (∀ reg, op = OpRegister reg → HasPrefix (g_Identity reg) IdentityPrefix = true) →
  ids_ok h → ids_ok (run_op env op h).2.
Proof.
  intros Hok Hop Hfresh Hreg Hids.
  assert (∀ h', ids_of h' = ids_of h → ids_ok h') as Hsame by (unfold ids_ok, ids_of in *; by intros h' ->).
  destruct (op_target op) as [id|] eqn:E.
  { apply Hsame. by destruct (targeted_frame cfg env op id h Hok E). }
  destruct op; try done; cbn [run_op].
  - specialize (Hreg _ eq_refl).
    assert (∀ g, g_Identity g = g_Identity r → ∀ k g', <[g_Identity r := g]> (ids_of h) !! k = Some g' →
      g_Identity g' = k ∧ HasPrefix k IdentityPrefix = true) as Hins.
    { intros g Hg k g' [[<- <-]|[_ Hk]]%lookup_insert_Some; [done|]. by apply Hids. }
    unfold onStore, Register. rewrite bind_get.
    destruct (s_Identities (mem (h_store h)) !! g_Identity r) as [old|] eqn:Ho; unfold set_mem; rewrite bind_modify; unfold save.
    + destruct (Hids _ _ Ho) as [Eo _]. destruct (save_fault env); intros k g'; by apply Hins.
    + destruct (save_fault env); intros k g'; by apply Hins.
  - apply Hsame. rewrite ignore_hub. apply CreateInstance_grown.
  - apply Hsame. rewrite ignore_hub. by apply (Enroll_frame cfg).
Qed.
End Frames.

(** ** Lemmas: rate limits *)

(** How many of a sequence of attempts, of any sources, are let through for
    one of them. *)
Fixpoint admitted_of (key : string) (calls : list (Time * string)) (rl : rateLimiter) : Z :=
  match calls with
  | [] => 0
  | (t, k) :: calls =>
      let '(ok, rl') := allow t k rl in
      (if ok && bool_decide (k = key) then 1 else 0) + admitted_of key calls rl'
  end.

Lemma allow_static t k rl : rl_window (allow t k rl).2 = rl_window rl ∧ rl_limit (allow t k rl).2 = rl_limit rl.
Proof. unfold allow. destruct (_ !! k) as [b|]; [destruct (_ <? _)|]; done. Qed.
Lemma allow_other t k key rl : k ≠ key → rl_buckets (allow t k rl).2 !! key = rl_buckets rl !! key.
Proof.
  intros Hne. unfold allow. destruct (_ !! k) as [b|]; [destruct (_ <? _)|]; simpl; by rewrite lookup_insert_ne.
Qed.

(** While the window of a source is open, it has what is left of its limit. *)
Lemma admitted_open key calls rl b :
  rl_buckets rl !! key = Some b → Forall (λ c, c.1 ≤ bk_reset b) calls →
  admitted_of key calls rl ≤ Z.max 0 (rl_limit rl - bk_count b).
Proof.
  revert rl b. induction calls as [|[t k] calls IH]; intros rl b Hb Hc; simpl; [lia|].
  apply Forall_cons in Hc as [Ht Hc]. simpl in Ht. pose proof (allow_static t k rl) as [_ El].
  destruct (decide (k = key)) as [->|Hne].
  - unfold allow in *. rewrite Hb in *. rewrite (proj2 (Z.ltb_ge _ _)) in * by lia.
    rewrite bool_decide_true by done.
    specialize (IH (mkLimiter (rl_window rl) (rl_limit rl) (<[key := mkBucket (bk_count b + 1) (bk_reset b)]> (rl_buckets rl)))
                  (mkBucket (bk_count b + 1) (bk_reset b))).
    simpl in IH. rewrite lookup_insert_eq in IH. specialize (IH eq_refl Hc).
    destruct (Z.leb_spec (bk_count b + 1) (rl_limit rl)); simpl in *; lia.
  - pose proof (allow_other t k key rl Hne) as Eb. destruct (allow t k rl) as [ok rl']. simpl in *.
    rewrite bool_decide_false, andb_false_r by done. rewrite Hb in Eb. specialize (IH rl' b Eb Hc). rewrite El in IH. lia.
Qed.
Lemma admitted_window key calls rl a :
  1 ≤ rl_limit rl → (∀ b, rl_buckets rl !! key = Some b → 0 ≤ bk_count b) →
  Forall (λ c, a ≤ c.1 ≤ a + rl_window rl) calls →
  admitted_of key calls rl ≤
    match rl_buckets rl !! key with Some b => Z.max 0 (rl_limit rl - bk_count b) | None => 0 end + rl_limit rl.
Proof.
  revert rl. induction calls as [|[t k] calls IH]; intros rl Hl Hn Hc; simpl; [case_match; lia|].
  apply Forall_cons in Hc as [Ht Hc]. simpl in Ht. pose proof (allow_static t k rl) as [Ew El].
  destruct (decide (k = key)) as [->|Hne].
  - assert (∀ b, b = mkBucket 1 (t + rl_window rl) →
      admitted_of key calls (mkLimiter (rl_window rl) (rl_limit rl) (<[key := b]> (rl_buckets rl))) ≤ rl_limit rl - 1) as Hopen.
    { intros b ->. etrans; [eapply admitted_open; [apply lookup_insert_eq|]|simpl; lia].
      eapply Forall_impl; [exact Hc|]. simpl. intros c Hca. lia. }
    unfold allow in *. rewrite bool_decide_true by done.
    destruct (rl_buckets rl !! key) as [b|] eqn:Hb; [|simpl; specialize (Hopen _ eq_refl); lia].
    destruct (Z.ltb_spec (bk_reset b) t) as [|Hr]; [simpl; specialize (Hopen _ eq_refl); lia|].
    specialize (Hn _ eq_refl). simpl.
    match goal with |- context [admitted_of key calls ?x] => specialize (IH x) end. simpl in IH.
    rewrite lookup_insert_eq in IH. simpl in IH. specialize (IH Hl).
    assert (admitted_of key calls (mkLimiter (rl_window rl) (rl_limit rl) (<[key := mkBucket (bk_count b + 1) (bk_reset b)]> (rl_buckets rl)))
            ≤ Z.max 0 (rl_limit rl - (bk_count b + 1)) + rl_limit rl).
    { apply IH; [intros b' [= <-]; simpl; lia|done]. }
    destruct (Z.leb_spec (bk_count b + 1) (rl_limit rl)); simpl; lia.
  - pose proof (allow_other t k key rl Hne) as Eb. destruct (allow t k rl) as [ok rl']. simpl in *.
    rewrite bool_decide_false, andb_false_r by done. specialize (IH rl'). rewrite El, Eb, Ew in IH. by apply IH.
Qed.

(** ** Properties *)

Section Properties.
Context `{HC : Crypto} `{HE : Ed25519} `{HS : SshLib} `{HJ : Json}.

(** One request, from a state the hub can reach. *)
Lemma api_step cfg env r path s :
  config_ok cfg → reachable cfg (a_hub s) → ids_ok (a_hub s) → fresh_id env (a_hub s) →
  let out := HubHandler env r path s in
  out.1 ≠ Aborted ∧ reachable cfg (a_hub out.2) ∧ ids_ok (a_hub out.2) ∧
  (a_hub out.2 = a_hub s ∨ ∃ op, caused env r s op ∧ a_hub out.2 = (run_op env op (a_hub s)).2).
Proof.
  intros Hcfg Hr Hids Hfresh out. pose proof (reachable_ok _ _ Hcfg Hr) as Hok.
  destruct (HubHandler_good cfg Hcfg env r s Hids Hok path) as [Hna [E|(op & Hc & E)]]; fold out in Hna, E.
  - rewrite E. by split_and!; [..|left].
  - destruct (caused_legal _ _ _ _ Hc) as [Hl Hop]. rewrite E. split_and!; [done|..].
    + eapply reachable_step; [done|by constructor].
    + eapply run_op_ids; [done..| |done]. intros reg ->. by inversion Hc.
    + right. by exists op.
Qed.

(** C10: whatever is asked of the API, what happens to the hub is one of its
    operations, at most, and every handler comes to its end: the state stays
    one the hub can reach, so what holds of every such state holds of a hub
    that is driven over HTTP; registrations stay filed under the keys they
    are for. *)
Theorem api_drives_the_hub (cfg : Config) (env : Env) (r : HttpRequest) (path : list string) (s : Api) :
  config_ok cfg → reachable cfg (a_hub s) → ids_ok (a_hub s) → fresh_id env (a_hub s) →
  let out := HubHandler env r path s in
  out.1 ≠ Aborted ∧ reachable cfg (a_hub out.2) ∧ ids_ok (a_hub out.2) ∧
  (a_hub out.2 = a_hub s ∨ ∃ op, caused env r s op ∧ a_hub out.2 = (run_op env op (a_hub s)).2).
Proof. apply api_step. Qed.

(** C9: only the owner decides.  When a request changes who is a member of an
    instance, what was burned, its token, its certificates or the decision on
    a request, or makes the instance disappear, then that request carried a
    fresh signature of the identity that owns the instance.  Anything else
    (registering, creating another instance, enrolling, asking to join, or
    the owner of another instance calling) leaves all of that as it is. *)
Theorem only_the_owner_decides (cfg : Config) (env : Env) (r : HttpRequest) (path : list string) (s : Api)
    (id : string) (i : Instance_) :
  config_ok cfg → reachable cfg (a_hub s) → ids_ok (a_hub s) → fresh_id env (a_hub s) →
  inst_at (a_hub s) id = Some i →
  let s' := (HubHandler env r path s).2 in
  (∃ i', inst_at (a_hub s') id = Some i' ∧ kept i i') ∨
  (genuine (ρ_of env) (now env) r (readBody r) (i_Owner i) ∧ i_Owner i = Header_Get r HeaderIdentity).
Proof.
  intros Hcfg Hr Hids Hfresh Hi s'. pose proof (reachable_ok _ _ Hcfg Hr) as Hok.
  destruct (HubHandler_good cfg Hcfg env r s Hids Hok path) as [_ [E|(op & Hc & E)]]; fold s' in E.
  - left. exists i. rewrite E. split; [done|apply kept_refl].
  - destruct (caused_legal _ _ _ _ Hc) as [Hl Hop]. destruct (decide (op_target op = Some id)) as [Ht|Ht].
    + right. destruct Hc as [| | | |op inst Ht' Hi' (n & Ha)]; try done.
      rewrite Ht in Ht'. injection Ht' as ->. rewrite Hi in Hi'. injection Hi' as ->.
      apply VerifyRequest_accepts in Ha as [Hg _]. split; [done|]. by destruct Hg.
    + left. rewrite E. by eapply run_op_kept.
Qed.

(** C11: the tables are for members.  The routes and the member list of an
    instance are only answered to a request signed by a machine that is a
    member and is not banned, or by the owner. *)
Theorem tables_are_for_members (env : Env) (r : HttpRequest) (id : string) (e : Endpoint)
    (s s' : Api) (body : Payload) :
  ids_ok (a_hub s) → e = ERoutes id ∨ e = EMembers id → handle env r e s = (Reply StatusOK body, s') →
  ∃ identity inst, accepted env r s identity ∧ Resolve (ρ_of env) (h_store (a_hub s)) id = Ok inst ∧
    (identity = i_Owner inst ∨
     ∃ fp m, mget (i_Members inst) !! fp = Some m ∧ m_Identity m = identity ∧ Banned m = false).
Proof.
  intros Hids He H.
  assert (∃ next, memberOnly env r id next s = (Reply StatusOK body, s')) as [next Hm].
  { destruct He as [-> | ->]; eauto. }
  unfold memberOnly, signed in Hm.
  destruct (VerifyRequest _ _ _ _ _) as [[identity|?|] n] eqn:Ev; [|done..]. cbn zeta in Hm.
  unfold Identity in Hm. change (a_hub (set_nonces n s)) with (a_hub s) in Hm.
  destruct (s_Identities (mem (h_store (a_hub s))) !! identity) as [who|] eqn:Hw; [|done].
  destruct (Hids _ _ Hw) as [Hi _]. unfold resolved in Hm. change (a_hub (set_nonces n s)) with (a_hub s) in Hm.
  destruct (Resolve _ _ _) as [inst|?|] eqn:Hr; [|done..].
  destruct (MemberOf (ρ_of env) inst (g_Identity who)) as [m|] eqn:Hmem; [|done].
  exists identity, inst. split_and!; [by exists n|done|]. rewrite Hi in Hmem. unfold MemberOf in Hmem.
  case_decide; [done|]. destruct (find_first _ _) as [[fp m']|] eqn:Hf.
  - right. apply find_first_Some in Hf as [Hin [Hid%bool_decide_eq_true Hb%negb_true_iff]%andb_true_iff].
    apply elem_of_range in Hin. by exists fp, m'.
  - case_decide; [by left|done].
Qed.
End Properties.

(** C40: what the unauthenticated endpoints let through.  Within any span of one
    window, from whatever state of the limiter, a source is let through at most
    twice the limit: a window is opened by the first call after the last one
    closed, so two of them can meet in the middle.  Other sources do not
    count. *)
Theorem rate_limit_bound (rl : rateLimiter) (key : string) (calls : list (Time * string)) (a : Time) :
  1 ≤ rl_limit rl → (∀ b, rl_buckets rl !! key = Some b → 0 ≤ bk_count b) →
  Forall (λ c, a ≤ c.1 ≤ a + rl_window rl) calls →
  admitted_of key calls rl ≤ 2 * rl_limit rl.
Proof.
  intros Hl Hn Hc. pose proof (admitted_window key calls rl a Hl Hn Hc) as H.
  destruct (rl_buckets rl !! key) as [b|] eqn:E; [specialize (Hn _ eq_refl)|]; lia.
Qed.
