(* ===== verification/ApiExamples.v ===== *)
(** * A run of the API

    A hub that starts empty, a machine that registers with an ssh key, creates
    an instance and asks for its members: the requests, and the properties of
    the API at each of them. *)

From Stdlib Require Import Ascii.
From S2P Require Import HubApi WrakSpec.

Open Scope Z_scope.

Definition ex_pool : Pool := mkPool (mkPrefix (Addr4 3323133952) 16) 24.
Definition ex_cfg : Config :=
  {| c_APIAddr := ":8443"; c_NebulaBind := "0.0.0.0"; c_PublicEndpoint := "hub.example";
     c_PortMin := 20000; c_PortMax := 20001; c_Overlays := [ex_pool]; c_Overlays6 := [];
     c_Token := "token"; c_Binders := {["ann" := ["k"]]}; c_StatePath := "hub.json"; c_MTU := 1500;
     c_Relay := true; c_DNS := true; c_NoLighthouseTun := false |}.
Definition ex_json : Json :=
  {| decode_register := λ _, Some (mkRegisterRequest "laptop" ex_id ex_armored);
     decode_create := λ _, Some (mkCreateRequest "Prod" "secret");
     decode_lighthouse := λ _, None;
     decode_decision := λ _, None;
     decode_ban := λ b, if decide (b = "{ban}") then Some (mkBanRequest "db" "why") else None;
     decode_token := λ b, if decide (b = "{token}") then Some (mkTokenRequest "other") else None;
     decode_join := λ _, None;
     decode_enroll := λ _, None |}.
Definition ex_env (n : Z) : Env :=
  {| now := ex_noon + n * Second; newID := "id" +:+ Itoa n; GenerateHostKey := inr ("pub", "key"); save_fault := None;
     nebula_start := None; nebula_reload := None; ρ_of := range_default |}.

Definition ex_plain (method path body : string) : HttpRequest :=
  mkHttp "hub.example" method path ∅ ∅ body "192.0.2.7:4242".
Definition ex_sign (n : Z) (r : HttpRequest) : HttpRequest :=
  SignRequest (HC := toy_crypto) (HE := toy_ed25519) range_default (ex_noon + n * Second) (be_bytes 16 n) ex_identity (r_Body r) r.
Definition ex_serve (n : Z) (r : HttpRequest) (path : list string) : Handler :=
  HubHandler (HC := toy_crypto) (HE := toy_ed25519) (HS := toy_ssh) (HJ := ex_json) (ex_env n) r path.

Definition ex_hub0 : Hub := mkHub ex_cfg (OpenStore None) ∅.
Definition ex_s0 : Api := api_of ex_hub0.
Definition ex_register : HttpRequest := ex_plain "POST" "/v1/register" "{}".
Definition ex_s1 : Api := (ex_serve 1 ex_register ["v1"; "register"] ex_s0).2.
Definition ex_create : HttpRequest := ex_sign 2 (ex_plain "POST" "/v1/instances" "{}").
Definition ex_s2 : Api := (ex_serve 2 ex_create ["v1"; "instances"] ex_s1).2.
Definition ex_members : HttpRequest := ex_sign 3 (ex_plain "GET" "/v1/instances/prod/members" "").
Definition ex_token : HttpRequest := ex_sign 4 (ex_plain "POST" "/v1/instances/prod/token" "{token}").

Definition status_of (r : Response) : Z := match r with Reply st _ => st | Aborted => 0 end.
Example ex_statuses :
  status_of (ex_serve 1 ex_register ["v1"; "register"] ex_s0).1 = StatusCreated ∧
  status_of (ex_serve 2 ex_create ["v1"; "instances"] ex_s1).1 = StatusCreated ∧
  status_of (ex_serve 3 ex_members ["v1"; "instances"; "prod"; "members"] ex_s2).1 = StatusOK ∧
  status_of (ex_serve 4 ex_token ["v1"; "instances"; "prod"; "token"] ex_s2).1 = StatusNoContent ∧
  status_of (ex_serve 5 (ex_plain "GET" "/v1/instances/prod/members" "") ["v1"; "instances"; "prod"; "members"] ex_s2).1 = StatusUnauthorized.
Proof. by vm_compute. Qed.

(** ** The states along the run *)

Lemma api_config_ok : config_ok ex_cfg.
Proof. constructor; [repeat constructor; done|constructor|done]. Qed.
Lemma fresh_id_check env h :
  bool_decide (map_Forall (λ _ i, mget (i_Requests i) !! newID env = None) (s_Instances (mem (h_store h)))) = true →
  fresh_id env h.
Proof. intros H%bool_decide_eq_true id i Hi. exact (H id i Hi). Qed.

Definition ex_good (s : Api) : Prop := reachable (HC := toy_crypto) ex_cfg (a_hub s) ∧ ids_ok (a_hub s).
Lemma ex_good0 : ex_good ex_s0.
Proof.
  split; [apply (reachable_new (HC := toy_crypto) _ (ex_env 0)); reflexivity|]. intros k g Hk. unfold ex_s0 in Hk. simpl in Hk.
  by rewrite lookup_empty in Hk.
Qed.
Lemma ex_good_step n r path s : ex_good s → fresh_id (ex_env n) (a_hub s) → ex_good (ex_serve n r path s).2.
Proof.
  intros [Hr Hids] Hf.
  destruct (api_step (HC := toy_crypto) (HE := toy_ed25519) (HS := toy_ssh) (HJ := ex_json) ex_cfg (ex_env n) r path s
              api_config_ok Hr Hids Hf) as (_ & ? & ? & _).
  by split.
Qed.
Lemma ex_good1 : ex_good ex_s1.
Proof. apply ex_good_step; [apply ex_good0|]. apply fresh_id_check. vm_compute. reflexivity. Qed.
Lemma ex_good2 : ex_good ex_s2.
Proof. apply ex_good_step; [apply ex_good1|]. apply fresh_id_check. vm_compute. reflexivity. Qed.
Lemma ex_fresh2 n : n = 4 → fresh_id (ex_env n) (a_hub ex_s2).
Proof. intros ->. apply fresh_id_check. vm_compute. reflexivity. Qed.

(** ** The theorems at this run *)

Lemma api_drives_the_hub_witness :
  let out := ex_serve 4 ex_token ["v1"; "instances"; "prod"; "token"] ex_s2 in
  out.1 ≠ Aborted ∧ ids_ok (a_hub out.2).
Proof.
  intros out. destruct ex_good2 as [Hr Hids].
  pose proof (@api_drives_the_hub toy_crypto toy_ed25519 toy_ssh ex_json ex_cfg (ex_env 4) ex_token
    ["v1"; "instances"; "prod"; "token"] ex_s2 api_config_ok Hr Hids (ex_fresh2 4 eq_refl)) as (H1 & _ & H2 & _).
  exact (conj H1 H2).
Defined.

Definition ex_inst2 : Instance_ :=
  match inst_at (a_hub ex_s2) "id2" with
  | Some i => i
  | None => mkInstance "" "" "" "" PrefixZero PrefixZero 0 AddrZero AddrZero AddrZero AddrZero "" "" "" ""
              false "" None None None None [] 0
  end.
Lemma api_at2 : inst_at (a_hub ex_s2) "id2" = Some ex_inst2.
Proof. vm_compute. reflexivity. Qed.

Lemma only_the_owner_decides_witness :
  let s' := (ex_serve 4 ex_token ["v1"; "instances"; "prod"; "token"] ex_s2).2 in
  i_SharedToken <$> inst_at (a_hub s') "id2" = Some "other" ∧ i_SharedToken ex_inst2 = "secret" ∧
  i_Owner ex_inst2 = Header_Get ex_token HeaderIdentity.
Proof.
  intros s'. destruct ex_good2 as [Hr Hids].
  assert (i_SharedToken <$> inst_at (a_hub s') "id2" = Some "other") as Ht by (vm_compute; reflexivity).
  assert (i_SharedToken ex_inst2 = "secret") as Hs by (vm_compute; reflexivity).
  split; [exact Ht|]. split; [exact Hs|].
  destruct (@only_the_owner_decides toy_crypto toy_ed25519 toy_ssh ex_json ex_cfg (ex_env 4) ex_token
    ["v1"; "instances"; "prod"; "token"] ex_s2 "id2" ex_inst2 api_config_ok Hr Hids (ex_fresh2 4 eq_refl) api_at2)
    as [(i' & Hi' & Hk)|[_ He]]; [|exact He].
  exfalso. destruct Hk as (_ & _ & _ & Hk & _). unfold s', ex_serve in Ht. rewrite Hi' in Ht. simpl in Ht.
  rewrite Hk, Hs in Ht. discriminate Ht.
Defined.

Definition ex_listed : Response * Api := ex_serve 3 ex_members ["v1"; "instances"; "prod"; "members"] ex_s2.
Definition ex_list_body : Payload := match ex_listed.1 with Reply _ b => b | Aborted => PNone end.
Lemma ex_listed_ok :
  handle (HC := toy_crypto) (HE := toy_ed25519) (HS := toy_ssh) (HJ := ex_json) (ex_env 3) ex_members (EMembers "prod") ex_s2
  = (Reply StatusOK ex_list_body, ex_listed.2).
Proof. vm_compute. reflexivity. Qed.
Lemma tables_are_for_members_witness :
  ∃ inst, Resolve range_default (h_store (a_hub ex_s2)) "prod" = Ok inst.
Proof.
  destruct ex_good2 as [Hr Hids].
  destruct (@tables_are_for_members toy_crypto toy_ed25519 toy_ssh ex_json (ex_env 3) ex_members "prod"
    (EMembers "prod") ex_s2 ex_listed.2 ex_list_body Hids (or_intror eq_refl) ex_listed_ok) as (_ & inst & _ & H & _).
  exists inst. exact H.
Defined.

(** A limit of two calls a minute: three of one source go through in one. *)
Definition ex_limiter : rateLimiter := newRateLimiter 2 Minute.
Definition ex_calls : list (Time * string) :=
  [(61 * Second, "a"); (62 * Second, "a"); (63 * Second, "b"); (64 * Second, "a"); (121 * Second, "a")].
Definition ex_warm : rateLimiter := (allow (1 * Second) "a" ex_limiter).2.
Lemma rate_limit_bound_witness : admitted_of "a" ex_calls ex_warm ≤ 4 ∧ admitted_of "a" ex_calls ex_warm = 3.
Proof.
  split; [|vm_compute; reflexivity].
  apply (rate_limit_bound ex_warm "a" ex_calls (61 * Second)).
  - vm_compute. discriminate.
  - intros b Hb. vm_compute in Hb. injection Hb as <-. vm_compute. discriminate.
  - repeat constructor; vm_compute; discriminate.
Defined.
