(* ===== verification/Variant.v ===== *)
(** * What is fixed at link time: [internal/variant] and [internal/version]

    A variant is a configuration baked into the binary: base64 of a JSON file.
    Everything here is a default of the command line; the one thing other
    packages ask is whether the build allows the workarounds of [cheat]. *)

From Stdlib Require Import Ascii.
From S2P Require Export GoCodec.

Open Scope Z_scope.

(** ** Definitions *)

(** [base64.StdEncoding]: line breaks are skipped, and padding is required. *)
Definition pad : ascii := "="%char.
Definition trailing_pad (l : list ascii) : nat :=
  (length l - length (trim_right_by (λ c, bool_decide (c = pad)) l))%nat.
Definition StdDecodeString (s : string) : option (list Z) :=
  let l := filter (λ c, is_break c = false) (s2l s) in
  let k := trailing_pad l in
  if (length l mod 4 =? 0)%nat && (k <=? 2)%nat
  then DecodeB64 false (l2s (take (length l - k) l)) else None.

(** [variant.Config]. *)
Record VariantConfig : Type := mkVariantConfig {
  v_Hub : string;
  v_Token : string;
  v_Insecure : bool;
  v_Pin : string;
  v_Note : string;
  v_Cheat : bool;
}.

(** A binary: the strings the linker sets, and how JSON becomes a
    configuration. *)
Class Build := {
  VariantName : string;
  VariantEncoded : string;
  VersionBuild : string;
  unmarshal_variant : list Z → option VariantConfig;
}.

Section Variant.
Context `{HB : Build}.

(** [Load]. *)
Definition VariantLoad : option VariantConfig :=
  if decide (TrimSpace VariantEncoded = "") then None else StdDecodeString VariantEncoded ≫= unmarshal_variant.
Definition Cheating : bool :=
  match VariantLoad with Some cfg => v_Cheat cfg | None => false end.
(** [variant.String]. *)
Definition VariantString : string :=
  if decide (VariantName = "") then "" else
  match VariantLoad with
  | None => VariantName +:+ " (no configuration baked in)"
  | Some cfg => VariantName +:+ " (" +:+ v_Hub cfg +:+ ")"
  end.
(** [version.String] and [version.Nebula]. *)
Definition VersionString : string := VersionBuild.
Definition Nebula (role : string) : string := "robinet/" +:+ VersionBuild +:+ " " +:+ role.
End Variant.

(** ** Lemmas *)

(** A build nothing was baked into allows no workaround. *)
Lemma plain_build_cheats_not `{Build} : TrimSpace VariantEncoded = "" → Cheating = false.
Proof. unfold Cheating, VariantLoad. intros ->. done. Qed.

Example StdDecodeString_pads :
  StdDecodeString "aGk=" = Some [104; 105] ∧ StdDecodeString "aGk" = None ∧
  StdDecodeString "====" = None ∧ StdDecodeString "" = Some [].
Proof. by vm_compute. Qed.

(** A build that allows the workarounds, for concrete runs. *)
Definition toy_build (cheat : bool) : Build :=
  {| VariantName := "example"; VariantEncoded := "e30="; VersionBuild := "dev";
     unmarshal_variant := λ _, Some (mkVariantConfig "https://hub" "t" false "" "" cheat) |}.
