(* ===== verification/GoPath.v ===== *)
(** * More of Go's library: paths, lines, the environment of a process

    The part of [path/filepath], [bufio.Scanner], [strconv], [os] and [os/user]
    the machine's side uses, on Unix. *)

From Stdlib Require Import Ascii.
From S2P Require Export GoStrings.

Open Scope Z_scope.

(** ** Paths *)

(** One element of a path onto the elements kept so far, last first. *)
Definition clean_step (rooted : bool) (out : list string) (elem : string) : list string :=
  if decide (elem = "" ∨ elem = ".") then out
  else if decide (elem = "..") then
    match out with
    | [] => if rooted then [] else [".."]
    | top :: out' => if decide (top = "..") then ".." :: out else out'
    end
  else elem :: out.
(** [filepath.Clean]. *)
Definition Clean (path : string) : string :=
  let rooted := HasPrefix path "/" in
  let body := Join (rev (foldl (clean_step rooted) [] (Split path "/"%char))) "/" in
  if rooted then "/" +:+ body else if decide (body = "") then "." else body.
(** [filepath.Join]. *)
Definition JoinPath (elems : list string) : string :=
  match filter (λ e, e ≠ "") elems with
  | [] => ""
  | l => Clean (Join l "/")
  end.
(** [filepath.Base]. *)
Definition Base (path : string) : string :=
  if decide (path = "") then "." else
  let p := TrimRight path "/" in
  if decide (p = "") then "/" else
  default p (last (Split p "/"%char)).

(** ** Lines *)

(** [bufio.ScanLines]: a line without its break; an empty last one is none. *)
Definition drop_cr (line : list ascii) : list ascii :=
  match last line with
  | Some c => if code c =? 13 then take (length line - 1) line else line
  | None => line
  end.
Definition lines_of (raw : string) : list (list ascii) :=
  let parts := splitl (chr 10) [] (s2l raw) in
  match last parts with Some [] => take (length parts - 1) parts | _ => parts end.
Definition MaxScanTokenSize : nat := N.to_nat 65536.
(** [scanner.Scan] until a line answers: [inl] what the first such line gives,
    [inr] how scanning ended, an error for a line that does not fit. *)
Fixpoint scan {A} (f : string → option A) (l : list (list ascii)) : A + option error :=
  match l with
  | [] => inr None
  | line :: l =>
      if (MaxScanTokenSize <=? length line)%nat then inr (Some (Errorf "bufio.Scanner: token too long"))
      else match f (l2s (drop_cr line)) with Some a => inl a | None => scan f l end
  end.

(** ** Numbers *)

(** [strconv.ParseUint(s, 16, bits)]. *)
Definition ParseHex (s : string) (bits : Z) : option Z :=
  match s2l s with
  | [] => None
  | l => match mapM hex_value l with
         | Some ds => let n := foldl (λ acc d, acc * 16 + d) 0 ds in
                      if n <? 2 ^ bits then Some n else None
         | None => None
         end
  end.

(** ** The process *)

Record User : Type := mkUser { u_Username : string; u_Uid : string; u_Gid : string; u_HomeDir : string }.

(** What the operating system says. *)
Class Os := {
  Geteuid : Z;
  Getenv : string → string;
  CurrentUser : string + error;
  LookupUser : string → User + error;
  ReadFile : string → string + error;
}.

(** ** Examples *)

Example Clean_runs :
  Clean "a//b/./c/../d" = "a/b/d" ∧ Clean "/../a" = "/a" ∧ Clean "../../a/.." = "../.." ∧
  Clean "" = "." ∧ Clean "/" = "/" ∧ JoinPath ["/a"; ""; "../b"] = "/b".
Proof. by vm_compute. Qed.
Example Base_runs :
  Base "/a/b.c" = "b.c" ∧ Base "a/" = "a" ∧ Base "///" = "/" ∧ Base "" = ".".
Proof. by vm_compute. Qed.
Example ParseHex_runs : ParseHex "00001fF0" 64 = Some 8176 ∧ ParseHex "" 64 = None ∧ ParseHex "0x1" 64 = None.
Proof. by vm_compute. Qed.
