(* ===== verification/WrakSign.v ===== *)
(** * Signing with an ssh key: [internal/wrak/sshsig.go], [bootstrap.go]

    How a machine makes the signature that lets it register: the keys of an
    agent, the armored signature over a bootstrap message, and that a hub which
    authorizes the key accepts it. *)

From Stdlib Require Import Ascii.
From S2P Require Export WrakSpec GoPath.

Open Scope Z_scope.

(** A string the ssh wire format can carry: its length fits 32 bits. *)
Definition fits (s : string) : Prop := Z.of_nat (len s) < 2 ^ 32.
Definition wrapped_fits (w : wrappedSig) : Prop :=
  len (w_Magic w) = 6%nat ∧ 0 ≤ w_Version w < 2 ^ 32 ∧
  fits (w_PublicKey w) ∧ fits (w_Namespace w) ∧ fits (w_Reserved w) ∧ fits (w_HashAlgorithm w) ∧ fits (w_Signature w).

(** The writing half of the ssh and PEM libraries.  What is written within the
    bounds of the wire format is read back. *)
Class SshWriter `{HS : SshLib} := {
  Marshal_wrapped : wrappedSig → string;
  Marshal_sig : ssh_Signature → string;
  pem_EncodeToMemory : string → string → string;
  Unmarshal_Marshal_wrapped : ∀ w, wrapped_fits w → Unmarshal_wrapped (Marshal_wrapped w) = Some w;
  pem_Decode_Encode : ∀ bytes, pem_Decode (pem_EncodeToMemory pemType bytes) = Some (pemType, bytes);
}.

(** Anything that signs for an ssh public key. *)
Record Signer `{HS : SshLib} : Type := mkSigner { sn_PublicKey : PublicKey; sn_Sign : string → ssh_Signature + error }.

(** The running agent: what reaching it and listing its keys comes to. *)
Class SshAgent `{HS : SshLib} := {
  agent_Dial : string → () + error;
  agent_Signers : string → list Signer + error;
}.

Section Signing.
Context `{HC : Crypto} `{HS : SshLib} `{HW : !SshWriter}.

Definition SignSSHSIG (signer : Signer) (namespace message : string) : res string :=
  let algorithm := "sha512" in
  let? digest := hash algorithm message in
  let blob := marshal (mkSigned namespace "" algorithm (bytes_string digest)) in
  match sn_Sign signer blob with
  | inr e => Err (Wrap "could not sign: %w" e)
  | inl sig =>
      let wrapped := mkWrapped sshsigMagic sshsigVersion (sn_PublicKey signer) namespace "" algorithm (Marshal_sig sig) in
      Ok (pem_EncodeToMemory pemType (Marshal_wrapped wrapped))
  end.
(** [Bootstrap.Sign]. *)
Definition SignBootstrap (b : Bootstrap) (signer : Signer) : res string :=
  SignSSHSIG signer BootstrapNamespace (Message b).

Definition AgentSigners `{HO : Os} `{HA : !SshAgent} : res (list Signer) :=
  let socket := Getenv "SSH_AUTH_SOCK" in
  if decide (socket = "") then Err (Errorf "no ssh-agent: SSH_AUTH_SOCK is not set") else
  match agent_Dial socket with
  | inr e => Err (Wrap "could not reach the ssh-agent: %w" e)
  | inl _ =>
      match agent_Signers socket with
      | inr e => Err (Wrap "could not list agent keys: %w" e)
      | inl [] => Err (Errorf "the ssh-agent holds no keys, add one with ssh-add")
      | inl keys => Ok keys
      end
  end.

(** ** What is signed verifies *)

(** A key that works: its wire encoding is read back as itself, and what it
    signs verifies and survives being written. *)
Record sound_signer (s : Signer) : Prop := {
  sound_key : ParsePublicKey (sn_PublicKey s) = Some (sn_PublicKey s);
  sound_key_fits : fits (sn_PublicKey s);
  sound_sig : ∀ m sig, sn_Sign s m = inl sig →
    key_Verify (sn_PublicKey s) m sig = true ∧ Unmarshal_sig (Marshal_sig sig) = Some sig ∧ fits (Marshal_sig sig);
}.

Lemma SignSSHSIG_verifies s ns message armored :
  sound_signer s → fits ns → SignSSHSIG s ns message = Ok armored →
  VerifySSHSIG armored message ns = Ok (sn_PublicKey s).
Proof.
  intros [Hk Hf Hs] Hn. unfold SignSSHSIG. cbn [hash]. intros (digest & Hd & H)%bindR_Ok.
  destruct (sn_Sign s _) as [sig|e] eqn:E; [|done]. injection H as <-.
  destruct (Hs _ _ E) as (Hv & Hu & Hfs). unfold VerifySSHSIG. rewrite pem_Decode_Encode.
  rewrite decide_False by (by intros []). rewrite Unmarshal_Marshal_wrapped.
  2: { unfold wrapped_fits, fits. simpl. unfold sshsigVersion. split_and!; try done; lia. }
  cbn [w_Magic w_Version w_Namespace w_PublicKey w_Signature w_HashAlgorithm].
  rewrite decide_False by (by intros []). simpl negb. cbv iota. rewrite decide_False by (by intros []).
  rewrite Hk, Hu, Hd. cbn [bindR]. by rewrite Hv.
Qed.

(** A hub lets a bootstrap signature through exactly when it authorizes the
    key that made it. *)
Lemma SignBootstrap_verifies b s armored authorized :
  sound_signer s → SignBootstrap b s = Ok armored →
  Verify b armored authorized =
    if decide (sn_PublicKey s ∈ authorized) then Ok (sn_PublicKey s)
    else Err (Errorf "signature is valid but the key is not authorized").
Proof.
  intros Hs H. unfold Verify. erewrite SignSSHSIG_verifies; [|done| |exact H]; [|done]. cbn [bindR].
  destruct (existsb (SameKey (sn_PublicKey s)) authorized) eqn:E.
  - apply existsb_exists in E as (k & Hk%list_elem_of_In & ->%SameKey_spec). by rewrite decide_True.
  - rewrite decide_False; [done|]. intros Hin. apply not_true_iff_false in E. destruct E. apply existsb_exists.
    exists (sn_PublicKey s). split; [by apply list_elem_of_In|by apply SameKey_spec].
Qed.
Lemma SignBootstrap_fails b s : SignBootstrap b s ≠ Panic.
Proof. unfold SignBootstrap, SignSSHSIG. cbn [hash]. simpl. by destruct (sn_Sign s _). Qed.
End Signing.

(** ** A library to run it with *)

(** A list behind its length, in unary. *)
Definition dot : ascii := "."%char.
Definition put_len (n : nat) : list ascii := replicate n dot ++ [":"%char].
Fixpoint get_len (l : list ascii) : option (nat * list ascii) :=
  match l with
  | c :: l => if decide (c = dot) then (λ r, (S r.1, r.2)) <$> get_len l else Some (0%nat, l)
  | [] => None
  end.
Lemma get_put_len n l : get_len (put_len n ++ l) = Some (n, l).
Proof. unfold put_len. induction n as [|n IH]; [done|]. simpl. by rewrite IH. Qed.
Definition put_str (s : string) : list ascii := put_len (len s) ++ s2l s.
Definition get_str (l : list ascii) : option (string * list ascii) :=
  '(n, l) ← get_len l; Some (l2s (take n l), drop n l).
Lemma get_put s l : get_str (put_str s ++ l) = Some (s, l).
Proof.
  unfold get_str, put_str. rewrite <-(app_assoc (put_len (len s))), get_put_len. cbn [mbind option_bind]. unfold len.
  by rewrite take_app_length, drop_app_length, l2s_s2l.
Qed.

Definition toy_write (w : wrappedSig) : string :=
  l2s (put_str (w_Magic w) ++ put_len (Z.to_nat (w_Version w)) ++ put_str (w_PublicKey w) ++ put_str (w_Namespace w) ++
       put_str (w_Reserved w) ++ put_str (w_HashAlgorithm w) ++ put_str (w_Signature w)).
Definition toy_read (s : string) : option wrappedSig :=
  '(m, l) ← get_str (s2l s); '(v, l) ← get_len l; '(k, l) ← get_str l; '(n, l) ← get_str l; '(r, l) ← get_str l; '(h, l) ← get_str l;
  '(g, l) ← get_str l; match l with [] => Some (mkWrapped m (Z.of_nat v) k n r h g) | _ => None end.
Lemma toy_read_write w : wrapped_fits w → toy_read (toy_write w) = Some w.
Proof.
  intros (_ & Hv & _). unfold toy_read, toy_write. rewrite s2l_l2s, get_put. cbn [mbind option_bind].
  rewrite get_put_len. cbn [mbind option_bind]. do 4 (rewrite get_put; cbn [mbind option_bind]).
  rewrite <-(app_nil_r (put_str (w_Signature w))), get_put. cbn [mbind option_bind].
  destruct w. simpl in *. by rewrite Z2Nat.id by lia.
Qed.
(** A key and a signature are texts; a signature is the key and a checksum of
    the text. *)
Definition toy_sig (key m : string) : string := key +:+ EncodeHex (be_bytes 32 (checksum m)).
Definition toy_ssh_lib : SshLib :=
  {| ssh_Signature := string;
     key_Verify := λ k m s, bool_decide (s = toy_sig k m);
     ParsePublicKey := Some;
     ParseAuthorizedKey := Some;
     MarshalAuthorizedKey := id;
     FingerprintSHA256 := λ k, "SHA256:" +:+ k;
     Marshal_signed := λ s, Join [s_Namespace s; s_Reserved s; s_HashAlgorithm s; s_Hash s] "|";
     Unmarshal_wrapped := toy_read;
     Unmarshal_sig := Some;
     pem_Decode := λ s, Some (pemType, s);
     sha512 := λ s, be_bytes 32 (checksum s) |}.
Definition toy_ssh_writer : SshWriter (HS := toy_ssh_lib) :=
  {| Marshal_wrapped := toy_write;
     Marshal_sig := (λ s, s) : ssh_Signature (SshLib := toy_ssh_lib) → string;
     pem_EncodeToMemory := λ _ bytes, bytes;
     Unmarshal_Marshal_wrapped := toy_read_write;
     pem_Decode_Encode := λ bytes, eq_refl |}.
Definition toy_signer (key : string) : Signer (HS := toy_ssh_lib) :=
  @mkSigner toy_ssh_lib key (λ m, inl (toy_sig key m)).
Lemma toy_signer_sound k : (len k < 1000)%nat → @sound_signer toy_ssh_lib toy_ssh_writer (toy_signer k).
Proof.
  intros Hk. split; [done|change (Z.of_nat (len k) < 2 ^ 32); lia|]. intros m sig [= <-].
  split_and!; [by apply bool_decide_eq_true_2|done|]. change (Z.of_nat (len (toy_sig k m)) < 2 ^ 32).
  unfold toy_sig. rewrite len_app, len_EncodeHex, length_be_bytes. lia.
Qed.
