(* ===== verification/TenantState.v ===== *)
(** * What a machine keeps: [internal/tenant/state.go], [paths.go], [capability.go]

    The state of the daemon on an operator's machine: the hub it is registered
    with, the instances it owns with their signing keys, the connections it
    runs, and what it decided for itself (families, inbound traffic, the
    workarounds, the extra names). *)

From Stdlib Require Import Ascii.
From S2P Require Export HubOps Variant GoPath.

Open Scope Z_scope.

(** ** Data *)

Record Owned : Type := mkOwned {
  ow_InstanceID : string;
  ow_Name : string;
  ow_CACert : string;
  ow_CAKey : string;
  ow_SharedToken : string;
}.
Record Connection : Type := mkConnection {
  cn_InstanceID : string;
  cn_Name : string;
  cn_Role : string;
  cn_PublicKey : string;
  cn_PrivateKey : string;
  cn_Certificate : string;
  cn_CA : string;
  cn_Address : Prefix;
  cn_Address6 : Prefix;
  cn_Lighthouse : Lighthouse;
  cn_MTU : Z;
  cn_Device : string;
  cn_ListenPort : Z;
  cn_RequestedAt : Time;
  cn_JoinedAt : Time;
}.
(** [conn.Ready()]. *)
Definition Ready (c : Connection) : bool :=
  negb (bool_decide (cn_Certificate c = "")) && negb (bool_decide (cn_CA c = ""))
  && Addr_IsValid (l_OverlayAddress (cn_Lighthouse c)).

Record data : Type := mkData {
  dt_HubURL : string;
  dt_Identity : string;
  dt_Binder : string;
  dt_Name : string;
  dt_Insecure : bool;
  dt_Pin : string;
  dt_Families : string;
  dt_Inbound : string;
  dt_Cheats : gomap bool;
  dt_Aliases : gomap string;
  dt_Owner : string;
  dt_OwnerUID : Z;
  dt_OwnerGID : Z;
  dt_Owned : gomap Owned;
  dt_Connections : gomap Connection;
}.
(** The groups of fields that are assigned together. *)
Definition set_registration (url identity binder name : string) (insecure : bool) (pin owner : string)
    (uid gid : Z) (d : data) : data :=
  mkData url identity binder name insecure pin (dt_Families d) (dt_Inbound d) (dt_Cheats d)
    (dt_Aliases d) owner uid gid (dt_Owned d) (dt_Connections d).
Definition set_choices (families inbound : string) (cheats : gomap bool) (aliases : gomap string)
    (d : data) : data :=
  mkData (dt_HubURL d) (dt_Identity d) (dt_Binder d) (dt_Name d) (dt_Insecure d) (dt_Pin d)
    families inbound cheats aliases (dt_Owner d) (dt_OwnerUID d) (dt_OwnerGID d) (dt_Owned d)
    (dt_Connections d).
Definition set_instances (owned : gomap Owned) (conns : gomap Connection) (d : data) : data :=
  mkData (dt_HubURL d) (dt_Identity d) (dt_Binder d) (dt_Name d) (dt_Insecure d) (dt_Pin d)
    (dt_Families d) (dt_Inbound d) (dt_Cheats d) (dt_Aliases d) (dt_Owner d) (dt_OwnerUID d)
    (dt_OwnerGID d) owned conns.
Definition set_Owned (m : gomap Owned) (d : data) : data := set_instances m (dt_Connections d) d.
Definition set_Connections (m : gomap Connection) (d : data) : data := set_instances (dt_Owned d) m d.

(** [State]: what is in memory, and what the file holds, [None] while there is
    none. *)
Record State : Type := mkTState { st_data : data; st_file : option data }.
Definition set_data (d : data) (s : State) : State := mkTState d (st_file s).

(** ** Opening, reading and writing *)

(** The data as it comes back from its JSON form: empty maps are not written. *)
Definition reread_data (d : data) : data :=
  set_instances (omitempty (dt_Owned d)) (omitempty (dt_Connections d))
    (set_choices (dt_Families d) (dt_Inbound d) (omitempty (dt_Cheats d)) (omitempty (dt_Aliases d)) d).
Definition data_zero : data :=
  mkData "" "" "" "" false "" "" "" None None "" 0 0 None None.
Definition OpenState (file : option data) : State :=
  match file with
  | None => mkTState (set_instances (Some ∅) (Some ∅) data_zero) None
  | Some f =>
      let d := reread_data f in
      mkTState (set_instances (ensure (dt_Owned d)) (ensure (dt_Connections d)) d) file
  end.

Definition Registered (s : State) : bool :=
  negb (bool_decide (dt_HubURL (st_data s) = "")) && negb (bool_decide (dt_Identity (st_data s) = "")).

(** [State.save]: written beside and renamed over, so a failure leaves the old
    file. *)
Definition save_state (env : Env) : M State () := λ s,
  match save_fault env with
  | Some e => (Err e, s)
  | None => (Ok (), mkTState (st_data s) (Some (st_data s)))
  end.
(** [State.Write]: the function works on the data in place, so what it did
    before it failed stays in memory, unsaved. *)
Definition Write (env : Env) (fn : M data ()) : M State () := λ s,
  match fn (st_data s) with
  | (Ok _, d) => save_state env (set_data d s)
  | (Err e, d) => (Err e, set_data d s)
  | (Panic, d) => (Panic, set_data d s)
  end.

(** [m[k] = v] on one of the maps of the data. *)
Definition assignD {A} (get : data → gomap A) (set : gomap A → data → data) (k : string) (v : A) : M data () :=
  λ d, match massign (get d) k v with Some m => (Ok (), set m d) | None => (Panic, d) end.

(** [Connections], [Connection] and [Owned] hand out copies. *)
Definition Connections (ρ : Range) (s : State) : list Connection :=
  (range ρ (mget (dt_Connections (st_data s)))).*2.
Definition ConnectionOf (s : State) (id : string) : option Connection :=
  mlookup (dt_Connections (st_data s)) id.
Definition OwnedOf (s : State) (id : string) : option Owned := mlookup (dt_Owned (st_data s)) id.

(** ** Devices *)

Definition device (i : nat) : string := "robinet" +:+ Itoa (Z.of_nat i).
Fixpoint free_device (taken : gset string) (n i : nat) : string :=
  match n with
  | O => "robinet255"
  | S n => if bool_decide (device i ∈ taken) then free_device taken n (S i) else device i
  end.
Definition devices_of (d : data) : gset string :=
  list_to_set (cn_Device <$> (map_to_list (mget (dt_Connections d))).*2).
Definition nextDevice (d : data) : string := free_device (devices_of d) 256 0.

(** ** Choices *)

Definition FamiliesBoth : string := "both".
Definition FamiliesIPv4 : string := "ipv4".
Definition FamiliesIPv6 : string := "ipv6".
Definition ValidFamilies (f : string) : bool := bool_decide (f ∈ [FamiliesBoth; FamiliesIPv4; FamiliesIPv6]).
Definition Families (s : State) : string :=
  if ValidFamilies (dt_Families (st_data s)) then dt_Families (st_data s) else FamiliesBoth.
Definition SetFamilies (env : Env) (f : string) : M State () :=
  if negb (ValidFamilies f) then raise (Errorf "%q is not one of both, ipv4, ipv6")
  else Write env (modify (λ d, set_choices f (dt_Inbound d) (dt_Cheats d) (dt_Aliases d) d)).
Definition wantedFamily (families : string) (p : Prefix) : bool :=
  if decide (families = FamiliesIPv4) then Is4 (p_addr p)
  else if decide (families = FamiliesIPv6) then negb (Is4 (p_addr p)) else true.

Definition InboundPing : string := "ping".
Definition InboundOpen : string := "open".
Definition InboundNone : string := "none".
Definition ValidInbound (v : string) : bool := bool_decide (v ∈ [InboundPing; InboundOpen; InboundNone]).
Definition Inbound (s : State) : string :=
  if ValidInbound (dt_Inbound (st_data s)) then dt_Inbound (st_data s) else InboundPing.
Definition SetInbound (env : Env) (v : string) : M State () :=
  if negb (ValidInbound v) then raise (Errorf "%q is not one of ping, open, none")
  else Write env (modify (λ d, set_choices (dt_Families d) v (dt_Cheats d) (dt_Aliases d) d)).
Record FirewallRule : Type := mkRule { fr_port : string; fr_proto : string; fr_host : string }.
Definition inboundRules (inbound : string) : list FirewallRule :=
  if decide (inbound = InboundOpen) then [mkRule "any" "any" "any"]
  else if decide (inbound = InboundNone) then []
  else [mkRule "any" "icmp" "any"].

Definition CheatChromium : string := "chromium".
Definition CheatChromiumProbeRoute : string := "fake-aaaa-global-conectivity-route".
(** [2001:4860:4860::8888/128]. *)
Definition chromiumProbe : Prefix :=
  mkPrefix (Addr6 (8193 * 2 ^ 112 + 18528 * 2 ^ 96 + 18528 * 2 ^ 80 + 34952)) 128.
Definition ValidCheat (vendor name : string) : bool :=
  bool_decide (vendor = CheatChromium) && bool_decide (name = CheatChromiumProbeRoute).
Definition cheatKey (vendor name : string) : string := vendor +:+ "/" +:+ name.
Definition Cheat (s : State) (vendor name : string) : bool :=
  default false (mlookup (dt_Cheats (st_data s)) (cheatKey vendor name)).
Definition cheat_fn (vendor name : string) (on : bool) : M data () :=
  let set m d := set_choices (dt_Families d) (dt_Inbound d) m (dt_Aliases d) d in
  if negb on then modify (λ d, set (mdelete (dt_Cheats d) (cheatKey vendor name)) d)
  else do* modify (λ d, set (ensure (dt_Cheats d)) d) in
       assignD dt_Cheats set (cheatKey vendor name) true.
Definition SetCheat (env : Env) (vendor name : string) (on : bool) : M State () :=
  if negb (ValidCheat vendor name) then raise (Errorf "%s is not a cheat this knows")
  else Write env (cheat_fn vendor name on).

Section Build.
Context `{HB : Build}.
Definition CheatsOn (ρ : Range) (s : State) : list string :=
  if negb Cheating then [] else
  sort_strings (filter (λ kv : string * bool, kv.2 = true) (range ρ (mget (dt_Cheats (st_data s))))).*1.
Record choices : Type := mkChoices { ch_families : string; ch_inbound : string; ch_chromiumProbeRoute : bool }.
(** [State.choices]. *)
Definition choicesOf (s : State) : choices :=
  mkChoices (Families s) (Inbound s) (Cheating && Cheat s CheatChromium CheatChromiumProbeRoute).
End Build.

Definition Aliases (s : State) : gmap string string := mget (dt_Aliases (st_data s)).
Definition alias_fn (alias canonical : string) : M data () :=
  let set m d := set_choices (dt_Families d) (dt_Inbound d) (dt_Cheats d) m d in
  if decide (canonical = "") then modify (λ d, set (mdelete (dt_Aliases d) alias) d)
  else do* modify (λ d, set (ensure (dt_Aliases d)) d) in
       assignD dt_Aliases set alias canonical.
(** [State.SetAlias]. *)
Definition SetAliasState (env : Env) (alias canonical : string) : M State () :=
  Write env (alias_fn alias canonical).

(** ** Where the state lives, and what the process may do *)

Section Os.
Context `{HO : Os}.

Definition ownerName : res string :=
  let sudo := Getenv "SUDO_USER" in
  if (Geteuid =? 0) && negb (bool_decide (sudo = "")) && negb (bool_decide (sudo = "root")) then Ok sudo
  else match CurrentUser with inl name => Ok name | inr e => Err e end.
Definition ownerHome : res string :=
  let? name := ownerName in
  match LookupUser name with
  | inr e => Err (Wrap "could not resolve %s: %w" e)
  | inl u => if decide (u_HomeDir u = "") then Err (Errorf "%s has no home directory, pass --state")
             else Ok (u_HomeDir u)
  end.
Definition DefaultStatePath : res string :=
  let? home := ownerHome in
  let xdg := Getenv "XDG_STATE_HOME" in
  if negb (bool_decide (xdg = "")) && negb (Geteuid =? 0)
  then Ok (JoinPath [xdg; "robinet"; "tenant.json"])
  else Ok (JoinPath [home; ".local"; "state"; "robinet"; "tenant.json"]).
Definition DefaultSocketPath : res string := Ok "/run/robinet/robinet.sock".
Definition ownerIDs : res (Z * Z) :=
  let? name := ownerName in
  match LookupUser name with
  | inr e => Err e
  | inl u =>
      match Atoi (u_Uid u) with
      | None => Err (Errorf "strconv.Atoi: parsing %q")
      | Some uid =>
          match Atoi (u_Gid u) with
          | None => Err (Errorf "strconv.Atoi: parsing %q")
          | Some gid => Ok (uid, gid)
          end
      end
  end.

Definition capNetAdmin : Z := 12.
Definition effectiveCaps : res Z :=
  match ReadFile "/proc/self/status" with
  | inr e => Err e
  | inl status =>
      match scan (λ line, CutPrefix line "CapEff:") (lines_of status) with
      | inl value =>
          match ParseHex (TrimSpace value) 64 with
          | Some n => Ok n
          | None => Err (Errorf "strconv.ParseUint: parsing %q")
          end
      | inr (Some e) => Err e
      | inr None => Err (Errorf "no CapEff line in /proc/self/status")
      end
  end.
Definition CheckNetAdmin : res () :=
  if Geteuid =? 0 then Ok () else
  match effectiveCaps with
  | Ok effective =>
      if negb (Z.land effective (Z.shiftl 1 capNetAdmin) =? 0) then Ok ()
      else Err (Errorf "no CAP_NET_ADMIN, so the tun device cannot be created: run under sudo, or let systemd grant the capability with robinet setup")
  | Err e => Err (Wrap "could not read this process's capabilities: %w" e)
  | Panic => Panic
  end.
End Os.
