(* ===== verification/DnsRouter.v ===== *)
(** * The DNS router: [internal/tenant/dnsrouter.go]

    A machine answers, on the overlay address of each of its connections, the
    names under [<connector>.<instance>.robinet]: a question is rewritten to
    the name the connector's own resolver knows, asked there, and the answer
    is rewritten back.  The DNS wire format is the library's ([dnsmessage]), a
    class with what its documentation promises; the length prefix of DNS over
    TCP is the program's own. *)

From Stdlib Require Import Ascii.
From S2P Require Export TenantState.

Open Scope Z_scope.

(** ** Routes *)

Definition RouterPort : Z := 5354.
Definition Suffix : string := "robinet".

Record routerRoute : Type := mkRouterRoute {
  rr_Virtual : string;
  rr_Real : string;
  rr_Via : Addr;
  rr_IPv4 : bool;
  rr_IPv6 : bool;
}.
Definition set_Virtual (v : string) (r : routerRoute) : routerRoute :=
  mkRouterRoute v (rr_Real r) (rr_Via r) (rr_IPv4 r) (rr_IPv6 r).
(** [routerTable.routes]. *)
Definition routerTable : Type := list routerRoute.

(** The name itself, or one under it. *)
Definition under (zone name : string) : bool :=
  bool_decide (name = zone) || HasSuffix name ("." +:+ zone).
(** How names are compared: in lower case, without the final dot.  [match]
    trims first, [rewrite] and [restore] fold first. *)
Definition folded (name : string) : string := TrimSuffix (ToLower name) ".".

Fixpoint match_loop (name : string) (best : option routerRoute) (l : routerTable) : option routerRoute :=
  match l with
  | [] => best
  | r :: l =>
      if negb (under (rr_Virtual r) name) then match_loop name best l
      else match best with
           | None => match_loop name (Some r) l
           | Some b => if (len (rr_Virtual b) <? len (rr_Virtual r))%nat
                       then match_loop name (Some r) l else match_loop name best l
           end
  end.
(** [t.match(name)]. *)
Definition matchRoute (t : routerTable) (name : string) : option routerRoute :=
  match_loop (ToLower (TrimSuffix name ".")) None t.

Definition bare (r : routerRoute) : bool := bool_decide (rr_Real r = RootDomain).
Definition rewriteName (r : routerRoute) (name : string) : string :=
  let trimmed := folded name in
  if decide (trimmed = rr_Virtual r) then RootDomain else
  let asked := TrimSuffix trimmed ("." +:+ rr_Virtual r) in
  if bare r then asked +:+ "." else asked +:+ "." +:+ rr_Real r +:+ ".".
Definition restoreName (r : routerRoute) (name : string) : string :=
  let trimmed := folded name in
  if bare r then
    if negb (bool_decide (trimmed = "")) && negb (Contains trimmed ".")
    then trimmed +:+ "." +:+ rr_Virtual r +:+ "." else name
  else if decide (trimmed = rr_Real r) then rr_Virtual r +:+ "."
  else if HasSuffix trimmed ("." +:+ rr_Real r)
  then TrimSuffix trimmed ("." +:+ rr_Real r) +:+ "." +:+ rr_Virtual r +:+ "."
  else name.

(** ** Tables *)

(** The families each connector carries routes of. *)
Definition carry (m : gmap Addr (bool * bool)) (route : Route) : gmap Addr (bool * bool) :=
  let c := default (false, false) (m !! rt_Via route) in
  <[rt_Via route := if Is4 (p_addr (rt_Prefix route)) then (true, c.2) else (c.1, true)]> m.
Definition carriesOf (routes : list Route) : gmap Addr (bool * bool) := foldl carry ∅ routes.

(** [strings.ReplaceAll] of one byte by another. *)
Definition replace_char (a b : ascii) (s : string) : string :=
  l2s ((λ c, if decide (c = a) then b else c) <$> s2l s).
Definition connectorName (r : Resolver) : string :=
  if decide (rv_Connector r = "")
  then replace_char ":" "-" (replace_char "." "-" (Addr_String (rv_Via r))) else rv_Connector r.
Definition realName (domain : string) : string :=
  let real := ToLower (TrimSpace domain) in
  if decide (real = RootDomain) then real else TrimSuffix real ".".
Definition resolver_route (carries : gmap Addr (bool * bool)) (instance : string) (r : Resolver) : routerRoute :=
  let c := default (false, false) (carries !! rv_Via r) in
  mkRouterRoute (ToLower (connectorName r +:+ "." +:+ instance +:+ "." +:+ Suffix))
    (realName (rv_Domain r)) (rv_Via r) c.1 c.2.
Definition lighthouse_route (table : RouteTable) (instance : string) : routerTable :=
  let lh := l_OverlayAddress (tb_Lighthouse table) in
  if Addr_IsValid lh then
    let name := ToLower (instance +:+ "." +:+ CertSuffix) in
    [mkRouterRoute name name lh true true]
  else [].
Definition routerTableFor (table : RouteTable) (instance : string) : routerTable :=
  let carries := carriesOf (tb_Routes table) in
  (resolver_route carries instance <$>
     filter (λ r, Addr_IsValid (rv_Via r) = true) (tb_Resolvers table))
  ++ lighthouse_route table instance.

Fixpoint Domains_loop (seen : gset string) (t : routerTable) : list string :=
  match t with
  | [] => []
  | r :: t => if bool_decide (rr_Virtual r ∈ seen) then Domains_loop seen t
              else rr_Virtual r :: Domains_loop ({[rr_Virtual r]} ∪ seen) t
  end.
Definition Domains (t : routerTable) : list string := Domains_loop ∅ t.

(** One alias after the other, in whatever order the map is walked, each
    looked up among the routes the ones before it left. *)
Definition alias_step (t : routerTable) (kv : string * string) : routerTable :=
  match matchRoute t kv.2 with
  | None => t
  | Some route => t ++ [set_Virtual (ToLower (TrimSuffix kv.1 ".")) route]
  end.
Definition withAliases (ρ : Range) (t : routerTable) (aliases : gmap string string) : routerTable :=
  foldl alias_step t (range ρ aliases).

(** ** Messages *)

Record MsgHeader : Type := mkMsgHeader {
  mh_ID : Z;
  mh_Response : bool;
  mh_OpCode : Z;
  mh_Authoritative : bool;
  mh_Truncated : bool;
  mh_RecursionDesired : bool;
  mh_RecursionAvailable : bool;
  mh_AuthenticData : bool;
  mh_CheckingDisabled : bool;
  mh_RCode : Z;
}.
Definition set_reply (truncated authoritative : bool) (rcode : Z) (h : MsgHeader) : MsgHeader :=
  mkMsgHeader (mh_ID h) true (mh_OpCode h) authoritative truncated (mh_RecursionDesired h)
    (mh_RecursionAvailable h) (mh_AuthenticData h) (mh_CheckingDisabled h) rcode.
Record Question : Type := mkQuestion { qu_Name : string; qu_Type : Z; qu_Class : Z }.
Record ResourceHeader : Type := mkResourceHeader {
  rh_Name : string;
  rh_Type : Z;
  rh_Class : Z;
  rh_TTL : Z;
}.
Definition set_rh_Name (n : string) (h : ResourceHeader) : ResourceHeader :=
  mkResourceHeader n (rh_Type h) (rh_Class h) (rh_TTL h).
Inductive Body : Type :=
  | AResource (a : string)
  | AAAAResource (a : string)
  | CNAMEResource (target : string)
  | OtherResource (raw : string).
#[export] Instance Question_eq_dec : EqDecision Question.
Proof. solve_decision. Defined.
#[export] Instance MsgHeader_eq_dec : EqDecision MsgHeader.
Proof. solve_decision. Defined.
#[export] Instance ResourceHeader_eq_dec : EqDecision ResourceHeader.
Proof. solve_decision. Defined.
#[export] Instance Body_eq_dec : EqDecision Body.
Proof. solve_decision. Defined.
Record Resource : Type := mkResource { re_Header : ResourceHeader; re_Body : Body }.
Definition TypeA : Z := 1.
Definition TypeAAAA : Z := 28.
Definition TypeOPT : Z := 41.
Definition RCodeSuccess : Z := 0.
Definition RCodeNameError : Z := 3.

(** [golang.org/x/net/dns/dnsmessage].  A parser stands in a message and is
    moved by what it reads; [remaining] is the number of additional records in
    front of it.  [written] is what a builder was given, and a finished
    message reads back as that. *)
Class DnsMessage := {
  Parser : Type;
  remaining : Parser → nat;
  ErrSectionDone : error;
  NewName : string → res string;
  Start : string → res (MsgHeader * Parser);
  ParseQuestion : Parser → res (Question * Parser);
  AllQuestions : Parser → res (list Question * Parser);
  AllAnswers : Parser → list Resource * option error;
  SkipAllQuestions : Parser → res Parser;
  SkipAllAnswers : Parser → res Parser;
  SkipAllAuthorities : Parser → res Parser;
  AdditionalHeader : Parser → res (ResourceHeader * Parser);
  SkipAdditional : Parser → res Parser;
  Builder : Type;
  written : Builder → MsgHeader * list Question * list (string * Body);
  NewBuilder : MsgHeader → Builder;
  EnableCompression : Builder → Builder;
  StartQuestions : Builder → res Builder;
  PutQuestion : Question → Builder → res Builder;
  StartAnswers : Builder → res Builder;
  PutResource : ResourceHeader → Body → Builder → res Builder;
  Finish : Builder → res string;
  NewName_Ok : ∀ s n, NewName s = Ok n → n = s;
  AdditionalHeader_remaining : ∀ p h p', AdditionalHeader p = Ok (h, p') →
    remaining p' = remaining p ∧ 0 ≤ rh_Class h < 65536;
  SkipAdditional_remaining : ∀ p p', SkipAdditional p = Ok p' → (remaining p' < remaining p)%nat;
  NewBuilder_written : ∀ h, written (NewBuilder h) = (h, [], []);
  EnableCompression_written : ∀ b, written (EnableCompression b) = written b;
  StartQuestions_written : ∀ b b', StartQuestions b = Ok b' → written b' = written b;
  StartAnswers_written : ∀ b b', StartAnswers b = Ok b' → written b' = written b;
  PutQuestion_written : ∀ q b b', PutQuestion q b = Ok b' →
    written b' = ((written b).1.1, (written b).1.2 ++ [q], (written b).2);
  PutResource_written : ∀ h body b b', PutResource h body b = Ok b' →
    written b' = ((written b).1, (written b).2 ++ [(rh_Name h, body)]);
  Finish_reads : ∀ b w, Finish b = Ok w → ∃ h p p' l,
    Start w = Ok (h, p) ∧ AllQuestions p = Ok ((written b).1.2, p') ∧ AllAnswers p' = (l, None) ∧
    ((λ r, (rh_Name (re_Header r), re_Body r)) <$> l) = (written b).2 ∧
    mh_ID h = mh_ID (written b).1.1 ∧ mh_Response h = mh_Response (written b).1.1 ∧
    mh_Truncated h = mh_Truncated (written b).1.1 ∧ mh_RCode h = mh_RCode (written b).1.1 mod 16;
}.

(** Datagrams and connections: what comes back from an address for what is
    sent to it. *)
Class DnsNet := {
  ask_udp : string → string → res string;
  ask_tcp : string → string → res string;
}.

(** ** The length prefix of TCP *)

(** One message off a stream, and what is left of the stream. *)
Definition readTCPMessage (conn : string) : res (string * string) :=
  match s2l conn with
  | a :: b :: rest =>
      let n := Z.lor (Z.shiftl (code a) 8) (code b) in
      if (n =? 0) || (65535 <? n) then Err (Errorf "a message of %d bytes")
      else if Z.of_nat (length rest) <? n then Err (Errorf "unexpected EOF")
      else Ok (l2s (take (Z.to_nat n) rest), l2s (drop (Z.to_nat n) rest))
  | [_] => Err (Errorf "unexpected EOF")
  | [] => Err (Errorf "EOF")
  end.
Definition writeTCPMessage (msg : string) : res string :=
  let n := Z.of_nat (len msg) in
  if 65535 <? n then Err (Errorf "an answer of %d bytes")
  else Ok (l2s [chr (Z.shiftr n 8 mod 256); chr (n mod 256)] +:+ msg).

(** ** Answering *)

Section Answer.
Context `{HD : DnsMessage} `{HN : DnsNet}.

Definition rebuild (header : MsgHeader) (question : Question) (name : string) : res string :=
  let? renamed := NewName name in
  let? b := StartQuestions (EnableCompression (NewBuilder header)) in
  let? b := PutQuestion (mkQuestion renamed (qu_Type question) (qu_Class question)) b in
  Finish b.

Definition refuse (header : MsgHeader) (question : Question) (rcode : Z) : res string :=
  let header := set_reply (mh_Truncated header) true rcode header in
  let? b := StartQuestions (NewBuilder header) in
  let? b := PutQuestion question b in
  Finish b.

(** The loop of [restore] over the answers: a record is put into the reply
    under its restored name, or passed over. *)
Fixpoint restore_answers (route : routerRoute) (answers : list Resource) (b : Builder) : res Builder :=
  match answers with
  | [] => Ok b
  | a :: answers =>
      match NewName (restoreName route (rh_Name (re_Header a))) with
      | Ok name =>
          let h := set_rh_Name name (re_Header a) in
          match re_Body a with
          | AResource _ =>
              if negb (rr_IPv4 route) then restore_answers route answers b
              else let? b := PutResource h (re_Body a) b in restore_answers route answers b
          | AAAAResource _ =>
              if negb (rr_IPv6 route) then restore_answers route answers b
              else let? b := PutResource h (re_Body a) b in restore_answers route answers b
          | CNAMEResource target =>
              match NewName (restoreName route target) with
              | Ok target =>
                  let? b := PutResource h (CNAMEResource target) b in
                  restore_answers route answers b
              | _ => restore_answers route answers b
              end
          | OtherResource _ => restore_answers route answers b
          end
      | _ => restore_answers route answers b
      end
  end.
Definition restore (reply : string) (question : Question) (route : routerRoute) : res string :=
  let? (header, parser) := Start reply in
  let? (_, parser) := AllQuestions parser in
  let '(answers, err) := AllAnswers parser in
  let? _ := (match err with
             | Some e => if decide (e = ErrSectionDone) then Ok tt else Err e
             | None => Ok tt
             end) in
  let header := set_reply (mh_Truncated header) (mh_Authoritative header) (mh_RCode header) header in
  let? b := StartQuestions (EnableCompression (NewBuilder header)) in
  let? b := PutQuestion question b in
  let? b := StartAnswers b in
  let? b := restore_answers route answers b in
  Finish b.

Definition ask (via : Addr) (query : string) (overTCP : bool) : res string :=
  let where_ := JoinHostPort (Addr_String via) "53" in
  if overTCP then
    let? framed := writeTCPMessage query in
    let? conn := ask_tcp where_ framed in
    let? (msg, _) := readTCPMessage conn in Ok msg
  else
    let? reply := ask_udp where_ query in Ok (str_take 4096 reply).

Definition answer (table : routerTable) (query : string) (overTCP : bool) : res string :=
  let? (header, parser) := Start query in
  let? (question, parser) := ParseQuestion parser in
  match matchRoute table (qu_Name question) with
  | None => refuse header question RCodeNameError
  | Some route =>
      if (qu_Type question =? TypeA) && negb (rr_IPv4 route) then refuse header question RCodeSuccess
      else if (qu_Type question =? TypeAAAA) && negb (rr_IPv6 route) then refuse header question RCodeSuccess
      else
        let? asked := rebuild header question (rewriteName route (qu_Name question)) in
        let? reply := ask (rr_Via route) asked overTCP in
        restore reply question route
  end.

(** [udpLimit]: past the sections in front, then record by record until an OPT
    record or the end.  The fuel counts the records. *)
Definition withoutEDNS : Z := 512.
Fixpoint opt_loop (fuel : nat) (p : Parser) : option Z :=
  match fuel with
  | O => None
  | S fuel =>
      match AdditionalHeader p with
      | Ok (h, p) =>
          if rh_Type h =? TypeOPT
          then Some (if withoutEDNS <? rh_Class h then rh_Class h else withoutEDNS)
          else match SkipAdditional p with
               | Ok p => opt_loop fuel p
               | _ => Some withoutEDNS
               end
      | _ => Some withoutEDNS
      end
  end.
Definition additionals (query : string) : res Parser :=
  let? (_, p) := Start query in
  let? p := SkipAllQuestions p in
  let? p := SkipAllAnswers p in
  SkipAllAuthorities p.
Definition udpLimit (query : string) : option Z :=
  match additionals query with
  | Ok p => opt_loop (S (remaining p)) p
  | _ => Some withoutEDNS
  end.

Definition truncate (query : string) : res string :=
  let? (header, parser) := Start query in
  let? (question, _) := ParseQuestion parser in
  let? b := StartQuestions (NewBuilder (set_reply true (mh_Authoritative header) (mh_RCode header) header)) in
  let? b := PutQuestion question b in
  Finish b.

(** What [serve] does with one datagram: the datagram it sends back, if any. *)
Definition serve_datagram (table : routerTable) (query : string) : option string :=
  match answer table query false with
  | Ok reply =>
      if decide (reply = "") then None else
      match udpLimit query with
      | Some limit =>
          if limit <? Z.of_nat (len reply)
          then match truncate query with Ok short => Some short | _ => None end
          else Some reply
      | None => None
      end
  | _ => None
  end.

(** What [serveTCP] writes on one connection, for the bytes its other end
    sent: message after message, with the table of that moment, until one
    cannot be read or answered. *)
Fixpoint serve_stream (tables : nat → routerTable) (fuel : nat) (conn : string) : option string :=
  match fuel with
  | O => None
  | S fuel =>
      match readTCPMessage conn with
      | Ok (query, conn) =>
          match answer (tables O) query true with
          | Ok reply =>
              if decide (reply = "") then Some "" else
              match writeTCPMessage reply with
              | Ok framed => (λ w, framed +:+ w) <$> serve_stream (tables ∘ S) fuel conn
              | _ => Some ""
              end
          | _ => Some ""
          end
      | _ => Some ""
      end
  end.
Definition serveTCP (tables : nat → routerTable) (conn : string) : option string :=
  serve_stream tables (S (len conn)) conn.
End Answer.

(** ** The routers of a daemon *)

(** What a call on a tenant's machine meets besides [Env]. *)
Record TEnv : Type := mkTEnv {
  t_env : Env;
  listen_udp : string → option error;
  listen_tcp : string → option error;
  random12 : option (list Z);
  ca_keys : error + (string * string);
  member_keys : error + (string * string);
}.

Record router : Type := mkRouter { ro_instance : string; ro_table : routerTable; ro_where : string }.
Definition setTable (t : routerTable) (r : router) : router := mkRouter (ro_instance r) t (ro_where r).
Definition routers : Type := gmap string router.

Definition table_for (ρ : Range) (aliases : gmap string string) (table : RouteTable) (name : string) : routerTable :=
  withAliases ρ (routerTableFor table name) aliases.
Definition startRouter (env : TEnv) (aliases : gmap string string) (conn : Connection) (table : RouteTable)
    : M routers () :=
  if negb (IsValid (cn_Address conn)) then retM () else
  let* running := getM in
  let t := table_for (ρ_of (t_env env)) aliases table (cn_Name conn) in
  match running !! cn_InstanceID conn with
  | Some r => modify (insert (cn_InstanceID conn) (setTable t r))
  | None =>
      let where_ := JoinHostPort (Addr_String (p_addr (cn_Address conn))) (Itoa RouterPort) in
      match listen_udp env where_ with
      | Some e => raise (Wrap "could not answer dns on %s: %w" e)
      | None =>
          match listen_tcp env where_ with
          | Some e => raise (Wrap "could not answer dns on %s over tcp: %w" e)
          | None => modify (insert (cn_InstanceID conn) (mkRouter (cn_Name conn) t where_))
          end
      end
  end.
Definition stopRouter (instance : string) : M routers () := modify (delete instance).
Definition routerTableOf (running : routers) (instance : string) : option routerTable :=
  ro_table <$> running !! instance.
