(* ===== verification/DnsSpec.v ===== *)
(** * What the DNS router promises

    Which route a question takes, that names come back as they were asked,
    that nothing unreachable is answered, and that the loops over a message
    and over a stream end. *)

From Stdlib Require Import Ascii.
From S2P Require Export DnsRouter.
From S2P Require Import Names.

Open Scope Z_scope.

(** ** Routing *)

Lemma under_spec zone name : under zone name = true ↔ name = zone ∨ ∃ x, name = x +:+ "." +:+ zone.
Proof.
  unfold under. rewrite orb_true_iff, bool_decide_eq_true, HasSuffix_spec. done.
Qed.
Lemma under_sub zone x : under zone (x +:+ "." +:+ zone) = true.
Proof. apply under_spec. eauto. Qed.

Lemma app_inj_len (a b c d : string) : a +:+ b = c +:+ d → len b = len d → a = c ∧ b = d.
Proof.
  intros H Hl. apply (f_equal s2l) in H. rewrite !s2l_app in H.
  apply app_inj_2 in H as [Ha Hb]; [|exact Hl]. split; by apply (inj s2l).
Qed.
(** Of two name spaces of one length, a name is in at most one. *)
Lemma under_same_length z z' name :
  under z name = true → under z' name = true → len z = len z' → z = z'.
Proof.
  rewrite !under_spec. intros [->|[x ->]] [E|[x' E]] Hl; [done|..].
  - exfalso. subst z. rewrite !len_app in Hl. simpl in Hl. lia.
  - exfalso. subst z'. rewrite !len_app in Hl. simpl in Hl. lia.
  - rewrite <-!string_app_assoc in E. by apply app_inj_len in E as [_ ?].
Qed.

Section Match.
Context (name : string).
Let covers (r : routerRoute) : Prop := under (rr_Virtual r) name = true.

Definition longest_in (r : routerRoute) (t : routerTable) : Prop :=
  ∃ t1 t2, t = t1 ++ r :: t2 ∧ covers r ∧
    (∀ r', r' ∈ t1 → covers r' → (len (rr_Virtual r') < len (rr_Virtual r))%nat) ∧
    (∀ r', r' ∈ t2 → covers r' → (len (rr_Virtual r') ≤ len (rr_Virtual r))%nat).

Lemma longest_app r t l : longest_in r t → (∀ r', r' ∈ l → covers r' → (len (rr_Virtual r') ≤ len (rr_Virtual r))%nat) →
  longest_in r (t ++ l).
Proof.
  intros (t1&t2&->&Hc&H1&H2) Hl. exists t1, (t2 ++ l). rewrite <-app_assoc.
  split_and!; [done..|]. intros r' [H|H]%elem_of_app; auto.
Qed.
Lemma longest_max r t r' : longest_in r t → r' ∈ t → covers r' → (len (rr_Virtual r') ≤ len (rr_Virtual r))%nat.
Proof.
  intros (t1&t2&->&Hc&H1&H2) [H|[->|H]%elem_of_cons]%elem_of_app Hr'; [|lia|auto].
  specialize (H1 _ H Hr'). lia.
Qed.
Lemma longest_last r r0 t : longest_in r0 t → covers r → (len (rr_Virtual r0) < len (rr_Virtual r))%nat →
  longest_in r (t ++ [r]).
Proof.
  intros H0 Hc Hl. exists t, []. split_and!; [done..| |by intros ? ?%elem_of_nil].
  intros r' Hin Hr'. pose proof (longest_max r0 t r' H0 Hin Hr'). lia.
Qed.

(** The loop, with what it has walked behind it. *)
Lemma match_loop_spec l best t :
  match best with
  | Some b => longest_in b t
  | None => ∀ r, r ∈ t → ¬ covers r
  end →
  match match_loop name best l with
  | Some r => longest_in r (t ++ l)
  | None => ∀ r, r ∈ t ++ l → ¬ covers r
  end.
Proof.
  revert best t. induction l as [|r l IH]; intros best t Hb; simpl.
  { rewrite app_nil_r. done. }
  replace (t ++ r :: l) with ((t ++ [r]) ++ l) by by rewrite <-app_assoc.
  destruct (under (rr_Virtual r) name) eqn:Hu; simpl.
  2:{ apply IH. destruct best as [b|].
      - apply longest_app; [done|]. intros r' ->%list_elem_of_singleton. unfold covers. congruence.
      - intros r' [H| ->%list_elem_of_singleton]%elem_of_app; [auto|]. unfold covers. congruence. }
  destruct best as [b|].
  - destruct (Nat.ltb_spec (len (rr_Virtual b)) (len (rr_Virtual r))) as [Hl|Hl]; apply IH.
    + by eapply longest_last.
    + apply longest_app; [done|]. by intros r' ->%list_elem_of_singleton _.
  - apply IH. exists t, []. split_and!; [done..| |by intros ? ?%elem_of_nil].
    intros r' Hin Hr'. by destruct (Hb _ Hin).
Qed.
End Match.

Lemma matchRoute_spec t name :
  let n := ToLower (TrimSuffix name ".") in
  match matchRoute t name with
  | Some r => longest_in n r t
  | None => ∀ r, r ∈ t → under (rr_Virtual r) n = false
  end.
Proof.
  intros n. pose proof (match_loop_spec n t None [] ltac:(by intros ? ?%elem_of_nil)) as H.
  unfold matchRoute. fold n. destruct (match_loop n None t); [done|].
  intros r Hr. apply not_true_iff_false. by apply H.
Qed.
Lemma matchRoute_elem t name r : matchRoute t name = Some r → r ∈ t.
Proof.
  intros H. pose proof (matchRoute_spec t name) as Hs. rewrite H in Hs.
  destruct Hs as (t1&t2&->&_). apply elem_of_app. right. left.
Qed.

(** The route a question takes is the one with the longest name space the
    name is in, the first of those where several routes share one; no route
    is found only where no name space holds the name.  The name space that
    answers does not depend on the order of the routes. *)
Theorem match_is_longest (t t' : routerTable) (name : string) :
  let n := ToLower (TrimSuffix name ".") in
  match matchRoute t name with
  | Some r => longest_in n r t
  | None => ∀ r, r ∈ t → under (rr_Virtual r) n = false
  end ∧
  (t ≡ₚ t' → rr_Virtual <$> matchRoute t name = rr_Virtual <$> matchRoute t' name).
Proof.
  intros n. split; [apply matchRoute_spec|]. intros Hp.
  pose proof (matchRoute_spec t name) as H. pose proof (matchRoute_spec t' name) as H'. fold n in H, H'.
  destruct (matchRoute t name) as [r|] eqn:E, (matchRoute t' name) as [r'|] eqn:E'; simpl; [|..|done].
  - f_equal. pose proof (matchRoute_elem _ _ _ E) as Hr. pose proof (matchRoute_elem _ _ _ E') as Hr'.
    assert (under (rr_Virtual r) n = true) as Hu by by destruct H as (?&?&_&?&_).
    assert (under (rr_Virtual r') n = true) as Hu' by by destruct H' as (?&?&_&?&_).
    apply (under_same_length _ _ n); [done..|]. apply Nat.le_antisymm.
    + eapply longest_max; [apply H'| |done]. by rewrite <-Hp.
    + eapply longest_max; [apply H| |done]. by rewrite Hp.
  - exfalso. pose proof (matchRoute_elem _ _ _ E) as Hr. rewrite Hp in Hr. specialize (H' _ Hr).
    destruct H as (?&?&_&?&_). congruence.
  - exfalso. pose proof (matchRoute_elem _ _ _ E') as Hr. rewrite <-Hp in Hr. specialize (H _ Hr).
    destruct H' as (?&?&_&?&_). congruence.
Qed.

(** ** Names there and back *)

(** What the names of a route are when they come from names the hub accepts:
    lower case, no white space, no dot at an end. *)
Definition zone_ok (z : string) : Prop := z ≠ "" ∧ Forall plain (s2l z) ∧ HasSuffix z "." = false.

Lemma s2l_dot : s2l "." = ["."%char].
Proof. done. Qed.
Lemma plain_dot : plain "."%char.
Proof. by apply (bool_decide_unpack _). Qed.
Lemma plain_app s1 s2 : Forall plain (s2l s1) → Forall plain (s2l s2) → Forall plain (s2l (s1 +:+ s2)).
Proof. rewrite s2l_app. by apply Forall_app_2. Qed.
Lemma plain_dotted s1 s2 : Forall plain (s2l s1) → Forall plain (s2l s2) → Forall plain (s2l (s1 +:+ "." +:+ s2)).
Proof. intros. apply plain_app, plain_app; [done| |done]. repeat constructor; apply plain_dot. Qed.
Lemma HasSuffix_dot_app s z : z ≠ "" → HasSuffix (s +:+ z) "." = HasSuffix z ".".
Proof.
  intros Hz. apply eq_true_iff_eq. rewrite !HasSuffix_spec. split.
  - intros [x E]. apply (f_equal s2l) in E. rewrite !s2l_app, s2l_dot in E.
    destruct (exists_last (l := s2l z)) as (l&c&El).
    { intros H. apply Hz. by apply (inj s2l). }
    rewrite El, app_assoc in E. apply app_inj_tail in E as [_ ->].
    exists (l2s l). apply (inj s2l). by rewrite s2l_app, s2l_l2s, El.
  - intros [x ->]. exists (s +:+ x). by rewrite string_app_assoc.
Qed.
Lemma folded_plain_dot s : Forall plain (s2l s) → folded (s +:+ ".") = s.
Proof.
  intros H. unfold folded. rewrite ToLower_plain, TrimSuffix_app; [done|].
  apply plain_app; [done|]. repeat constructor; apply plain_dot.
Qed.
Lemma string_len_app_ne x z : len (x +:+ "." +:+ z) ≠ len z.
Proof. rewrite !len_app. simpl. lia. Qed.
Lemma sub_ne x z : x +:+ "." +:+ z ≠ z.
Proof. intros H. apply (string_len_app_ne x z). by rewrite H at 1. Qed.
Lemma TrimSuffix_sub x z : TrimSuffix (x +:+ "." +:+ z) ("." +:+ z) = x.
Proof. apply TrimSuffix_app. Qed.

Section RoundTrip.
Context (r : routerRoute).

Lemma rewrite_sub x name :
  folded name = x +:+ "." +:+ rr_Virtual r →
  rewriteName r name = if bare r then x +:+ "." else x +:+ "." +:+ rr_Real r +:+ ".".
Proof. intros H. unfold rewriteName. rewrite H, TrimSuffix_sub. by rewrite decide_False by apply sub_ne. Qed.
Lemma rewrite_zone name : folded name = rr_Virtual r → rewriteName r name = RootDomain.
Proof. intros H. unfold rewriteName. by rewrite H, decide_True. Qed.
Lemma restore_sub x name :
  bare r = false → folded name = x +:+ "." +:+ rr_Real r → restoreName r name = x +:+ "." +:+ rr_Virtual r +:+ ".".
Proof.
  intros Hb H. unfold restoreName. rewrite Hb, H, decide_False by apply sub_ne.
  by rewrite HasSuffix_app, TrimSuffix_sub.
Qed.
Lemma restore_label x name :
  bare r = true → folded name = x → x ≠ "" → Contains x "." = false →
  restoreName r name = x +:+ "." +:+ rr_Virtual r +:+ ".".
Proof. intros Hb H Hx Hd. unfold restoreName. by rewrite Hb, H, Hd, bool_decide_eq_false_2. Qed.
End RoundTrip.

(** A name asked under a route's name space, in whatever case, comes back as
    it was asked (in lower case) when it is answered under the name the
    connector knows, and a name the connector answers with that is restored
    leads back to itself when it is asked again, so a chain of aliases can be
    followed through the router.  On a network without a suffix this holds of
    single labels, and names of several labels are left as they came. *)
Theorem names_come_back (r : routerRoute) (x name : string) :
  zone_ok (rr_Virtual r) → bare r = false → zone_ok (rr_Real r) → Forall plain (s2l x) →
  (ToLower name = x +:+ "." +:+ rr_Virtual r +:+ "." →
     rewriteName r name = x +:+ "." +:+ rr_Real r +:+ "." ∧
     restoreName r (rewriteName r name) = ToLower name) ∧
  (ToLower name = x +:+ "." +:+ rr_Real r +:+ "." →
     restoreName r name = x +:+ "." +:+ rr_Virtual r +:+ "." ∧
     rewriteName r (restoreName r name) = ToLower name).
Proof.
  intros [_ [HV _]] Hb [_ [HR _]] Hx. split; intros E.
  - assert (folded name = x +:+ "." +:+ rr_Virtual r) as F.
    { unfold folded. by rewrite E, <-!string_app_assoc, TrimSuffix_app, string_app_assoc. }
    rewrite (rewrite_sub r x name F), Hb. split; [done|]. rewrite E. apply restore_sub; [done|].
    rewrite <-!string_app_assoc, folded_plain_dot; [by rewrite string_app_assoc|].
    rewrite string_app_assoc. by apply plain_dotted.
  - assert (folded name = x +:+ "." +:+ rr_Real r) as F.
    { unfold folded. by rewrite E, <-!string_app_assoc, TrimSuffix_app, string_app_assoc. }
    rewrite (restore_sub r x name Hb F). split; [done|]. rewrite E.
    rewrite (rewrite_sub r x), Hb; [done|].
    rewrite <-!string_app_assoc, folded_plain_dot; [by rewrite string_app_assoc|].
    rewrite string_app_assoc. by apply plain_dotted.
Qed.

(** The same on a network that appends nothing. *)
Lemma bare_names_come_back (r : routerRoute) (x name : string) :
  zone_ok (rr_Virtual r) → bare r = true → Forall plain (s2l x) → x ≠ "" → Contains x "." = false →
  ToLower name = x +:+ "." +:+ rr_Virtual r +:+ "." →
  rewriteName r name = x +:+ "." ∧ restoreName r (rewriteName r name) = ToLower name.
Proof.
  intros [_ [HV _]] Hb Hx Hne Hd E.
  assert (folded name = x +:+ "." +:+ rr_Virtual r) as F.
  { unfold folded. by rewrite E, <-!string_app_assoc, TrimSuffix_app, string_app_assoc. }
  rewrite (rewrite_sub r x name F), Hb. split; [done|]. rewrite E.
  apply restore_label; [done|by apply folded_plain_dot|done|done].
Qed.

(** The names of a table made from what the hub accepts. *)
Lemma labels_zone s : Forall is_label (Split s "."%char) → zone_ok s.
Proof.
  intros H. split_and!; [by apply dotted_nonempty|by apply dotted_plain|].
  apply not_true_iff_false. intros Hd%Split_dot_end. rewrite Forall_forall in H. by destruct (H _ Hd).
Qed.
Lemma zone_dotted x z : Forall plain (s2l x) → zone_ok z → zone_ok (x +:+ "." +:+ z).
Proof.
  intros Hx (Hz&Hp&Hd). split_and!.
  - intros H. apply (f_equal len) in H. rewrite !len_app in H.
    change (len ".") with 1%nat in H. change (len "") with 0%nat in H. lia.
  - by apply plain_dotted.
  - rewrite <-string_app_assoc. by rewrite HasSuffix_dot_app.
Qed.
Lemma label_zone s : is_label s → zone_ok s.
Proof.
  intros (Hne&_&_&Hl). split_and!; [done|by apply label_plain|].
  apply not_true_iff_false. rewrite HasSuffix_spec. intros [x ->]. rewrite s2l_app in Hl.
  apply Forall_app in Hl as [_ Hl]. by inversion Hl as [|? ? Hdot].
Qed.
Lemma Suffix_zone : zone_ok Suffix.
Proof. split_and!; [done| |by vm_compute]. apply label_plain. repeat constructor. Qed.
Lemma CertSuffix_zone : zone_ok CertSuffix.
Proof. split_and!; [done| |by vm_compute]. apply label_plain. repeat constructor. Qed.

Lemma table_zones (table : RouteTable) (instance : string) (r : routerRoute) :
  is_label instance →
  Forall (λ rv, Forall is_label (Split (rv_Connector rv) "."%char) ∧
                (rv_Domain rv = RootDomain ∨ Forall is_label (Split (rv_Domain rv) "."%char))) (tb_Resolvers table) →
  r ∈ routerTableFor table instance → zone_ok (rr_Virtual r) ∧ (bare r = true ∨ zone_ok (rr_Real r)).
Proof.
  intros Hi Hrs [Hr|Hr]%elem_of_app.
  - apply list_elem_of_fmap in Hr as (rv&->&[_ Hrv]%list_elem_of_filter).
    rewrite Forall_forall in Hrs. destruct (Hrs _ Hrv) as [Hc Hd]. simpl.
    assert (zone_ok (rv_Connector rv +:+ "." +:+ instance +:+ "." +:+ Suffix)) as Hz.
    { apply zone_dotted; [by apply dotted_plain|]. apply zone_dotted; [|apply Suffix_zone].
      by apply label_zone. }
    split.
    + unfold connectorName. rewrite decide_False by by apply dotted_nonempty.
      by rewrite ToLower_plain by apply Hz.
    + unfold bare, realName. simpl. destruct Hd as [->|Hd]; [by left; vm_compute|right].
      rewrite decide_False by by apply dotted_not_root. rewrite dotted_fold by done. by apply labels_zone.
  - unfold lighthouse_route in Hr. destruct (Addr_IsValid _); [|by apply elem_of_nil in Hr].
    apply list_elem_of_singleton in Hr as ->. simpl.
    assert (zone_ok (instance +:+ "." +:+ CertSuffix)) as Hz.
    { apply zone_dotted; [by apply label_zone|apply CertSuffix_zone]. }
    rewrite ToLower_plain by apply Hz. auto.
Qed.

(** ** Answers *)

(** The families of a route are those its connector carries; the lighthouse's
    name space has both. *)
Definition carried (table : RouteTable) (via : Addr) (four : bool) : Prop :=
  (∃ rt, rt ∈ tb_Routes table ∧ rt_Via rt = via ∧ Is4 (p_addr (rt_Prefix rt)) = four) ∨
  via = l_OverlayAddress (tb_Lighthouse table).

Lemma carry_lookup (m : gmap Addr (bool * bool)) rt via :
  carry m rt !! via =
  if decide (rt_Via rt = via) then
    let c := default (false, false) (m !! via) in
    Some (if Is4 (p_addr (rt_Prefix rt)) then (true, c.2) else (c.1, true))
  else m !! via.
Proof.
  unfold carry. destruct (decide _) as [<-|]; [by rewrite lookup_insert_eq|by rewrite lookup_insert_ne].
Qed.
Lemma carry_spec routes (m : gmap Addr (bool * bool)) via :
  let c := default (false, false) (foldl carry m routes !! via) in
  let c0 := default (false, false) (m !! via) in
  (c.1 = true → c0.1 = true ∨ ∃ rt, rt ∈ routes ∧ rt_Via rt = via ∧ Is4 (p_addr (rt_Prefix rt)) = true) ∧
  (c.2 = true → c0.2 = true ∨ ∃ rt, rt ∈ routes ∧ rt_Via rt = via ∧ Is4 (p_addr (rt_Prefix rt)) = false).
Proof.
  revert m. induction routes as [|rt routes IH]; intros m; simpl; [by split; left|].
  specialize (IH (carry m rt)). simpl in IH. destruct IH as [IH1 IH2].
  assert (∀ b : bool, (∃ rt', rt' ∈ routes ∧ rt_Via rt' = via ∧ Is4 (p_addr (rt_Prefix rt')) = b) →
    ∃ rt', rt' ∈ rt :: routes ∧ rt_Via rt' = via ∧ Is4 (p_addr (rt_Prefix rt')) = b) as Hlater.
  { intros b (rt'&?&?&?). exists rt'. split_and!; [by right|done..]. }
  assert (∀ b, Is4 (p_addr (rt_Prefix rt)) = b → rt_Via rt = via →
    ∃ rt', rt' ∈ rt :: routes ∧ rt_Via rt' = via ∧ Is4 (p_addr (rt_Prefix rt')) = b) as Hhere.
  { intros b ? ?. exists rt. split_and!; [by left|done..]. }
  rewrite carry_lookup in IH1, IH2. destruct (decide (rt_Via rt = via)) as [E|E].
  - simpl in IH1, IH2.
    split; intros Hc; [destruct (IH1 Hc) as [H|H]|destruct (IH2 Hc) as [H|H]]; auto;
      destruct (Is4 (p_addr (rt_Prefix rt))) eqn:E4; subst; auto.
  - split; intros Hc; [destruct (IH1 Hc)|destruct (IH2 Hc)]; auto.
Qed.

(** What holds of every route of a table still holds once aliases are added:
    an alias is a route under another name. *)
Lemma withAliases_Forall (P : routerRoute → Prop) ρ t aliases :
  (∀ v r, P r → P (set_Virtual v r)) → Forall P t → Forall P (withAliases ρ t aliases).
Proof.
  intros HP. unfold withAliases. generalize (range ρ aliases). intros l. revert t.
  induction l as [|kv l IH]; intros t Ht; simpl; [done|]. apply IH. unfold alias_step.
  destruct (matchRoute t kv.2) as [r|] eqn:E; [|done]. apply Forall_app_2; [done|]. constructor; [|done].
  apply HP. rewrite Forall_forall in Ht. apply Ht. by eapply matchRoute_elem.
Qed.

Definition families_ok (table : RouteTable) (r : routerRoute) : Prop :=
  (rr_IPv4 r = true → carried table (rr_Via r) true) ∧ (rr_IPv6 r = true → carried table (rr_Via r) false).
Lemma table_families ρ table instance aliases r :
  r ∈ table_for ρ aliases table instance → families_ok table r.
Proof.
  revert r. apply Forall_forall, withAliases_Forall; [by intros v r|]. apply Forall_app_2.
  - apply Forall_fmap, Forall_forall. intros rv _. unfold families_ok, carried. simpl.
    pose proof (carry_spec (tb_Routes table) ∅ (rv_Via rv)) as [H1 H2].
    rewrite lookup_empty in H1, H2. simpl in H1, H2. fold (carriesOf (tb_Routes table)) in H1, H2.
    split; intros H; left; [destruct (H1 H)|destruct (H2 H)]; done.
  - unfold lighthouse_route. destruct (Addr_IsValid _); [|constructor]. constructor; [|constructor].
    split; intros _; right; done.
Qed.

Section Answers.
Context `{HD : DnsMessage} `{HN : DnsNet}.

(** What a reader of a message finds in it. *)
Definition reads (w : string) (h : MsgHeader) (qs : list Question) (l : list Resource) : Prop :=
  ∃ p p', Start w = Ok (h, p) ∧ AllQuestions p = Ok (qs, p') ∧ AllAnswers p' = (l, None).

(** The records a reply may hold, on a route: one the connector sent, under
    its restored name, of a family the route carries. *)
Definition answer_ok (route : routerRoute) (name : string) (body : Body) : Prop :=
  (∃ given, name = restoreName route given) ∧
  match body with
  | AResource _ => rr_IPv4 route = true
  | AAAAResource _ => rr_IPv6 route = true
  | CNAMEResource target => ∃ given, target = restoreName route given
  | OtherResource _ => False
  end.

Lemma restore_answers_ok route answers b b' :
  restore_answers route answers b = Ok b' →
  (written b').1 = (written b).1 ∧
  ∃ l, (written b').2 = (written b).2 ++ l ∧ Forall (λ nb, answer_ok route nb.1 nb.2) l.
Proof.
  revert b. induction answers as [|a answers IH]; intros b; simpl.
  { intros [= <-]. split; [done|]. exists []. by rewrite app_nil_r. }
  assert (∀ body n b1, answer_ok route n body →
      PutResource (set_rh_Name n (re_Header a)) body b = Ok b1 →
      restore_answers route answers b1 = Ok b' →
      (written b').1 = (written b).1 ∧
      ∃ l, (written b').2 = (written b).2 ++ l ∧ Forall (λ nb, answer_ok route nb.1 nb.2) l) as Hput.
  { intros body n b1 Hok Hp (H1&l&H2&Hl)%IH. apply PutResource_written in Hp. rewrite Hp in H1, H2.
    simpl in H1, H2. split; [done|]. exists ((n, body) :: l). rewrite H2, <-app_assoc. by split; [|constructor]. }
  destruct (NewName _) as [n| |] eqn:En; [|apply IH..].
  apply NewName_Ok in En as Hn.
  destruct (re_Body a) as [x|x|x|x]; [..|apply IH].
  - destruct (rr_IPv4 route) eqn:E4; simpl; [|exact (IH b)].
    intros (b1&Hp&H)%bindR_Ok. eapply Hput; [|done..]. split; eauto.
  - destruct (rr_IPv6 route) eqn:E6; simpl; [|exact (IH b)].
    intros (b1&Hp&H)%bindR_Ok. eapply Hput; [|done..]. split; eauto.
  - destruct (NewName (restoreName route x)) as [t| |] eqn:Et; [|apply IH..].
    apply NewName_Ok in Et. intros (b1&Hp&H)%bindR_Ok. eapply Hput; [|done..]. split; eauto.
Qed.

(** A reply built from a question and records. *)
Lemma built_reply h q (c : Builder → res Builder) w :
  (let? b := StartQuestions (EnableCompression (NewBuilder h)) in
   let? b := PutQuestion q b in
   let? b := StartAnswers b in
   let? b := c b in
   Finish b) = Ok w →
  (∀ b b', c b = Ok b' → (written b').1 = (written b).1) →
  ∃ h' l b b', reads w h' [q] l ∧ mh_Response h' = mh_Response h ∧ mh_ID h' = mh_ID h ∧
    c b = Ok b' ∧ (written b).2 = [] ∧ (λ r, (rh_Name (re_Header r), re_Body r)) <$> l = (written b').2.
Proof.
  intros (b1&H1&(b2&H2&(b3&H3&(b4&H4&H5)%bindR_Ok)%bindR_Ok)%bindR_Ok)%bindR_Ok Hc.
  apply StartQuestions_written in H1. apply PutQuestion_written in H2. apply StartAnswers_written in H3.
  pose proof (Hc _ _ H4) as H4'. apply Finish_reads in H5 as (h'&p&p'&l'&Hs&Hq&Ha&Hl&Hid&Hr&_).
  rewrite EnableCompression_written, NewBuilder_written in H1. rewrite H1 in H2. simpl in H2.
  rewrite H4', H3, H2 in Hq, Hid, Hr. simpl in Hq, Hid, Hr.
  exists h', l', b3, b4. split_and!; [by exists p, p'|done..|by rewrite H3, H2|done].
Qed.

Lemma restore_reads reply q route w :
  restore reply q route = Ok w →
  ∃ h l, reads w h [q] l ∧ mh_Response h = true ∧
    Forall (λ r, answer_ok route (rh_Name (re_Header r)) (re_Body r)) l.
Proof.
  unfold restore. intros ([h0 p]&_&H)%bindR_Ok. apply bindR_Ok in H as ([qs p']&_&H).
  destruct (AllAnswers p') as [answers err]. apply bindR_Ok in H as ([]&_&H).
  destruct (built_reply _ q (restore_answers route answers) w H) as (h&l&b&b'&Hr&Hresp&_&Hc&Hb&Hl).
  { intros b b' Hb. by apply restore_answers_ok in Hb as [? _]. }
  apply restore_answers_ok in Hc as (_&l'&Hl'&Hok). rewrite Hb in Hl'. simpl in Hl'.
  exists h, l. split_and!; [done|by rewrite Hresp|]. rewrite <-Hl', <-Hl in Hok.
  apply Forall_fmap in Hok. exact Hok.
Qed.

Lemma refuse_reads h q rcode w :
  refuse h q rcode = Ok w →
  ∃ h', reads w h' [q] [] ∧ mh_Response h' = true ∧ mh_ID h' = mh_ID h ∧ mh_RCode h' = rcode mod 16.
Proof.
  unfold refuse. intros (b1&H1&(b2&H2&H3)%bindR_Ok)%bindR_Ok.
  apply StartQuestions_written in H1. apply PutQuestion_written in H2.
  apply Finish_reads in H3 as (h'&p&p'&l'&Hs&Hq&Ha&Hl&Hid&Hr&_&Hrc).
  rewrite NewBuilder_written in H1. rewrite H1 in H2. rewrite H2 in *. simpl in *.
  apply fmap_nil_inv in Hl as ->. exists h'. split_and!; [by exists p, p'|done..].
Qed.

(** What a reply to a question is, branch by branch. *)
Lemma answer_reads table query tcp w :
  answer table query tcp = Ok w →
  ∃ header parser q parser', Start query = Ok (header, parser) ∧ ParseQuestion parser = Ok (q, parser') ∧
  ∃ h l, reads w h [q] l ∧ mh_Response h = true ∧
  match matchRoute table (qu_Name q) with
  | None => l = [] ∧ mh_ID h = mh_ID header ∧ mh_RCode h = RCodeNameError
  | Some route => Forall (λ r, answer_ok route (rh_Name (re_Header r)) (re_Body r)) l
  end.
Proof.
  unfold answer. intros ([header parser]&Hs&H)%bindR_Ok. apply bindR_Ok in H as ([q parser']&Hq&H).
  exists header, parser, q, parser'. split_and!; [done..|].
  destruct (matchRoute table (qu_Name q)) as [route|].
  2:{ apply refuse_reads in H as (h&?&?&?&?). by exists h, []. }
  destruct (_ && _); [apply refuse_reads in H as (h&?&?&?&?); by exists h, []|].
  destruct (_ && _); [apply refuse_reads in H as (h&?&?&?&?); by exists h, []|].
  apply bindR_Ok in H as (asked&_&H). apply bindR_Ok in H as (reply&_&H).
  apply restore_reads in H as (h&l&?&?&?). by exists h, l.
Qed.

(** C31: Whatever a connector answers, what a router replies is a response to
    the question it was asked and holds no more than addresses and canonical
    names; an address only of a family the hub's route table has a route of
    through that connector (or the lighthouse's own name space), so nothing
    is resolved to an address there is no way to; and every name in it went
    through the restoring of the route.  A name no route holds is answered
    with a name error and nothing else. *)
Theorem answers_are_reachable (ρ : Range) (aliases : gmap string string) (table : RouteTable)
    (instance query w : string) (tcp : bool) :
  answer (table_for ρ aliases table instance) query tcp = Ok w →
  ∃ header parser q parser' h l,
    Start query = Ok (header, parser) ∧ ParseQuestion parser = Ok (q, parser') ∧
    reads w h [q] l ∧ mh_Response h = true ∧
    match matchRoute (table_for ρ aliases table instance) (qu_Name q) with
    | None => l = [] ∧ mh_ID h = mh_ID header ∧ mh_RCode h = RCodeNameError
    | Some route => Forall (λ r,
        (∃ given, rh_Name (re_Header r) = restoreName route given) ∧
        match re_Body r with
        | AResource _ => carried table (rr_Via route) true
        | AAAAResource _ => carried table (rr_Via route) false
        | CNAMEResource target => ∃ given, target = restoreName route given
        | OtherResource _ => False
        end) l
    end.
Proof.
  intros (header&parser&q&parser'&?&?&h&l&?&?&Hl)%answer_reads.
  exists header, parser, q, parser', h, l. split_and!; [done..|].
  destruct (matchRoute _ (qu_Name q)) as [route|] eqn:E; [|done].
  apply matchRoute_elem, table_families in E as [H4 H6].
  eapply Forall_impl; [exact Hl|]. intros r [Hn Hb]. split; [done|].
  destruct (re_Body r); auto.
Qed.
End Answers.

(** ** Streams *)

Lemma lor_shift a b : 0 ≤ a → 0 ≤ b < 256 → Z.lor (Z.shiftl a 8) b = a * 256 + b.
Proof.
  intros Ha Hb. pose proof (Z.add_lor_land (Z.shiftl a 8) b) as Hadd.
  assert (Z.land (Z.shiftl a 8) b = 0) as Hland.
  { apply Z.bits_inj'. intros n Hn. rewrite Z.land_spec, Z.bits_0.
    destruct (Z.lt_ge_cases n 8) as [H|H]; [by rewrite Z.shiftl_spec_low|].
    rewrite <-(Z.mod_small b (2 ^ 8)), Z.mod_pow2_bits_high by lia. apply andb_false_r. }
  rewrite Hland, Z.shiftl_mul_pow2 in Hadd by lia. change (2 ^ 8) with 256 in Hadd.
  rewrite Z.shiftl_mul_pow2 by lia. change (2 ^ 8) with 256. lia.
Qed.
(** The two bytes of a length, read back. *)
Lemma length_bytes n : 0 ≤ n ≤ 65535 →
  Z.lor (Z.shiftl (code (chr (Z.shiftr n 8 mod 256))) 8) (code (chr (n mod 256))) = n.
Proof.
  intros Hn. rewrite Z.shiftr_div_pow2 by lia. change (2 ^ 8) with 256.
  pose proof (Z.mod_pos_bound (n / 256) 256). pose proof (Z.mod_pos_bound n 256).
  rewrite !code_chr, lor_shift by lia. Z.div_mod_to_equations. lia.
Qed.

Definition framable (msg : string) : Prop := (1 ≤ len msg)%nat ∧ Z.of_nat (len msg) ≤ 65535.
Lemma framable_ne msg : framable msg → msg ≠ "".
Proof. intros [H _] E. subst msg. vm_compute in H. lia. Qed.
Lemma write_read msg rest :
  framable msg → ∃ f, writeTCPMessage msg = Ok f ∧ readTCPMessage (f +:+ rest) = Ok (msg, rest) ∧
    len f = (2 + len msg)%nat.
Proof.
  intros [H1 H2]. unfold writeTCPMessage. rewrite (proj2 (Z.ltb_ge _ _)) by lia.
  eexists. split; [done|]. set (n := Z.of_nat (len msg)).
  assert (0 ≤ n ≤ 65535) as Hn by (unfold n; lia). split; [|by rewrite len_app].
  unfold readTCPMessage. rewrite !s2l_app, s2l_l2s. simpl. rewrite length_bytes by done.
  rewrite (proj2 (Z.eqb_neq n 0)), (proj2 (Z.ltb_ge 65535 n)) by (unfold n; lia).
  rewrite (proj2 (Z.ltb_ge _ n)) by (rewrite length_app; unfold n, len; lia).
  simpl. do 2 f_equal; unfold n, len; rewrite Nat2Z.id, ?take_app_length, ?drop_app_length; apply l2s_s2l.
Qed.
Lemma read_shrinks conn msg rest : readTCPMessage conn = Ok (msg, rest) → (len rest < len conn)%nat.
Proof.
  unfold readTCPMessage, len. destruct (s2l conn) as [|a [|b l]]; [done..|].
  destruct (_ || _); [done|]. destruct (_ <? _); [done|]. intros [= _ <-].
  rewrite s2l_l2s, length_drop. simpl. lia.
Qed.

(** The bytes of messages one after the other, and the reading of all of
    them. *)
Fixpoint frames (msgs : list string) : res string :=
  match msgs with
  | [] => Ok ""
  | m :: msgs => let? f := writeTCPMessage m in let? w := frames msgs in Ok (f +:+ w)
  end.
Fixpoint read_all (fuel : nat) (conn : string) : list string :=
  match fuel with
  | O => []
  | S fuel => match readTCPMessage conn with Ok (m, conn) => m :: read_all fuel conn | _ => [] end
  end.

Lemma frames_read msgs :
  Forall framable msgs → ∃ w, frames msgs = Ok w ∧ ∀ fuel, (length msgs < fuel)%nat → read_all fuel w = msgs.
Proof.
  induction 1 as [|m msgs Hm Hms (w&Hw&IH)]; simpl.
  { exists "". split; [done|]. by intros [|fuel] ?. }
  destruct (write_read m w Hm) as (f&Hf&Hr&_). exists (f +:+ w). rewrite Hf, Hw. split; [done|].
  intros [|fuel] Hl; simpl; [lia|]. rewrite Hr, IH by lia. done.
Qed.

Section Stream.
Context `{HD : DnsMessage} `{HN : DnsNet}.

(** Each turn takes bytes off the stream, so the loop ends. *)
Lemma serve_stream_ends tables fuel conn :
  (len conn < fuel)%nat → ∃ w, ∀ fuel', (len conn < fuel')%nat → serve_stream tables fuel' conn = Some w.
Proof.
  revert tables conn. induction fuel as [|fuel IH]; intros tables conn Hl; [lia|].
  destruct (readTCPMessage conn) as [[query rest]| |] eqn:Hr.
  2,3: exists ""; intros [|f'] ?; [lia|]; simpl; by rewrite Hr.
  pose proof (read_shrinks _ _ _ Hr) as Hs.
  destruct (IH (tables ∘ S) rest ltac:(lia)) as [w Hw].
  destruct (answer (tables O) query true) as [reply| |] eqn:Ha.
  2,3: exists ""; intros [|f'] ?; [lia|]; simpl; by rewrite Hr, Ha.
  destruct (decide (reply = "")) as [E|E].
  { exists "". intros [|f'] ?; [lia|]. simpl. rewrite Hr, Ha. by rewrite decide_True. }
  destruct (writeTCPMessage reply) as [f| |] eqn:Hf.
  2,3: exists ""; intros [|f'] ?; [lia|]; simpl; rewrite Hr, Ha, decide_False, Hf; done.
  exists (f +:+ w). intros [|f'] ?; [lia|]. simpl. rewrite Hr, Ha, decide_False, Hf by done.
  by rewrite Hw by lia.
Qed.

Lemma serve_stream_frames tables msgs replies sent :
  length msgs = length replies →
  (∀ i q a, msgs !! i = Some q → replies !! i = Some a → answer (tables i) q true = Ok a) →
  Forall framable msgs → Forall framable replies → frames msgs = Ok sent →
  ∃ w, frames replies = Ok w ∧ ∀ fuel, (length msgs < fuel)%nat → serve_stream tables fuel sent = Some w.
Proof.
  revert tables replies sent. induction msgs as [|q msgs IH]; intros tables [|a replies] sent Hl Ha Hq Hr; try done.
  { simpl. intros [= <-]. exists "". split; [done|]. intros [|fuel] ?; [lia|done]. }
  apply Forall_cons_1 in Hq as [Hq Hqs]. apply Forall_cons_1 in Hr as [Hra Hrs].
  simpl. intros (f&Hf&(rest&Hrest&[= <-])%bindR_Ok)%bindR_Ok.
  destruct (IH (tables ∘ S) replies rest) as (w&Hw&Hserve); [by injection Hl| |done..|].
  { intros i x y Hx Hy. by apply (Ha (S i)). }
  destruct (write_read a w Hra) as (fa&Hfa&_). destruct (write_read q rest Hq) as (f'&Hf'&Hread&_).
  rewrite Hf in Hf'. injection Hf' as <-. exists (fa +:+ w). rewrite Hfa, Hw. split; [done|].
  intros [|fuel] Hlt; simpl in *; [lia|]. rewrite Hread, (Ha O q a eq_refl eq_refl).
  rewrite decide_False by by apply framable_ne. rewrite Hfa.
  rewrite Hserve by lia. done.
Qed.

(** C28: The loop over a connection ends, for every sequence of bytes its other
    end may send and whatever the connectors answer: each turn takes a message
    off it.  Queries sent one after the other, without waiting, are answered
    in their order, and their answers read back one after the other. *)
Theorem tcp_conversation_ends (tables : nat → routerTable) (conn : string) :
  (∃ w, serveTCP tables conn = Some w ∧
        ∀ fuel, (len conn < fuel)%nat → serve_stream tables fuel conn = Some w) ∧
  (∀ queries replies, Forall framable queries → Forall framable replies →
     length queries = length replies →
     (∀ i q a, queries !! i = Some q → replies !! i = Some a → answer (tables i) q true = Ok a) →
     frames queries = Ok conn →
     ∃ w, serveTCP tables conn = Some w ∧ frames replies = Ok w ∧
          read_all (S (length replies)) w = replies).
Proof.
  assert (∃ w, serveTCP tables conn = Some w ∧
        ∀ fuel, (len conn < fuel)%nat → serve_stream tables fuel conn = Some w) as Hend.
  { destruct (serve_stream_ends tables (S (len conn)) conn) as [w Hw]; [lia|].
    exists w. split; [apply Hw; lia|done]. }
  split; [done|]. intros queries replies Hq Hr Hl Ha Hf. destruct Hend as (w&Hw&Hmore).
  destruct (serve_stream_frames tables queries replies conn Hl Ha Hq Hr Hf) as (w'&Hw'&Hserve).
  exists w. destruct (frames_read replies Hr) as (w''&Hw''&Hread).
  assert (Some w = Some w') as [= <-].
  { rewrite <-(Hmore (S (len conn + length queries))), <-(Hserve (S (len conn + length queries))) by lia. done. }
  rewrite Hw' in Hw''. injection Hw'' as <-. split_and!; [done..|]. apply Hread. lia.
Qed.

(** The loop over the additional records, from where it starts. *)
Lemma opt_loop_ends fuel p :
  (remaining p < fuel)%nat → ∃ n, opt_loop fuel p = Some n ∧ withoutEDNS ≤ n < 65536.
Proof.
  revert p. induction fuel as [|fuel IH]; intros p Hp; [lia|]. simpl.
  destruct (AdditionalHeader p) as [[h p1]| |] eqn:Ha; [|by exists withoutEDNS..].
  apply AdditionalHeader_remaining in Ha as [Hr Hc]. destruct (_ =? _).
  - eexists. split; [done|]. destruct (Z.ltb_spec withoutEDNS (rh_Class h)); unfold withoutEDNS in *; lia.
  - destruct (SkipAdditional p1) as [p2| |] eqn:Hs; [|by exists withoutEDNS..].
    apply SkipAdditional_remaining in Hs. apply IH. lia.
Qed.
Lemma udpLimit_ends query : ∃ n, udpLimit query = Some n ∧ withoutEDNS ≤ n < 65536.
Proof. unfold udpLimit. destruct (additionals query) as [p| |]; [apply opt_loop_ends; lia|by exists withoutEDNS..]. Qed.

(** A datagram is answered with one the asker can take: the search for the
    size it announced ends with one between 512 and 65535, and a reply over
    that size is replaced by one that carries the question alone and says it
    was cut. *)
Theorem datagram_fits (table : routerTable) (query w : string) :
  serve_datagram table query = Some w →
  ∃ limit, udpLimit query = Some limit ∧ 512 ≤ limit < 65536 ∧
    (Z.of_nat (len w) ≤ limit ∧ answer table query false = Ok w ∨
     ∃ h q, reads w h [q] [] ∧ mh_Truncated h = true ∧ mh_Response h = true ∧
       ∃ header parser parser', Start query = Ok (header, parser) ∧
         ParseQuestion parser = Ok (q, parser') ∧ mh_ID h = mh_ID header).
Proof.
  unfold serve_datagram. destruct (answer table query false) as [reply| |] eqn:Ha; [|done..].
  destruct (decide (reply = "")) as [|Hne]; [done|]. destruct (udpLimit_ends query) as (n&->&Hn1&Hn2). unfold withoutEDNS in Hn1.
  destruct (Z.ltb_spec n (Z.of_nat (len reply))) as [Hl|Hl].
  - destruct (truncate query) as [short| |] eqn:Ht; [|done..]. intros [= <-]. exists n.
    split_and!; [done..|]. right. unfold truncate in Ht.
    apply bindR_Ok in Ht as ([header parser]&Hs&Ht). apply bindR_Ok in Ht as ([q parser']&Hq&Ht).
    apply bindR_Ok in Ht as (b1&H1&(b2&H2&H3)%bindR_Ok).
    apply StartQuestions_written in H1. apply PutQuestion_written in H2.
    apply Finish_reads in H3 as (h'&p&p'&l'&Hst&Hqs&Hans&Hl'&Hid&Hr&Htr&_).
    rewrite NewBuilder_written in H1. rewrite H1 in H2. rewrite H2 in *. simpl in *.
    apply fmap_nil_inv in Hl' as ->. exists h', q. split_and!; [by exists p, p'|done..|].
    by exists header, parser, parser'.
  - intros [= <-]. exists n. split_and!; [done..|]. left. done.
Qed.
End Stream.
