(* ===== verification/TenantRun.v ===== *)
(** * The connections a machine runs: [internal/tenant/runner.go]

    Every connection is a nebula of its own, loaded with a configuration that
    is rendered from the connection and the hub's route table.  The
    configuration is the tree the code builds; writing it out is nebula's
    YAML, and nebula itself is what the environment answers. *)

From Stdlib Require Import Ascii.
From S2P Require Export DnsRouter.

Open Scope Z_scope.

(** ** Trees *)

(** A [map[string]any]: the values nebula's configuration is made of. *)
Inductive tree : Type :=
  | TStr (s : string)
  | TInt (z : Z)
  | TBool (b : bool)
  | TSeq (l : list tree)
  | TMap (l : list (string * tree)).
Definition strings_tree (l : list string) : tree := TSeq (TStr <$> l).
Definition field (k : string) (t : tree) : option tree :=
  match t with
  | TMap l => snd <$> find_first (λ kv, bool_decide (kv.1 = k)) l
  | _ => None
  end.
Fixpoint at_path (path : list string) (t : tree) : option tree :=
  match path with
  | [] => Some t
  | k :: path => field k t ≫= at_path path
  end.
(** [m[k] = v] of a key that is there. *)
Definition set_field (k : string) (v : tree) (t : tree) : tree :=
  match t with
  | TMap l => TMap ((λ kv, if decide (kv.1 = k) then (k, v) else kv) <$> l)
  | _ => t
  end.
(** [hub.RedactKey], on the tree the bytes stand for. *)
Definition RedactTree (t : tree) : tree :=
  match field "pki" t with
  | Some (TMap l as pki) =>
      match field "key" pki with
      | Some _ => set_field "pki" (set_field "key" (TStr RedactedKey) pki) t
      | None => t
      end
  | _ => t
  end.

(** ** Rendering *)

Definition rule_tree (r : FirewallRule) : tree :=
  TMap [("port", TStr (fr_port r)); ("proto", TStr (fr_proto r)); ("host", TStr (fr_host r))].
Definition route_tree (route : string * string) : tree :=
  TMap [("route", TStr route.1); ("via", TStr route.2)].

(** The routes that go on the device, with the gateway of each. *)
Definition unsafe_routes (conn : Connection) (table : RouteTable) (local : choices) : list (string * string) :=
  let wanted r := negb (bool_decide (rt_Via r = p_addr (cn_Address conn)))
                  && wantedFamily (ch_families local) (rt_Prefix r) in
  ((λ r, (Prefix_String (rt_Prefix r), Addr_String (rt_Via r))) <$>
     filter (λ r, wanted r = true) (tb_Routes table))
  ++ (if ch_chromiumProbeRoute local && IsValid (cn_Address6 conn)
         && wantedFamily (ch_families local) chromiumProbe
      then [(Prefix_String chromiumProbe, Addr_String (l_OverlayAddress (cn_Lighthouse conn)))] else []).

Definition renderConfig (conn : Connection) (table : RouteTable) (local : choices) : res tree :=
  if negb (Ready conn) then Err (Errorf "connection to %s has no certificate yet")
  else if bool_decide (l_Endpoints (cn_Lighthouse conn) = [])
  then Err (Errorf "connection to %s has no lighthouse endpoint") else
  let lighthouse := Addr_String (l_OverlayAddress (cn_Lighthouse conn)) in
  let routes := unsafe_routes conn table local in
  let tun := [("dev", TStr (cn_Device conn)); ("disabled", TBool false)]
             ++ (if (0 <? length routes)%nat then [("unsafe_routes", TSeq (route_tree <$> routes))] else []) in
  let pki := [("ca", TStr (cn_CA conn)); ("cert", TStr (cn_Certificate conn)); ("key", TStr (cn_PrivateKey conn))]
             ++ (if (0 <? length (tb_Blocked table))%nat then [("blocklist", strings_tree (tb_Blocked table))] else []) in
  Ok (TMap
    [("pki", TMap pki);
     ("static_host_map", TMap [(lighthouse, strings_tree (l_Endpoints (cn_Lighthouse conn)))]);
     ("lighthouse", TMap [("am_lighthouse", TBool false); ("interval", TInt 5); ("hosts", strings_tree [lighthouse])]);
     ("listen", TMap [("host", TStr "0.0.0.0"); ("port", TInt (cn_ListenPort conn))]);
     ("punchy", TMap [("punch", TBool true); ("respond", TBool true); ("target_all_remotes", TBool true)]);
     ("relay", TMap [("am_relay", TBool false); ("use_relays", TBool (l_Relay (cn_Lighthouse conn)))]);
     ("handshakes", TMap [("try_interval", TStr "100ms"); ("retries", TInt 40)]);
     ("timers", TMap [("connection_alive_interval", TInt 2); ("pending_deletion_interval", TInt 3)]);
     ("tun", TMap tun);
     ("firewall", TMap
        [("default_local_cidr_any", TBool true);
         ("outbound", TSeq [rule_tree (mkRule "any" "any" "any")]);
         ("inbound", TSeq (rule_tree <$> inboundRules (ch_inbound local)))]);
     ("logging", TMap [("level", TStr "info"); ("format", TStr "text")])]).

(** ** What is up *)

(** [runner]: the instance, and what nebula was last handed. *)
Record runner : Type := mkRunner { rn_instance : string; rn_raw : tree }.
Definition runners : Type := gmap string runner.

Definition run_start (env : Env) (conn : Connection) (table : RouteTable) (local : choices) : M runners () :=
  let* running := getM in
  match running !! cn_InstanceID conn with
  | Some _ => retM ()
  | None =>
      let* raw := liftR (renderConfig conn table local) in
      match nebula_start env with
      | Some e => raise (Wrap "could not start nebula: %w" e)
      | None => modify (insert (cn_InstanceID conn) (mkRunner (cn_InstanceID conn) raw))
      end
  end.
Definition run_reload (env : Env) (conn : Connection) (table : RouteTable) (local : choices) : M runners () :=
  let* running := getM in
  match running !! cn_InstanceID conn with
  | None => retM ()
  | Some r =>
      let* raw := liftR (renderConfig conn table local) in
      match nebula_reload env with
      | Some e => raise e
      | None => modify (insert (cn_InstanceID conn) (mkRunner (rn_instance r) raw))
      end
  end.
Definition run_loaded (running : runners) (instance : string) : option tree := rn_raw <$> running !! instance.
Definition run_stop (instance : string) : M runners () := modify (delete instance).
Definition run_stopAll : M runners () := modify (λ _, ∅).
Definition run_isRunning (running : runners) (instance : string) : bool :=
  bool_decide (is_Some (running !! instance)).

(** The first held prefix, in the order the map is walked, that overlaps a
    wanted one. *)
Definition overlap_with (a : Prefix) (wanted : list Prefix) : option Prefix := find_first (Overlaps a) wanted.
Fixpoint overlap_held (held wanted : list Prefix) : option Prefix :=
  match held with
  | [] => None
  | a :: held => match overlap_with a wanted with Some b => Some b | None => overlap_held held wanted end
  end.
Fixpoint collides_loop (instance : string) (wanted : list Prefix) (l : list (string * list Prefix))
    : option (string * Prefix) :=
  match l with
  | [] => None
  | (other, held) :: l =>
      if decide (other = instance) then collides_loop instance wanted l
      else match overlap_held held wanted with
           | Some b => Some (other, b)
           | None => collides_loop instance wanted l
           end
  end.
Definition collides (ρ : Range) (existing : gmap string (list Prefix)) (instance : string) (wanted : list Prefix)
    : option (string * Prefix) := collides_loop instance wanted (range ρ existing).
