(* ===== verification/Ca.v ===== *)
(** * The certificate authority: [internal/ca]

    What the owner of an instance signs with: generating an authority, loading
    one, and issuing a member's certificate.  Certificates themselves belong
    to nebula's library, a class: what was signed can be read back from a
    certificate and from its PEM form. *)

From Stdlib Require Import Ascii.
From S2P Require Export GoCodec Protocol.

Open Scope Z_scope.

(** ** Definitions *)

(** [24 * time.Hour] times the days of ten and twenty years. *)
Definition DefaultCADuration : Z := 20 * 365 * (Day * Second).
Definition DefaultCertDuration : Z := 10 * 365 * (Day * Second).

(** [cert.TBSCertificate], less what is the same for all: version 2. *)
Record TBSCertificate : Type := mkTBS {
  tb_Name : string;
  tb_Networks : list Prefix;
  tb_UnsafeNetworks : list Prefix;
  tb_Groups : list string;
  tb_NotBefore : Time;
  tb_NotAfter : Time;
  tb_PublicKey : string;
  tb_IsCA : bool;
  tb_Curve : Z;
}.
#[export] Instance TBSCertificate_eq_dec : EqDecision TBSCertificate.
Proof. solve_decision. Defined.
Definition Curve_CURVE25519 : Z := 0.

(** How a certificate says what was signed: networks in an order of its own,
    points in time in whole seconds. *)
Definition whole_seconds (t : Time) : Time := t / Second * Second.
Definition says (tbs c : TBSCertificate) : Prop :=
  tb_Name c = tb_Name tbs ∧ tb_Networks c ≡ₚ tb_Networks tbs ∧
  tb_UnsafeNetworks c ≡ₚ tb_UnsafeNetworks tbs ∧ tb_Groups c = tb_Groups tbs ∧
  tb_NotBefore c = whole_seconds (tb_NotBefore tbs) ∧ tb_NotAfter c = whole_seconds (tb_NotAfter tbs) ∧
  tb_PublicKey c = tb_PublicKey tbs ∧ tb_IsCA c = tb_IsCA tbs ∧ tb_Curve c = tb_Curve tbs.

(** [github.com/slackhq/nebula/cert]. *)
Class CertLib := {
  Cert : Type;
  (** What a certificate says. *)
  details : Cert → TBSCertificate;
  (** [tbs.Sign(signer, curve, key)]; an authority signs itself. *)
  TBS_Sign : TBSCertificate → option Cert → Z → string → res Cert;
  MarshalPEM : Cert → res string;
  UnmarshalCertificateFromPEM : string → res Cert;
  CertFingerprint : Cert → res string;
  VerifyPrivateKey : Cert → Z → string → res ();
  MarshalSigningPrivateKeyToPEM : Z → string → string;
  UnmarshalSigningPrivateKeyFromPEM : string → res (string * Z);
  MarshalPublicKeyToPEM : Z → string → string;
  MarshalPrivateKeyToPEM : Z → string → string;
  UnmarshalPublicKeyFromPEM : string → res (string * Z);
  Sign_details : ∀ tbs signer curve key c, TBS_Sign tbs signer curve key = Ok c → says tbs (details c);
  PEM_roundtrip : ∀ c pem, MarshalPEM c = Ok pem → UnmarshalCertificateFromPEM pem = Ok c;
}.

(** The authority: its certificate and its signing key. *)
Section Ca.
Context `{HL : CertLib}.

Record CA : Type := mkCA { ca_cert : Cert; ca_key : string }.

(** What [ed25519.GenerateKey] and [ecdh.X25519().GenerateKey] give: the two
    halves of a key, or an error. *)
Definition KeyPair : Type := error + (string * string).

(** [ca.Generate]: the authority and the PEM forms of its two halves. *)
Definition Generate (now : Time) (keys : KeyPair) (name : string) (networks : list Prefix) (duration : Z)
    : res (CA * string * string) :=
  let duration := if duration <=? 0 then DefaultCADuration else duration in
  match keys with
  | inl e => Err (Wrap "could not generate a signing key: %w" e)
  | inr (pub, priv) =>
      let tbs := mkTBS name networks [] [] now (now + duration) pub true Curve_CURVE25519 in
      match TBS_Sign tbs None Curve_CURVE25519 priv with
      | Err e => Err (Wrap "could not self sign the authority: %w" e)
      | Panic => Panic
      | Ok c =>
          match MarshalPEM c with
          | Err e => Err (Wrap "could not encode the authority: %w" e)
          | Panic => Panic
          | Ok certPEM => Ok (mkCA c priv, certPEM, MarshalSigningPrivateKeyToPEM Curve_CURVE25519 priv)
          end
      end
  end.

(** [ca.Load]. *)
Definition LoadCA (certPEM keyPEM : string) : res CA :=
  match UnmarshalCertificateFromPEM certPEM with
  | Err e => Err (Wrap "could not read the authority certificate: %w" e)
  | Panic => Panic
  | Ok c =>
      if negb (tb_IsCA (details c)) then Err (Errorf "%s is not a certificate authority") else
      match UnmarshalSigningPrivateKeyFromPEM keyPEM with
      | Err e => Err (Wrap "could not read the signing key: %w" e)
      | Panic => Panic
      | Ok (key, curve) =>
          if negb (curve =? tb_Curve (details c))
          then Err (Errorf "the signing key curve does not match the certificate") else
          match VerifyPrivateKey c curve key with
          | Err e => Err (Wrap "the signing key does not belong to this certificate: %w" e)
          | Panic => Panic
          | Ok _ => Ok (mkCA c key)
          end
      end
  end.
Definition CertificatePEM (ca : CA) : res string := MarshalPEM (ca_cert ca).

Record Host : Type := mkHost {
  ho_Name : string;
  ho_PublicKeyPEM : string;
  ho_Networks : list Prefix;
  ho_UnsafeNetworks : list Prefix;
  ho_Groups : list string;
  ho_Duration : Z;
}.
(** What [Sign] has the library sign. *)
Definition issued_tbs (now : Time) (ca : CA) (h : Host) (pub : string) (curve : Z) : TBSCertificate :=
  let duration := if ho_Duration h <=? 0 then DefaultCertDuration else ho_Duration h in
  let notAfter := now + duration in
  let notAfter := if tb_NotAfter (details (ca_cert ca)) <? notAfter
                  then tb_NotAfter (details (ca_cert ca)) else notAfter in
  mkTBS (ho_Name h) (ho_Networks h) (ho_UnsafeNetworks h) (ho_Groups h) now notAfter pub false curve.
(** [ca.Sign]. *)
Definition SignHost (now : Time) (ca : CA) (h : Host) : res string :=
  match UnmarshalPublicKeyFromPEM (ho_PublicKeyPEM h) with
  | Err e => Err (Wrap "could not read the public key: %w" e)
  | Panic => Panic
  | Ok (pub, curve) =>
      if negb (curve =? tb_Curve (details (ca_cert ca)))
      then Err (Errorf "the public key curve does not match the authority") else
      match TBS_Sign (issued_tbs now ca h pub curve) (Some (ca_cert ca)) curve (ca_key ca) with
      | Err e => Err (Wrap "could not sign: %w" e)
      | Panic => Panic
      | Ok c => MarshalPEM c
      end
  end.

(** [ca.GenerateHostKey]: the PEM forms of a member's key. *)
Definition GenerateMemberKey (keys : KeyPair) : res (string * string) :=
  match keys with
  | inl e => Err (Wrap "could not generate a host key: %w" e)
  | inr (pub, priv) =>
      Ok (MarshalPublicKeyToPEM Curve_CURVE25519 pub, MarshalPrivateKeyToPEM Curve_CURVE25519 priv)
  end.

(** ** What a certificate says *)

(** A certificate that [Sign] hands out reads back as what it was asked for,
    and ends no later than its authority. *)
Lemma SignHost_reads now ca h pem :
  SignHost now ca h = Ok pem →
  ∃ c pub curve, UnmarshalCertificateFromPEM pem = Ok c ∧ says (issued_tbs now ca h pub curve) (details c) ∧
    UnmarshalPublicKeyFromPEM (ho_PublicKeyPEM h) = Ok (pub, curve) ∧
    tb_NotAfter (details c) ≤ tb_NotAfter (details (ca_cert ca)) ∧ tb_IsCA (details c) = false.
Proof.
  unfold SignHost. destruct (UnmarshalPublicKeyFromPEM _) as [[pub curve]| |] eqn:Hp; [|done..].
  destruct (negb _); [done|]. destruct (TBS_Sign _ _ _ _) as [c| |] eqn:Hs; [|done..].
  intros Hpem. apply PEM_roundtrip in Hpem. apply Sign_details in Hs. exists c, pub, curve.
  pose proof Hs as (_&_&_&_&_&Ht&_&Hca&_). split_and!; [done..|rewrite Ht|by rewrite Hca].
  assert (tb_NotAfter (issued_tbs now ca h pub curve) ≤ tb_NotAfter (details (ca_cert ca))) as Hle.
  { unfold issued_tbs. simpl. case_match; lia. }
  unfold whole_seconds, Second in *. Z.div_mod_to_equations. lia.
Qed.
Lemma Generate_loads now keys name networks duration ca certPEM keyPEM :
  Generate now keys name networks duration = Ok (ca, certPEM, keyPEM) →
  UnmarshalCertificateFromPEM certPEM = Ok (ca_cert ca) ∧ tb_IsCA (details (ca_cert ca)) = true ∧
  tb_Networks (details (ca_cert ca)) ≡ₚ networks ∧ tb_Curve (details (ca_cert ca)) = Curve_CURVE25519.
Proof.
  unfold Generate. destruct keys as [e|[pub priv]]; [done|].
  destruct (TBS_Sign _ _ _ _) as [c| |] eqn:Hs; [|done..]. destruct (MarshalPEM c) as [pem| |] eqn:Hm; [|done..].
  intros [= <- <- <-]. apply Sign_details in Hs as (_&Hn&_&_&_&_&_&Hca&Hc). simpl.
  split_and!; [by apply PEM_roundtrip|done..].
Qed.
End Ca.
Arguments CA {_}.
