(* ===== verification/Tenant.v ===== *)
(** * The daemon of a machine: [internal/tenant/tenant.go]

    Registering, creating instances, joining, deciding, leaving: every
    operation of the daemon, over the state of the machine, the connections
    and routers it runs, and the hub as the interface [HubClient] shows it. *)

From Stdlib Require Import Ascii.
From S2P Require Export TenantRun Ca HubApi Pin.

Open Scope Z_scope.

(** ** The hub, as the machine sees it *)

(** The calls of [hubClient]; the world they act on is whatever is behind the
    hub's API. *)
Class HubClient (W : Type) := {
  hc_createInstance : string → string → M W CreateInstanceResponse;
  hc_instances : M W (list InstanceSummary);
  hc_activate : string → string → string → M W ();
  hc_pending : string → M W (list HubRecord);
  hc_decide : string → string → Decision_ → M W ();
  hc_forget : string → string → M W ();
  hc_ban : string → string → string → M W ();
  hc_unban : string → string → string → M W ();
  hc_setToken : string → string → M W ();
  hc_join : string → string → string → M W ();
  hc_joinResult : string → M W Result;
  hc_deleteInstance : string → M W ();
  hc_removeMember : string → string → M W Member;
  hc_members : string → M W (list Member);
  hc_routes : string → M W RouteTable;
}.

(** ** Control *)

(** [if v, err := c(); err != nil { ... } else { ... }]: the call is made and
    its outcome looked at. *)
Definition tryM {S A B} (c : M S A) (k : A + error → M S B) : M S B := λ s,
  match c s with
  | (Ok a, s) => k (inl a) s
  | (Err e, s) => k (inr e) s
  | (Panic, s) => (Panic, s)
  end.
(** A call whose error is only logged. *)
Definition logged {S} (c : M S ()) : M S () := tryM c (λ _, retM ()).
Fixpoint eachM {S A} (f : A → M S ()) (l : list A) : M S () :=
  match l with
  | [] => retM ()
  | x :: l => do* f x in eachM f l
  end.
(** A loop that appends what each turn gives. *)
Fixpoint collectM {S A B} (f : A → M S (list B)) (l : list A) : M S (list B) :=
  match l with
  | [] => retM []
  | x :: l => let* a := f x in let* b := collectM f l in retM (a ++ b)
  end.

(** ** Names and addresses *)

(** [newSharedToken]: twelve random bytes, or the time when there are none. *)
Definition compact_time (t : Time) : string :=
  let s := t / Second in
  let ymd := date_of_days (s / Day) in
  let r := s mod Day in
  l2s (pad4 ymd.1.1 ++ pad2 ymd.1.2 ++ pad2 ymd.2 ++ pad2 (r / 3600) ++ pad2 (r / 60 mod 60) ++ pad2 (r mod 60)).
Definition newSharedToken (env : TEnv) : string :=
  match random12 env with Some raw => EncodeHex raw | None => "t" +:+ compact_time (now (t_env env)) end.

Definition addresses (l : list Prefix) : list Prefix := filter (λ p, IsValid p = true) l.
Definition prefixOf (addr : Addr) (overlay : Prefix) : Prefix :=
  if negb (Addr_IsValid addr) || negb (IsValid overlay) then PrefixZero
  else PrefixFrom addr (p_bits overlay).

(** The announced routes a certificate with these addresses can hold, and the
    others. *)
Definition has_family (four : bool) (addrs : list Prefix) : bool :=
  existsb (λ a, Bool.eqb (Is4 (p_addr a)) four) addrs.
Definition carriable (routes addrs : list Prefix) : list Prefix * list Prefix :=
  let keeps r := (Is4 (p_addr r) && has_family true addrs) || (negb (Is4 (p_addr r)) && has_family false addrs) in
  (filter (λ r, keeps r = true) routes, filter (λ r, keeps r = false) routes).

(** [asLabel]: [None] when a rune cannot stand in a name. *)
Definition label_of_rune (r : Z) : option ascii :=
  if ((97 <=? r) && (r <=? 122)) || ((48 <=? r) && (r <=? 57)) then Some (chr r)
  else if bool_decide (r ∈ [45; 95; 46; 32; 47]) then Some "-"%char else None.
Definition asLabel (raw : string) : option string :=
  match mapM label_of_rune (runes (ToLower (TrimSpace raw))) with
  | None => None
  | Some b =>
      let name := Trim (l2s b) "-" in
      let name := squeeze (len name) name in
      let name := if (MaxNameLength <? len name)%nat
                  then Trim (l2s (take MaxNameLength (s2l name))) "-" else name in
      if decide (name = "") then None else Some name
  end.
(** [record.Fingerprint[:8]] panics on a shorter one. *)
Definition defaultName (record : HubRecord) : res string :=
  let hint k := asLabel (default "" (mlookup (rq_Hints (hr_Request record)) k)) in
  let single :=
    match find_first (λ o, bool_decide (is_Some o)) [hint "service"; hint "project"; hint "hostname"] with
    | Some (Some name) => Ok name
    | _ => if (len (hr_Fingerprint record) <? 8)%nat then Panic
           else Ok (hr_Kind record +:+ "-" +:+ str_take 8 (hr_Fingerprint record))
    end in
  match hint "environment" with
  | Some env => match hint "project" with Some project => Ok (env +:+ "." +:+ project) | None => single end
  | None => single
  end.
Definition fitsInAName (kind member instance : string) : res () :=
  if existsb (λ full, (253 <? len full)%nat)
       [member +:+ "." +:+ instance +:+ "." +:+ Suffix; MemberCertName kind member instance]
  then Err (Errorf "%s would be called %s, which is %d characters and DNS stops at 253: approve it with a shorter --name")
  else Ok ().

(** ** Registering *)

Record JoinOptions : Type := mkJoinOptions {
  jo_HubURL : string;
  jo_Token : string;
  jo_Name : string;
  jo_Insecure : bool;
  jo_Pin : string;
}.
Definition set_jo_Name (n : string) (o : JoinOptions) : JoinOptions :=
  mkJoinOptions (jo_HubURL o) (jo_Token o) n (jo_Insecure o) (jo_Pin o).
Record Joined : Type := mkJoined { jd_Hub : string; jd_Name : string; jd_Binder : string; jd_Refreshed : bool }.
Definition DefaultNameMarker : string := l2s [chr 0] +:+ "default".
Definition knownName (s : State) : string := dt_Name (st_data s).

Section Join.
Context `{HO : Os}.
Definition ownerIdentity : res (string * Z * Z) :=
  let? name := ownerName in
  let? (uid, gid) := ownerIDs in
  Ok (name, uid, gid).
(** [Join]: [fresh] is the identity [wrak.NewIdentity] makes, and [register]
    what introducing the machine to the hub comes to. *)
Definition Join (env : Env) (fresh : res Identity_) (register : JoinOptions → Identity_ → res RegisterResponse)
    (opts : JoinOptions) : M State Joined :=
  let* s := getM in
  do* guard (negb (bool_decide (jo_Name opts = "")
               || bool_decide (jo_Name opts = DefaultNameMarker) && bool_decide (knownName s = "")))
        (Errorf "a name is required, it is what the owner of an instance will see") in
  let knownHub := dt_HubURL (st_data s) in
  let existing := dt_Identity (st_data s) in
  let known := dt_Name (st_data s) in
  let hubURL := TrimRight (jo_HubURL opts) "/" in
  do* guard (negb (negb (bool_decide (knownHub = "")) && negb (bool_decide (knownHub = hubURL))))
        (Errorf "this machine is registered with %s: robinet setup --cleanup --force to start over") in
  let* identity := liftR fresh in
  let* identity := liftR (if decide (existing = "") then Ok identity else ParseIdentity existing) in
  let refreshed := negb (bool_decide (existing = "")) in
  let opts := if refreshed && bool_decide (jo_Name opts = DefaultNameMarker) && negb (bool_decide (known = ""))
              then set_jo_Name known opts else opts in
  let* registered := liftR (register opts identity) in
  let* (owner, uid, gid) := liftR ownerIdentity in
  do* Write env (modify (set_registration hubURL (Private identity) (rp_Binder registered) (jo_Name opts)
                           (jo_Insecure opts) (jo_Pin opts) owner uid gid)) in
  retM (mkJoined hubURL (jo_Name opts) (rp_Binder registered) refreshed).
End Join.

(** ** The daemon *)

Record Daemon (W : Type) : Type := mkDaemon {
  d_state : State;
  d_run : runners;
  d_routers : routers;
  d_world : W;
}.
Arguments mkDaemon {W}.
Arguments d_state {W}.
Arguments d_run {W}.
Arguments d_routers {W}.
Arguments d_world {W}.

Record PendingEntry : Type := mkPendingEntry {
  pe_Instance : string;
  pe_InstanceID : string;
  pe_Record : HubRecord;
  pe_Address : Prefix;
  pe_WillBeCalled : string;
  pe_Routes : list Prefix;
  pe_Dropped : list Prefix;
  pe_Domain : string;
}.
(** [matchPending]: the request with that id, or the only one it is the
    beginning of. *)
Fixpoint pending_loop (requestID : string) (found : list PendingEntry) (entries : list PendingEntry)
    : PendingEntry + list PendingEntry :=
  match entries with
  | [] => inr found
  | e :: entries =>
      if decide (hr_ID (pe_Record e) = requestID) then inl e
      else if HasPrefix (hr_ID (pe_Record e)) requestID then pending_loop requestID (found ++ [e]) entries
      else pending_loop requestID found entries
  end.
Definition matchPending (entries : list PendingEntry) (requestID : string) : res PendingEntry :=
  match pending_loop requestID [] entries with
  | inl e => Ok e
  | inr [] => Err (Errorf "no pending request %s")
  | inr [e] => Ok e
  | inr _ => Err (Errorf "%s matches %d pending requests, give more of the id")
  end.

Record MemberEntry : Type := mkMemberEntry { me_Instance : string; me_InstanceID : string; me_Member : Member }.
Record DeleteResult : Type := mkDeleteResult { dr_Instance : string; dr_ID : string; dr_Members : nat; dr_Owned : bool }.
(** The [BanRequest] of the control socket. *)
Record MemberRef : Type := mkMemberRef { mr_Member : string; mr_Instance : string; mr_Note : string }.
(** [tenant.TokenResult]. *)
Record TokenResult : Type := mkTokenResult { dk_Instance : string; dk_Token : string; dk_Endpoint : string }.

(** The host of what [url.Parse] makes of a url, [None] when it is refused. *)
Class Urls := { url_Host : string → option string }.

Section Daemon.
Context {W : Type} `{HW : HubClient W}.
Context `{HL : CertLib} `{HB : Build} `{HU : Urls}.
Abbreviation Machine := (Daemon W).

Definition onState {A} (c : M State A) : M Machine A := λ d,
  let '(r, s) := c (d_state d) in (r, mkDaemon s (d_run d) (d_routers d) (d_world d)).
Definition onRun {A} (c : M runners A) : M Machine A := λ d,
  let '(r, s) := c (d_run d) in (r, mkDaemon (d_state d) s (d_routers d) (d_world d)).
Definition onRouters {A} (c : M routers A) : M Machine A := λ d,
  let '(r, s) := c (d_routers d) in (r, mkDaemon (d_state d) (d_run d) s (d_world d)).
Definition onHub {A} (c : M W A) : M Machine A := λ d,
  let '(r, w) := c (d_world d) in (r, mkDaemon (d_state d) (d_run d) (d_routers d) w).
(** What is read out of the state. *)
Definition readState {A} (f : State → A) : M Machine A := λ d, (Ok (f (d_state d)), d).

Definition NewDaemon (s : State) (w : W) : res Machine :=
  if negb (Registered s)
  then Err (Errorf "this machine is not registered with a hub, run robinet join first")
  else Ok (mkDaemon s ∅ ∅ w).
(** [Daemon.Stop]. *)
Definition StopDaemon : M Machine () :=
  do* onRouters (modify (λ _, ∅)) in onRun run_stopAll.

Definition machineName (s : State) : string :=
  if decide (dt_Name (st_data s) = "") then "node" else dt_Name (st_data s).
(** [d.owned()]. *)
Definition ownedList (ρ : Range) (s : State) : list Owned := (range ρ (mget (dt_Owned (st_data s)))).*2.
Definition tokenOf (owned : option Owned) : string :=
  match owned with None => "" | Some o => ow_SharedToken o end.

(** *** Connecting *)

(** The prefixes the other running connections carry, under their names. *)
Definition hold (held : gmap string (list Prefix)) (name : string) (table : RouteTable) : gmap string (list Prefix) :=
  foldl (λ h r, <[name := default [] (h !! name) ++ [rt_Prefix r]]> h) held (tb_Routes table).
Fixpoint held_by_others (conn : Connection) (running : runners) (held : gmap string (list Prefix))
    (others : list Connection) : M Machine (gmap string (list Prefix)) :=
  match others with
  | [] => retM held
  | other :: others =>
      if bool_decide (cn_InstanceID other = cn_InstanceID conn)
         || negb (run_isRunning running (cn_InstanceID other))
      then held_by_others conn running held others
      else tryM (onHub (hc_routes (cn_InstanceID other))) (λ r,
             match r with
             | inl table => held_by_others conn running (hold held (cn_Name other) table) others
             | inr _ => held_by_others conn running held others
             end)
  end.
Definition startConnection (env : TEnv) (conn : Connection) (table : RouteTable) : M Machine () :=
  let ρ := ρ_of (t_env env) in
  let* d := getM in
  let* held := held_by_others conn (d_run d) ∅ (Connections ρ (d_state d)) in
  match collides ρ held (cn_Name conn) (rt_Prefix <$> tb_Routes table) with
  | Some _ => raise (Errorf "%s is already carried by the connection to %s, one route table cannot hold both")
  | None =>
      let* local := readState choicesOf in
      onRun (run_start (t_env env) conn table local)
  end.

Definition with_bundle (b : Bundle) (at_ : Time) (c : Connection) : Connection :=
  mkConnection (cn_InstanceID c) (cn_Name c) (cn_Role c) (cn_PublicKey c) (cn_PrivateKey c)
    (bu_Certificate b) (bu_CA b) (bu_OverlayAddress b) (bu_OverlayAddress6 b) (bu_Lighthouse b)
    (bu_MTU b) (cn_Device c) (cn_ListenPort c) (cn_RequestedAt c) at_.
Definition collect_fn (env : TEnv) (id : string) (b : Bundle) : M data () :=
  let* s := getM in
  match mlookup (dt_Connections s) id with
  | None => raise (Errorf "connection went away")
  | Some stored =>
      modify (λ s, set_Connections (<[id := with_bundle b (now (t_env env)) stored]> <$> dt_Connections s) s)
  end.
Definition collect (env : TEnv) (conn : Connection) : M Machine () :=
  let* result := onHub (hc_joinResult (cn_InstanceID conn)) in
  match rs_Status result with
  | StatusApproved =>
      match rs_Bundle result with
      | None => raise (Errorf "approved without a certificate")
      | Some bundle => onState (Write (t_env env) (collect_fn env (cn_InstanceID conn) bundle))
      end
  | StatusRejected => raise (Errorf "refused: %s")
  | _ => raise (Errorf "still pending")
  end.

(** One turn of [Refresh]. *)
Definition refresh_one (env : TEnv) (conn : Connection) : M Machine () :=
  if negb (Ready conn) then logged (collect env conn) else
  tryM (onHub (hc_routes (cn_InstanceID conn))) (λ r,
  match r with
  | inr _ => retM ()
  | inl table =>
      let* aliases := readState Aliases in
      do* logged (onRouters (startRouter env aliases conn table)) in
      let* d := getM in
      if negb (run_isRunning (d_run d) (cn_InstanceID conn)) then logged (startConnection env conn table)
      else
        let* local := readState choicesOf in
        logged (onRun (run_reload (t_env env) conn table local))
  end).
Definition Refresh (env : TEnv) : M Machine () :=
  let* conns := readState (Connections (ρ_of (t_env env))) in
  eachM (refresh_one env) conns.

(** *** Instances *)

Definition put_connection (c : Connection) : M data () :=
  assignD dt_Connections set_Connections (cn_InstanceID c) c.

Definition create_fn (env : TEnv) (created : CreateInstanceResponse) (name token caPEM caKeyPEM pub key ownCert : string)
    (address address6 : Prefix) : M data () :=
  do* assignD dt_Owned set_Owned (cp_ID created) (mkOwned (cp_ID created) name caPEM caKeyPEM token) in
  let* s := getM in
  put_connection
    {| cn_InstanceID := cp_ID created; cn_Name := name; cn_Role := KindOwner; cn_PublicKey := pub;
       cn_PrivateKey := key; cn_Certificate := ownCert; cn_CA := caPEM; cn_Address := address;
       cn_Address6 := address6;
       cn_Lighthouse :=
         {| l_OverlayAddress := cp_LighthouseAddress created;
            l_OverlayAddress6 := cp_LighthouseAddress6 created;
            l_Endpoints := [cp_Endpoint created +:+ ":" +:+ Itoa (cp_Port created)];
            l_Relay := cp_Relay created |};
       cn_MTU := cp_MTU created; cn_Device := nextDevice s; cn_ListenPort := 0;
       cn_RequestedAt := TimeZero; cn_JoinedAt := now (t_env env) |}.
Definition Create (env : TEnv) (name sharedToken : string) : M Machine (CreateInstanceResponse * string) :=
  let sharedToken := if decide (sharedToken = "") then newSharedToken env else sharedToken in
  let* created := onHub (hc_createInstance name sharedToken) in
  let name := if decide (cp_Name created = "") then name else cp_Name created in
  let overlays := [cp_Overlay created] ++ (if IsValid (cp_Overlay6 created) then [cp_Overlay6 created] else []) in
  let at_ := now (t_env env) in
  let* (authority, caPEM, caKeyPEM) := liftR (Generate at_ (ca_keys env) ("robinet-" +:+ name) overlays 0) in
  let* lighthouseCert :=
    (λ d, match SignHost at_ authority
                  (mkHost (LighthouseCertName name) (cp_LighthousePublicKey created)
                     (addresses [PrefixFrom (cp_LighthouseAddress created) (p_bits (cp_Overlay created));
                                 prefixOf (cp_LighthouseAddress6 created) (cp_Overlay6 created)]) [] [] 0) with
          | Err e => (Err (Wrap "could not sign the lighthouse certificate: %w" e), d)
          | r => (r, d)
          end) in
  do* tryM (onHub (hc_activate (cp_ID created) caPEM lighthouseCert)) (λ r,
        match r with
        | inr e => raise (Wrap "could not activate the instance: %w" e)
        | inl _ => retM ()
        end) in
  let* (pub, key) := liftR (GenerateMemberKey (member_keys env)) in
  let address := PrefixFrom (cp_TenantAddress created) (p_bits (cp_Overlay created)) in
  let address6 := prefixOf (cp_TenantAddress6 created) (cp_Overlay6 created) in
  let* machine := readState machineName in
  let* ownCert := liftR (SignHost at_ authority
    (mkHost (MemberCertName KindTenant (FoldLabel machine) name) pub (addresses [address; address6]) [] [] 0)) in
  do* onState (Write (t_env env)
        (create_fn env created name sharedToken caPEM caKeyPEM pub key ownCert address address6)) in
  retM (created, sharedToken).

(** The instance a reference means, by id, by name or by the beginning of an
    id: the first one listed. *)
Definition means (wanted : string) (inst : InstanceSummary) : bool :=
  bool_decide (su_ID inst = wanted)
  || bool_decide (ToLower (su_Name inst) = ToLower (TrimSpace wanted))
  || HasPrefix (su_ID inst) wanted.
Definition resolveInstance (wanted : string) : M Machine InstanceSummary :=
  let* instances := onHub hc_instances in
  match find_first (means wanted) instances with
  | Some inst => retM inst
  | None => raise (Errorf "no instance %s")
  end.

(** [connectionFor]. *)
Definition connectionFor (ρ : Range) (s : State) (ref : string) : option Connection :=
  match ConnectionOf s ref with
  | Some conn => Some conn
  | None => find_first (λ c, bool_decide (ToLower (cn_Name c) = ToLower (TrimSpace ref))) (Connections ρ s)
  end.

Definition rejoinOwn (env : TEnv) (inst : InstanceSummary) (owned : Owned) : M Machine () :=
  let* authority := liftR (LoadCA (ow_CACert owned) (ow_CAKey owned)) in
  let* table := onHub (hc_routes (su_ID inst)) in
  let* (pub, key) := liftR (GenerateMemberKey (member_keys env)) in
  let* machine := readState (λ s, dt_Name (st_data s)) in
  let* cert := liftR (SignHost (now (t_env env)) authority
    (mkHost (MemberCertName KindTenant (FoldLabel machine) (ow_Name owned)) pub
       (addresses [su_Address inst; su_Address6 inst]) [] [] 0)) in
  onState (Write (t_env env) (λ s,
    put_connection
      {| cn_InstanceID := su_ID inst; cn_Name := ow_Name owned; cn_Role := KindOwner; cn_PublicKey := pub;
         cn_PrivateKey := key; cn_Certificate := cert; cn_CA := ow_CACert owned;
         cn_Address := su_Address inst; cn_Address6 := su_Address6 inst;
         cn_Lighthouse := tb_Lighthouse table; cn_MTU := tb_MTU table; cn_Device := nextDevice s;
         cn_ListenPort := 0; cn_RequestedAt := TimeZero; cn_JoinedAt := now (t_env env) |} s)).

Definition pending_connection (env : TEnv) (id name pub key device : string) : Connection :=
  {| cn_InstanceID := id; cn_Name := name; cn_Role := KindTenant; cn_PublicKey := pub; cn_PrivateKey := key;
     cn_Certificate := ""; cn_CA := ""; cn_Address := PrefixZero; cn_Address6 := PrefixZero;
     cn_Lighthouse := mkLighthouse AddrZero AddrZero [] false; cn_MTU := 0; cn_Device := device;
     cn_ListenPort := 0; cn_RequestedAt := now (t_env env); cn_JoinedAt := TimeZero |}.
Definition Connect (env : TEnv) (wanted : string) : M Machine () :=
  let* known := readState (λ s, connectionFor (ρ_of (t_env env)) s wanted) in
  match known with
  | Some _ => retM ()
  | None =>
      let* target := resolveInstance wanted in
      let* owned := readState (λ s, OwnedOf s (su_ID target)) in
      match owned with
      | Some owned => rejoinOwn env target owned
      | None =>
          let* (pub, key) := liftR (GenerateMemberKey (member_keys env)) in
          let* name := readState (λ s, dt_Name (st_data s)) in
          do* onState (Write (t_env env) (λ s,
                put_connection (pending_connection env (su_ID target) (su_Name target) pub key (nextDevice s)) s)) in
          onHub (hc_join (su_ID target) name pub)
      end
  end.

(** [Delete]: the count of members is the hub's; an error may come after the
    instance is gone there. *)
Definition delete_fn (id : string) : M data () :=
  modify (λ s, set_Connections (mdelete (dt_Connections s) id) (set_Owned (mdelete (dt_Owned s) id) s)).
Definition DeleteInstance (env : TEnv) (wanted : string) (force : bool) : M Machine DeleteResult :=
  let* target := resolveInstance wanted in
  let* owned := readState (λ s, OwnedOf s (su_ID target)) in
  match owned with
  | None => raise (Errorf "this machine does not own %s, and only its owner may delete it")
  | Some _ =>
      do* guard (negb ((1 <? su_Members target)%nat && negb force))
            (Errorf "%s has %d members, which will all lose it: pass --force") in
      do* onHub (hc_deleteInstance (su_ID target)) in
      do* onRun (run_stop (su_ID target)) in
      do* onRouters (stopRouter (su_ID target)) in
      do* onState (Write (t_env env) (delete_fn (su_ID target))) in
      retM (mkDeleteResult (su_Name target) (su_ID target) (su_Members target) true)
  end.

Definition Disconnect (env : TEnv) (ref : string) : M Machine () :=
  let* known := readState (λ s, connectionFor (ρ_of (t_env env)) s ref) in
  match known with
  | None => raise (Errorf "not connected to %s")
  | Some conn =>
      do* onRun (run_stop (cn_InstanceID conn)) in
      do* onRouters (stopRouter (cn_InstanceID conn)) in
      onState (Write (t_env env)
        (modify (λ s, set_Connections (mdelete (dt_Connections s) (cn_InstanceID conn)) s)))
  end.

(** *** What is handed out *)

Definition hubAddress (s : State) : string * string :=
  let stored := dt_Pin (st_data s) in
  if decide (stored = "") then (dt_HubURL (st_data s), "") else
  match Rewritten stored with
  | Ok written => (dt_HubURL (st_data s), written)
  | _ => (dt_HubURL (st_data s), "")
  end.
Definition shorthandEndpoint (hubURL id token hubPin : string) : string :=
  let host := match url_Host hubURL with
              | Some h => if decide (h = "") then hubURL else h
              | None => hubURL
              end in
  let host := TrimSuffix host ":8443" in
  let out := host +:+ "/" +:+ id in
  let out := if decide (token = "") then out else out +:+ "/" +:+ token in
  if decide (hubPin = "") then out else out +:+ "/" +:+ hubPin.

Definition token_fn (id token : string) : M data () :=
  modify (λ s, match mlookup (dt_Owned s) id with
               | Some o => set_Owned (<[id := mkOwned (ow_InstanceID o) (ow_Name o) (ow_CACert o) (ow_CAKey o) token]>
                                       <$> dt_Owned s) s
               | None => s
               end).
Definition SetToken (env : TEnv) (ref token : string) : M Machine TokenResult :=
  let* all := readState (ownedList (ρ_of (t_env env))) in
  match find_first (λ o, bool_decide (ow_InstanceID o = ref) || EqualFold (ow_Name o) ref
                         || HasPrefix (ow_InstanceID o) ref) all with
  | None => raise (Errorf "this machine does not own %s")
  | Some owned =>
      let token := if decide (token = "") then newSharedToken env else token in
      do* onHub (hc_setToken (ow_InstanceID owned) token) in
      do* onState (Write (t_env env) (token_fn (ow_InstanceID owned) token)) in
      let* (hubURL, hubPin) := readState hubAddress in
      retM (mkTokenResult (ow_Name owned) token (shorthandEndpoint hubURL (ow_Name owned) token hubPin))
  end.

(** [Show]: what the map it answers with holds; the endpoint and the url only
    of an instance this machine owns. *)
Record InstanceInfo : Type := mkInfo {
  in_id : string;
  in_name : string;
  in_overlay : string;
  in_overlay6 : option string;
  in_owner : string;
  in_role : string;
  in_running : bool;
  in_owned : bool;
  in_endpoint : option string;
  in_url : option string;
}.
Definition Show (wanted : string) : M Machine InstanceInfo :=
  let* instances := onHub hc_instances in
  match find_first (means wanted) instances with
  | None => raise (Errorf "no instance %q on this hub")
  | Some inst =>
      let* owned := readState (λ s, OwnedOf s (su_ID inst)) in
      let* (hubURL, hubPin) := readState hubAddress in
      let isOwner := bool_decide (is_Some owned) in
      let ref := if decide (su_Name inst = "") then su_ID inst else su_Name inst in
      retM {| in_id := su_ID inst; in_name := su_Name inst; in_overlay := Prefix_String (su_Overlay inst);
              in_overlay6 := if IsValid (su_Overlay6 inst) then Some (Prefix_String (su_Overlay6 inst)) else None;
              in_owner := su_Owner inst; in_role := su_Role inst; in_running := su_Running inst;
              in_owned := isOwner;
              in_endpoint := if isOwner then Some (shorthandEndpoint hubURL ref (tokenOf owned) hubPin) else None;
              in_url := if isOwner then Some (hubURL +:+ "/v1/enroll/" +:+ su_ID inst) else None |}
  end.

(** [ConnectionConfig]: which of the two configurations it is, and its tree. *)
Definition ConnectionConfig (env : TEnv) (ref : string) (showKeys : bool) : M Machine (bool * tree) :=
  let* known := readState (λ s, connectionFor (ρ_of (t_env env)) s ref) in
  match known with
  | None => raise (Errorf "not connected to %s")
  | Some conn =>
      let* d := getM in
      let* (live, raw) :=
        match run_loaded (d_run d) (cn_InstanceID conn) with
        | Some raw => retM (true, raw)
        | None =>
            let* table := onHub (hc_routes (cn_InstanceID conn)) in
            let* local := readState choicesOf in
            let* raw := liftR (renderConfig conn table local) in
            retM (false, raw)
        end in
      retM (live, if showKeys then raw else RedactTree raw)
  end.

Definition ListInstances : M Machine (list InstanceSummary) := onHub hc_instances.

(** *** Deciding *)

Definition pending_entry (owned : Owned) (record : HubRecord) : res PendingEntry :=
  let? name := (if decide (rq_Name (hr_Request record) = "") then defaultName record
                else Ok (rq_Name (hr_Request record))) in
  Ok (mkPendingEntry (ow_Name owned) (ow_InstanceID owned) record
        (er_OverlayAddress (hr_Record record)) name [] [] "").
Fixpoint entries_of (owned : Owned) (records : list HubRecord) : res (list PendingEntry) :=
  match records with
  | [] => Ok []
  | r :: records => let? e := pending_entry owned r in let? l := entries_of owned records in Ok (e :: l)
  end.
Definition PendingAll (env : TEnv) : M Machine (list PendingEntry) :=
  let* all := readState (ownedList (ρ_of (t_env env))) in
  collectM (λ owned, tryM (onHub (hc_pending (ow_InstanceID owned))) (λ r,
    match r with inr _ => retM [] | inl records => liftR (entries_of owned records) end)) all.
Definition findPending (env : TEnv) (requestID : string) : M Machine PendingEntry :=
  let* entries := PendingAll env in liftR (matchPending entries requestID).

Definition decided (routes dropped : list Prefix) (domain : string) (e : PendingEntry) : PendingEntry :=
  mkPendingEntry (pe_Instance e) (pe_InstanceID e) (pe_Record e) (pe_Address e) (pe_WillBeCalled e)
    routes dropped domain.
(** What [Approve] settles before it signs: the routes asked for or announced
    that can be carried, those that cannot, the domain, and the name. *)
Definition approve_terms (record : HubRecord) (instance : string) (routes : option (list Prefix))
    (noDomain : bool) (wanted : string) : res (list Prefix * list Prefix * string * string) :=
  let tenant := bool_decide (hr_Kind record = KindTenant) in
  let asked := bool_decide (is_Some routes) && negb tenant in
  let domain := if tenant || noDomain then "" else rq_Domain (hr_Request record) in
  let routes := if tenant then [] else default (rq_Routes (hr_Request record)) routes in
  let '(routes, dropped) := carriable routes
    (addresses [er_OverlayAddress (hr_Record record); er_OverlayAddress6 (hr_Record record)]) in
  if asked && negb (bool_decide (dropped = []))
  then Err (Errorf "cannot carry %s: this instance has no address of that family, and nebula refuses an unsafe network without one")
  else Ok (routes, dropped, domain, if decide (wanted = "") then rq_Name (hr_Request record) else wanted).
Definition member_host (record : HubRecord) (name instance : string) (routes : list Prefix) : Host :=
  mkHost (MemberCertName (hr_Kind record) name instance) (rq_PublicKey (hr_Request record))
    (addresses [er_OverlayAddress (hr_Record record); er_OverlayAddress6 (hr_Record record)]) routes [] 0.
(** [Approve]. *)
Definition ApproveRequest (env : TEnv) (requestID : string) (routes : option (list Prefix)) (noDomain : bool)
    (wanted : string) : M Machine PendingEntry :=
  let* entry := findPending env requestID in
  let* owned := readState (λ s, OwnedOf s (pe_InstanceID entry)) in
  match owned with
  | None => raise (Errorf "this machine does not own %s")
  | Some owned =>
      let record := pe_Record entry in
      let* (routes, dropped, domain, name) :=
        liftR (approve_terms record (pe_Instance entry) routes noDomain wanted) in
      let* authority := liftR (LoadCA (ow_CACert owned) (ow_CAKey owned)) in
      let* name := liftR (if decide (name = "") then defaultName record else Ok name) in
      do* liftR (fitsInAName (hr_Kind record) name (pe_Instance entry)) in
      let* certPEM :=
        (λ d, match SignHost (now (t_env env)) authority (member_host record name (pe_Instance entry) routes) with
              | Err e => (Err (Wrap "could not sign: %w" e), d)
              | r => (r, d)
              end) in
      let* issued := liftR (UnmarshalCertificateFromPEM certPEM) in
      let* fingerprint := liftR (CertFingerprint issued) in
      do* onHub (hc_decide (pe_InstanceID entry) (hr_ID record)
            {| d_Status := StatusApproved;
               d_Bundle := Some (mkBundle certPEM (ow_CACert owned) PrefixZero PrefixZero
                                   (mkLighthouse AddrZero AddrZero [] false) 0 (ow_Name owned) []);
               d_Reason := ""; d_Name := name; d_Routes := routes; d_Domain := domain;
               d_CertFingerprint := fingerprint |}) in
      retM (decided routes dropped domain entry)
  end.
Definition RejectRequest (env : TEnv) (requestID reason : string) : M Machine () :=
  let* entry := findPending env requestID in
  onHub (hc_decide (pe_InstanceID entry) (hr_ID (pe_Record entry))
    {| d_Status := StatusRejected; d_Bundle := None; d_Reason := reason; d_Name := ""; d_Routes := [];
       d_Domain := ""; d_CertFingerprint := "" |}).
Definition ForgetRequest (env : TEnv) (requestID : string) : M Machine () :=
  let* entry := findPending env requestID in
  onHub (hc_forget (pe_InstanceID entry) (hr_ID (pe_Record entry))).

(** *** Members *)

Definition ownedMember : Type := Owned * Member.
Definition refers (ref : string) (m : Member) : bool :=
  bool_decide (m_Name m = ref) || HasPrefix (m_Fingerprint m) ref.
(** The members a reference means in the instances this machine owns, and the
    last error met in reading one. *)
Fixpoint find_members (ref instance : string) (found : list ownedMember) (unread : option error) (l : list Owned)
    : M Machine (list ownedMember * option error) :=
  match l with
  | [] => retM (found, unread)
  | owned :: l =>
      if negb (bool_decide (instance = "")) && negb (EqualFold (ow_Name owned) instance)
         && negb (bool_decide (ow_InstanceID owned = instance))
      then find_members ref instance found unread l
      else tryM (onHub (hc_members (ow_InstanceID owned))) (λ r,
             match r with
             | inr e => find_members ref instance found (Some e) l
             | inl members =>
                 find_members ref instance (found ++ (pair owned <$> filter (λ m, refers ref m = true) members)) unread l
             end)
  end.
Definition findMember (env : TEnv) (ref instance : string) : M Machine ownedMember :=
  if decide (ref = "") then raise (Errorf "no member named") else
  let* all := readState (ownedList (ρ_of (t_env env))) in
  let* (found, unread) := find_members ref instance [] None all in
  match found with
  | [om] => retM om
  | [] => match unread with
          | Some e => raise e
          | None => if decide (instance = "") then raise (Errorf "no member %s in any instance this machine owns")
                    else raise (Errorf "no member %s in %s")
          end
  | _ => raise (Errorf "%s is a member of %s: say which with --instance")
  end.
Definition MembersAll (env : TEnv) : M Machine (list MemberEntry) :=
  let* conns := readState (Connections (ρ_of (t_env env))) in
  collectM (λ conn, tryM (onHub (hc_members (cn_InstanceID conn))) (λ r,
    match r with
    | inr _ => retM []
    | inl members => retM ((λ m, mkMemberEntry (cn_Name conn) (cn_InstanceID conn) m) <$> members)
    end)) conns.
Definition BanMember (env : TEnv) (req : MemberRef) : M Machine () :=
  let* (owned, member) := findMember env (mr_Member req) (mr_Instance req) in
  onHub (hc_ban (ow_InstanceID owned) (m_Fingerprint member) (mr_Note req)).
Definition UnbanMember (env : TEnv) (req : MemberRef) : M Machine () :=
  let* (owned, member) := findMember env (mr_Member req) (mr_Instance req) in
  onHub (hc_unban (ow_InstanceID owned) (m_Fingerprint member) (mr_Note req)).
Definition RemoveMemberOf (env : TEnv) (req : MemberRef) : M Machine MemberEntry :=
  let* (owned, member) := findMember env (mr_Member req) (mr_Instance req) in
  let* removed := onHub (hc_removeMember (ow_InstanceID owned) (m_Fingerprint member)) in
  retM (mkMemberEntry (ow_Name owned) (ow_InstanceID owned) removed).
End Daemon.
