(* ===== verification/Client.v ===== *)
(** * The client of the hub: [internal/tenant/hubclient.go]

    How a machine reaches its hub: which certificate it accepts, how it
    registers with the ssh keys it can sign with, how it signs every other
    request, and what it makes of the answers.  [http_HubClient] is the
    interface [HubClient] as this code implements it, over any transport. *)

From Stdlib Require Import Ascii.
From S2P Require Export Tenant WrakSign.

Open Scope Z_scope.

(** ** What the client stands on *)

(** A parsed url: [u_Segments] are the segments of its path, each unescaped, as
    the server's mux sees them. *)
Record Url : Type := mkUrl {
  u_Scheme : string;
  u_Host : string;
  u_Path : string;
  u_Segments : list string;
  u_Query : gmap string (list string);
}.
Class UrlParser := { url_Parse : string → option Url }.
#[export] Instance parsed_urls `{HP : UrlParser} : Urls := {| url_Host s := u_Host <$> url_Parse s |}.

(** The JSON a machine writes and reads. *)
Class ClientJson := {
  Marshal_register : RegisterRequest → string;
  Marshal_create : CreateInstanceRequest → string;
  Marshal_lighthouse : LighthouseRequest → string;
  Marshal_decision : Decision_ → string;
  Marshal_ban : BanRequest → string;
  Marshal_token : TokenRequest → string;
  Marshal_join : JoinRequest → string;
  Decode_registered : string → option RegisterResponse;
  Decode_created : string → option CreateInstanceResponse;
  Decode_instances : string → option (list InstanceSummary);
  Decode_pending : string → option (list HubRecord);
  Decode_result : string → option Result;
  Decode_member : string → option Member;
  Decode_members : string → option (list Member);
  Decode_routes : string → option RouteTable;
  (** [enroll.Error]: its code and message. *)
  Decode_error : string → option (string * string);
}.
(** An ssh key file: [inr true] when it is locked by a passphrase. *)
Class KeyFiles `{HS : SshLib} := { ParsePrivateKey : string → Signer + bool }.

Record HttpResponse : Type := mkResponse { rs_StatusCode : Z; rs_StatusText : string; rs_Body : string }.
(** What a connection accepts the hub by. *)
Inductive Verification : Type :=
  | VerifyPin (check : list string → res ())
  | VerifyNothing
  | VerifyChain.
(** What a signature is made with: the clock, sixteen random bytes and the
    order a map is walked in. *)
Record SigningDraw : Type := mkDraw { dr_now : Time; dr_nonce : list Z; dr_ρ : Range }.
(** [http.Client.Do] in a world: an answer or no connection. *)
Class Transport (W : Type) := {
  http_Do : Verification → Url → HttpRequest → M W HttpResponse;
  sign_draw : W → SigningDraw;
}.

(** ** The client *)

Record hubClient : Type := mkHubClient { hb_base : string; hb_identity : Identity_; hb_client : Verification }.

(** What [JoinOptions] says about who signs. *)
Record SigningOptions `{HS : SshLib} : Type := mkSigningOptions {
  so_SSHKeyPath : string;
  so_SSHFingerprint : string;
  so_Signer : option Signer;
}.

Definition MethodGet : string := "GET".
Definition MethodPost : string := "POST".
Definition MethodDelete : string := "DELETE".
Definition ErrDecode : error := Errorf "json".

Section Client.
Context {W : Type} `{HT : !Transport W} `{HP : UrlParser} `{HJ : ClientJson}.
Context `{HC : Crypto} `{HE : Ed25519} `{HX : X509}.

Definition httpClient (insecure : bool) (hubPin : string) : res Verification :=
  if decide (hubPin ≠ "") then let? cfg := TLSConfig hubPin in Ok (VerifyPin cfg)
  else if insecure then Ok VerifyNothing
  else Ok VerifyChain.

Definition newHubClient (base identity : string) (insecure : bool) (hubPin : string) : res hubClient :=
  let? id := ParseIdentity identity in
  let? client := httpClient insecure hubPin in
  Ok (mkHubClient (TrimRight base "/") id client).

(** The text of an error is written out here, since it is what an operator
    reads. *)
Definition responseError (resp : HttpResponse) : error :=
  let body := str_take (Z.to_nat (Z.shiftl 4 10)) (rs_Body resp) in
  let returned rest := Errorf ("hub returned " +:+ rs_StatusText resp +:+ ": " +:+ rest) in
  match Decode_error body with
  | Some (code, message) =>
      if decide (code ≠ "") then
        if decide (message ≠ "") then Errorf message else returned code
      else returned (TrimSpace body)
  | None => returned (TrimSpace body)
  end.

Definition NewRequest (method url body : string) : res (Url * HttpRequest) :=
  match url_Parse url with
  | None => Err (Errorf "parse url")
  | Some u => Ok (u, mkHttp (u_Host u) method (u_Path u) (u_Query u) ∅ body "")
  end.
Definition ContentType : string := "Content-Type".

(** [hubClient.do], up to the answer. *)
Definition do_request (c : hubClient) (method path : string) (raw : option string) : M W HttpResponse :=
  let* (u, req) := liftR (NewRequest method (hb_base c +:+ path) (default "" raw)) in
  let req := match raw with Some _ => Header_Set ContentType "application/json" req | None => req end in
  let* w := getM in
  let d := sign_draw w in
  let req := SignRequest (dr_ρ d) (dr_now d) (dr_nonce d) (hb_identity c) (default "" raw) req in
  let* resp := http_Do (hb_client c) u req in
  if 300 <=? rs_StatusCode resp then raise (responseError resp) else retM resp.
(** What is decoded from the answer, and what is not looked at. *)
Definition do_into {A} (out : string → option A) (c : hubClient) (method path : string) (raw : option string) : M W A :=
  let* resp := do_request c method path raw in
  match out (rs_Body resp) with Some v => retM v | None => raise ErrDecode end.
Definition do_only (c : hubClient) (method path : string) (raw : option string) : M W () :=
  do* do_request c method path raw in retM ().

Definition createInstance (c : hubClient) (name sharedToken : string) : M W CreateInstanceResponse :=
  do_into Decode_created c MethodPost "/v1/instances" (Some (Marshal_create (mkCreateRequest name sharedToken))).
Definition instances (c : hubClient) : M W (list InstanceSummary) :=
  do_into Decode_instances c MethodGet "/v1/instances" None.
Definition activate (c : hubClient) (instance caPEM certPEM : string) : M W () :=
  do_only c MethodPost ("/v1/instances/" +:+ instance +:+ "/lighthouse")
    (Some (Marshal_lighthouse (mkLighthouseRequest caPEM certPEM))).
Definition pending (c : hubClient) (instance : string) : M W (list HubRecord) :=
  do_into Decode_pending c MethodGet ("/v1/instances/" +:+ instance +:+ "/requests") None.
Definition decide_request (c : hubClient) (instance requestID : string) (d : Decision_) : M W () :=
  do_only c MethodPost ("/v1/instances/" +:+ instance +:+ "/requests/" +:+ requestID) (Some (Marshal_decision d)).
Definition forget (c : hubClient) (instance requestID : string) : M W () :=
  do_only c MethodDelete ("/v1/instances/" +:+ instance +:+ "/requests/" +:+ requestID) None.
Definition ban (c : hubClient) (instance member note : string) : M W () :=
  do_only c MethodPost ("/v1/instances/" +:+ instance +:+ "/ban") (Some (Marshal_ban (mkBanRequest member note))).
Definition unban (c : hubClient) (instance member note : string) : M W () :=
  do_only c MethodPost ("/v1/instances/" +:+ instance +:+ "/unban") (Some (Marshal_ban (mkBanRequest member note))).
Definition setToken (c : hubClient) (instance token : string) : M W () :=
  do_only c MethodPost ("/v1/instances/" +:+ instance +:+ "/token") (Some (Marshal_token (mkTokenRequest token))).
Definition join (c : hubClient) (instance name publicKey : string) : M W () :=
  do_only c MethodPost ("/v1/instances/" +:+ instance +:+ "/join") (Some (Marshal_join (mkJoinRequest name publicKey))).
Definition joinResult (c : hubClient) (instance : string) : M W Result :=
  do_into Decode_result c MethodGet ("/v1/instances/" +:+ instance +:+ "/join") None.
Definition deleteInstance (c : hubClient) (instance : string) : M W () :=
  do_only c MethodDelete ("/v1/instances/" +:+ instance) None.
Definition removeMember (c : hubClient) (instance member : string) : M W Member :=
  do_into Decode_member c MethodDelete ("/v1/instances/" +:+ instance +:+ "/members/" +:+ member) None.
Definition members (c : hubClient) (instance : string) : M W (list Member) :=
  do_into Decode_members c MethodGet ("/v1/instances/" +:+ instance +:+ "/members") None.
Definition routes (c : hubClient) (instance : string) : M W RouteTable :=
  do_into Decode_routes c MethodGet ("/v1/instances/" +:+ instance +:+ "/routes") None.

(** The daemon's view of the hub, through this client. *)
Definition http_HubClient (c : hubClient) : HubClient W := {|
  hc_createInstance := createInstance c;
  hc_instances := instances c;
  hc_activate := activate c;
  hc_pending := pending c;
  hc_decide := decide_request c;
  hc_forget := forget c;
  hc_ban := ban c;
  hc_unban := unban c;
  hc_setToken := setToken c;
  hc_join := join c;
  hc_joinResult := joinResult c;
  hc_deleteInstance := deleteInstance c;
  hc_removeMember := removeMember c;
  hc_members := members c;
  hc_routes := routes c;
|}.

(** ** Registering *)

Definition hostOf (rawURL : string) : res string :=
  match url_Parse rawURL with
  | None => Err (Wrap "bad hub url: %w" (Errorf "parse url"))
  | Some u => if decide (u_Host u = "") then Err (Errorf "hub url %q has no host") else Ok (u_Host u)
  end.

Context `{HS : SshLib} `{HW : !SshWriter} `{HA : !SshAgent} `{HK : !KeyFiles} `{HO : Os}.

Definition signerFromFile (path : string) : res Signer :=
  match ReadFile path with
  | inr e => Err (Wrap "could not read the ssh key: %w" e)
  | inl raw =>
      match ParsePrivateKey raw with
      | inl s => Ok s
      | inr true => Err (Errorf "%s is passphrase protected, add it to an agent instead: ssh-add %s")
      | inr false => Err (Wrap "could not read the ssh key: %w" (Errorf "ssh: no key found"))
      end
  end.
Definition bootstrapSigners (opts : SigningOptions) : res (list Signer) :=
  match so_Signer opts with
  | Some s => Ok [s]
  | None =>
      if decide (so_SSHKeyPath opts ≠ "") then let? s := signerFromFile (so_SSHKeyPath opts) in Ok [s] else
      match AgentSigners with
      | Err e => Err (Wrap "%w (robinet join signs a bootstrap message with your ssh key)" e)
      | Panic => Panic
      | Ok signers =>
          if decide (so_SSHFingerprint opts ≠ "") then
            match find_first (λ s, bool_decide (FingerprintSHA256 (sn_PublicKey s) = so_SSHFingerprint opts)) signers with
            | Some s => Ok [s]
            | None => Err (Errorf "the agent does not hold %s, it has: %s")
            end
          else Ok signers
      end
  end.

(** The answer to a registration, with [SignedBy]. *)
Definition Registered_ : Type := RegisterResponse * string.
Definition rejected (tried : list string) : error :=
  Errorf ("registration rejected: either the token is wrong or none of these keys is known to the hub: " +:+ Join tried ", ").
Fixpoint register_loop (client : Verification) (endpoint : string) (bootstrap : Bootstrap) (tried : list string)
    (signers : list Signer) : M W Registered_ :=
  match signers with
  | [] => raise (Errorf "no ssh key to sign the registration with")
  | signer :: rest =>
      let* signature := liftR (SignBootstrap bootstrap signer) in
      let body := Marshal_register (mkRegisterRequest (b_Name bootstrap) (b_Identity bootstrap) signature) in
      let* (u, req) := liftR (NewRequest MethodPost endpoint body) in
      let* resp := http_Do client u (Header_Set ContentType "application/json" req) in
      if rs_StatusCode resp =? StatusUnauthorized then
        let tried := tried ++ [FingerprintSHA256 (sn_PublicKey signer)] in
        match rest with
        | _ :: _ => register_loop client endpoint bootstrap tried rest
        | [] => raise (rejected tried)
        end
      else if 300 <=? rs_StatusCode resp then raise (responseError resp)
      else
        match Decode_registered (rs_Body resp) with
        | None => raise ErrDecode
        | Some out => retM (out, FingerprintSHA256 (sn_PublicKey signer))
        end
  end.
Definition register (opts : JoinOptions) (signing : SigningOptions) (identity : Identity_) : M W Registered_ :=
  let base := TrimRight (jo_HubURL opts) "/" in
  let endpoint := base +:+ "/v1/register" in
  let* host := liftR (hostOf endpoint) in
  let bootstrap := mkBootstrap host (jo_Token opts) (jo_Name opts) (PublicIdentity (ed_public (private identity))) in
  let* signers := liftR (bootstrapSigners signing) in
  let* client := liftR (httpClient (jo_Insecure opts) (jo_Pin opts)) in
  register_loop client endpoint bootstrap [] signers.
End Client.
