(* ===== verification/Wire.v ===== *)
(** * A machine and its hub, over HTTP

    The connection between [Client] and [HubApi]: a network that may lose a
    request or its answer, and the hub at its other end, which others talk to
    as well.  What a client's call comes to at the hub, and that a machine that
    works through this client only ever moves the hub along its operations. *)

From Stdlib Require Import Ascii.
From S2P Require Export Client.

Open Scope Z_scope.

(** ** The network *)

Inductive Fate : Type := Delivered | Unsent | Unanswered.
(** What the client's [k]-th request meets: the hub's surroundings, what it is
    signed with, what becomes of it, and the requests of others the hub serves
    before it; and the address and certificates the two sides see. *)
Record Weather : Type := {
  wx_env : nat → Api → Env;
  wx_draw : nat → SigningDraw;
  wx_fate : nat → Fate;
  wx_others : nat → list ((Api → Env) * HttpRequest * list string);
  wx_remote : string;
  wx_certs : list string;
  wx_chain : bool;
}.
Record Net : Type := mkNet { n_api : Api; n_tick : nat }.

(** The JSON the hub answers with; [error_String] is what an error prints as. *)
Class ServerJson := { Marshal_payload : Payload → string; error_String : error → string }.

Definition StatusText (status : Z) : string :=
  if status =? 200 then "OK" else if status =? 201 then "Created" else if status =? 202 then "Accepted"
  else if status =? 204 then "No Content" else if status =? 400 then "Bad Request"
  else if status =? 401 then "Unauthorized" else if status =? 403 then "Forbidden"
  else if status =? 404 then "Not Found" else if status =? 405 then "Method Not Allowed"
  else if status =? 409 then "Conflict" else if status =? 429 then "Too Many Requests"
  else if status =? 500 then "Internal Server Error" else "".

Section Network.
Context `{HC : Crypto} `{HE : Ed25519} `{HS : SshLib} `{HJ : Json} `{HV : ServerJson}.
Context (wx : Weather).

Definition serve_other (s : Api) (o : (Api → Env) * HttpRequest * list string) : Api :=
  (HubHandler (o.1.1 s) o.1.2 o.2 s).2.
Definition trusted (v : Verification) (u : Url) : bool :=
  bool_decide (u_Scheme u = "http") ||
  match v with
  | VerifyPin check => is_ok (check (wx_certs wx))
  | VerifyNothing => true
  | VerifyChain => wx_chain wx
  end.
Definition set_remote (r : HttpRequest) : HttpRequest :=
  mkHttp (r_Host r) (r_Method r) (r_Path r) (r_Query r) (r_Header r) (r_Body r) (wx_remote wx).
Definition respond (r : Response) : res HttpResponse :=
  match r with
  | Reply st body => Ok (mkResponse st (Itoa st +:+ " " +:+ StatusText st) (Marshal_payload body))
  | Aborted => Err (Errorf "EOF")
  end.
Definition net_Do (v : Verification) (u : Url) (r : HttpRequest) : M Net HttpResponse := λ w,
  let k := n_tick w in
  let s := foldl serve_other (n_api w) (wx_others wx k) in
  if negb (trusted v u) then (Err (Errorf "tls: failed to verify certificate"), mkNet s (S k)) else
  match wx_fate wx k with
  | Unsent => (Err (Errorf "no route to host"), mkNet s (S k))
  | fate =>
      let out := HubHandler (wx_env wx k s) (set_remote r) (u_Segments u) s in
      (if fate is Delivered then respond out.1 else Err (Errorf "EOF"), mkNet out.2 (S k))
  end.
#[local] Instance net_Transport : Transport Net :=
  {| http_Do := net_Do; sign_draw w := wx_draw wx (n_tick w) |}.

(** ** A call, from end to end *)

Context `{HP : UrlParser} `{HCJ : ClientJson}.

(** A path segment that stands for itself: unreserved characters, not a step
    up or nowhere. *)
Definition unreserved (c : ascii) : bool :=
  let n := code c in
  (48 <=? n) && (n <=? 57) || (65 <=? n) && (n <=? 90) || (97 <=? n) && (n <=? 122) ||
  bool_decide (c = "-"%char ∨ c = "."%char ∨ c = "_"%char ∨ c = "~"%char).
Definition plain_segment (s : string) : Prop :=
  s ≠ "" ∧ s ≠ "." ∧ s ≠ ".." ∧ Forall (λ c, unreserved c = true) (s2l s).
#[export] Instance plain_segment_dec s : Decision (plain_segment s).
Proof. unfold plain_segment. apply _. Defined.
(** A url without a path of its own, at a host: what is appended to it is the
    path of the result. *)
Definition base_url (base host : string) : Prop :=
  ∃ scheme, ∀ segs, segs ≠ [] → Forall plain_segment segs →
    url_Parse (base +:+ "/" +:+ Join segs "/") = Some (mkUrl scheme host ("/" +:+ Join segs "/") segs ∅).

(** The client [c] at its [k]-th request: it reaches the hub alone, its clock
    and the hub's agree, and its nonce is fresh. *)
Record good_weather (c : hubClient) (host : string) (w : Net) : Prop := {
  gw_base : base_url (hb_base c) host;
  gw_alone : wx_others wx (n_tick w) = [];
  gw_fate : wx_fate wx (n_tick w) = Delivered;
  gw_trusted : ∀ u, trusted (hb_client c) u = true;
  gw_nonce : length (dr_nonce (wx_draw wx (n_tick w))) = 16%nat ∧ Forall is_byte (dr_nonce (wx_draw wx (n_tick w)));
  gw_clock : 0 ≤ dr_now (wx_draw wx (n_tick w)) < 3652059 * Day * Second;
  gw_drift : - Window ≤ now (wx_env wx (n_tick w) (n_api w)) - dr_now (wx_draw wx (n_tick w)) / Second * Second ≤ Window;
  gw_fresh : ∀ until, MemorySpent (PublicIdentity (ed_public (private (hb_identity c))))
               (EncodeB64 true (dr_nonce (wx_draw wx (n_tick w)))) until (a_nonces (n_api w)) →
               until ≤ now (wx_env wx (n_tick w) (n_api w));
}.
Definition me (c : hubClient) : string := PublicIdentity (ed_public (private (hb_identity c))).

(** The request [do_request] makes, as the hub sees it. *)
Definition wire_request (c : hubClient) (host method path : string) (raw : option string) (d : SigningDraw) : HttpRequest :=
  let req := mkHttp host method path ∅ ∅ (default "" raw) "" in
  let req := match raw with Some _ => Header_Set ContentType "application/json" req | None => req end in
  set_remote (SignRequest (dr_ρ d) (dr_now d) (dr_nonce d) (hb_identity c) (default "" raw) req).

Lemma do_request_run c host w method segs raw :
  good_weather c host w → segs ≠ [] → Forall plain_segment segs →
  let R := wire_request c host method ("/" +:+ Join segs "/") raw (wx_draw wx (n_tick w)) in
  let out := HubHandler (wx_env wx (n_tick w) (n_api w)) R segs (n_api w) in
  do_request c method ("/" +:+ Join segs "/") raw w =
    (match respond out.1 with
     | Ok resp => if 300 <=? rs_StatusCode resp then Err (responseError resp) else Ok resp
     | Err e => Err e
     | Panic => Panic
     end, mkNet out.2 (S (n_tick w))).
Proof.
  intros [[scheme Hb] Ha Hf Ht _ _ _ _] Hne Hp. cbv zeta. unfold do_request, NewRequest.
  rewrite (Hb segs Hne Hp). rewrite bind_liftR. cbn [u_Host u_Path u_Query]. rewrite bind_get.
  unfold bindM at 1. cbn [http_Do net_Transport sign_draw]. unfold net_Do. rewrite Ha, Hf, Ht. cbn [foldl negb u_Segments].
  fold (wire_request c host method ("/" +:+ Join segs "/") raw (wx_draw wx (n_tick w))).
  destruct (HubHandler _ _ _ _) as [[st body|] s']; cbn [fst snd respond rs_StatusCode]; [|done].
  by destruct (300 <=? st).
Qed.

(** What the hub makes of the signature: the request is the identity's, and
    its nonce is spent. *)
Definition spent_after (c : hubClient) (w : Net) : MemoryNonces :=
  (Use (now (wx_env wx (n_tick w) (n_api w))) (me c) (EncodeB64 true (dr_nonce (wx_draw wx (n_tick w)))) Window
     (a_nonces (n_api w))).2.
Definition carried (raw : option string) : Prop := (len (default "" raw) ≤ maxBodyBytes)%nat.
Lemma readBody_carried r : carried (Some (r_Body r)) → readBody r = r_Body r.
Proof. intros H. unfold readBody, str_take. rewrite take_ge by exact H. apply l2s_s2l. Qed.
Lemma readBody_wire c host method path raw d : carried raw → readBody (wire_request c host method path raw d) = default "" raw.
Proof.
  intros H. assert (r_Body (wire_request c host method path raw d) = default "" raw) as E by by destruct raw.
  rewrite readBody_carried; rewrite E; [done|exact H].
Qed.
Lemma signed_run c host w method path raw next :
  good_weather c host w → carried raw →
  let R := wire_request c host method path raw (wx_draw wx (n_tick w)) in
  let env := wx_env wx (n_tick w) (n_api w) in
  signed env R next (n_api w) =
    match ids_of (a_hub (n_api w)) !! me c with
    | Some who => next who (set_nonces (spent_after c w) (n_api w))
    | None => (writeError StatusUnauthorized "unauthorized" (Errorf "this machine is not registered here"),
               set_nonces (spent_after c w) (n_api w))
    end.
Proof.
  intros [_ _ _ _ [Hl Hb] Hc Hd Hf] Hr. cbv zeta. unfold signed. rewrite readBody_wire by done.
  pose (req := let req := mkHttp host method path ∅ ∅ (default "" raw) "" in
               match raw with Some _ => Header_Set ContentType "application/json" req | None => req end).
  change (wire_request c host method path raw (wx_draw wx (n_tick w))) with
    (SignRequest (dr_ρ (wx_draw wx (n_tick w))) (dr_now (wx_draw wx (n_tick w))) (dr_nonce (wx_draw wx (n_tick w)))
       (hb_identity c) (default "" raw) (set_remote req)).
  rewrite SignRequest_run by done. cbv zeta. cbn [Use MemoryNonces_store].
  rewrite MemoryUse_expired by exact Hf. fold (me c). unfold Identity.
  change (a_hub (set_nonces ?n ?s)) with (a_hub s). unfold ids_of. unfold spent_after. cbn [Use MemoryNonces_store].
  by destruct (s_Identities (mem (h_store (a_hub (n_api w)))) !! me c).
Qed.
Lemma ownerOnly_run c host w method path raw id inst next :
  good_weather c host w → carried raw →
  let R := wire_request c host method path raw (wx_draw wx (n_tick w)) in
  let env := wx_env wx (n_tick w) (n_api w) in
  ids_ok (a_hub (n_api w)) → is_Some (ids_of (a_hub (n_api w)) !! me c) →
  Resolve (ρ_of env) (h_store (a_hub (n_api w))) id = Ok inst → i_Owner inst = me c →
  ownerOnly env R id next (n_api w) = next inst (set_nonces (spent_after c w) (n_api w)).
Proof.
  intros Hw Hr R env Hids [g Hg] Hres Ho. unfold ownerOnly, R, env. rewrite (signed_run c host w) by done. rewrite Hg.
  unfold resolved. change (a_hub (set_nonces ?n ?s)) with (a_hub s). fold env. rewrite Hres.
  unfold ConstantTimeEqual. destruct (Hids _ _ Hg) as [E _]. by rewrite bool_decide_true by congruence.
Qed.

(** ** What only an owner may call *)

Inductive OwnerCall : Type :=
  | CActivate (id ca cert : string)
  | CDecide (id rid : string) (d : Decision_)
  | CForget (id rid : string)
  | CBan (id member note : string)
  | CUnban (id member note : string)
  | CSetToken (id token : string)
  | CDelete (id : string).
Definition run_call {W} (H : HubClient W) (q : OwnerCall) : M W () :=
  match q with
  | CActivate id ca cert => hc_activate id ca cert
  | CDecide id rid d => hc_decide id rid d
  | CForget id rid => hc_forget id rid
  | CBan id member note => hc_ban id member note
  | CUnban id member note => hc_unban id member note
  | CSetToken id token => hc_setToken id token
  | CDelete id => hc_deleteInstance id
  end.
(** The operation of the hub it is, on the instance the reference names. *)
Definition operation_of (q : OwnerCall) (id : string) : Op :=
  match q with
  | CActivate _ ca cert => OpActivate id ca cert
  | CDecide _ rid d => OpDecide id rid d
  | CForget _ rid => OpForget id rid
  | CBan _ member note => OpBan id member note
  | CUnban _ member note => OpUnban id member note
  | CSetToken _ token => OpSetToken id token
  | CDelete _ => OpDelete id
  end.
Definition call_ref (q : OwnerCall) : string :=
  match q with
  | CActivate id _ _ | CDecide id _ _ | CForget id _ | CBan id _ _ | CUnban id _ _ | CSetToken id _ | CDelete id => id
  end.
(** What the path is made of, and what becomes of the body: it is small enough,
    and the hub reads what the machine wrote. *)
Definition call_plain (q : OwnerCall) : Prop :=
  plain_segment (call_ref q) ∧ match q with CDecide _ rid _ | CForget _ rid => plain_segment rid | _ => True end.
Definition call_carried (q : OwnerCall) : Prop :=
  match q with
  | CActivate _ ca cert => let v := mkLighthouseRequest ca cert in
      carried (Some (Marshal_lighthouse v)) ∧ decode_lighthouse (Marshal_lighthouse v) = Some v
  | CDecide _ _ d => carried (Some (Marshal_decision d)) ∧ decode_decision (Marshal_decision d) = Some d
  | CBan _ member note | CUnban _ member note => let v := mkBanRequest member note in
      carried (Some (Marshal_ban v)) ∧ decode_ban (Marshal_ban v) = Some v
  | CSetToken _ token => let v := mkTokenRequest token in
      carried (Some (Marshal_token v)) ∧ decode_token (Marshal_token v) = Some v
  | CForget _ _ | CDelete _ => True
  end.

Lemma owner_endpoint id rid :
  id ≠ "" → rid ≠ "" →
  find_endpoint "POST" ["v1"; "instances"; id; "lighthouse"] = Some (ELighthouse id) ∧
  find_endpoint "POST" ["v1"; "instances"; id; "requests"; rid] = Some (EDecision id rid) ∧
  find_endpoint "DELETE" ["v1"; "instances"; id; "requests"; rid] = Some (EForget id rid) ∧
  find_endpoint "POST" ["v1"; "instances"; id; "ban"] = Some (EBan id) ∧
  find_endpoint "POST" ["v1"; "instances"; id; "unban"] = Some (EUnban id) ∧
  find_endpoint "POST" ["v1"; "instances"; id; "token"] = Some (ESetToken id) ∧
  find_endpoint "DELETE" ["v1"; "instances"; id] = Some (EDeleteInstance id).
Proof. destruct id as [|a id]; [done|]. destruct rid as [|b rid]; [done|]. intros _ _. by vm_compute. Qed.

(** How an operation's outcome is answered. *)
Definition answers (a : Response) (r : res ()) : Prop :=
  match r with
  | Ok _ => ∃ st body, a = Reply st body ∧ st < 300
  | Err e => ∃ st code, a = writeError st code e ∧ 300 <= st ∧ code ≠ ""
  | Panic => a = Aborted
  end.
(** And what the client makes of it. *)
Definition outcome_of (r : res ()) (out : res ()) : Prop :=
  match r with
  | Ok _ => out = Ok ()
  | Err e => ∃ code e', out = Err e' ∧ code ≠ "" ∧
      (Decode_error (str_take (Z.to_nat (Z.shiftl 4 10)) (Marshal_payload (PError code e))) = Some (code, error_String e) →
       error_String e ≠ "" → e' = Errorf (error_String e))
  | Panic => False
  end.
Lemma answered_outcome a r w w' :
  answers a r → r ≠ Panic →
  outcome_of r (bindM (λ _ : Net, (match respond a with
     | Ok resp => if 300 <=? rs_StatusCode resp then Err (responseError resp) else Ok resp
     | Err e => Err e
     | Panic => Panic
     end, w')) (λ _, retM ()) w).1 ∧
  (bindM (λ _ : Net, (match respond a with
     | Ok resp => if 300 <=? rs_StatusCode resp then Err (responseError resp) else Ok resp
     | Err e => Err e
     | Panic => Panic
     end, w')) (λ _, retM ()) w).2 = w'.
Proof.
  unfold bindM. destruct r as [u|e|]; simpl; [| |done].
  - intros (st & body & -> & Hst) _. cbn [respond rs_StatusCode]. by rewrite (proj2 (Z.leb_gt _ _)).
  - intros (st & code & -> & Hst & Hc) _. unfold writeError. cbn [respond rs_StatusCode].
    rewrite (proj2 (Z.leb_le _ _)) by done. cbn [fst snd]. split; [|done].
    do 2 eexists. split_and!; [done|done|]. intros Hd Hne. unfold responseError. cbn [rs_Body]. rewrite Hd.
    rewrite !decide_True by done. done.
Qed.

Lemma member_answers e : answers (writeMemberError e) (Err e).
Proof. unfold writeMemberError. destruct (errors_Is e ErrNotFound); by do 2 eexists. Qed.
Lemma call_answers {A} (m : M Hub A) k s0 r h' :
  m (a_hub s0) = (r, h') → r ≠ Panic → call m k s0 = (k r, set_hub h' s0).
Proof. intros E Hp. unfold call. rewrite E. by destruct r. Qed.
Lemma decode_run {A} (f : string → option A) c host method path raw d v k s0 :
  carried (Some raw) → f raw = Some v →
  HubApi.decode f (wire_request c host method path (Some raw) d) k s0 = k v s0.
Proof. intros Hr Hv. unfold HubApi.decode. rewrite readBody_wire by done. simpl. by rewrite Hv. Qed.

(** A call that reaches the endpoint [e], the owner's. *)
Lemma endpoint_served c host w method segs raw e id inst next a h' :
  good_weather c host w → carried raw → ids_ok (a_hub (n_api w)) → is_Some (ids_of (a_hub (n_api w)) !! me c) →
  Resolve (ρ_of (wx_env wx (n_tick w) (n_api w))) (h_store (a_hub (n_api w))) id = Ok inst → i_Owner inst = me c →
  let env := wx_env wx (n_tick w) (n_api w) in
  let R := wire_request c host method ("/" +:+ Join segs "/") raw (wx_draw wx (n_tick w)) in
  find_endpoint method segs = Some e → (∀ R, handle env R e = ownerOnly env R id (next R)) →
  (∀ s, a_hub s = a_hub (n_api w) → next R inst s = (a, set_hub h' s)) →
  HubHandler env R segs (n_api w) = (a, mkApi h' (spent_after c w) (a_rl (n_api w))).
Proof.
  intros Hw Hc Hids Hreg Hres Ho env R Hf He Hn. unfold HubHandler.
  assert (r_Method R = method) as -> by by destruct raw. rewrite Hf, He. unfold R, env.
  rewrite (ownerOnly_run c host w method _ raw id inst) by done. by rewrite Hn.
Qed.

(** What is to be shown of each call, at a client whose instance [inst] is. *)
Section Served.
Context (c : hubClient) (host : string) (w : Net) (inst : Instance_) (r : res ()) (h' : Hub).
Context (Hw : good_weather c host w) (Hids : ids_ok (a_hub (n_api w))).
Context (Hreg : is_Some (ids_of (a_hub (n_api w)) !! me c)) (Ho : i_Owner inst = me c) (Hnp : r ≠ Panic).
Let env := wx_env wx (n_tick w) (n_api w).

Definition served (q : OwnerCall) : Prop := ∃ method segs raw a,
  run_call (http_HubClient c) q w = (do_only c method ("/" +:+ Join segs "/") raw) w ∧
  segs ≠ [] ∧ Forall plain_segment segs ∧ answers a r ∧
  HubHandler env (wire_request c host method ("/" +:+ Join segs "/") raw (wx_draw wx (n_tick w))) segs (n_api w) =
    (a, mkApi h' (spent_after c w) (a_rl (n_api w))).
Definition comes_to (q : OwnerCall) : Prop :=
  call_plain q ∧ call_carried q ∧ Resolve (ρ_of env) (h_store (a_hub (n_api w))) (call_ref q) = Ok inst ∧
  run_op env (operation_of q (i_ID inst)) (a_hub (n_api w)) = (r, h').

Lemma plain_words :
  plain_segment "v1" ∧ plain_segment "instances" ∧ plain_segment "lighthouse" ∧ plain_segment "requests" ∧
  plain_segment "ban" ∧ plain_segment "unban" ∧ plain_segment "token".
Proof. split_and!; by apply (bool_decide_unpack _). Qed.

Ltac calls method segs raw k :=
  destruct plain_words as (P1&P2&P3&P4&P5&P6&P7);
  exists method, segs, raw, k; split; [reflexivity|]; split; [done|];
  split; [by repeat (apply Forall_cons_2; [done|])|]; split; [destruct r as [[]|e|]; simpl; [by do 2 eexists| |done]|].
Ltac reaches Hcar Hres E :=
  refine (endpoint_served _ _ _ _ _ _ _ _ _ _ _ _ Hw Hcar Hids Hreg Hres Ho E (λ R, eq_refl) _); intros s Es.
Ltac answered Hrun Es := by (rewrite (call_answers _ _ _ r h') by first [rewrite Es; exact Hrun | done]).
Lemma carried_None : carried None.
Proof. apply Nat.le_0_l. Qed.

Lemma served_activate id ca cert : comes_to (CActivate id ca cert) → served (CActivate id ca cert).
Proof.
  intros ([Hid _] & [Hcar Hdec] & Hres & Hrun). cbn [call_ref operation_of] in *.
  calls "POST" ["v1"; "instances"; id; "lighthouse"] (Some (Marshal_lighthouse (mkLighthouseRequest ca cert)))
    (match r with Err e => writeError StatusBadRequest "bad_request" e | _ => Reply StatusOK (PRunning (isRunning h' (i_ID inst))) end).
  - by do 2 eexists.
  - reaches Hcar Hres (proj1 (owner_endpoint id "r" (proj1 Hid) ltac:(done))).
    unfold handleLighthouse. rewrite (decode_run _ c host _ _ _ _ (mkLighthouseRequest ca cert)) by done.
    rewrite (call_answers _ _ _ r h') by (try rewrite Es; done). by destruct r.
Qed.
Lemma served_decide id rid d : comes_to (CDecide id rid d) → served (CDecide id rid d).
Proof.
  intros ([Hid Hrid] & [Hcar Hdec] & Hres & Hrun). cbn [call_ref operation_of] in *.
  calls "POST" ["v1"; "instances"; id; "requests"; rid] (Some (Marshal_decision d))
    (match r with Err e => writeError (if errors_Is e ErrNotFound then StatusNotFound else StatusBadRequest) "bad_request" e
     | _ => Reply StatusNoContent PNone end).
  - do 2 eexists. split; [done|]. by destruct (errors_Is e ErrNotFound).
  - reaches Hcar Hres (proj1 (proj2 (owner_endpoint id rid (proj1 Hid) (proj1 Hrid)))).
    unfold handleDecision. rewrite (decode_run _ c host _ _ _ _ d) by done. answered Hrun Es.
Qed.
Lemma served_forget id rid : comes_to (CForget id rid) → served (CForget id rid).
Proof.
  intros ([Hid Hrid] & _ & Hres & Hrun). cbn [call_ref operation_of] in *.
  calls "DELETE" ["v1"; "instances"; id; "requests"; rid] (None : option string)
    (match r with Err e => writeError StatusNotFound "not_found" e | _ => Reply StatusNoContent PNone end).
  - by do 2 eexists.
  - reaches carried_None Hres (proj1 (proj2 (proj2 (owner_endpoint id rid (proj1 Hid) (proj1 Hrid))))).
    unfold handleForget. answered Hrun Es.
Qed.
Lemma served_ban id m note : comes_to (CBan id m note) → served (CBan id m note).
Proof.
  intros ([Hid _] & [Hcar Hdec] & Hres & Hrun). cbn [call_ref operation_of] in *.
  calls "POST" ["v1"; "instances"; id; "ban"] (Some (Marshal_ban (mkBanRequest m note)))
    (match r with Err e => writeMemberError e | _ => Reply StatusNoContent PNone end).
  - apply member_answers.
  - reaches Hcar Hres (proj1 (proj2 (proj2 (proj2 (owner_endpoint id "r" (proj1 Hid) ltac:(done)))))).
    unfold handleBan. rewrite (decode_run _ c host _ _ _ _ (mkBanRequest m note)) by done. answered Hrun Es.
Qed.
Lemma served_unban id m note : comes_to (CUnban id m note) → served (CUnban id m note).
Proof.
  intros ([Hid _] & [Hcar Hdec] & Hres & Hrun). cbn [call_ref operation_of] in *.
  calls "POST" ["v1"; "instances"; id; "unban"] (Some (Marshal_ban (mkBanRequest m note)))
    (match r with Err e => writeMemberError e | _ => Reply StatusNoContent PNone end).
  - apply member_answers.
  - reaches Hcar Hres (proj1 (proj2 (proj2 (proj2 (proj2 (owner_endpoint id "r" (proj1 Hid) ltac:(done))))))).
    unfold handleUnban. rewrite (decode_run _ c host _ _ _ _ (mkBanRequest m note)) by done. answered Hrun Es.
Qed.
Lemma served_token id tok : comes_to (CSetToken id tok) → served (CSetToken id tok).
Proof.
  intros ([Hid _] & [Hcar Hdec] & Hres & Hrun). cbn [call_ref operation_of] in *.
  calls "POST" ["v1"; "instances"; id; "token"] (Some (Marshal_token (mkTokenRequest tok)))
    (match r with Err e => writeError StatusBadRequest "bad_request" e | _ => Reply StatusNoContent PNone end).
  - by do 2 eexists.
  - reaches Hcar Hres (proj1 (proj2 (proj2 (proj2 (proj2 (proj2 (owner_endpoint id "r" (proj1 Hid) ltac:(done)))))))).
    unfold handleSetToken. rewrite (decode_run _ c host _ _ _ _ (mkTokenRequest tok)) by done. answered Hrun Es.
Qed.
Lemma served_delete id : comes_to (CDelete id) → served (CDelete id).
Proof.
  intros ([Hid _] & _ & Hres & Hrun). cbn [call_ref operation_of] in *.
  calls "DELETE" ["v1"; "instances"; id] (None : option string)
    (match r with Err e => writeError StatusInternalServerError "error" e | _ => Reply StatusNoContent PNone end).
  - by do 2 eexists.
  - reaches carried_None Hres (proj2 (proj2 (proj2 (proj2 (proj2 (proj2 (owner_endpoint id "r" (proj1 Hid) ltac:(done)))))))).
    unfold handleDeleteInstance. answered Hrun Es.
Qed.
Lemma served_all q : comes_to q → served q.
Proof.
  destruct q; [apply served_activate|apply served_decide|apply served_forget|apply served_ban|apply served_unban
    |apply served_token|apply served_delete].
Qed.
End Served.

(** C12: a call of the owner's client is the hub's operation.  When it reaches
    the hub, with the clocks in agreement and a fresh nonce, activating,
    deciding, forgetting, banning, unbanning, setting the token and deleting
    each do to the hub exactly what the operation does to the instance the
    reference names: nothing on the way adds to it or takes from it, and
    besides only the nonce is spent.  The caller is told it went well exactly
    when it did; when it was refused it is told so, in the words the hub gave
    as far as they fit an answer. *)
Theorem owner_call_exact (cfg : Config) (c : hubClient) (host : string) (w : Net) (q : OwnerCall)
    (inst : Instance_) (r : res ()) (h' : Hub) :
  config_ok cfg → reachable cfg (a_hub (n_api w)) → ids_ok (a_hub (n_api w)) →
  good_weather c host w → is_Some (ids_of (a_hub (n_api w)) !! me c) → call_plain q → call_carried q →
  Resolve (ρ_of (wx_env wx (n_tick w) (n_api w))) (h_store (a_hub (n_api w))) (call_ref q) = Ok inst →
  i_Owner inst = me c →
  run_op (wx_env wx (n_tick w) (n_api w)) (operation_of q (i_ID inst)) (a_hub (n_api w)) = (r, h') →
  ∃ out, run_call (http_HubClient c) q w =
           (out, mkNet (mkApi h' (spent_after c w) (a_rl (n_api w))) (S (n_tick w))) ∧ outcome_of r out.
Proof.
  intros Hcfg Hr Hids Hw Hreg Hp Hcar Hres Ho Hrun. pose proof (reachable_ok _ _ Hcfg Hr) as Hok.
  assert (r ≠ Panic) as Hnp.
  { destruct (run_op_ok cfg (wx_env wx (n_tick w) (n_api w)) (operation_of q (i_ID inst)) (a_hub (n_api w)) Hcfg) as [Hn _];
      [by destruct q|done|]. by rewrite Hrun in Hn. }
  destruct (served_all c host w inst r h' Hw Hids Hreg Ho Hnp q) as (method&segs&raw&a&->&Hne&Hs&Ha&Hserved);
    [by split_and!|].
  unfold do_only. unfold bindM at 1. rewrite (do_request_run c host w method segs raw Hw Hne Hs). rewrite Hserved. cbn [fst snd].
  destruct (answered_outcome a r w (mkNet (mkApi h' (spent_after c w) (a_rl (n_api w))) (S (n_tick w))) Ha Hnp) as [H1 H2].
  eexists. split; [apply injective_projections; [reflexivity|exact H2]|exact H1].
Qed.
End Network.
