(* ===== verification/DnsPlan.v ===== *)
(** * Telling the machine's resolver: [internal/tenant/dns.go]

    The daemon works out a plan, one entry per connection, and the command
    line applies it as root: a file per device for systemd-networkd, and the
    same told to systemd-resolved at once. *)

From Stdlib Require Import Ascii.
From S2P Require Export Tenant GoPath.

Open Scope Z_scope.

(** ** Plans *)

Record DNSEntry : Type := mkDNSEntry {
  dn_Instance : string;
  dn_Device : string;
  dn_Servers : list string;
  dn_Domains : list string;
}.
Record Reach : Type := mkReach {
  re_Instance : string;
  re_Network : Prefix;
  re_Carrier : string;
  re_Names : string;
  re_Installed : bool;
}.

Section Plan.
Context {W : Type} `{HW : HubClient W} `{HB : Build}.
Abbreviation Machine := (Daemon W).

Definition plan_entry (env : TEnv) (remove : bool) (conn : Connection) : M Machine (list DNSEntry) :=
  let entry := mkDNSEntry (cn_Name conn) (cn_Device conn) [] [] in
  if remove || negb (Ready conn) then retM [entry] else
  tryM (onHub (hc_routes (cn_InstanceID conn))) (λ r,
  match r with
  | inr _ => retM [entry]
  | inl table =>
      let* aliases := readState Aliases in
      let domains := Domains (table_for (ρ_of (t_env env)) aliases table (cn_Name conn)) in
      do* logged (onRouters (startRouter env aliases conn table)) in
      let servers := if (0 <? length domains)%nat
                     then [JoinHostPort (Addr_String (p_addr (cn_Address conn))) (Itoa RouterPort)] else [] in
      retM [mkDNSEntry (cn_Name conn) (cn_Device conn) servers domains]
  end).
Definition DNSPlan (env : TEnv) (remove : bool) : M Machine (list DNSEntry) :=
  let* conns := readState (Connections (ρ_of (t_env env))) in
  collectM (plan_entry env remove) conns.

(** The name space of each connector: the last of its routes wins. *)
Definition names_by_via (t : routerTable) : gmap Addr string :=
  foldl (λ m r, <[rr_Via r := rr_Virtual r]> m) ∅ t.
Definition reach_key_le : relation Reach := λ a b,
  if decide (re_Instance a = re_Instance b)
  then String.le (Prefix_String (re_Network a)) (Prefix_String (re_Network b))
  else String.le (re_Instance a) (re_Instance b).
#[export] Instance reach_key_le_dec : RelDecision reach_key_le.
Proof. intros a b. unfold reach_key_le. case_decide; apply _. Defined.
Definition reach_one (conn : Connection) : M Machine (list Reach) :=
  if negb (Ready conn) then retM [] else
  tryM (onHub (hc_routes (cn_InstanceID conn))) (λ r,
  match r with
  | inr _ => retM []
  | inl table =>
      let* d := getM in
      let names := names_by_via (routerTableFor table (cn_Name conn)) in
      let installed := match routerTableOf (d_routers d) (cn_InstanceID conn) with Some t => Domains t | None => [] end in
      retM ((λ route,
              let n := default "" (names !! rt_Via route) in
              mkReach (cn_Name conn) (rt_Prefix route) (rt_Connector route) n (bool_decide (n ∈ installed)))
            <$> filter (λ route, rt_Via route ≠ p_addr (cn_Address conn)) (tb_Routes table))
  end).
Definition Reachable (env : TEnv) : M Machine (list Reach) :=
  let* conns := readState (Connections (ρ_of (t_env env))) in
  let* out := collectM reach_one conns in
  retM (merge_sort reach_key_le out).

(** Whether one of the connections answers for a name: they are asked in
    order until one does. *)
Fixpoint known_target (target : string) (conns : list Connection) : M Machine bool :=
  match conns with
  | [] => retM false
  | conn :: conns =>
      if negb (Ready conn) then known_target target conns else
      tryM (onHub (hc_routes (cn_InstanceID conn))) (λ r,
      match r with
      | inr _ => known_target target conns
      | inl table =>
          if bool_decide (is_Some (matchRoute (routerTableFor table (cn_Name conn)) target))
          then retM true else known_target target conns
      end)
  end.
(** [Daemon.SetAlias]. *)
Definition named (r : res string) : res string :=
  match r with Err e => Err (Wrap "%q cannot be a name: %w" e) | _ => r end.
Definition SetAlias (env : TEnv) (alias canonical : string) : M Machine () :=
  if bool_decide (alias = "") && bool_decide (canonical = "") then retM () else
  let* name := liftR (named (ParseMemberName alias)) in
  if decide (canonical = "") then onState (SetAliasState (t_env env) name "") else
  let* target := liftR (named (ParseMemberName canonical)) in
  let* conns := readState (Connections (ρ_of (t_env env))) in
  let* known := known_target target conns in
  do* guard known (Errorf "nothing here answers for %s: robinet reach says what does") in
  do* guard (negb (bool_decide (name = target))) (Errorf "%s is already its own name") in
  onState (SetAliasState (t_env env) name target).
End Plan.

(** ** The resolver *)

(** What applying a plan changes: the files by their path, and what
    systemd-resolved was told about each link (servers, domains). *)
Record Resolved : Type := mkResolved {
  units : gmap string string;
  links : gmap string (list string * list string);
}.
(** What applying meets: whether the binary is there, what a call of it prints
    when it fails, and which files cannot be written or removed. *)
Record REnv : Type := mkREnv {
  has_resolvectl : bool;
  resolvectl_fails : list string → option string;
  write_fails : string → option error;
  remove_fails : string → bool;
}.

Definition ModeSystemd : string := "systemd".
Definition ErrNoResolver : error :=
  Errorf "resolvectl was not found, so nothing here can be told which connector answers for what".
Definition networkUnitDir : string := "/etc/systemd/network".
Definition unitPrefix : string := "90-robinet-".
Definition unitSuffix : string := ".network".
Definition networkUnitPath (device : string) : string :=
  JoinPath [networkUnitDir; unitPrefix +:+ device +:+ unitSuffix].

Definition haveResolved (env : REnv) : M Resolved () := guard (has_resolvectl env) ErrNoResolver.
Definition CheckResolver (env : REnv) : M Resolved () := haveResolved env.

(** The two calls of [resolvectl] the program makes: [dns LINK ...] and
    [domain LINK ...] replace what the link has by the arguments given; with
    the link alone they print what it has and change nothing.  (What clears a
    setting is an empty string as the argument, which the program never
    gives.) *)
Definition told (what device : string) (l : list string) (s : Resolved) : Resolved :=
  if decide (l = []) then s else
  let '(dns, domains) := default ([], []) (links s !! device) in
  mkResolved (units s)
    (<[device := if decide (what = "dns") then (l, domains) else (dns, l)]> (links s)).
Definition resolvectl (env : REnv) (what device : string) (l : list string) : M Resolved () :=
  match resolvectl_fails env (what :: device :: l) with
  | None => modify (told what device l)
  | Some out =>
      let text := TrimSpace out in
      if Contains text "Access denied"
      then raise (Errorf "systemd-resolved refused this: %s. It has to be run as root")
      else raise (Errorf "resolvectl %s: %s")
  end.

Definition unit_text (device : string) (servers routing : list string) : string :=
  Join ["# Written by robinet dns. Removed by robinet dns --remove.";
        "#";
        "# The addresses and routes on this link belong to nebula. This file says which";
        "# names go to it, and nothing else.";
        "";
        "[Match]";
        "Name=" +:+ device;
        "";
        "[Network]";
        "KeepConfiguration=yes";
        "ConfigureWithoutCarrier=yes";
        "IgnoreCarrierLoss=yes";
        "LinkLocalAddressing=no";
        "LLMNR=no";
        "DNS=" +:+ Join servers " ";
        "Domains=" +:+ Join routing " ";
        ""] nl.
Definition write_unit (env : REnv) (path text : string) : M Resolved () :=
  match write_fails env path with
  | Some e => raise e
  | None => modify (λ s, mkResolved (<[path := text]> (units s)) (links s))
  end.
(** [os.Remove], whose error is ignored. *)
Definition remove_unit (env : REnv) (path : string) : M Resolved () :=
  if remove_fails env path then retM () else modify (λ s, mkResolved (delete path (units s)) (links s)).

Definition systemdInstall (env : REnv) (device : string) (servers domains : list string) : M Resolved () :=
  do* haveResolved env in
  let routing := (λ d, "~" +:+ d) <$> domains in
  do* write_unit env (networkUnitPath device) (unit_text device servers routing) in
  do* resolvectl env "dns" device servers in
  resolvectl env "domain" device routing.
Definition systemdRemove (env : REnv) (device : string) : M Resolved () :=
  do* haveResolved env in
  do* remove_unit env (networkUnitPath device) in
  do* resolvectl env "domain" device [] in
  resolvectl env "dns" device [].

Record mode : Type := mkMode {
  md_name : string;
  md_install : REnv → string → list string → list string → M Resolved ();
  md_remove : REnv → string → M Resolved ();
}.
Definition modes : list mode := [mkMode ModeSystemd systemdInstall systemdRemove].
Definition ModeNames : list string := md_name <$> modes.
Definition lookupMode (name : string) : res mode :=
  match find_first (λ m, bool_decide (md_name m = name)) modes with
  | Some m => Ok m
  | None => Err (Errorf "unknown mode %q, supported: %s")
  end.

(** [filepath.Glob] of the program's files, in the order of their names, and
    the device each is about. *)
Definition unit_device (path : string) : option string :=
  match CutPrefix path (networkUnitDir +:+ "/" +:+ unitPrefix) with
  | None => None
  | Some rest => if HasSuffix rest unitSuffix && negb (Contains rest "/")
                 then Some (TrimSuffix rest unitSuffix) else None
  end.
Definition globbed (s : Resolved) : list string :=
  sort_strings (filter (λ p, is_Some (unit_device p)) (map_to_list (units s)).*1).
Fixpoint sweep_loop (env : REnv) (keep : gset string) (files : list string) : M Resolved () :=
  match files with
  | [] => retM ()
  | file :: files =>
      let device := TrimSuffix (TrimPrefix (Base file) unitPrefix) unitSuffix in
      if bool_decide (device ∈ keep) then sweep_loop env keep files
      else do* remove_unit env file in sweep_loop env keep files
  end.
Definition sweep (env : REnv) (keep : gset string) : M Resolved () :=
  let* s := getM in sweep_loop env keep (globbed s).
Definition RemoveAll (env : REnv) : M Resolved () := sweep env ∅.

Definition wrapped (c : M Resolved ()) : M Resolved () :=
  λ s, match c s with (Err e, s) => (Err (Wrap "%s: %w" e), s) | r => r end.
Fixpoint apply_entries (env : REnv) (m : mode) (plan : list DNSEntry) : M Resolved () :=
  match plan with
  | [] => retM ()
  | e :: plan =>
      do* wrapped (if bool_decide (dn_Domains e = []) then md_remove m env (dn_Device e)
                   else md_install m env (dn_Device e) (dn_Servers e) (dn_Domains e)) in
      apply_entries env m plan
  end.
Definition kept_devices (plan : list DNSEntry) : gset string :=
  list_to_set (dn_Device <$> filter (λ e, dn_Domains e ≠ []) plan).
Definition Apply (env : REnv) (name : string) (plan : list DNSEntry) : M Resolved () :=
  let* m := liftR (lookupMode name) in
  do* sweep env (kept_devices plan) in
  apply_entries env m plan.
