(* ===== verification/Socket.v ===== *)
(** * The control socket: [internal/tenant/socket.go]

    The local API of the daemon: the requests it takes, the table of its
    endpoints, what each handler does to the daemon and answers, and the file
    the socket is.  Decoding a body is left to a class; a reply is its status
    and the value encoded in it. *)

From Stdlib Require Import Ascii.
From S2P Require Export DnsPlan.

Open Scope Z_scope.

(** ** Requests and answers *)

Record ConnectRequest : Type := mkConnectRequest { cq_Instance : string }.
Record ConfigRequest : Type := mkConfigRequest { gq_Instance : string; gq_ShowKeys : bool }.
(** [ApproveRequest] of the source: [None] where the routes are nil. *)
Record ApproveBody : Type := mkApproveBody {
  aq_ID : string;
  aq_Name : string;
  aq_Routes : option (list Prefix);
  aq_NoDomain : bool;
}.
Record DecisionRequest : Type := mkDecisionRequest { dq_ID : string; dq_Reason : string }.
Record DeleteRequest : Type := mkDeleteRequest { xq_Instance : string; xq_Force : bool }.
(** [TokenRequest] of the source. *)
Record InstanceTokenRequest : Type := mkInstanceToken { tq_Instance : string; tq_Token : string }.
Record InboundRequest : Type := mkInboundRequest { iq_Inbound : string }.
Record AliasRequest : Type := mkAliasRequest { lq_Alias : string; lq_Canonical : string }.
Record DNSRequest : Type := mkDNSRequest { nq_Mode : string; nq_Remove : bool }.
Record FamiliesRequest : Type := mkFamiliesRequest { fq_Families : string }.
Record CheatRequest : Type := mkCheatRequest { hq_Vendor : string; hq_Name : string; hq_On : bool }.
Record CreateRequest : Type := mkInstanceRequest { eq_Name : string; eq_SharedToken : string }.

Record ConnectionStatus : Type := mkConnectionStatus {
  cs_Instance : string;
  cs_InstanceID : string;
  cs_Role : string;
  cs_Address : Prefix;
  cs_Address6 : Prefix;
  cs_Device : string;
  cs_Running : bool;
  cs_Waiting : bool;
  cs_Routes : list Route;
  cs_Endpoint : string;
}.
Record DaemonStatus : Type := mkDaemonStatus {
  ds_Hub : string;
  ds_Binder : string;
  ds_Name : string;
  ds_Families : string;
  ds_Inbound : string;
  ds_Cheats : list string;
  ds_Version : string;
  ds_Connections : list ConnectionStatus;
  ds_Pending : list PendingEntry;
}.
(** What [handleCreate] answers: the overlay of IPv6 when there is one. *)
Record CreatedInstance : Type := mkCreated {
  ci_id : string;
  ci_name : string;
  ci_overlay : Prefix;
  ci_endpoint : string;
  ci_enroll_url : string;
  ci_shared_token : string;
  ci_overlay6 : option Prefix;
}.

Inductive Answer : Type :=
  | AError (e : error)
  | ANothing
  | AStatus (s : DaemonStatus)
  | AInstances (l : list InstanceSummary)
  | AMembers (l : list MemberEntry)
  | AReach (l : list Reach)
  | AShown (i : InstanceInfo)
  (** [ConfigResult]: which configuration, and its tree. *)
  | AConfig (live : bool) (config : tree)
  | APending (l : list PendingEntry)
  | ACreated (c : CreatedInstance)
  | AConnected (instance : string)
  | AApproved (e : PendingEntry)
  | ARemoved (e : MemberEntry)
  | AToken (t : TokenResult)
  | AVersion (version : string)
  | AFamilies (families : string)
  | AInbound (inbound : string)
  | ACheat (vendor name : string) (on : bool)
  | APlan (l : list DNSEntry)
  | AAliases (m : gmap string string)
  | ADeleted (r : DeleteResult).

(** What a body decodes to. *)
Class SocketJson := {
  read_connect : string → option ConnectRequest;
  read_config : string → option ConfigRequest;
  read_approve : string → option ApproveBody;
  read_decision : string → option DecisionRequest;
  read_delete : string → option DeleteRequest;
  read_token : string → option InstanceTokenRequest;
  read_inbound : string → option InboundRequest;
  read_alias : string → option AliasRequest;
  read_dns : string → option DNSRequest;
  read_families : string → option FamiliesRequest;
  read_cheat : string → option CheatRequest;
  read_create : string → option CreateRequest;
  read_member : string → option MemberRef;
}.

(** ** The endpoints *)

Inductive Control : Type :=
  | XStatus | XList | XMembers | XReach | XShow | XConfig | XPending | XCreate | XConnect | XDisconnect | XApprove
  | XReject | XForget | XBan | XUnban | XRemoveMember | XSetToken | XRestart | XFamilies | XCheat | XDNSPlan | XAlias
  | XInbound | XDelete.
Definition control_mux (cheating : bool) : list (string * string * Control) :=
  [("GET", "/status", XStatus); ("GET", "/list", XList); ("GET", "/members", XMembers); ("GET", "/reach", XReach);
   ("POST", "/show", XShow); ("POST", "/config", XConfig); ("GET", "/pending", XPending); ("POST", "/create", XCreate);
   ("POST", "/connect", XConnect); ("POST", "/disconnect", XDisconnect); ("POST", "/approve", XApprove);
   ("POST", "/reject", XReject); ("POST", "/forget", XForget); ("POST", "/ban", XBan); ("POST", "/unban", XUnban);
   ("POST", "/member/remove", XRemoveMember); ("POST", "/instance/token", XSetToken); ("POST", "/restart", XRestart);
   ("POST", "/families", XFamilies)] ++
  (if cheating then [("POST", "/cheat", XCheat)] else []) ++
  [("POST", "/dns", XDNSPlan); ("POST", "/alias", XAlias); ("POST", "/inbound", XInbound); ("POST", "/delete", XDelete)].
Definition find_control (cheating : bool) (method path : string) : option Control :=
  snd <$> find_first (λ e, match_method e.1.1 method && bool_decide (e.1.2 = path)) (control_mux cheating).

(** A reply: [Robinet-Version], the status and the body; and whether the
    daemon signals itself afterwards. *)
Record SocketReply : Type := mkSocketReply { sr_Version : string; sr_Status : Z; sr_Body : Answer; sr_Signal : bool }.

Section Socket.
Context {W : Type} `{HW : HubClient W} `{HL : CertLib} `{HB : Build} `{HU : Urls} `{HJ : SocketJson}.
Abbreviation Machine := (Daemon W).

Definition control_reply : Type := Z * Answer.
Definition writeError (e : error) : control_reply := (StatusBadRequest, AError e).
Definition decode_body {A} (f : string → option A) (body : string) (k : A → M Machine control_reply) : M Machine control_reply :=
  match f body with Some req => k req | None => retM (writeError (Errorf "json")) end.
(** A call, and what is written for each outcome. *)
Definition answered {A} (c : M Machine A) (k : A → control_reply) : M Machine control_reply :=
  tryM c (λ r, retM match r with inl a => k a | inr e => writeError e end).
(** The same, with every connection rebuilt before the answer. *)
Definition refreshed {A} (env : TEnv) (c : M Machine A) (k : State → control_reply) : M Machine control_reply :=
  tryM c (λ r, match r with
               | inl _ => do* Refresh env in readState k
               | inr e => retM (writeError e)
               end).
Definition json (a : Answer) : control_reply := (StatusOK, a).
Definition nothing : control_reply := (StatusNoContent, ANothing).

Definition instanceRef (conn : Connection) : string :=
  if decide (cn_Name conn = "") then cn_InstanceID conn else cn_Name conn.
(** [instanceInfo], whose endpoint falls back to the identifier. *)
Definition instanceInfo (s : State) (id ref overlay sharedToken : string) : string * string * string * string :=
  let '(hubURL, hubPin) := hubAddress s in
  let ref := if decide (ref = "") then id else ref in
  (id, overlay, shorthandEndpoint hubURL ref sharedToken hubPin, hubURL +:+ "/v1/enroll/" +:+ id).

Definition status_entry (conn : Connection) : M Machine (list ConnectionStatus) :=
  let* d := getM in
  let* routes := tryM (onHub (hc_routes (cn_InstanceID conn))) (λ r,
    retM match r with inl table => tb_Routes table | inr _ => [] end) in
  let endpoint :=
    match OwnedOf (d_state d) (cn_InstanceID conn) with
    | Some owned => let '(hubURL, hubPin) := hubAddress (d_state d) in
                    shorthandEndpoint hubURL (instanceRef conn) (ow_SharedToken owned) hubPin
    | None => ""
    end in
  retM [{| cs_Instance := cn_Name conn; cs_InstanceID := cn_InstanceID conn; cs_Role := cn_Role conn;
           cs_Address := cn_Address conn; cs_Address6 := cn_Address6 conn; cs_Device := cn_Device conn;
           cs_Running := run_isRunning (d_run d) (cn_InstanceID conn); cs_Waiting := negb (Ready conn);
           cs_Routes := routes; cs_Endpoint := endpoint |}].
Definition handleStatus (env : TEnv) : M Machine control_reply :=
  let* s := readState id in
  let* entries := collectM status_entry (Connections (ρ_of (t_env env)) s) in
  let* pending := tryM (PendingAll env) (λ r, retM match r with inl l => l | inr _ => [] end) in
  retM (json (AStatus
    {| ds_Hub := dt_HubURL (st_data s); ds_Binder := dt_Binder (st_data s); ds_Name := dt_Name (st_data s);
       ds_Families := Families s; ds_Inbound := Inbound s; ds_Cheats := CheatsOn (ρ_of (t_env env)) s;
       ds_Version := VersionString; ds_Connections := entries; ds_Pending := pending |})).
Definition handleList : M Machine control_reply := answered ListInstances (λ l, json (AInstances l)).
Definition handleMembers (env : TEnv) : M Machine control_reply := answered (MembersAll env) (λ l, json (AMembers l)).
Definition handleReach (env : TEnv) : M Machine control_reply := answered (Reachable env) (λ l, json (AReach l)).
Definition handlePending (env : TEnv) : M Machine control_reply := answered (PendingAll env) (λ l, json (APending l)).
Definition handleShow (body : string) : M Machine control_reply :=
  decode_body read_connect body (λ q, answered (Show (cq_Instance q)) (λ i, json (AShown i))).
Definition handleConfig (env : TEnv) (body : string) : M Machine control_reply :=
  decode_body read_config body (λ q,
    answered (ConnectionConfig env (gq_Instance q) (gq_ShowKeys q)) (λ c, json (AConfig c.1 c.2))).

Definition created_answer (s : State) (created : CreateInstanceResponse) (sharedToken : string) : CreatedInstance :=
  let '(hubURL, hubPin) := hubAddress s in
  {| ci_id := cp_ID created; ci_name := cp_Name created; ci_overlay := cp_Overlay created;
     ci_endpoint := shorthandEndpoint hubURL (cp_Name created) sharedToken hubPin;
     ci_enroll_url := hubURL +:+ "/v1/enroll/" +:+ cp_ID created; ci_shared_token := sharedToken;
     ci_overlay6 := if IsValid (cp_Overlay6 created) then Some (cp_Overlay6 created) else None |}.
Definition handleCreate (env : TEnv) (body : string) : M Machine control_reply :=
  decode_body read_create body (λ q,
    tryM (Create env (eq_Name q) (eq_SharedToken q)) (λ r,
      match r with
      | inr e => retM (writeError e)
      | inl (created, sharedToken) => readState (λ s, json (ACreated (created_answer s created sharedToken)))
      end)).
Definition handleConnect (env : TEnv) (body : string) : M Machine control_reply :=
  decode_body read_connect body (λ q,
    refreshed env (Connect env (cq_Instance q)) (λ _, json (AConnected (cq_Instance q)))).
Definition handleDisconnect (env : TEnv) (body : string) : M Machine control_reply :=
  decode_body read_connect body (λ q, answered (Disconnect env (cq_Instance q)) (λ _, nothing)).
Definition handleApprove (env : TEnv) (body : string) : M Machine control_reply :=
  decode_body read_approve body (λ q,
    answered (ApproveRequest env (aq_ID q) (aq_Routes q) (aq_NoDomain q) (aq_Name q)) (λ e, json (AApproved e))).
Definition handleReject (env : TEnv) (body : string) : M Machine control_reply :=
  decode_body read_decision body (λ q, answered (RejectRequest env (dq_ID q) (dq_Reason q)) (λ _, nothing)).
Definition handleForget (env : TEnv) (body : string) : M Machine control_reply :=
  decode_body read_decision body (λ q, answered (ForgetRequest env (dq_ID q)) (λ _, nothing)).
Definition handleBan (env : TEnv) (body : string) : M Machine control_reply :=
  decode_body read_member body (λ q, answered (BanMember env q) (λ _, nothing)).
Definition handleUnban (env : TEnv) (body : string) : M Machine control_reply :=
  decode_body read_member body (λ q, answered (UnbanMember env q) (λ _, nothing)).
Definition handleRemoveMember (env : TEnv) (body : string) : M Machine control_reply :=
  decode_body read_member body (λ q, answered (RemoveMemberOf env q) (λ e, json (ARemoved e))).
Definition handleSetToken (env : TEnv) (body : string) : M Machine control_reply :=
  decode_body read_token body (λ q, answered (SetToken env (tq_Instance q) (tq_Token q)) (λ t, json (AToken t))).
Definition handleRestart : M Machine control_reply := retM (json (AVersion VersionString)).
Definition handleFamilies (env : TEnv) (body : string) : M Machine control_reply :=
  decode_body read_families body (λ q,
    refreshed env (onState (SetFamilies (t_env env) (fq_Families q))) (λ s, json (AFamilies (Families s)))).
Definition handleCheat (env : TEnv) (body : string) : M Machine control_reply :=
  decode_body read_cheat body (λ q,
    refreshed env (onState (SetCheat (t_env env) (hq_Vendor q) (hq_Name q) (hq_On q)))
      (λ s, json (ACheat (hq_Vendor q) (hq_Name q) (Cheat s (hq_Vendor q) (hq_Name q))))).
Definition handleDNSPlan (env : TEnv) (body : string) : M Machine control_reply :=
  decode_body read_dns body (λ q,
    match lookupMode (nq_Mode q) with
    | Ok _ => answered (DNSPlan env (nq_Remove q)) (λ l, json (APlan l))
    | Err e => retM (writeError e)
    | Panic => panic
    end).
Definition handleAlias (env : TEnv) (body : string) : M Machine control_reply :=
  decode_body read_alias body (λ q,
    tryM (SetAlias env (lq_Alias q) (lq_Canonical q)) (λ r,
      match r with inl _ => readState (λ s, json (AAliases (Aliases s))) | inr e => retM (writeError e) end)).
Definition handleInbound (env : TEnv) (body : string) : M Machine control_reply :=
  decode_body read_inbound body (λ q,
    refreshed env (onState (SetInbound (t_env env) (iq_Inbound q))) (λ s, json (AInbound (Inbound s)))).
Definition handleDelete (env : TEnv) (body : string) : M Machine control_reply :=
  decode_body read_delete body (λ q,
    answered (DeleteInstance env (xq_Instance q) (xq_Force q)) (λ r, json (ADeleted r))).

Definition handle_control (env : TEnv) (x : Control) (body : string) : M Machine control_reply :=
  match x with
  | XStatus => handleStatus env
  | XList => handleList
  | XMembers => handleMembers env
  | XReach => handleReach env
  | XShow => handleShow body
  | XConfig => handleConfig env body
  | XPending => handlePending env
  | XCreate => handleCreate env body
  | XConnect => handleConnect env body
  | XDisconnect => handleDisconnect env body
  | XApprove => handleApprove env body
  | XReject => handleReject env body
  | XForget => handleForget env body
  | XBan => handleBan env body
  | XUnban => handleUnban env body
  | XRemoveMember => handleRemoveMember env body
  | XSetToken => handleSetToken env body
  | XRestart => handleRestart
  | XFamilies => handleFamilies env body
  | XCheat => handleCheat env body
  | XDNSPlan => handleDNSPlan env body
  | XAlias => handleAlias env body
  | XInbound => handleInbound env body
  | XDelete => handleDelete env body
  end.
(** [logPeer] over the mux: a request to the socket. *)
Definition serve_control (env : TEnv) (method path body : string) : M Machine SocketReply :=
  match find_control Cheating method path with
  | Some x =>
      let* (status, a) := handle_control env x body in
      retM (mkSocketReply VersionString status a (match x with XRestart => true | _ => false end))
  | None =>
      let known := existsb (λ e, bool_decide (e.1.2 = path)) (control_mux Cheating) in
      retM (mkSocketReply VersionString (if known then StatusMethodNotAllowed else StatusNotFound) ANothing false)
  end.
End Socket.

(** ** The socket's file *)

Record SocketFile : Type := mkSocketFile { so_uid : Z; so_gid : Z; so_mode : Z }.
(** What opening it meets: who the daemon runs as and with which file mode
    creation mask, and the calls that fail. *)
Record SocketEnv : Type := mkSocketEnv {
  se_uid : Z;
  se_gid : Z;
  se_umask : Z;
  se_mkdir : option error;
  se_listen : option error;
  se_chown : option error;
  se_chmod : option error;
}.
Abbreviation sockets := (gmap string SocketFile).

(** [dirOf]: what is before the last slash. *)
Fixpoint last_slash (l : list ascii) : option (list ascii) :=
  match l with
  | [] => None
  | c :: l => match last_slash l with
              | Some p => Some (c :: p)
              | None => if decide (c = "/"%char) then Some [] else None
              end
  end.
Definition dirOf (path : string) : string := match last_slash (s2l path) with Some p => l2s p | None => "." end.

Definition faulty {S} (f : option error) : M S () := match f with Some e => raise e | None => retM () end.
Definition applySocketPermissions (env : SocketEnv) (s : State) (path : string) : M sockets () :=
  let uid := dt_OwnerUID (st_data s) in
  let gid := dt_OwnerGID (st_data s) in
  do* (if 0 <? uid then
         match se_chown env with
         | Some e => raise (Wrap "could not give %s to uid %d: %w" e)
         | None => modify (alter (λ f, mkSocketFile uid gid (so_mode f)) path)
         end
       else retM ()) in
  do* faulty (se_chmod env) in
  modify (alter (λ f, mkSocketFile (so_uid f) (so_gid f) 384) path).
(** [Daemon.Serve], up to its first request: a listener that cannot be handed
    over is closed, which removes its file. *)
Definition open_socket (env : SocketEnv) (s : State) (path : string) : M sockets () :=
  do* faulty (se_mkdir env) in
  do* modify (delete path) in
  do* match se_listen env with
      | Some e => raise (Wrap "could not listen on %s: %w" e)
      | None => modify (<[path := mkSocketFile (se_uid env) (se_gid env) (Z.ldiff 511 (se_umask env))]>)
      end in
  tryM (applySocketPermissions env s path) (λ r,
    match r with
    | inl _ => retM ()
    | inr e => do* modify (delete path) in raise e
    end).
(** Who may connect: root, or who may write to the file. *)
Definition may_connect (uid gid : Z) (f : SocketFile) : bool :=
  (uid =? 0) ||
  (if uid =? so_uid f then Z.testbit (so_mode f) 7
   else if gid =? so_gid f then Z.testbit (so_mode f) 4 else Z.testbit (so_mode f) 1).
