(* ===== verification/TenantSpec.v ===== *)
(** * What a machine keeps right

    The invariant of the machine's state, and that every operation of the
    daemon keeps it, whatever the hub answers and however operations
    interleave between two writes of the state; what survives a restart; what
    deciding, naming and leaving do. *)

From Stdlib Require Import Ascii.
From S2P Require Export DnsPlan.
From S2P Require Import DnsSpec.

Open Scope Z_scope.

(** ** Devices *)

Lemma pretty_Z_nonneg (a b : Z) : Itoa a = Itoa b → a = b.
Proof. unfold Itoa. apply (inj pretty.pretty). Qed.
Lemma device_inj i j : device i = device j → i = j.
Proof.
  unfold device. intros H. apply (f_equal s2l) in H. rewrite !s2l_app in H.
  apply app_inv_head in H. apply (inj s2l) in H. apply pretty_Z_nonneg in H. lia.
Qed.

Lemma free_device_spec taken n i :
  (∃ k, (i ≤ k < i + n)%nat ∧ free_device taken n i = device k ∧ (device k ∉ taken) ∧
        ∀ j, (i ≤ j < k)%nat → device j ∈ taken) ∨
  free_device taken n i = "robinet255" ∧ ∀ j, (i ≤ j < i + n)%nat → device j ∈ taken.
Proof.
  revert i. induction n as [|n IH]; intros i; simpl.
  { right. split; [done|]. intros j Hj. lia. }
  destruct (bool_decide_reflect (device i ∈ taken)) as [Hi|Hi].
  - destruct (IH (S i)) as [(k&Hk&E&Hf&Hl)|[E Hall]].
    + left. exists k. split_and!; [lia|lia|done..|]. intros j Hj.
      destruct (decide (j = i)) as [->|]; [done|]. apply Hl. lia.
    + right. split; [done|]. intros j Hj. destruct (decide (j = i)) as [->|]; [done|]. apply Hall. lia.
  - left. exists i. split_and!; [lia|lia|done..|]. intros j Hj. lia.
Qed.

Lemma elem_devices_of d x :
  x ∈ devices_of d ↔ ∃ id c, mget (dt_Connections d) !! id = Some c ∧ cn_Device c = x.
Proof.
  unfold devices_of. rewrite elem_of_list_to_set. rewrite list_elem_of_fmap. split.
  - intros (c&->&Hc). apply list_elem_of_fmap in Hc as ([id c']&->&Hc).
    apply elem_of_map_to_list in Hc. eauto.
  - intros (id&c&Hc&<-). exists c. split; [done|]. apply list_elem_of_fmap. exists (id, c).
    split; [done|]. by apply elem_of_map_to_list.
Qed.
Lemma list_to_set_size {A} `{Countable A} (l : list A) : (size (list_to_set l : gset A) ≤ length l)%nat.
Proof.
  induction l as [|x l IH]; [by rewrite list_to_set_nil, size_empty|].
  rewrite list_to_set_cons, size_union_alt, size_singleton. simpl.
  assert (size (list_to_set l ∖ {[x]} : gset A) ≤ size (list_to_set l : gset A))%nat; [|lia].
  apply subseteq_size. set_solver.
Qed.
Lemma devices_size d : (size (devices_of d) ≤ size (mget (dt_Connections d)))%nat.
Proof.
  unfold devices_of. etrans; [apply list_to_set_size|]. rewrite !length_fmap.
  by rewrite length_map_to_list.
Qed.
(** While there are fewer than 256 connections the next device is free, and
    the lowest that is. *)
Lemma nextDevice_fresh d :
  (size (mget (dt_Connections d)) < 256)%nat →
  ∃ k, (k < 256)%nat ∧ nextDevice d = device k ∧ (device k ∉ devices_of d) ∧
       ∀ j, (j < k)%nat → device j ∈ devices_of d.
Proof.
  intros Hs. unfold nextDevice.
  destruct (free_device_spec (devices_of d) 256 0) as [(k&Hk&E&Hf&Hl)|[_ Hall]].
  - exists k. split_and!; [lia|done..|]. intros j Hj. apply Hl. lia.
  - exfalso. pose proof (pigeon device (devices_of d) 0 256) as H.
    pose proof (devices_size d). cut (256 ≤ size (devices_of d))%nat; [lia|]. apply H.
    + intros i j _ _. apply device_inj.
    + intros i Hi. apply Hall. lia.
Qed.

(** ** The invariant *)

(** The maps are there, entries are filed under their ids, and no two
    connections run on one device. *)
Record data_ok (d : data) : Prop := {
  ok_Owned : is_Some (dt_Owned d);
  ok_Connections : is_Some (dt_Connections d);
  ok_ids : ∀ id c, mlookup (dt_Connections d) id = Some c → cn_InstanceID c = id;
  ok_devices : ∀ id id' c c', mlookup (dt_Connections d) id = Some c →
    mlookup (dt_Connections d) id' = Some c' → cn_Device c = cn_Device c' → id = id';
}.
Definition small (d : data) : Prop := (size (mget (dt_Connections d)) < 256)%nat.

(** The closures the daemon hands to [Write]. *)
Inductive data_op : M data () → Prop :=
  | op_register url identity binder name insecure pin owner uid gid :
      data_op (modify (set_registration url identity binder name insecure pin owner uid gid))
  | op_families f : data_op (modify (λ d, set_choices f (dt_Inbound d) (dt_Cheats d) (dt_Aliases d) d))
  | op_inbound v : data_op (modify (λ d, set_choices (dt_Families d) v (dt_Cheats d) (dt_Aliases d) d))
  | op_cheat vendor name on : data_op (cheat_fn vendor name on)
  | op_alias alias canonical : data_op (alias_fn alias canonical)
  | op_collect env id b : data_op (collect_fn env id b)
  | op_create env created name token caPEM caKey pub key cert a a6 :
      data_op (create_fn env created name token caPEM caKey pub key cert a a6)
  | op_connect (c : data → Connection) :
      (∀ d, cn_Device (c d) = nextDevice d) → data_op (λ d, put_connection (c d) d)
  | op_delete id : data_op (delete_fn id)
  | op_disconnect id : data_op (modify (λ s, set_Connections (mdelete (dt_Connections s) id) s))
  | op_token id token : data_op (token_fn id token).


Lemma data_ok_maps d d' :
  dt_Owned d' = dt_Owned d → dt_Connections d' = dt_Connections d → data_ok d → data_ok d'.
Proof. intros Ho Hc [H1 H2 H3 H4]. split; rewrite ?Ho, ?Hc; done. Qed.
Lemma data_ok_owned d o d' :
  is_Some o → dt_Owned d' = o → dt_Connections d' = dt_Connections d → data_ok d → data_ok d'.
Proof. intros Hs <- Hc [H1 H2 H3 H4]. split; rewrite ?Hc; done. Qed.
Lemma data_ok_delete d id :
  data_ok d → data_ok (set_Connections (mdelete (dt_Connections d) id) d).
Proof.
  intros [H1 H2 H3 H4]. destruct H2 as [m Hm]. rewrite Hm in *.
  split; unfold mlookup in *; simpl in *; rewrite ?Hm in *; simpl; [done|by eexists|..].
  - intros id' c [_ Hc]%lookup_delete_Some. by apply H3.
  - intros i i' c c' [_ Hc]%lookup_delete_Some [_ Hc']%lookup_delete_Some. by apply H4.
Qed.
(** Filing a connection under its id, on the next device. *)
Lemma data_ok_put d c :
  data_ok d → small d → cn_Device c = nextDevice d →
  ∃ d', put_connection c d = (Ok (), d') ∧ data_ok d' ∧
        dt_Connections d' = Some (<[cn_InstanceID c := c]> (mget (dt_Connections d))) ∧
        dt_Owned d' = dt_Owned d.
Proof.
  intros [H1 H2 H3 H4] Hs Hd. destruct H2 as [m Hm]. unfold put_connection, assignD. rewrite Hm. simpl.
  eexists. split; [done|]. unfold mlookup in *. rewrite Hm in *. simpl in *.
  destruct (nextDevice_fresh d Hs) as (k&Hk&E&Hf&_). rewrite elem_devices_of in Hf. rewrite Hm in Hf. simpl in Hf.
  assert (∀ i c', m !! i = Some c' → cn_Device c' ≠ cn_Device c) as Hfresh.
  { intros i c' Hc' E'. apply Hf. exists i, c'. split; [done|]. by rewrite E', Hd, E. }
  split; [|done]. split; unfold mlookup; simpl; [done|by eexists|..].
  - intros id c' [[<- <-]|[Hne Hc]]%lookup_insert_Some; [done|]. by apply H3.
  - intros i i' c1 c2 [[<- <-]|[Hne Hc]]%lookup_insert_Some [[<- <-]|[Hne' Hc']]%lookup_insert_Some E'; [done|..].
    + by destruct (Hfresh _ _ Hc').
    + by destruct (Hfresh _ _ Hc).
    + by eapply H4.
Qed.

Lemma data_op_ok fn d : data_op fn → data_ok d → small d → data_ok (fn d).2.
Proof.
  intros Hop Hok Hs. destruct Hop.
  - by apply (data_ok_maps d).
  - by apply (data_ok_maps d).
  - by apply (data_ok_maps d).
  - unfold cheat_fn. destruct on; simpl; [|by apply (data_ok_maps d)].
    unfold bindM, assignD; simpl. by apply (data_ok_maps d).
  - unfold alias_fn. destruct (decide (canonical = "")); simpl; [by apply (data_ok_maps d)|].
    unfold bindM, assignD; simpl. by apply (data_ok_maps d).
  - unfold collect_fn. rewrite bind_get. destruct (mlookup (dt_Connections d) id) as [c|] eqn:Hc; [|done].
    destruct Hok as [H1 H2 H3 H4]. destruct H2 as [m Hm]. unfold mlookup in *. rewrite Hm in *. simpl in *.
    split; simpl; unfold mlookup; rewrite ?Hm; simpl; [done|by eexists|..].
    + intros i c' [[<- <-]|[Hne Hc']]%lookup_insert_Some; [by apply (H3 _ c)|]. by apply H3.
    + intros i i' c1 c2 [[<- <-]|[Hne Hc']]%lookup_insert_Some [[<- <-]|[Hne' Hc'']]%lookup_insert_Some E; [done|..];
        simpl in E; eapply H4; done.
  - unfold create_fn. destruct Hok as [H1 H2 H3 H4]. destruct H1 as [o Ho].
    assert (∃ d1, assignD dt_Owned set_Owned (cp_ID created) (mkOwned (cp_ID created) name caPEM caKey token) d
            = (Ok (), d1) ∧ data_ok d1 ∧ small d1) as (d1&E&Hok1&Hs1).
    { unfold assignD. rewrite Ho. simpl. eexists. split_and!; [done|split; simpl; [by eexists|done..]|done]. }
    erewrite bind_run by exact E. rewrite bind_get.
    edestruct (data_ok_put d1) as (d2&->&H&_); [done|done|done|]. done.
  - destruct (data_ok_put d (c d)) as (d2&->&Hok2&_); done.
  - apply (data_ok_delete (set_Owned (mdelete (dt_Owned d) id) d)).
    destruct Hok as [H1 H2 H3 H4]. split; simpl; [|done..]. destruct H1 as [o ->]. by eexists.
  - by apply data_ok_delete.
  - simpl. destruct (mlookup (dt_Owned d) id) as [o|] eqn:Ho; [|done]. destruct (dt_Owned d) as [m|] eqn:Hm; [|done]. apply (data_ok_owned d (Some (<[id := mkOwned (ow_InstanceID o) (ow_Name o) (ow_CACert o) (ow_CAKey o) token]> m))); [by eexists|done..].
Qed.

(** ** Runs *)

(** The states a machine goes through: each write of the state, by any
    operation and whatever happened in between, and starting again from the
    file.  The list holds what the memory held after each. *)
Inductive trace : list data → State → Prop :=
  | trace_open : trace [] (OpenState None)
  | trace_write t s env fn :
      trace t s → data_op fn → trace (st_data (Write env fn s).2 :: t) (Write env fn s).2
  | trace_restart t s : trace t s → trace t (OpenState (st_file s)).

Lemma Write_data env fn s : st_data (Write env fn s).2 = (fn (st_data s)).2.
Proof.
  unfold Write. destruct (fn (st_data s)) as [[[]|e|] d]; simpl; [|done..].
  unfold save_state. by destruct (save_fault env).
Qed.
Lemma Write_file env fn s :
  st_file (Write env fn s).2 = st_file s ∨ st_file (Write env fn s).2 = Some (fn (st_data s)).2.
Proof.
  unfold Write. destruct (fn (st_data s)) as [[[]|e|] d]; simpl; [|by left..].
  unfold save_state. destruct (save_fault env); [by left|by right].
Qed.
Lemma OpenState_ok f : data_ok f → data_ok (st_data (OpenState (Some f))).
Proof.
  intros [H1 H2 H3 H4]. unfold mlookup in *.
  split; simpl; [by eexists..| |]; unfold mlookup; simpl; rewrite mget_omitempty; done.
Qed.
Lemma OpenState_small f : small f → small (st_data (OpenState (Some f))).
Proof. unfold small. simpl. by rewrite mget_omitempty. Qed.
Lemma data_ok_empty : data_ok (st_data (OpenState None)).
Proof. split; simpl; [by eexists..| |]; unfold mlookup; simpl; intros *; by rewrite lookup_empty. Qed.

Lemma trace_ok t s :
  trace t s → Forall small t →
  data_ok (st_data s) ∧ small (st_data s) ∧ ∀ f, st_file s = Some f → data_ok f ∧ small f.
Proof.
  induction 1 as [|t s env fn Ht IH Hop|t s Ht IH]; intros Hsm.
  - split_and!; [apply data_ok_empty|unfold small; simpl; rewrite map_size_empty; lia|done].
  - apply Forall_cons_1 in Hsm as [Hnew Hsm]. destruct (IH Hsm) as (Hok&Hs&Hf).
    assert (data_ok (st_data (Write env fn s).2)) as Hok'.
    { rewrite Write_data. by apply data_op_ok. }
    split_and!; [done..|]. intros f E. destruct (Write_file env fn s) as [E'|E']; rewrite E' in E; [by apply Hf|].
    injection E as <-. by rewrite <-Write_data with (env := env).
  - destruct (IH Hsm) as (Hok&Hs&Hf). destruct (st_file s) as [f|].
    + destruct (Hf f eq_refl). split_and!; [by apply OpenState_ok|by apply OpenState_small|].
      intros f' [= <-]. done.
    + split_and!; [apply data_ok_empty|unfold small; simpl; rewrite map_size_empty; lia|done].
Qed.

(** ** Every operation only writes *)

(** A property of the world behind the client that every call keeps, whatever
    it answers. *)
Record hub_keeps {W} `{HW : HubClient W} (K : W → Prop) : Prop := {
  hk_createInstance : ∀ name token, preserves K (hc_createInstance name token);
  hk_instances : preserves K hc_instances;
  hk_activate : ∀ id ca cert, preserves K (hc_activate id ca cert);
  hk_pending : ∀ id, preserves K (hc_pending id);
  hk_decide : ∀ id rid d, preserves K (hc_decide id rid d);
  hk_forget : ∀ id rid, preserves K (hc_forget id rid);
  hk_ban : ∀ id m note, preserves K (hc_ban id m note);
  hk_unban : ∀ id m note, preserves K (hc_unban id m note);
  hk_setToken : ∀ id token, preserves K (hc_setToken id token);
  hk_join : ∀ id name key, preserves K (hc_join id name key);
  hk_joinResult : ∀ id, preserves K (hc_joinResult id);
  hk_deleteInstance : ∀ id, preserves K (hc_deleteInstance id);
  hk_removeMember : ∀ id m, preserves K (hc_removeMember id m);
  hk_members : ∀ id, preserves K (hc_members id);
  hk_routes : ∀ id, preserves K (hc_routes id);
}.
Lemma hub_keeps_True {W} `{HW : HubClient W} : hub_keeps (λ _ : W, True).
Proof. by split. Qed.

Create HintDb tenant discriminated.
Section Driven.
Context {W : Type} `{HW : HubClient W} `{HL : CertLib} `{HB : Build} `{HU : Urls}.
Abbreviation Machine := (Daemon W).

Context (I : State → Prop).
Context (HI : ∀ env fn s, data_op fn → I s → I (Write env fn s).2).
(** And what is to hold of the nebulas that run. *)
Context (J : runners → Prop).
Context (Jstart : ∀ env conn table local, preserves J (run_start env conn table local)).
Context (Jreload : ∀ env conn table local, preserves J (run_reload env conn table local)).
Context (Jstop : ∀ id, preserves J (run_stop id)).
Context (Jnone : J ∅).
(** And of the hub behind the client. *)
Context (K : W → Prop) (HK : hub_keeps K).
Let P (d : Machine) : Prop := I (d_state d) ∧ J (d_run d) ∧ K (d_world d).

Lemma keeps_tryM {A B} (c : M Machine A) (k : A + error → M Machine B) :
  preserves P c → (∀ r, preserves P (k r)) → preserves P (tryM c k).
Proof.
  intros Hc Hk d Hd. unfold tryM. specialize (Hc d Hd). destruct (c d) as [[a|e|] d']; simpl in *; [..|done].
  - by apply (Hk (inl a)).
  - by apply (Hk (inr e)).
Qed.
Lemma keeps_logged (c : M Machine ()) : preserves P c → preserves P (logged c).
Proof. intros Hc. apply keeps_tryM; [done|]. intros r. apply preserves_ret. Qed.
Lemma keeps_eachM {A} (f : A → M Machine ()) l : (∀ x, preserves P (f x)) → preserves P (eachM f l).
Proof. intros Hf. induction l; simpl; auto with go. Qed.
Lemma keeps_collectM {A B} (f : A → M Machine (list B)) l : (∀ x, preserves P (f x)) → preserves P (collectM f l).
Proof. intros Hf. induction l; simpl; auto with go. Qed.
Lemma keeps_onHub {A} (c : M W A) : preserves K c → preserves P (onHub c).
Proof. intros Hc d (Hd & Hj & Hk). unfold onHub. specialize (Hc _ Hk). by destruct (c (d_world d)). Qed.
Lemma keeps_onRun {A} (c : M runners A) : preserves J c → preserves P (onRun c).
Proof. intros Hc d (Hd & Hj & Hk). unfold onRun. specialize (Hc _ Hj). by destruct (c (d_run d)). Qed.
Lemma keeps_stopAll : preserves P (onRun run_stopAll).
Proof. apply keeps_onRun. by intros r _. Qed.
Lemma keeps_onRouters {A} (c : M routers A) : preserves P (onRouters c).
Proof. intros d Hd. unfold onRouters. by destruct (c (d_routers d)). Qed.
Lemma keeps_readState {A} (f : State → A) : preserves P (readState f).
Proof. by intros d Hd. Qed.
Lemma keeps_liftR {A} (r : res A) : preserves P (liftR r).
Proof. by intros d Hd. Qed.
Lemma keeps_write env fn : data_op fn → preserves P (onState (Write env fn)).
Proof.
  intros Hop d (Hd & Hj & Hk). unfold onState. pose proof (HI env fn (d_state d) Hop Hd) as H.
  by destruct (Write env fn (d_state d)).
Qed.
(** A step that leaves the daemon alone. *)
Lemma keeps_pure {A} (c : M Machine A) : (∀ d, (c d).2 = d) → preserves P c.
Proof. intros Hc d Hd. by rewrite Hc. Qed.

(** Follows the shape of an operation down to its writes and to the operations
    it calls. *)
Ltac keeps :=
  repeat match goal with
  | |- preserves _ (retM _) => apply preserves_ret
  | |- preserves _ (raise _) => apply preserves_raise
  | |- preserves _ (guard _ _) => apply preserves_guard
  | |- preserves _ getM => apply preserves_get
  | |- preserves _ (liftR _) => apply keeps_liftR
  | |- preserves _ (readState _) => apply keeps_readState
  | |- preserves _ (onHub _) => apply keeps_onHub; first [apply HK | auto with tenant]
  | |- preserves _ (onRun (run_start _ _ _ _)) => apply keeps_onRun, Jstart
  | |- preserves _ (onRun (run_reload _ _ _ _)) => apply keeps_onRun, Jreload
  | |- preserves _ (onRun (run_stop _)) => apply keeps_onRun, Jstop
  | |- preserves _ (onRun run_stopAll) => apply keeps_stopAll
  | |- preserves _ (onRouters _) => apply keeps_onRouters
  | |- preserves _ (onState (Write _ _)) => apply keeps_write; constructor
  | |- preserves _ (bindM _ _) => apply preserves_bind
  | |- preserves _ (tryM _ _) => apply keeps_tryM
  | |- preserves _ (logged _) => apply keeps_logged
  | |- preserves _ (eachM _ _) => apply keeps_eachM
  | |- preserves _ (collectM _ _) => apply keeps_collectM
  | |- preserves _ (match ?x with _ => _ end) => destruct x
  | |- preserves _ (let '(_, _) := ?x in _) => destruct x
  | |- ∀ _, _ => intros ?
  end; eauto with tenant.

Lemma keeps_held conn running held others : preserves P (held_by_others conn running held others).
Proof. revert held. induction others as [|o others IH]; intros held; simpl; keeps. Qed.
Hint Resolve keeps_held : tenant.
Lemma keeps_startConnection env conn table : preserves P (startConnection env conn table).
Proof. unfold startConnection. keeps. Qed.
Lemma keeps_collect env conn : preserves P (collect env conn).
Proof. unfold collect. keeps. Qed.
Hint Resolve keeps_startConnection keeps_collect : tenant.
Lemma keeps_Refresh env : preserves P (Refresh env).
Proof. unfold Refresh, refresh_one. keeps. Qed.
Lemma keeps_resolveInstance wanted : preserves P (resolveInstance wanted).
Proof. unfold resolveInstance. keeps. Qed.
Hint Resolve keeps_resolveInstance : tenant.
Lemma keeps_Create env name token : preserves P (Create env name token).
Proof. unfold Create. keeps. apply keeps_pure. intros d. by destruct (SignHost _ _ _). Qed.
Lemma keeps_rejoinOwn env inst owned : preserves P (rejoinOwn env inst owned).
Proof. unfold rejoinOwn. keeps. Qed.
Hint Resolve keeps_rejoinOwn : tenant.
Lemma keeps_Connect env wanted : preserves P (Connect env wanted).
Proof. unfold Connect. keeps. Qed.
Lemma keeps_Delete env wanted force : preserves P (DeleteInstance env wanted force).
Proof. unfold DeleteInstance. keeps. Qed.
Lemma keeps_Disconnect env ref : preserves P (Disconnect env ref).
Proof. unfold Disconnect. keeps. Qed.
Lemma keeps_SetToken env ref token : preserves P (SetToken env ref token).
Proof. unfold SetToken. keeps. Qed.
Lemma keeps_findPending env rid : preserves P (findPending env rid).
Proof. unfold findPending, PendingAll. keeps. Qed.
Hint Resolve keeps_findPending : tenant.
Lemma keeps_Approve env rid routes nodomain wanted : preserves P (ApproveRequest env rid routes nodomain wanted).
Proof. unfold ApproveRequest. keeps. apply keeps_pure. intros d. by destruct (SignHost _ _ _). Qed.
Lemma keeps_Reject env rid reason : preserves P (RejectRequest env rid reason).
Proof. unfold RejectRequest. keeps. Qed.
Lemma keeps_Forget env rid : preserves P (ForgetRequest env rid).
Proof. unfold ForgetRequest. keeps. Qed.
Lemma keeps_find_members ref instance found unread l : preserves P (find_members ref instance found unread l).
Proof. revert found unread. induction l as [|o l IH]; intros found unread; simpl; keeps. Qed.
Hint Resolve keeps_find_members : tenant.
Lemma keeps_findMember env ref instance : preserves P (findMember env ref instance).
Proof. unfold findMember. keeps. Qed.
Hint Resolve keeps_findMember : tenant.
Lemma keeps_known target conns : preserves P (known_target target conns).
Proof. induction conns as [|c conns IH]; simpl; keeps. Qed.
Hint Resolve keeps_known : tenant.
Lemma keeps_SetAlias env alias canonical : preserves P (SetAlias env alias canonical).
Proof. unfold SetAlias, SetAliasState. keeps. Qed.
Lemma keeps_DNSPlan env remove : preserves P (DNSPlan env remove).
Proof. unfold DNSPlan, plan_entry. keeps. Qed.
Lemma keeps_choice (c : M State ()) :
  (∀ s, I s → I (c s).2) → preserves P (onState c).
Proof. intros Hc d (Hd & Hj & Hk). unfold onState. pose proof (Hc _ Hd). by destruct (c (d_state d)). Qed.

(** What the daemon is asked to do. *)
Inductive DOp : Type :=
  | DRefresh | DCreate (name token : string) | DConnect (wanted : string)
  | DDelete (wanted : string) (force : bool) | DDisconnect (ref : string) | DSetToken (ref token : string)
  | DApprove (rid : string) (routes : option (list Prefix)) (noDomain : bool) (wanted : string)
  | DReject (rid reason : string) | DForget (rid : string) | DBan (req : MemberRef) | DUnban (req : MemberRef)
  | DRemove (req : MemberRef) | DFamilies (f : string) | DInbound (v : string)
  | DCheat (vendor name : string) (on : bool) | DAlias (alias canonical : string) | DPlan (remove : bool) | DStop.
Definition ignored {S A} (c : M S A) : M S () := do* c in retM ().
Definition run_dop (env : TEnv) (op : DOp) : M Machine () :=
  match op with
  | DRefresh => Refresh env
  | DCreate name token => ignored (Create env name token)
  | DConnect wanted => Connect env wanted
  | DDelete wanted force => ignored (DeleteInstance env wanted force)
  | DDisconnect ref => Disconnect env ref
  | DSetToken ref token => ignored (SetToken env ref token)
  | DApprove rid routes noDomain wanted => ignored (ApproveRequest env rid routes noDomain wanted)
  | DReject rid reason => RejectRequest env rid reason
  | DForget rid => ForgetRequest env rid
  | DBan req => BanMember env req
  | DUnban req => UnbanMember env req
  | DRemove req => ignored (RemoveMemberOf env req)
  | DFamilies f => onState (SetFamilies (t_env env) f)
  | DInbound v => onState (SetInbound (t_env env) v)
  | DCheat vendor name on => onState (SetCheat (t_env env) vendor name on)
  | DAlias alias canonical => SetAlias env alias canonical
  | DPlan remove => ignored (DNSPlan env remove)
  | DStop => StopDaemon
  end.
Hint Resolve keeps_Refresh keeps_Create keeps_Connect keeps_Delete keeps_Disconnect keeps_SetToken
  keeps_Approve keeps_Reject keeps_Forget keeps_SetAlias keeps_DNSPlan : tenant.

Lemma keeps_dop env op : preserves P (run_dop env op).
Proof.
  destruct op; simpl; unfold ignored, BanMember, UnbanMember, RemoveMemberOf, StopDaemon; keeps;
    apply keeps_choice; intros s Hs; unfold SetFamilies, SetInbound, SetCheat; destruct (negb _); try done;
    apply HI; try done.
  - apply op_families.
  - apply op_inbound.
  - apply op_cheat.
Qed.
End Driven.

(** ** No two connections on one device *)

Lemma full_clashes dt c dt' :
  (∀ i, (i < 256)%nat → device i ∈ devices_of dt) →
  mlookup (dt_Connections dt) (cn_InstanceID c) = None → cn_Device c = nextDevice dt →
  put_connection c dt = (Ok (), dt') → cn_Device c = "robinet255" ∧ ¬ data_ok dt'.
Proof.
  intros Hfull Hnew Hc Hput.
  assert (cn_Device c = "robinet255") as E.
  { rewrite Hc. unfold nextDevice. destruct (free_device_spec (devices_of dt) 256 0) as [(k&Hk&_&Hf&_)|[? _]]; [|done].
    destruct Hf. apply Hfull. lia. }
  split; [done|]. intros Hok.
  assert (device 255 ∈ devices_of dt) as (id&c'&Hid&Hdev)%elem_devices_of by (apply Hfull; lia).
  unfold put_connection, assignD in Hput. destruct (dt_Connections dt) as [m|] eqn:Em; [|done].
  unfold mlookup in Hnew. simpl in Hput, Hnew, Hid. injection Hput as <-.
  assert (id ≠ cn_InstanceID c) as Hne by (intros ->; congruence).
  apply Hne, (ok_devices _ Hok _ _ c' c); unfold mlookup; simpl.
  - by rewrite lookup_insert_ne.
  - by rewrite lookup_insert_eq.
  - by rewrite E, Hdev.
Qed.

(** C29: whatever the daemon of a machine is asked to do, whatever the hub
    answers and whichever errors are met on the way, it only goes through
    writes of the state that [trace] describes.  And as long as no state along
    the trace has 256 connections or more, every connection is filed under the
    id of its instance and no two run on one device, in memory and in the
    file, also after the daemon was started again.  The bound is needed: where
    the 256 devices are all taken, a further connection is given one of them,
    and two run on it. *)
Theorem devices_distinct {W : Type} `{HW : HubClient W} `{HL : CertLib} `{HB : Build} `{HU : Urls} :
  (∀ env op (d : Daemon W) t, trace t (d_state d) →
     ∃ l, trace (l ++ t) (d_state (run_dop env op d).2)) ∧
  (∀ t s, trace t s → Forall small t →
     data_ok (st_data s) ∧ ∀ f, st_file s = Some f → data_ok f) ∧
  (∀ dt c dt', (∀ i, (i < 256)%nat → device i ∈ devices_of dt) →
     mlookup (dt_Connections dt) (cn_InstanceID c) = None → cn_Device c = nextDevice dt →
     put_connection c dt = (Ok (), dt') → cn_Device c = "robinet255" ∧ ¬ data_ok dt').
Proof.
  split_and!.
  - intros env op d t Ht.
    assert (∀ env fn s, data_op fn → (∃ l, trace (l ++ t) s) → ∃ l, trace (l ++ t) (Write env fn s).2) as HI.
    { intros env' fn s Hop [l Hl]. eexists (_ :: l). by apply trace_write. }
    by apply (keeps_dop (λ s, ∃ l, trace (l ++ t) s) HI (λ _, True)) with (K := λ _, True);
      [..|apply hub_keeps_True|split; [exists []|]].
  - intros t s Ht Hs. destruct (trace_ok t s Ht Hs) as (H&_&Hf). split; [done|].
    intros f E. by apply Hf.
  - intros dt c dt' Hfull Hnew Hc. apply full_clashes; done.
Qed.
