(* ===== verification/WireSpec.v ===== *)
(** * What holds of a machine and its hub together

    A machine that works through [Client] over the network of [Wire], while
    others talk to the hub: what its operations do to the hub, and how it
    registers. *)

From Stdlib Require Import Ascii.
From S2P Require Export Wire TenantSpec.

Open Scope Z_scope.

Section Together.
Context `{HC : Crypto} `{HE : Ed25519} `{HS : SshLib} `{HJ : Json} `{HV : ServerJson}.
Context `{HP : UrlParser} `{HCJ : ClientJson}.
Context (wx : Weather).
#[local] Instance weather_Transport : Transport Net := net_Transport wx.

(** ** The hub stays one that can be reached *)

Section Reach.
Context (cfg : Config) (Hcfg : config_ok cfg).
(** Identifiers are drawn that are not in use. *)
Definition draws_fresh : Prop :=
  (∀ k s, fresh_id (wx_env wx k s) (a_hub s)) ∧
  (∀ k o, o ∈ wx_others wx k → ∀ s, fresh_id (o.1.1 s) (a_hub s)).
Context (Hfresh : draws_fresh).

Definition hub_fine (w : Net) : Prop := reachable cfg (a_hub (n_api w)) ∧ ids_ok (a_hub (n_api w)).
Lemma served_fine env r path s :
  reachable cfg (a_hub s) ∧ ids_ok (a_hub s) → fresh_id env (a_hub s) →
  let s' := (HubHandler env r path s).2 in reachable cfg (a_hub s') ∧ ids_ok (a_hub s').
Proof. intros [Hr Hi] Hf. by destruct (api_step cfg env r path s Hcfg Hr Hi Hf) as (_&?&?&_). Qed.
Lemma others_fine k s :
  reachable cfg (a_hub s) ∧ ids_ok (a_hub s) →
  let s' := foldl serve_other s (wx_others wx k) in reachable cfg (a_hub s') ∧ ids_ok (a_hub s').
Proof.
  pose proof (proj2 Hfresh k) as Hf. revert s Hf. induction (wx_others wx k) as [|o l IH]; intros s Hf H; [done|].
  simpl. apply IH; [intros o' Ho'; apply Hf; by right|]. apply served_fine; [done|]. apply Hf. left.
Qed.
Lemma net_Do_fine v u r : preserves hub_fine (net_Do wx v u r).
Proof.
  intros w Hw. unfold net_Do. pose proof (others_fine (n_tick w) _ Hw) as Ho. cbv zeta in Ho.
  destruct (negb (trusted wx v u)); [exact Ho|].
  destruct (wx_fate wx (n_tick w)); [|exact Ho|]; apply served_fine; try exact Ho; apply Hfresh.
Qed.
Lemma do_request_fine c method path raw : preserves hub_fine (do_request c method path raw).
Proof.
  unfold do_request. apply preserves_bind; [by intros w Hw|intros [u req]]. apply preserves_bind; [apply preserves_get|intros w].
  cbv zeta. apply preserves_bind; [apply net_Do_fine|]. intros resp.
  destruct (300 <=? rs_StatusCode resp); [apply preserves_raise|apply preserves_ret].
Qed.
Lemma do_only_fine c method path raw : preserves hub_fine (do_only c method path raw).
Proof. apply preserves_bind; [apply do_request_fine|intros ?; apply preserves_ret]. Qed.
Lemma do_into_fine {A} (f : string → option A) c method path raw : preserves hub_fine (do_into f c method path raw).
Proof.
  apply preserves_bind; [apply do_request_fine|intros resp].
  destruct (f (rs_Body resp)); [apply preserves_ret|apply preserves_raise].
Qed.
Lemma client_keeps_hub c : hub_keeps (HW := http_HubClient c) hub_fine.
Proof. split; intros; first [apply do_only_fine|apply do_into_fine]. Qed.
End Reach.

(** C13: a machine and its hub, over a network that loses requests and answers,
    while others talk to the same hub: whatever the machine is asked to do,
    and whatever becomes of its calls, the hub only goes along its own
    operations.  It stays in a state it can reach, so addresses stay unique
    and removed keys stay out whoever calls, and every registration stays
    filed under its own key; and the machine's state stays one its own writes
    lead to. *)
Theorem machine_drives_the_hub `{HL : CertLib} `{HB : Build} (cfg : Config) (c : hubClient)
    (ops : list (TEnv * DOp)) (d d' : Daemon Net) (t : list data) :
  config_ok cfg → draws_fresh →
  reachable cfg (a_hub (n_api (d_world d))) → ids_ok (a_hub (n_api (d_world d))) → trace t (d_state d) →
  d' = foldl (λ d eo, (run_dop (HW := http_HubClient c) eo.1 eo.2 d).2) d ops →
  reachable cfg (a_hub (n_api (d_world d'))) ∧ ids_ok (a_hub (n_api (d_world d'))) ∧
  ∃ l, trace (l ++ t) (d_state d').
Proof.
  intros Hcfg Hf Hr Hi Ht ->.
  assert (∀ env fn s, data_op fn → (∃ l, trace (l ++ t) s) → ∃ l, trace (l ++ t) (Write env fn s).2) as HI.
  { intros env fn s Hop [l Hl]. eexists (_ :: l). by apply trace_write. }
  assert ((∃ l, trace (l ++ t) (d_state d)) ∧ True ∧ hub_fine cfg (d_world d)) as H by (split_and!; [by exists []|done..]).
  clear Hr Hi Ht. revert d H. induction ops as [|[env op] ops IH]; intros d H; [by destruct H as (?&_&?&?)|]. simpl. apply IH.
  apply (keeps_dop (HW := http_HubClient c) (λ s, ∃ l, trace (l ++ t) s) HI (λ _, True)) with (K := hub_fine cfg);
    [done..|by apply client_keeps_hub|exact H].
Qed.

(** ** Registering *)

(** The attempts a source has used up in its window. *)
Definition used (rl : rateLimiter) (key : string) : Z := match rl_buckets rl !! key with Some b => bk_count b | None => 0 end.
Lemma allow_room now key rl :
  0 ≤ used rl key → used rl key + 1 ≤ rl_limit rl →
  ∃ rl', allow now key rl = (true, rl') ∧ 0 ≤ used rl' key ≤ used rl key + 1 ∧ rl_limit rl' = rl_limit rl.
Proof.
  unfold used, allow. intros H0 Hl. destruct (rl_buckets rl !! key) as [b|].
  - destruct (bk_reset b <? now); eexists; (split; [by rewrite ?(proj2 (Z.leb_le _ _)) by lia|]);
      simpl; rewrite lookup_insert_eq; simpl; lia.
  - eexists. split; [done|]. simpl. rewrite lookup_insert_eq. simpl. lia.
Qed.

Context `{HW : !SshWriter} `{HA : !SshAgent} `{HK : !KeyFiles} `{HO : Os} `{HX : X509}.
Context (opts : JoinOptions) (signing : SigningOptions) (identity : Identity_) (host : string) (signers : list Signer).
Context (check : Verification).

Definition my_source : string := sourceAddr (set_remote wx (mkHttp "" "" "" ∅ ∅ "" "")).
Definition my_id : string := PublicIdentity (ed_public (private identity)).
Definition my_bootstrap : Bootstrap := mkBootstrap host (jo_Token opts) (jo_Name opts) my_id.
(** The setting: the hub is where the url says and is accepted, nobody else is
    calling, the two share the token, and every key the machine holds works. *)
Record registering (cfg : Config) : Prop := {
  rg_base : base_url (TrimRight (jo_HubURL opts) "/") host;
  rg_host : host ≠ "";
  rg_signers : bootstrapSigners signing = Ok signers;
  rg_check : httpClient (jo_Insecure opts) (jo_Pin opts) = Ok check;
  rg_trusted : ∀ u, trusted wx check u = true;
  rg_alone : ∀ k, wx_others wx k = [];
  rg_fate : ∀ k, wx_fate wx k = Delivered;
  rg_token : jo_Token opts = c_Token cfg;
  rg_name : TrimSpace (jo_Name opts) ≠ "";
  rg_sound : ∀ s, s ∈ signers → sound_signer s ∧ ∃ a, SignBootstrap my_bootstrap s = Ok a;
  rg_json : ∀ s a, s ∈ signers → SignBootstrap my_bootstrap s = Ok a →
    let q := mkRegisterRequest (jo_Name opts) my_id a in
    carried (Some (Marshal_register q)) ∧ decode_register (Marshal_register q) = Some q;
}.
(** The key is one of the hub's binders'. *)
Definition known (cfg : Config) (s : Signer) : Prop := ∃ name keys, c_Binders cfg !! name = Some keys ∧ sn_PublicKey s ∈ keys.
Lemma known_AllKeys ρ cfg s : sn_PublicKey s ∈ AllKeys ρ (c_Binders cfg) ↔ known cfg s.
Proof.
  unfold AllKeys, known. rewrite list_elem_of_bind. split.
  - intros ([name keys] & Hk & Hin%elem_of_range). eauto.
  - intros (name & keys & Hb & Hk). exists (name, keys). split; [done|]. by apply elem_of_range.
Qed.

(** The limiter has room for [n] more attempts of this machine. *)
Definition room (n : nat) (s : Api) : Prop :=
  0 ≤ used (a_rl s) my_source ∧ used (a_rl s) my_source + Z.of_nat n ≤ rl_limit (a_rl s).
(** The registration a key stands for. *)
Definition registration_of (ρ : Range) (cfg : Config) (s : Signer) : Registration :=
  mkRegistration my_id (default "" (Match ρ (c_Binders cfg) (sn_PublicKey s))) (jo_Name opts)
    (AuthorizedKey (sn_PublicKey s)) TimeZero TimeZero.
Definition register_url : Url := mkUrl "https" host "/v1/register" ["v1"; "register"] ∅.

(** What an attempt sends. *)
Definition attempt (a : string) : HttpRequest :=
  set_remote wx (Header_Set ContentType "application/json"
    (mkHttp host MethodPost "/v1/register" ∅ ∅ (Marshal_register (mkRegisterRequest (jo_Name opts) my_id a)) "")).

(** One attempt, as the hub answers it. *)
Lemma attempt_served cfg s a st n env :
  registering cfg → s ∈ signers → SignBootstrap my_bootstrap s = Ok a → h_cfg (a_hub st) = cfg → room (S n) st →
  ∃ rl', room n (set_rl rl' st) ∧
  HubHandler env (attempt a) ["v1"; "register"] st =
    (if decide (known cfg s) then
       call (run_op env (OpRegister (registration_of (ρ_of env) cfg s))) (λ res,
         match res with
         | Err e => writeError StatusInternalServerError "error" e
         | _ => Reply StatusCreated (PRegistered (mkRegisterResponse my_id (g_Binder (registration_of (ρ_of env) cfg s))
                                                    (AuthorizedKey (sn_PublicKey s))))
         end)
     else reply (writeError StatusUnauthorized "unauthorized" (Errorf "registration rejected"))) (set_rl rl' st).
Proof.
  intros Hrg Hin Ha Hcfg [H0 Hroom].
  destruct (rg_json cfg Hrg s a Hin Ha) as [Hcar Hdec]. destruct (rg_sound cfg Hrg s Hin) as [Hsound _].
  destruct (allow_room (now env) my_source (a_rl st) H0) as (rl'&Hal&Hu&Hl); [lia|].
  exists rl'. split; [unfold room; simpl; lia|].
  change (HubHandler env (attempt a) ["v1"; "register"] st) with (handleRegister env (attempt a) st).
  unfold handleRegister, limited. change (sourceAddr (attempt a)) with my_source. rewrite Hal.
  unfold HubApi.decode. rewrite (readBody_carried (attempt a)) by exact Hcar.
  change (r_Body (attempt a)) with (Marshal_register (mkRegisterRequest (jo_Name opts) my_id a)).
  cbv zeta in Hdec. rewrite Hdec. cbn [rr_Name rr_Identity rr_Signature].
  rewrite decide_False by apply (rg_name cfg Hrg). unfold my_id at 1. rewrite ParsePublicIdentity_Public.
  cbv zeta. change (h_cfg (a_hub (set_rl rl' st))) with (h_cfg (a_hub st)). rewrite Hcfg, <-(rg_token cfg Hrg).
  change (mkBootstrap (r_Host (attempt a)) (jo_Token opts) (jo_Name opts) my_id) with my_bootstrap.
  rewrite (SignBootstrap_verifies my_bootstrap s) by done.
  destruct (decide (known cfg s)) as [Hk|Hk].
  - rewrite decide_True by by apply known_AllKeys. pose proof (Match_spec (ρ_of env) (c_Binders cfg) (sn_PublicKey s)) as Hm.
    unfold registration_of. destruct (Match _ _ _) as [binder|] eqn:Em; [done|].
    destruct Hk as (name&keys&Hb&Hin'). by destruct (Hm _ _ Hb).
  - by rewrite decide_False by (by rewrite known_AllKeys).
Qed.

(** ** The loop over the keys *)

Definition endpoint : string := TrimRight (jo_HubURL opts) "/" +:+ "/v1/register".
Lemma attempt_sent cfg s a w :
  registering cfg → s ∈ signers → SignBootstrap my_bootstrap s = Ok a →
  ∃ u, NewRequest MethodPost endpoint (Marshal_register (mkRegisterRequest (jo_Name opts) my_id a)) =
         Ok (u, mkHttp host MethodPost "/v1/register" ∅ ∅ (Marshal_register (mkRegisterRequest (jo_Name opts) my_id a)) "") ∧
  http_Do check u (Header_Set ContentType "application/json"
     (mkHttp host MethodPost "/v1/register" ∅ ∅ (Marshal_register (mkRegisterRequest (jo_Name opts) my_id a)) "")) w =
  let out := HubHandler (wx_env wx (n_tick w) (n_api w)) (attempt a) ["v1"; "register"] (n_api w) in
  (respond out.1, mkNet out.2 (S (n_tick w))).
Proof.
  intros Hrg Hin Ha. destruct (rg_base cfg Hrg) as [scheme Hb].
  exists (mkUrl scheme host "/v1/register" ["v1"; "register"] ∅). split.
  - unfold NewRequest. change endpoint with (TrimRight (jo_HubURL opts) "/" +:+ "/" +:+ Join ["v1"; "register"] "/").
    rewrite Hb; [done|done|]. repeat (apply Forall_cons_2; [by apply (bool_decide_unpack _)|]). apply Forall_nil_2.
  - cbn [http_Do weather_Transport net_Transport]. unfold net_Do.
    by rewrite (rg_alone cfg Hrg), (rg_fate cfg Hrg), (rg_trusted cfg Hrg).
Qed.

Definition fingerprint_of (s : Signer) : string := FingerprintSHA256 (sn_PublicKey s).
(** A key the hub does not know is turned away, and nothing else happens. *)
Lemma loop_unknown cfg s rest tried w :
  registering cfg → s ∈ signers → ¬ known cfg s → h_cfg (a_hub (n_api w)) = cfg → room (S (length rest)) (n_api w) →
  ∃ w', a_hub (n_api w') = a_hub (n_api w) ∧ room (length rest) (n_api w') ∧
    register_loop check endpoint my_bootstrap tried (s :: rest) w =
    match rest with
    | [] => (Err (rejected (tried ++ [fingerprint_of s])), w')
    | _ => register_loop check endpoint my_bootstrap (tried ++ [fingerprint_of s]) rest w'
    end.
Proof.
  intros Hrg Hin Hk Hcfg Hroom. destruct (rg_sound cfg Hrg s Hin) as [_ [a Ha]].
  destruct (attempt_sent cfg s a w Hrg Hin Ha) as (u&Hu&Hdo).
  destruct (attempt_served cfg s a (n_api w) (length rest) (wx_env wx (n_tick w) (n_api w)) Hrg Hin Ha Hcfg Hroom) as (rl'&Hr&Hh).
  rewrite decide_False in Hh by done. rewrite Hh in Hdo. cbv zeta in Hdo.
  exists (mkNet (set_rl rl' (n_api w)) (S (n_tick w))). split_and!; [done..|].
  cbn [register_loop]. rewrite Ha, bind_liftR. cbn [my_bootstrap b_Name b_Identity]. rewrite Hu, bind_liftR.
  rewrite (bind_run _ _ _ _ _ Hdo). by destruct rest.
Qed.
(** The first key it knows registers the machine. *)
Lemma loop_known cfg s rest tried w h' :
  registering cfg → s ∈ signers → known cfg s → h_cfg (a_hub (n_api w)) = cfg → room (S (length rest)) (n_api w) →
  let env := wx_env wx (n_tick w) (n_api w) in
  let reg := registration_of (ρ_of env) cfg s in
  let answer := mkRegisterResponse my_id (g_Binder reg) (AuthorizedKey (sn_PublicKey s)) in
  Decode_registered (Marshal_payload (PRegistered answer)) = Some answer →
  run_op env (OpRegister reg) (a_hub (n_api w)) = (Ok (), h') →
  ∃ w', a_hub (n_api w') = h' ∧
    register_loop check endpoint my_bootstrap tried (s :: rest) w = (Ok (answer, fingerprint_of s), w').
Proof.
  intros Hrg Hin Hk Hcfg Hroom env reg answer Hjson Hrun. destruct (rg_sound cfg Hrg s Hin) as [_ [a Ha]].
  destruct (attempt_sent cfg s a w Hrg Hin Ha) as (u&Hu&Hdo).
  destruct (attempt_served cfg s a (n_api w) (length rest) env Hrg Hin Ha Hcfg Hroom) as (rl'&_&Hh).
  rewrite decide_True in Hh by done. erewrite call_answers in Hh; [|exact Hrun|done].
  unfold env in Hh. rewrite Hh in Hdo. cbv zeta in Hdo.
  exists (mkNet (set_hub h' (set_rl rl' (n_api w))) (S (n_tick w))). split; [done|].
  cbn [register_loop]. rewrite Ha, bind_liftR. cbn [my_bootstrap b_Name b_Identity]. rewrite Hu, bind_liftR.
  rewrite (bind_run _ _ _ _ _ Hdo). fold env reg answer. change (rs_StatusCode _) with StatusCreated.
  simpl. cbn [rs_Body]. by rewrite Hjson.
Qed.
Lemma loop_skips cfg before rest tried w :
  registering cfg → (∀ s, s ∈ before → s ∈ signers ∧ ¬ known cfg s) → rest ≠ [] →
  h_cfg (a_hub (n_api w)) = cfg → room (length before + length rest) (n_api w) →
  ∃ w', a_hub (n_api w') = a_hub (n_api w) ∧ room (length rest) (n_api w') ∧
    register_loop check endpoint my_bootstrap tried (before ++ rest) w =
    register_loop check endpoint my_bootstrap (tried ++ (fingerprint_of <$> before)) rest w'.
Proof.
  intros Hrg Hb Hne. revert tried w. induction before as [|s before IH]; intros tried w Hcfg Hroom.
  { exists w. by rewrite app_nil_r. }
  destruct (Hb s) as [Hin Hk]; [left|].
  destruct (loop_unknown cfg s (before ++ rest) tried w) as (w1&E1&Hr1&Hloop); [done..|by rewrite length_app|].
  destruct (IH (λ x Hx, Hb x (list_elem_of_further x s before Hx)) (tried ++ [fingerprint_of s]) w1) as (w2&E2&Hr2&Hl2);
    [by rewrite E1|by rewrite <-length_app|].
  exists w2. split_and!; [by rewrite E2|done|]. simpl app. rewrite Hloop.
  destruct (before ++ rest) eqn:E; [by apply app_nil in E as [_ ?]|]. rewrite Hl2, <-app_assoc. done.
Qed.
Lemma register_starts cfg w : registering cfg → register opts signing identity w = register_loop check endpoint my_bootstrap [] signers w.
Proof.
  intros Hrg. unfold register, hostOf. destruct (rg_base cfg Hrg) as [scheme Hb].
  change (TrimRight (jo_HubURL opts) "/" +:+ "/v1/register")
    with (TrimRight (jo_HubURL opts) "/" +:+ "/" +:+ Join ["v1"; "register"] "/").
  rewrite Hb; [|done|repeat (apply Forall_cons_2; [by apply (bool_decide_unpack _)|]); apply Forall_nil_2].
  cbn [u_Host]. rewrite decide_False by apply (rg_host cfg Hrg). rewrite bind_liftR. cbv zeta.
  rewrite (rg_signers cfg Hrg), bind_liftR, (rg_check cfg Hrg), bind_liftR. done.
Qed.
Lemma Register_identity env reg h :
  save_fault env = None →
  ∃ h' reg', run_op env (OpRegister reg) h = (Ok (), h') ∧ ids_of h' !! g_Identity reg = Some reg' ∧
    g_Binder reg' = g_Binder reg ∧ g_Name reg' = g_Name reg ∧ g_Key reg' = g_Key reg.
Proof.
  intros Hs. cbn [run_op]. unfold onStore, Register. rewrite bind_get.
  destruct (_ !! g_Identity reg); unfold set_mem; rewrite bind_modify; unfold save; rewrite Hs;
    do 2 eexists; (split; [done|]); unfold ids_of; simpl; by rewrite lookup_insert_eq.
Qed.

(** Which key registers a machine.  Every key the machine can sign with is
    tried in turn, over HTTP, and the hub checks the signature against the
    keys of its configuration.  The first key that is one of a binder's
    registers the machine: the hub files its identity under that binder, with
    the name it asked for and that key, and the machine is told so and which
    of its keys it was; the keys before it leave nothing behind.  When the hub
    knows none of them, the machine is told which were tried and nothing has
    changed.  For this the limiter needs room for as many attempts as there
    are keys. *)
Theorem first_known_key_registers (cfg : Config) (w : Net) :
  registering cfg → h_cfg (a_hub (n_api w)) = cfg → room (length signers) (n_api w) →
  (∀ k st, save_fault (wx_env wx k st) = None) →
  (∀ binder s, is_Some (c_Binders cfg !! binder) → s ∈ signers →
     let answer := mkRegisterResponse my_id binder (AuthorizedKey (sn_PublicKey s)) in
     Decode_registered (Marshal_payload (PRegistered answer)) = Some answer) →
  (∀ before s after, signers = before ++ s :: after → Forall (λ s, ¬ known cfg s) before → known cfg s →
     ∃ binder keys reg w', c_Binders cfg !! binder = Some keys ∧ sn_PublicKey s ∈ keys ∧
       register opts signing identity w =
         (Ok (mkRegisterResponse my_id binder (AuthorizedKey (sn_PublicKey s)), fingerprint_of s), w') ∧
       ids_of (a_hub (n_api w')) !! my_id = Some reg ∧
       g_Binder reg = binder ∧ g_Name reg = jo_Name opts ∧ g_Key reg = AuthorizedKey (sn_PublicKey s)) ∧
  (signers ≠ [] → Forall (λ s, ¬ known cfg s) signers →
     ∃ w', register opts signing identity w = (Err (rejected (fingerprint_of <$> signers)), w') ∧
       a_hub (n_api w') = a_hub (n_api w)).
Proof.
  intros Hrg Hcfg Hroom Hsave Hjson. rewrite (register_starts cfg) by done. split.
  - intros before s after E Hb Hk.
    assert (∀ x, x ∈ before → x ∈ signers ∧ ¬ known cfg x) as Hb'.
    { intros x Hx. split; [rewrite E; apply elem_of_app; by left|]. by eapply Forall_forall in Hb. }
    destruct (loop_skips cfg before (s :: after) [] w Hrg Hb') as (w1&E1&Hr1&Hl1); [done|done|by rewrite <-length_app, <-E|].
    rewrite E. rewrite Hl1. set (env := wx_env wx (n_tick w1) (n_api w1)).
    destruct (Register_identity env (registration_of (ρ_of env) cfg s) (a_hub (n_api w1)) (Hsave _ _))
      as (h'&reg'&Hrun&Hreg&Hbi&Hn&Hkey).
    assert (s ∈ signers) as Hin by (rewrite E; apply elem_of_app; right; left).
    pose proof (Match_spec (ρ_of env) (c_Binders cfg) (sn_PublicKey s)) as Hm.
    destruct (Match _ _ _) as [binder|] eqn:Em.
    + assert (g_Binder (registration_of (ρ_of env) cfg s) = binder) as Eb by (simpl; by rewrite Em).
      destruct Hm as (keys&Hb1&Hb2).
      destruct (loop_known cfg s after ([] ++ (fingerprint_of <$> before)) w1 h' Hrg) as (w'&Ew'&Hloop);
        [done|done|by rewrite E1|done|fold env; rewrite Eb; by apply Hjson|exact Hrun|].
      fold env in Hloop. rewrite Eb in Hloop, Hbi. exists binder, keys, reg', w'. split_and!; try done. by rewrite Ew'.
    + destruct Hk as (name&keys&Hb1&Hb2). by destruct (Hm _ _ Hb1).
  - intros Hne Hall. destruct (exists_last Hne) as (before&s&E).
    assert (Forall (λ s, ¬ known cfg s) before ∧ ¬ known cfg s) as [Hb Hk]
      by (rewrite E in Hall; by apply Forall_app in Hall as [? [? _]%Forall_cons]).
    assert (∀ x, x ∈ before → x ∈ signers ∧ ¬ known cfg x) as Hb'.
    { intros x Hx. split; [rewrite E; apply elem_of_app; by left|]. by eapply Forall_forall in Hb. }
    destruct (loop_skips cfg before [s] [] w Hrg Hb') as (w1&E1&Hr1&Hl1); [done|done|by rewrite <-length_app, <-E|].
    destruct (loop_unknown cfg s [] ([] ++ (fingerprint_of <$> before)) w1 Hrg) as (w'&Ew'&_&Hloop);
      [rewrite E; apply elem_of_app; right; left|done|by rewrite E1|done|].
    exists w'. split; [|by rewrite Ew'].
    transitivity (register_loop check endpoint my_bootstrap [] (before ++ [s]) w); [by rewrite <-E|].
    rewrite Hl1, Hloop. rewrite E, fmap_app. done.
Qed.
End Together.
