(* ===== verification/MemberSpec.v ===== *)
(** * Deciding, and who is meant: what [internal/tenant/tenant.go] gets right

    What an approval hands to the hub, which request and which member a
    reference means, and that a member is only ever acted on when exactly one
    is meant. *)

From Stdlib Require Import Ascii.
From S2P Require Export Tenant.

Open Scope Z_scope.

(** ** A call of the hub changes the world alone *)

Section Calls.
Context {W : Type}.
Lemma onHub_Ok {A} (c : M W A) (d d' : Daemon W) a :
  onHub c d = (Ok a, d') →
  c (d_world d) = (Ok a, d_world d') ∧ d_state d' = d_state d ∧ d_run d' = d_run d ∧
  d_routers d' = d_routers d.
Proof. unfold onHub. destruct (c (d_world d)) as [r w] eqn:E. intros [= -> <-]. done. Qed.
Lemma liftR_Ok {S A} (r : res A) (s s' : S) a : liftR r s = (Ok a, s') → r = Ok a ∧ s' = s.
Proof. unfold liftR. by intros [= <- <-]. Qed.
Lemma readState_Ok {A} (f : State → A) (d d' : Daemon W) a :
  readState f d = (Ok a, d') → a = f (d_state d) ∧ d' = d.
Proof. unfold readState. by intros [= <- <-]. Qed.
End Calls.

(** Takes a run that came to an end apart, down to its calls. *)
Ltac took :=
  repeat match goal with
  | H : bindM _ _ _ = (Ok _, _) |- _ => apply bindM_Ok in H as (?&?&?&H)
  | H : liftR _ _ = (Ok _, _) |- _ => apply liftR_Ok in H as [? ->]
  | H : readState _ _ = (Ok _, _) |- _ => apply readState_Ok in H as [-> ->]
  | H : raise _ _ = (Ok _, _) |- _ => discriminate H
  | H : retM _ _ = (Ok _, _) |- _ => injection H as <- <-
  end.

(** ** Requests *)

(** The entries a reference is the beginning of. *)
Definition begun (rid : string) (entries : list PendingEntry) : list PendingEntry :=
  filter (λ e, HasPrefix (hr_ID (pe_Record e)) rid = true) entries.

Lemma pending_loop_spec rid found entries :
  pending_loop rid found entries =
  match find_first (λ e, bool_decide (hr_ID (pe_Record e) = rid)) entries with
  | Some e => inl e
  | None => inr (found ++ begun rid entries)
  end.
Proof.
  revert found. induction entries as [|e entries IH]; intros found; simpl; [by rewrite app_nil_r|].
  unfold begun in *. case_decide as He.
  - by rewrite bool_decide_true.
  - rewrite bool_decide_false by done. rewrite filter_cons.
    destruct (HasPrefix (hr_ID (pe_Record e)) rid); rewrite IH; destruct (find_first _ _); simpl; [done| |done|done].
    by rewrite <-app_assoc.
Qed.

(** ** Approving *)

Lemma carriable_routes routes addrs kept dropped r :
  carriable routes addrs = (kept, dropped) → r ∈ kept →
  r ∈ routes ∧ ∃ a, a ∈ addrs ∧ Is4 (p_addr a) = Is4 (p_addr r).
Proof.
  unfold carriable. intros [= <- <-]. rewrite list_elem_of_filter. intros [Hk Hr]. split; [done|].
  apply orb_true_iff in Hk as [[H4 Hf]%andb_true_iff|[H4 Hf]%andb_true_iff];
    unfold has_family in Hf; apply existsb_exists in Hf as (a&Ha%list_elem_of_In&E);
    exists a; split; [done| |done|]; apply eqb_prop in E; rewrite E; [done|].
  by destruct (Is4 (p_addr r)).
Qed.
Lemma fitsInAName_Ok kind member instance :
  fitsInAName kind member instance = Ok () →
  (len (member +:+ "." +:+ instance +:+ "." +:+ Suffix) ≤ 253 ∧ len (MemberCertName kind member instance) ≤ 253)%nat.
Proof.
  unfold fitsInAName. destruct (existsb _ _) eqn:E; [done|]. intros _.
  simpl in E. apply orb_false_iff in E as [E1%Nat.ltb_ge E2]. apply orb_false_iff in E2 as [E2%Nat.ltb_ge _]. done.
Qed.

(** What the terms of an approval come to. *)
Lemma approve_terms_Ok record instance asked noDomain wanted routes dropped domain name :
  approve_terms record instance asked noDomain wanted = Ok (routes, dropped, domain, name) →
  (∀ r, r ∈ routes → r ∈ default (rq_Routes (hr_Request record)) asked ∧
     ∃ a, a ∈ addresses [er_OverlayAddress (hr_Record record); er_OverlayAddress6 (hr_Record record)] ∧
          Is4 (p_addr a) = Is4 (p_addr r)) ∧
  (hr_Kind record = KindTenant → routes = [] ∧ domain = "") ∧
  (domain = "" ∨ domain = rq_Domain (hr_Request record)) ∧ (noDomain = true → domain = "") ∧
  (is_Some asked → hr_Kind record ≠ KindTenant → dropped = []).
Proof.
  unfold approve_terms. destruct (carriable _ _) as [kept lost] eqn:Hc.
  destruct (_ && negb (bool_decide (lost = []))) eqn:Ha; [done|]. intros [= <- <- <- <-].
  split_and!.
  - intros r Hr. destruct (carriable_routes _ _ _ _ r Hc Hr) as [Hin Hf]. split; [|done].
    case_bool_decide; [by apply not_elem_of_nil in Hin|done].
  - intros Hk. rewrite !bool_decide_true in * by done. split; [|done].
    unfold carriable in Hc. simpl in Hc. by injection Hc.
  - destruct (_ || noDomain); [by left|by right].
  - intros ->. by rewrite orb_true_r.
  - intros Hs Hk. rewrite bool_decide_true in Ha by done. rewrite bool_decide_false in Ha by done.
    simpl in Ha. apply negb_false_iff in Ha. by apply bool_decide_eq_true in Ha.
Qed.

Section Deciding.
Context {W : Type} `{HW : HubClient W} `{HL : CertLib} `{HB : Build} `{HU : Urls}.
Abbreviation Machine := (Daemon W).

Lemma findPending_Ok env rid (d d' : Machine) e :
  findPending env rid d = (Ok e, d') →
  ∃ entries, PendingAll env d = (Ok entries, d') ∧ matchPending entries rid = Ok e.
Proof. unfold findPending. intros H. took. eauto. Qed.
Lemma readState_run {A} (f : State → A) (d : Machine) : readState f d = (Ok (f (d_state d)), d).
Proof. done. Qed.

(** What the decision that is sent to the hub holds. *)
Record approval_of (owned : Owned) (e : PendingEntry) (dec : Decision_) (c : Cert) : Prop := {
  ap_status : d_Status dec = StatusApproved;
  ap_bundle : ∃ b, d_Bundle dec = Some b ∧ UnmarshalCertificateFromPEM (bu_Certificate b) = Ok c ∧
                   bu_CA b = ow_CACert owned;
  ap_fingerprint : CertFingerprint c = Ok (d_CertFingerprint dec);
  ap_routes : d_Routes dec = pe_Routes e;
  ap_domain : d_Domain dec = pe_Domain e;
  ap_name : tb_Name (details c) = MemberCertName (hr_Kind (pe_Record e)) (d_Name dec) (pe_Instance e);
  ap_fits : (len (d_Name dec +:+ "." +:+ pe_Instance e +:+ "." +:+ Suffix) ≤ 253 ∧
             len (tb_Name (details c)) ≤ 253)%nat;
  ap_networks : tb_Networks (details c) ≡ₚ
    addresses [er_OverlayAddress (hr_Record (pe_Record e)); er_OverlayAddress6 (hr_Record (pe_Record e))];
  ap_unsafe : tb_UnsafeNetworks (details c) ≡ₚ d_Routes dec;
  ap_carried : ∀ r, r ∈ d_Routes dec →
    ∃ a, a ∈ tb_Networks (details c) ∧ Is4 (p_addr a) = Is4 (p_addr r);
  ap_key : ∃ curve, UnmarshalPublicKeyFromPEM (rq_PublicKey (hr_Request (pe_Record e))) =
                    Ok (tb_PublicKey (details c), curve);
  ap_member : tb_IsCA (details c) = false;
  ap_tenant : hr_Kind (pe_Record e) = KindTenant → d_Routes dec = [] ∧ d_Domain dec = "";
}.

Lemma sign_step (now : Time) (ca : CA) (h : Host) (d d' : Machine) pem wrap :
  match SignHost now ca h with Err e => (Err (wrap e), d) | r => (r, d) end = (Ok pem, d') →
  SignHost now ca h = Ok pem ∧ d' = d.
Proof. destruct (SignHost _ _ _); intros [=]; subst; done. Qed.

(** C27: an approval that comes to an end has sent the hub exactly one
    decision about the request that was meant, and what it signed can be
    honoured: the certificate reads back as the member's, is no authority,
    carries the addresses the hub gave and the routes that were decided, each
    of a family the member has an address of (nebula refuses one that is not),
    its names fit in DNS, the fingerprint sent is its own, and a tenant gets
    neither routes nor a domain. *)
Theorem approved_as_decided env rid asked noDomain wanted (d d' : Machine) e :
  ApproveRequest env rid asked noDomain wanted d = (Ok e, d') →
  ∃ owned dec c d1 entry,
    findPending env rid d = (Ok entry, d1) ∧
    pe_Record e = pe_Record entry ∧ pe_InstanceID e = pe_InstanceID entry ∧
    OwnedOf (d_state d1) (pe_InstanceID e) = Some owned ∧
    approval_of owned e dec c ∧
    hc_decide (pe_InstanceID e) (hr_ID (pe_Record e)) dec (d_world d1) = (Ok (), d_world d').
Proof.
  unfold ApproveRequest. intros H. apply bindM_Ok in H as (entry&d1&Hf&H).
  apply bindM_Ok in H as (o&d2&Ho&H). apply readState_Ok in Ho as [-> ->].
  destruct (OwnedOf _ _) as [owned|] eqn:Ho; [|done].
  apply bindM_Ok in H as ([[[routes dropped] domain] name0]&d2&Ht&H). apply liftR_Ok in Ht as [Ht ->].
  apply bindM_Ok in H as (authority&d2&Hl&H). apply liftR_Ok in Hl as [Hl ->].
  apply bindM_Ok in H as (name&d2&Hn&H). apply liftR_Ok in Hn as [Hn ->].
  apply bindM_Ok in H as ([]&d2&Hfit&H). apply liftR_Ok in Hfit as [Hfit ->].
  apply bindM_Ok in H as (pem&d2&Hs&H). apply sign_step in Hs as [Hs ->].
  apply bindM_Ok in H as (c&d2&Hc&H). apply liftR_Ok in Hc as [Hc ->].
  apply bindM_Ok in H as (fp&d2&Hfp&H). apply liftR_Ok in Hfp as [Hfp ->].
  apply bindM_Ok in H as ([]&d2&Hd&H). apply onHub_Ok in Hd as (Hd&_). injection H as <- <-.
  apply SignHost_reads in Hs as (c'&pub&curve&Hc'&Hsays&Hpub&_&Hca).
  rewrite Hc in Hc'. injection Hc' as <-.
  destruct Hsays as (Snm&Snet&Suns&_&_&_&Spub&_). simpl in *.
  apply approve_terms_Ok in Ht as (Hr&Hten&_). apply fitsInAName_Ok in Hfit as [F1 F2].
  eexists owned, _, c, d1, entry. split_and!; [done..| |exact Hd].
  split; simpl; try done.
  - eexists. split_and!; [done|done|done].
  - split; [done|]. by rewrite Snm.
  - intros r Hin. destruct (Hr r Hin) as [_ (a&Ha&Hfam)]. exists a. split; [|done]. by rewrite Snet.
  - exists curve. by rewrite Spub.
Qed.

(** ** Members *)

Definition asked_in (instance : string) (o : Owned) : bool :=
  bool_decide (instance = "") || EqualFold (ow_Name o) instance || bool_decide (ow_InstanceID o = instance).
(** Reading the members of some instances, one call after the other: what each
    was answered.  A call may change the world, and the next is made in that. *)
Definition Answers : Type := list (Owned * (list Member + error)).
Fixpoint read_all (l : list Owned) : M W Answers :=
  match l with
  | [] => retM []
  | o :: l => tryM (hc_members (ow_InstanceID o)) (λ r, let* rest := read_all l in retM ((o, r) :: rest))
  end.
(** Everyone a reference means, in the instances that could be read. *)
Definition meant (ref : string) (answers : Answers) : list ownedMember :=
  answers ≫= λ a, match a.2 with inl ms => pair a.1 <$> filter (λ m, refers ref m = true) ms | inr _ => [] end.
(** The last error met in reading one. *)
Definition unread_in (unread : option error) (answers : Answers) : option error :=
  foldl (λ u (a : Owned * (list Member + error)), match a.2 with inr e => Some e | inl _ => u end) unread answers.
Definition set_world (w : W) (d : Machine) : Machine := mkDaemon (d_state d) (d_run d) (d_routers d) w.

Lemma skipped_asked_in instance o :
  negb (bool_decide (instance = "")) && negb (EqualFold (ow_Name o) instance)
    && negb (bool_decide (ow_InstanceID o = instance)) = negb (asked_in instance o).
Proof. unfold asked_in. by destruct (bool_decide _), (EqualFold _ _), (bool_decide _). Qed.
Lemma set_world_same (d : Machine) : set_world (d_world d) d = d.
Proof. by destruct d. Qed.
Lemma read_all_no_error l w e : (read_all l w).1 ≠ Err e.
Proof.
  revert w. induction l as [|o l IH]; intros w; simpl; [done|]. unfold tryM, bindM.
  destruct (hc_members _ w) as [[ms|e1|] w1]; [..|done]; specialize (IH w1); by destruct (read_all l w1) as [[| |] w2].
Qed.
Lemma find_members_run ref instance found unread l (d : Machine) :
  find_members ref instance found unread l d =
  match read_all (filter (λ o, asked_in instance o = true) l) (d_world d) with
  | (Ok answers, w) => (Ok (found ++ meant ref answers, unread_in unread answers), set_world w d)
  | (Err e, w) => (Err e, set_world w d)
  | (Panic, w) => (Panic, set_world w d)
  end.
Proof.
  revert found unread d. induction l as [|o l IH]; intros found unread d; simpl.
  { by rewrite app_nil_r, set_world_same. }
  rewrite skipped_asked_in. destruct (asked_in instance o) eqn:Hin.
  2:{ rewrite filter_cons_False by by rewrite Hin. apply IH. }
  rewrite filter_cons_True by done. simpl. unfold tryM at 1, onHub.
  unfold tryM, bindM. destruct (hc_members (ow_InstanceID o) (d_world d)) as [[ms|e|] w1]; [..|done]; rewrite IH; simpl;
    destruct (read_all _ w1) as [[answers| |] w2]; try done.
  by rewrite <-app_assoc.
Qed.
Lemma findMember_run env ref instance (d : Machine) :
  ref ≠ "" →
  findMember env ref instance d =
  match read_all (filter (λ o, asked_in instance o = true) (ownedList (ρ_of (t_env env)) (d_state d))) (d_world d) with
  | (Ok answers, w) =>
      (match meant ref answers with
       | [om] => Ok om
       | [] => match unread_in None answers with
               | Some e => Err e
               | None => if decide (instance = "") then Err (Errorf "no member %s in any instance this machine owns")
                         else Err (Errorf "no member %s in %s")
               end
       | _ => Err (Errorf "%s is a member of %s: say which with --instance")
       end, set_world w d)
  | (Err e, w) => (Err e, set_world w d)
  | (Panic, w) => (Panic, set_world w d)
  end.
Proof.
  intros Hne. unfold findMember. rewrite decide_False by done.
  erewrite bind_run by apply readState_run. unfold bindM. rewrite find_members_run.
  destruct (read_all _ _) as [[answers| |] w]; simpl; [|done..].
  destruct (meant _ _) as [|om [|om' l]]; [|done|done].
  destruct (unread_in _ _); [done|]. by destruct (decide (instance = "")).
Qed.

(** What acting on a member does: it asks for the members of the instances the
    reference is looked for in, and then nothing, and says why, or the one
    call about the one member that is meant. *)
Definition acts_on_one {A} (env : TEnv) (req : MemberRef) (call : ownedMember → M W A)
    (d : Machine) (out : res A * Machine) : Prop :=
  if decide (mr_Member req = "") then ∃ e, out = (Err e, d) else
  match read_all (filter (λ o, asked_in (mr_Instance req) o = true) (ownedList (ρ_of (t_env env)) (d_state d))) (d_world d) with
  | (Ok answers, w) =>
      match meant (mr_Member req) answers with
      | [om] => out = onHub (call om) (set_world w d)
      | _ => ∃ e, out = (Err e, set_world w d)
      end
  | (Err _, _) => False
  | (Panic, w) => out = (Panic, set_world w d)
  end.
Lemma acts_after_findMember {A} env req (call : ownedMember → M W A) (d : Machine) :
  acts_on_one env req call d
    ((let* om := findMember env (mr_Member req) (mr_Instance req) in onHub (call om)) d).
Proof.
  unfold acts_on_one, bindM. destruct (decide (mr_Member req = "")) as [E|E].
  { eexists. unfold findMember. by rewrite decide_True. }
  rewrite findMember_run by done.
  pose proof (read_all_no_error (filter (λ o, asked_in (mr_Instance req) o = true) (ownedList (ρ_of (t_env env)) (d_state d))) (d_world d)) as Hn.
  destruct (read_all _ _) as [[answers|e|] w]; [|by destruct (Hn e)|done].
  destruct (meant _ _) as [|om [|om' l]]; [|done|by eexists].
  destruct (unread_in _ _); [by eexists|]. destruct (decide _); by eexists.
Qed.
Lemma bindM_ext {S A B} (c : M S A) (k k' : A → M S B) s : (∀ a s, k a s = k' a s) → bindM c k s = bindM c k' s.
Proof. intros H. unfold bindM. by destruct (c s) as [[]]. Qed.

(** Who is meant does not depend on the order the instances are walked in,
    where what the hub says of one depends on the world alone. *)
Lemma read_all_pure (members : W → string → res (list Member)) l w :
  (∀ id, hc_members id w = (members w id, w)) → (∀ id, members w id ≠ Panic) →
  read_all l w = (Ok ((λ o, (o, match members w (ow_InstanceID o) with Ok ms => inl ms | Err e => inr e | Panic => inl [] end)) <$> l), w).
Proof.
  intros Hm Hr. induction l as [|o l IH]; simpl; [done|]. unfold tryM, bindM. rewrite Hm. specialize (Hr (ow_InstanceID o)).
  destruct (members w (ow_InstanceID o)); [..|done]; by rewrite IH.
Qed.
Lemma ownedList_perm (ρ ρ' : Range) s : ownedList ρ s ≡ₚ ownedList ρ' s.
Proof. unfold ownedList. by rewrite !range_perm. Qed.
Lemma meant_anyhow (members : W → string → res (list Member)) ref instance (ρ ρ' : Range) s w answers w' :
  (∀ id, hc_members id w = (members w id, w)) → (∀ id, members w id ≠ Panic) →
  read_all (filter (λ o, asked_in instance o = true) (ownedList ρ s)) w = (Ok answers, w') →
  ∃ answers', read_all (filter (λ o, asked_in instance o = true) (ownedList ρ' s)) w = (Ok answers', w) ∧
    meant ref answers' ≡ₚ meant ref answers.
Proof.
  intros Hm Hr. rewrite !(read_all_pure members) by done. intros [= <- _]. eexists. split; [done|].
  unfold meant. by rewrite (ownedList_perm ρ' ρ s).
Qed.

(** *** At the hub *)

(** The reference an owner sends about a member is its key's fingerprint, the
    hub looks it up as a reference. *)
Lemma memberIn_fingerprint ρ i fp m :
  inst_wf i → mget (i_Members i) !! fp = Some m → m_Fingerprint m ≠ "" → m_Kind m ≠ KindOwner →
  (∀ fp' m', mget (i_Members i) !! fp' = Some m' → fp' ≠ fp → HasPrefix fp' fp = false ∧ m_Name m' ≠ fp) →
  memberIn ρ i (m_Fingerprint m) = Ok (fp, m).
Proof.
  intros Hwf Hm Hne Hk Hothers. destruct (wf_members i Hwf fp m Hm) as [(_&Ho&_)|(_&_&Ef&_)]; [done|]. rewrite Ef.
  unfold memberIn. destruct (find_first _ _) as [[fp' m']|] eqn:Hf.
  - apply find_first_Some in Hf as [Hin Hp]. rewrite range_perm in Hin. apply elem_of_map_to_list in Hin.
    destruct (decide (fp' = fp)) as [->|Hd]; [simpl; by simplify_eq|]. destruct (Hothers _ _ Hin Hd) as [H1 H2].
    simpl in Hp. rewrite H1, !bool_decide_false in Hp by done. done.
  - exfalso. eapply find_first_None in Hf; [|rewrite range_perm; by apply elem_of_map_to_list]. simpl in Hf.
    by rewrite bool_decide_true in Hf.
Qed.
(** The empty reference is the beginning of every key. *)
Lemma memberIn_empty ρ i : memberIn ρ i "" = match range ρ (mget (i_Members i)) with kv :: _ => Ok kv | [] => memberIn ρ i "" end.
Proof.
  unfold memberIn. destruct (range ρ _) as [|kv l]; [done|]. simpl. by rewrite orb_true_r.
Qed.


End Deciding.
