(* ===== verification/RunSpec.v ===== *)
(** * What a machine runs: [runner.go], [startConnection], [Connect]

    Two running connections do not carry one network when they are started,
    a configuration that is shown does not hold the key, and what happens to a
    machine whose request to join did not reach the hub. *)

From Stdlib Require Import Ascii.
From S2P Require Export MemberSpec TenantSpec.

Open Scope Z_scope.

(** ** Overlapping networks *)

Lemma overlap_with_None a wanted : overlap_with a wanted = None ↔ ∀ b, b ∈ wanted → Overlaps a b = false.
Proof.
  unfold overlap_with. induction wanted as [|b wanted IH]; simpl; [split; [intros _ b H; by apply not_elem_of_nil in H|done]|].
  destruct (Overlaps a b) eqn:E; split.
  - done.
  - intros H. by rewrite (H b) in E by left.
  - intros H b' [->|Hb]%elem_of_cons; [done|]. by apply IH.
  - intros H. apply IH. intros b' Hb. apply H. by right.
Qed.
Lemma overlap_held_None held wanted :
  overlap_held held wanted = None ↔ ∀ a b, a ∈ held → b ∈ wanted → Overlaps a b = false.
Proof.
  induction held as [|a held IH]; simpl; [split; [intros _ a b H; by apply not_elem_of_nil in H|done]|].
  destruct (overlap_with a wanted) as [b|] eqn:E; split.
  - done.
  - intros H. cut (overlap_with a wanted = None); [congruence|]. apply overlap_with_None. intros b' Hb. apply H; [left|done].
  - intros H a' b [->|Ha]%elem_of_cons Hb; [by eapply overlap_with_None|by apply IH].
  - intros H. apply IH. intros a' b Ha Hb. apply H; [by right|done].
Qed.
Lemma collides_None ρ existing instance wanted :
  collides ρ existing instance wanted = None ↔
  ∀ other held, existing !! other = Some held → other ≠ instance →
    ∀ a b, a ∈ held → b ∈ wanted → Overlaps a b = false.
Proof.
  unfold collides.
  trans (∀ other held, (other, held) ∈ range ρ existing → other ≠ instance →
    ∀ a b, a ∈ held → b ∈ wanted → Overlaps a b = false); [|by setoid_rewrite elem_of_range].
  induction (range ρ existing) as [|[other held] l IH]; simpl.
  { split; [intros _ o h H; by apply not_elem_of_nil in H|done]. }
  destruct (decide (other = instance)) as [->|Hne].
  - rewrite IH. split.
    + intros H o h [[= -> ->]|Hin]%elem_of_cons; [done|by apply H].
    + intros H o h Hin. apply H. by right.
  - destruct (overlap_held held wanted) eqn:E; split.
    + done.
    + intros H. cut (overlap_held held wanted = None); [congruence|]. apply overlap_held_None.
      apply (H other held); [left|done].
    + intros H o h [[= -> ->]|Hin]%elem_of_cons; [intros _; by apply overlap_held_None|]. by apply IH.
    + intros H. apply IH. intros o h Hin. apply H. by right.
Qed.

(** What is held under a name after one more table. *)
Lemma hold_carries held name table other a :
  a ∈ default [] (hold held name table !! other) ↔
  a ∈ default [] (held !! other) ∨ (other = name ∧ a ∈ (rt_Prefix <$> tb_Routes table)).
Proof.
  unfold hold. revert held. induction (tb_Routes table) as [|r l IH]; intros held; simpl.
  { split; [by left|]. intros [H|[_ H]]; [done|by apply not_elem_of_nil in H]. }
  rewrite IH. destruct (decide (name = other)) as [->|Hne].
  - rewrite lookup_insert_eq. simpl. rewrite elem_of_app, list_elem_of_singleton, elem_of_cons. naive_solver.
  - rewrite lookup_insert_ne by done. rewrite elem_of_cons. naive_solver.
Qed.

Section Runs.
Context {W : Type} `{HW : HubClient W} `{HL : CertLib} `{HB : Build} `{HU : Urls}.
Abbreviation Machine := (Daemon W).

(** A hub whose route tables can be read: asking changes nothing. *)
Context (tables : W → string → res RouteTable).
Context (Htables : ∀ id w, hc_routes id w = (tables w id, w)).
Context (Hreads : ∀ w id, tables w id ≠ Panic).

(** The networks the other running connections carry. *)
Definition carried_by (d : Machine) (conn : Connection) (others : list Connection) (name : string) (a : Prefix) : Prop :=
  ∃ other t, other ∈ others ∧ cn_InstanceID other ≠ cn_InstanceID conn ∧
    run_isRunning (d_run d) (cn_InstanceID other) = true ∧ cn_Name other = name ∧
    tables (d_world d) (cn_InstanceID other) = Ok t ∧ a ∈ (rt_Prefix <$> tb_Routes t).

Lemma onHub_tables id (d : Machine) : onHub (hc_routes id) d = (tables (d_world d) id, d).
Proof. unfold onHub. rewrite Htables. by destruct d. Qed.
Lemma held_by_others_run conn held others (d : Machine) :
  ∃ held', held_by_others conn (d_run d) held others d = (Ok held', d) ∧
    ∀ name a, a ∈ default [] (held' !! name) ↔
      a ∈ default [] (held !! name) ∨ carried_by d conn others name a.
Proof.
  revert held. induction others as [|o others IH]; intros held; simpl.
  { exists held. split; [done|]. intros name a. split; [by left|]. intros [H|(?&?&H&_)]; [done|].
    by apply not_elem_of_nil in H. }
  assert (∀ held0 (P : string → Prefix → Prop), (∀ name a, a ∈ default [] (held0 !! name) ↔ a ∈ default [] (held !! name) ∨ P name a) →
    (∀ name a, P name a ↔ cn_InstanceID o ≠ cn_InstanceID conn ∧ run_isRunning (d_run d) (cn_InstanceID o) = true ∧
      cn_Name o = name ∧ ∃ t, tables (d_world d) (cn_InstanceID o) = Ok t ∧ a ∈ (rt_Prefix <$> tb_Routes t)) →
    ∃ held', held_by_others conn (d_run d) held0 others d = (Ok held', d) ∧ ∀ name a,
      a ∈ default [] (held' !! name) ↔ a ∈ default [] (held !! name) ∨ carried_by d conn (o :: others) name a) as Hgo.
  { intros held0 P H0 HP. destruct (IH held0) as (held'&E&H'). exists held'. split; [done|].
    intros name a. rewrite H', H0, HP. unfold carried_by. split.
    - intros [[H|(?&?&?&t&?&?)]|(o'&t&?&?)]; [by left|right; exists o, t; split; [by left|done]|].
      right. exists o', t. split; [by right|done].
    - intros [H|(o'&t&[->|Hin]%elem_of_cons&?&?&?&?&?)]; [by left; left|left; right; eauto 10|].
      right. exists o', t. done. }
  case_bool_decide as Hid; simpl.
  { apply (Hgo held (λ _ _, False)); [naive_solver|]. naive_solver. }
  destruct (run_isRunning (d_run d) (cn_InstanceID o)) eqn:Hrun; simpl.
  2:{ apply (Hgo held (λ _ _, False)); [naive_solver|]. naive_solver. }
  unfold tryM. rewrite onHub_tables. pose proof (Hreads (d_world d) (cn_InstanceID o)) as Hr.
  destruct (tables (d_world d) (cn_InstanceID o)) as [t|e|] eqn:Ht; [..|done].
  - eapply Hgo; [apply hold_carries|]. naive_solver.
  - apply (Hgo held (λ _ _, False)); [naive_solver|]. naive_solver.
Qed.

(** Whether a running connection of another name carries a network that
    overlaps one of these. *)
Definition clashes (ρ : Range) (d : Machine) (conn : Connection) (table : RouteTable) : Prop :=
  ∃ name a b, name ≠ cn_Name conn ∧ carried_by d conn (Connections ρ (d_state d)) name a ∧
    b ∈ (rt_Prefix <$> tb_Routes table) ∧ Overlaps a b = true.

(** A connection is started exactly when no running connection of another
    name carries a network that overlaps one of its own (as far as their
    tables can be read): when one does, an error says so and nothing changes,
    and otherwise its nebula is started with the configuration of its table. *)
Theorem started_without_overlap env conn table (d : Machine) :
  let out := startConnection env conn table d in
  (clashes (ρ_of (t_env env)) d conn table → ∃ e, out = (Err e, d)) ∧
  (¬ clashes (ρ_of (t_env env)) d conn table →
     out = onRun (run_start (t_env env) conn table (choicesOf (d_state d))) d).
Proof.
  cbn zeta. unfold startConnection. rewrite bind_get.
  destruct (held_by_others_run conn ∅ (Connections (ρ_of (t_env env)) (d_state d)) d) as (held&E&Hheld).
  erewrite bind_run by exact E.
  assert (collides (ρ_of (t_env env)) held (cn_Name conn) (rt_Prefix <$> tb_Routes table) = None ↔
          ¬ clashes (ρ_of (t_env env)) d conn table) as Hiff.
  { rewrite collides_None. split.
    - intros H (name&a&b&Hne&Hc&Hb&Ho). specialize (Hheld name a). rewrite lookup_empty in Hheld. simpl in Hheld.
      destruct (held !! name) as [l|] eqn:El.
      + rewrite (H name l El Hne a b) in Ho; [done|apply Hheld; by right|done].
      + simpl in Hheld. assert (a ∈ ([] : list Prefix)) as Hn by (apply Hheld; by right). by apply not_elem_of_nil in Hn.
    - intros H other l El Hne a b Ha Hb. apply not_true_iff_false. intros Ho. apply H.
      exists other, a, b. split_and!; [done| |done|done]. specialize (Hheld other a). rewrite lookup_empty, El in Hheld.
      simpl in Hheld. apply Hheld in Ha as [Ha|Ha]; [by apply not_elem_of_nil in Ha|done]. }
  destruct (collides _ _ _ _) as [clash|] eqn:Hc; split.
  - intros _. by eexists.
  - intros H. by apply Hiff in H.
  - intros H. by destruct (proj1 Hiff eq_refl).
  - intros _. done.
Qed.
End Runs.

(** ** Showing a configuration *)

(** The same connection with another private key. *)
Definition with_key (k : string) (c : Connection) : Connection :=
  mkConnection (cn_InstanceID c) (cn_Name c) (cn_Role c) (cn_PublicKey c) k (cn_Certificate c) (cn_CA c)
    (cn_Address c) (cn_Address6 c) (cn_Lighthouse c) (cn_MTU c) (cn_Device c) (cn_ListenPort c)
    (cn_RequestedAt c) (cn_JoinedAt c).

Section Shown.
Context `{HB : Build}.
(** What is rendered with one key and with another is the same once redacted. *)
Lemma redacted_render conn table local k :
  (let? t := renderConfig (with_key k conn) table local in Ok (RedactTree t)) =
  (let? t := renderConfig conn table local in Ok (RedactTree t)).
Proof.
  unfold renderConfig, Ready. simpl.
  destruct (negb _); [done|]. destruct (bool_decide (l_Endpoints _ = [])); [done|]. simpl.
  unfold RedactTree. simpl. by destruct (0 <? length (tb_Blocked table))%nat.
Qed.
(** Where the key is, and what stands there once it is redacted. *)
Lemma redacted_rest conn table local t :
  renderConfig conn table local = Ok t →
  at_path ["pki"; "key"] t = Some (TStr (cn_PrivateKey conn)) ∧
  at_path ["pki"; "key"] (RedactTree t) = Some (TStr RedactedKey).
Proof.
  unfold renderConfig, Ready. destruct (negb _); [done|]. destruct (bool_decide (l_Endpoints _ = [])); [done|].
  intros [= <-]. done.
Qed.
End Shown.

Section Config.
Context {W : Type} `{HW : HubClient W} `{HL : CertLib} `{HB : Build} `{HU : Urls}.
Abbreviation Machine := (Daemon W).

(** Every running nebula holds what was rendered from a connection, under the
    id of its instance. *)
Definition rendered_runs (running : runners) : Prop :=
  ∀ id r, running !! id = Some r → ∃ conn table local,
    cn_InstanceID conn = id ∧ renderConfig conn table local = Ok (rn_raw r).
Lemma run_start_rendered env conn table local :
  preserves rendered_runs (run_start env conn table local).
Proof.
  intros running H. unfold run_start. rewrite bind_get. destruct (running !! cn_InstanceID conn); [done|].
  rewrite bind_liftR. destruct (renderConfig conn table local) as [raw| |] eqn:E; [|done..].
  destruct (nebula_start env); [done|]. simpl. intros id r [[<- <-]|[_ Hr]]%lookup_insert_Some; [|by apply H].
  by exists conn, table, local.
Qed.
Lemma run_reload_rendered env conn table local :
  preserves rendered_runs (run_reload env conn table local).
Proof.
  intros running H. unfold run_reload. rewrite bind_get. destruct (running !! cn_InstanceID conn) as [r0|]; [|done].
  rewrite bind_liftR. destruct (renderConfig conn table local) as [raw| |] eqn:E; [|done..].
  destruct (nebula_reload env); [done|]. simpl. intros id r [[<- <-]|[_ Hr]]%lookup_insert_Some; [|by apply H].
  by exists conn, table, local.
Qed.
Lemma run_stop_rendered id : preserves rendered_runs (run_stop id).
Proof. intros running H. simpl. intros id' r [_ Hr]%lookup_delete_Some. by apply H. Qed.

Lemma rendered_none : rendered_runs ∅.
Proof. intros id r Hr. by apply (lookup_empty_Some id r) in Hr. Qed.

Lemma runs_rendered ops (d : Machine) :
  rendered_runs (d_run d) → rendered_runs (d_run (foldl (λ d eo, (run_dop eo.1 eo.2 d).2) d ops)).
Proof.
  revert d. induction ops as [|[e o] ops IH]; intros d H; simpl; [done|]. apply IH.
  apply (keeps_dop (λ _, True) (λ _ _ _ _ H, H) rendered_runs run_start_rendered run_reload_rendered
           run_stop_rendered rendered_none (λ _, True) hub_keeps_True); done.
Qed.
(** A configuration that is shown without its keys does not depend on the
    private key at all, whether it is that of a nebula that runs or of one that
    would be started: whatever the key of the connection the same is shown,
    and what is shown has the marker where the key would be. *)
Lemma shown_without_the_key env ref (d d' : Machine) live shown :
  rendered_runs (d_run d) → ConnectionConfig env ref false d = (Ok (live, shown), d') →
  at_path ["pki"; "key"] shown = Some (TStr RedactedKey) ∧
  ∃ conn table local, ∀ k,
    (let? t := renderConfig (with_key k conn) table local in Ok (RedactTree t)) = Ok shown.
Proof.
  intros Hrun. unfold ConnectionConfig. intros H. apply bindM_Ok in H as (known&d1&Hk&H).
  apply readState_Ok in Hk as [-> ->]. destruct (connectionFor _ _ _) as [conn|]; [|done].
  rewrite bind_get in H. apply bindM_Ok in H as ([l raw]&d1&Hraw&H). injection H as -> <- <-.
  assert (∃ conn table local, renderConfig conn table local = Ok raw) as (c&table&local&E).
  { unfold run_loaded in Hraw. destruct (d_run d !! cn_InstanceID conn) as [r|] eqn:Er; simpl in Hraw.
    - injection Hraw as _ <- _. destruct (Hrun _ _ Er) as (c&table&local&_&E). eauto.
    - apply bindM_Ok in Hraw as (table&d2&_&Hraw). apply bindM_Ok in Hraw as (local&d3&_&Hraw).
      apply bindM_Ok in Hraw as (t&d4&Ht&Hraw). apply liftR_Ok in Ht as [Ht ->]. injection Hraw as _ <- _. eauto. }
  split; [by destruct (redacted_rest _ _ _ _ E) as (_&?)|].
  exists c, table, local. intros k. rewrite redacted_render, E. done.
Qed.
End Config.

(** ** Asking to be let in *)

Lemma Write_run env fn s d' :
  fn (st_data s) = (Ok (), d') → save_fault env = None → Write env fn s = (Ok (), mkTState d' (Some d')).
Proof. unfold Write, save_state. by intros -> ->. Qed.
Lemma find_first_is_Some {A} (f : A → bool) l x : x ∈ l → f x = true → is_Some (find_first f l).
Proof.
  induction l as [|y l IH]; simpl; [by intros H%not_elem_of_nil|].
  intros [->|H]%elem_of_cons Hf; [by rewrite Hf|]. destruct (f y); [done|]. by apply IH.
Qed.
Lemma connectionFor_known ρ s ref id c :
  ConnectionOf s id = Some c → id = ref ∨ ToLower (cn_Name c) = ToLower (TrimSpace ref) →
  is_Some (connectionFor ρ s ref).
Proof.
  intros Hc Href. unfold connectionFor. destruct (ConnectionOf s ref) eqn:E; [done|].
  destruct Href as [->|Hn]; [congruence|]. apply (find_first_is_Some _ _ c); [|by apply bool_decide_eq_true].
  unfold Connections. apply list_elem_of_fmap. exists (id, c). split; [done|].
  apply elem_of_range. unfold ConnectionOf, mlookup in Hc. by destruct (dt_Connections (st_data s)).
Qed.

Section Joining.
Context {W : Type} `{HW : HubClient W} `{HL : CertLib} `{HB : Build} `{HU : Urls}.
Abbreviation Machine := (Daemon W).

(** The state once the machine asks to be let in. *)
Definition asked (env : TEnv) (target : InstanceSummary) (pub key : string) (d : data) : data :=
  set_Connections
    (Some (<[su_ID target := pending_connection env (su_ID target) (su_Name target) pub key (nextDevice d)]>
             (mget (dt_Connections d)))) d.
Definition with_data (d : data) (dm : Machine) : Machine :=
  mkDaemon (mkTState d (Some d)) (d_run dm) (d_routers dm) (d_world dm).

Lemma Connect_known env wanted (d : Machine) c :
  connectionFor (ρ_of (t_env env)) (d_state d) wanted = Some c → Connect env wanted d = (Ok (), d).
Proof. intros H. unfold Connect. erewrite bind_run by apply readState_run. by rewrite H. Qed.
Lemma Connect_run env wanted (d d1 : Machine) target pub key :
  connectionFor (ρ_of (t_env env)) (d_state d) wanted = None →
  resolveInstance wanted d = (Ok target, d1) → d_state d1 = d_state d →
  OwnedOf (d_state d) (su_ID target) = None → is_Some (dt_Connections (st_data (d_state d))) →
  GenerateMemberKey (member_keys env) = Ok (pub, key) → save_fault (t_env env) = None →
  Connect env wanted d =
  onHub (hc_join (su_ID target) (dt_Name (st_data (d_state d))) pub)
    (with_data (asked env target pub key (st_data (d_state d))) d1).
Proof.
  intros Hk Hr Hs Ho [m Hm] Hkey Hsave. unfold Connect.
  erewrite bind_run by apply readState_run. rewrite Hk.
  rewrite (bind_run _ _ _ _ _ Hr).
  erewrite bind_run by apply readState_run. rewrite Hs, Ho. rewrite bind_liftR, Hkey.
  erewrite bind_run by apply readState_run. rewrite Hs.
  rewrite (bind_run _ _ _ () (with_data (asked env target pub key (st_data (d_state d))) d1)); [done|].
  unfold onState. rewrite Hs.
  rewrite (Write_run _ _ _ (asked env target pub key (st_data (d_state d)))); [done| |done].
  unfold put_connection, assignD, asked. rewrite Hm. done.
Qed.
Lemma ConnectionOf_asked env target pub key (d : Machine) dt :
  ConnectionOf (d_state (with_data (asked env target pub key dt) d)) (su_ID target) =
  Some (pending_connection env (su_ID target) (su_Name target) pub key (nextDevice dt)).
Proof. unfold ConnectionOf, asked, mlookup. simpl. by rewrite lookup_insert_eq. Qed.

(** C35: asking to be let in to an instance that is not known here files a
    connection without a certificate, with a fresh key, and then asks the hub.
    Whatever the hub answers, from then on the instance counts as asked for:
    asking again, by its id or its name, reports success and asks nobody, also
    when the hub refused or was never reached. *)
Theorem asked_once env wanted (d d1 d' : Machine) target pub key r :
  connectionFor (ρ_of (t_env env)) (d_state d) wanted = None →
  resolveInstance wanted d = (Ok target, d1) → d_state d1 = d_state d →
  OwnedOf (d_state d) (su_ID target) = None → is_Some (dt_Connections (st_data (d_state d))) →
  GenerateMemberKey (member_keys env) = Ok (pub, key) → save_fault (t_env env) = None →
  Connect env wanted d = (r, d') →
  (hc_join (su_ID target) (dt_Name (st_data (d_state d))) pub (d_world d1) = (r, d_world d')) ∧
  (∃ conn, ConnectionOf (d_state d') (su_ID target) = Some conn ∧ Ready conn = false ∧ cn_PrivateKey conn = key) ∧
  ∀ env' again, again = su_ID target ∨ ToLower (su_Name target) = ToLower (TrimSpace again) →
    Connect env' again d' = (Ok (), d').
Proof.
  intros Hk Hr Hs Ho Hm Hkey Hsave H.
  rewrite (Connect_run env wanted d d1 target pub key Hk Hr Hs Ho Hm Hkey Hsave) in H.
  unfold onHub in H. simpl in H. destruct (hc_join _ _ _ (d_world d1)) as [r' w] eqn:E. injection H as <- <-.
  split; [done|].
  pose proof (ConnectionOf_asked env target pub key d1 (st_data (d_state d))) as Hc.
  split; [eexists; split_and!; [apply Hc|done..]|].
  intros env' again Hagain. simpl.
  destruct (connectionFor_known (ρ_of (t_env env')) (d_state (with_data (asked env target pub key (st_data (d_state d))) d1))
              again (su_ID target) _ Hc) as [c Hfor].
  { destruct Hagain as [->|Hn]; [by left|by right]. }
  eapply Connect_known. exact Hfor.
Qed.

(** Asking by the beginning of an id is not recognised as asking again: it
    throws away the connection this machine has, certificate and key, and
    files a new request in its place. *)
Theorem prefix_starts_over env wanted (d d1 : Machine) target pub key held :
  connectionFor (ρ_of (t_env env)) (d_state d) wanted = None →
  resolveInstance wanted d = (Ok target, d1) → d_state d1 = d_state d →
  OwnedOf (d_state d) (su_ID target) = None →
  ConnectionOf (d_state d) (su_ID target) = Some held → Ready held = true →
  GenerateMemberKey (member_keys env) = Ok (pub, key) → save_fault (t_env env) = None →
  ∃ conn, ConnectionOf (d_state (Connect env wanted d).2) (su_ID target) = Some conn ∧
    Ready conn = false ∧ cn_Certificate conn = "" ∧ cn_PrivateKey conn = key.
Proof.
  intros Hk Hr Hs Ho Hheld _ Hkey Hsave.
  rewrite (Connect_run env wanted d d1 target pub key Hk Hr Hs Ho); [|revert Hheld; unfold ConnectionOf, mlookup; by destruct (dt_Connections _)|done..].
  unfold onHub. destruct (hc_join _ _ _ _) as [r w]. simpl.
  eexists. split_and!; [apply (ConnectionOf_asked env target pub key d1 (st_data (d_state d)))|done..].
Qed.

End Joining.
