(* ===== verification/SocketSpec.v ===== *)
(** * What the control socket lets be done, and by whom

    A request is operations of the daemon, or reads it, and the file belongs
    to the machine's owner.  That private keys do not cross the socket unasked
    is in [SecretSpec]. *)

From Stdlib Require Import Ascii.
From S2P Require Export RunSpec Socket.

Open Scope Z_scope.

(** ** Requests are operations *)

Section Control.
Context {W : Type} `{HW : HubClient W} `{HL : CertLib} `{HB : Build} `{HU : Urls} `{HJ : SocketJson}.
Abbreviation Machine := (Daemon W).

(** What a request asks to be done, in order; nothing of those that only look. *)
Definition control_ops (x : Control) (body : string) : list DOp :=
  match x with
  | XStatus | XList | XMembers | XReach | XShow | XConfig | XPending | XRestart => []
  | XCreate => match read_create body with Some q => [DCreate (eq_Name q) (eq_SharedToken q)] | None => [] end
  | XConnect => match read_connect body with Some q => [DConnect (cq_Instance q); DRefresh] | None => [] end
  | XDisconnect => match read_connect body with Some q => [DDisconnect (cq_Instance q)] | None => [] end
  | XApprove => match read_approve body with
                | Some q => [DApprove (aq_ID q) (aq_Routes q) (aq_NoDomain q) (aq_Name q)] | None => [] end
  | XReject => match read_decision body with Some q => [DReject (dq_ID q) (dq_Reason q)] | None => [] end
  | XForget => match read_decision body with Some q => [DForget (dq_ID q)] | None => [] end
  | XBan => match read_member body with Some q => [DBan q] | None => [] end
  | XUnban => match read_member body with Some q => [DUnban q] | None => [] end
  | XRemoveMember => match read_member body with Some q => [DRemove q] | None => [] end
  | XSetToken => match read_token body with Some q => [DSetToken (tq_Instance q) (tq_Token q)] | None => [] end
  | XFamilies => match read_families body with Some q => [DFamilies (fq_Families q); DRefresh] | None => [] end
  | XCheat => match read_cheat body with
              | Some q => [DCheat (hq_Vendor q) (hq_Name q) (hq_On q); DRefresh] | None => [] end
  | XDNSPlan => match read_dns body with
                | Some q => match lookupMode (nq_Mode q) with Ok _ => [DPlan (nq_Remove q)] | _ => [] end
                | None => []
                end
  | XAlias => match read_alias body with Some q => [DAlias (lq_Alias q) (lq_Canonical q)] | None => [] end
  | XInbound => match read_inbound body with Some q => [DInbound (iq_Inbound q); DRefresh] | None => [] end
  | XDelete => match read_delete body with Some q => [DDelete (xq_Instance q) (xq_Force q)] | None => [] end
  end.
(** The endpoints that only look. *)
Definition looks (x : Control) : bool :=
  match x with
  | XStatus | XList | XMembers | XReach | XShow | XConfig | XPending | XRestart => true
  | _ => false
  end.
Definition run_dops (env : TEnv) (ops : list DOp) (d : Machine) : Machine := foldl (λ d op, (run_dop env op d).2) d ops.
(** Some operations one after the other, up to the first that goes wrong. *)
Definition carry_out (env : TEnv) (ops : list DOp) : M Machine () := eachM (run_dop env) ops.
Lemma carry_out_prefix env ops (d : Machine) :
  ∃ done, done `prefix_of` ops ∧ (carry_out env ops d).2 = run_dops env done d.
Proof.
  revert d. induction ops as [|op ops IH]; intros d; [by exists []|]. unfold carry_out. simpl. unfold bindM.
  destruct (run_dop env op d) as [[[]|e|] d1] eqn:E.
  - destruct (IH d1) as (done&Hd&Hr). exists (op :: done). split; [by apply prefix_cons|]. simpl. by rewrite E.
  - exists [op]. split; [by exists ops|]. simpl. by rewrite E.
  - exists [op]. split; [by exists ops|]. simpl. by rewrite E.
Qed.
(** All of the machine but what its calls did to the world behind the hub. *)
Definition kept_machine (d d' : Machine) : Prop :=
  d_state d' = d_state d ∧ d_run d' = d_run d ∧ d_routers d' = d_routers d.

(** *** Reading *)

Definition reads {A} (c : M Machine A) : Prop := ∀ d, kept_machine d (c d).2.
Lemma reads_bind {A B} (c : M Machine A) (k : A → M Machine B) : reads c → (∀ a, reads (k a)) → reads (bindM c k).
Proof.
  intros Hc Hk d. unfold bindM. specialize (Hc d). destruct (c d) as [[a|e|] d1]; [|done..].
  destruct Hc as (?&?&?), (Hk a d1) as (?&?&?). split_and!; etrans; done.
Qed.
Lemma reads_try {A B} (c : M Machine A) (k : A + error → M Machine B) : reads c → (∀ a, reads (k a)) → reads (tryM c k).
Proof.
  intros Hc Hk d. unfold tryM. specialize (Hc d).
  destruct (c d) as [[a|e|] d1]; [specialize (Hk (inl a) d1)|specialize (Hk (inr e) d1)|done];
    destruct Hc as (?&?&?), Hk as (?&?&?); split_and!; etrans; done.
Qed.
Lemma reads_ret {A} (a : A) : reads (retM a).
Proof. by intros d. Qed.
Lemma reads_raise {A} e : reads (raise (A := A) e).
Proof. by intros d. Qed.
Lemma reads_get : reads getM.
Proof. by intros d. Qed.
Lemma reads_readState {A} (f : State → A) : reads (readState f).
Proof. by intros d. Qed.
Lemma reads_liftR {A} (r : res A) : reads (liftR r).
Proof. by intros d. Qed.
Lemma reads_onHub {A} (c : M W A) : reads (onHub c).
Proof. intros d. unfold onHub. by destruct (c (d_world d)). Qed.
Lemma reads_collect {A B} (f : A → M Machine (list B)) l : (∀ a, reads (f a)) → reads (collectM f l).
Proof.
  intros Hf. induction l as [|a l IH]; simpl; [apply reads_ret|]. apply reads_bind; [done|]. intros x.
  apply reads_bind; [done|]. intros y. apply reads_ret.
Qed.
Ltac reads :=
  repeat match goal with
  | |- reads (retM _) => apply reads_ret
  | |- reads (raise _) => apply reads_raise
  | |- reads getM => apply reads_get
  | |- reads (readState _) => apply reads_readState
  | |- reads (liftR _) => apply reads_liftR
  | |- reads (onHub _) => apply reads_onHub
  | |- reads (bindM _ _) => apply reads_bind
  | |- reads (tryM _ _) => apply reads_try
  | |- reads (collectM _ _) => apply reads_collect
  | |- reads (match ?x with _ => _ end) => destruct x
  | |- ∀ _, _ => intros ?
  end.
Lemma reads_pending env : reads (PendingAll env).
Proof. unfold PendingAll. reads. Qed.
Lemma reads_config env ref keys : reads (ConnectionConfig env ref keys).
Proof. unfold ConnectionConfig. reads. Qed.
Lemma reads_status env : reads (handleStatus env).
Proof. unfold handleStatus, status_entry. reads. apply reads_pending. Qed.

(** *** Doing *)

(** A handler that does some operations: its answer is one of [good] when
    they all went well, and the error of the one that did not. *)
Definition works (env : TEnv) (h : M Machine control_reply) (ops : list DOp) (good : control_reply → Prop) : Prop :=
  ∀ d, match carry_out env ops d with
       | (Ok _, d') => ∃ a, h d = (Ok a, d') ∧ good a
       | (Err e, d') => h d = (Ok (writeError e), d')
       | (Panic, d') => h d = (Panic, d')
       end.
Lemma carry_out_one env op (d : Machine) :
  carry_out env [op] d = match run_dop env op d with (Ok _, d') => (Ok (), d') | r => r end.
Proof. unfold carry_out. simpl. unfold bindM. by destruct (run_dop env op d) as [[[]|e|] d']. Qed.
Lemma works_tried {A} env (c : M Machine A) (k : A + error → M Machine control_reply) op good :
  (∀ d, run_dop env op d = ignored c d) →
  (∀ e d, k (inr e) d = (Ok (writeError e), d)) → (∀ a d, ∃ r, k (inl a) d = (Ok r, d) ∧ good r) →
  works env (tryM c k) [op] good.
Proof.
  intros Hr He Hk d. rewrite carry_out_one, Hr. unfold ignored, bindM, tryM.
  destruct (c d) as [[a|e|] d']; simpl; [apply Hk|apply He|done].
Qed.
Lemma works_answered {A} env (c : M Machine A) (k : A → control_reply) op (good : control_reply → Prop) :
  (∀ d, run_dop env op d = ignored c d) → (∀ a, good (k a)) → works env (answered c k) [op] good.
Proof. intros Hr Hk. apply works_tried; [done|done|]. intros a d. eexists. split; [done|apply Hk]. Qed.
Lemma ignored_unit (c : M Machine ()) d : c d = ignored c d.
Proof. unfold ignored, bindM. by destruct (c d) as [[[]|e|] d']. Qed.

(** A round of refreshing reports no error. *)
Lemma logged_no_error {S} (c : M S ()) s e : (logged c s).1 ≠ Err e.
Proof. unfold logged, tryM. by destruct (c s) as [[[]|?|] ?]. Qed.
Lemma refresh_one_no_error env conn (d : Machine) e : (refresh_one env conn d).1 ≠ Err e.
Proof.
  unfold refresh_one. destruct (negb (Ready conn)); [apply logged_no_error|].
  unfold tryM. destruct (onHub _ d) as [[table|e'|] d1]; [|done..].
  unfold bindM. cbn [readState fst]. destruct (logged _ d1) as [[[]|e2|] d2] eqn:E; [|by pose proof (logged_no_error (onRouters (startRouter env (Aliases (d_state d1)) conn table)) d1 e2); rewrite E in *|done].
  cbn [getM]. destruct (negb _); apply logged_no_error.
Qed.
Lemma eachM_no_error {S A} (f : A → M S ()) l s e : (∀ a s, (f a s).1 ≠ Err e) → (eachM f l s).1 ≠ Err e.
Proof.
  intros Hf. revert s. induction l as [|a l IH]; intros s; simpl; [done|]. unfold bindM. specialize (Hf a s).
  destruct (f a s) as [[[]|e'|] s']; [apply IH|done..].
Qed.
Lemma Refresh_no_error env (d : Machine) e : (Refresh env d).1 ≠ Err e.
Proof. unfold Refresh, bindM. cbn [readState]. apply eachM_no_error. intros conn d1. apply refresh_one_no_error. Qed.
Lemma works_refreshed {A} env (c : M Machine A) (k : State → control_reply) op (good : control_reply → Prop) :
  (∀ d, run_dop env op d = ignored c d) → (∀ s, good (k s)) →
  works env (refreshed env c k) [op; DRefresh] good.
Proof.
  intros Hr Hk d. unfold carry_out, refreshed. simpl. unfold tryM, bindM. rewrite Hr. unfold ignored, bindM.
  destruct (c d) as [[a|e|] d1]; [|done..]. simpl. pose proof (Refresh_no_error env d1) as Hn.
  destruct (Refresh env d1) as [[[]|e|] d2]; [|by destruct (Hn e)|done]. simpl. eexists. split; [done|apply Hk].
Qed.

Lemma reads_answered {A} (c : M Machine A) k : reads c → reads (answered c k).
Proof. intros Hc. apply reads_try; [done|]. intros r. apply reads_ret. Qed.
Lemma reads_decode {A} (f : string → option A) body k : (∀ q, reads (k q)) → reads (decode_body f body k).
Proof. intros Hk. unfold decode_body. destruct (f body); [done|apply reads_ret]. Qed.
Lemma reads_control env x body : looks x = true → reads (handle_control env x body).
Proof.
  destruct x; try done; intros _; cbn [handle_control].
  - apply reads_status.
  - apply reads_answered, reads_onHub.
  - apply reads_answered. unfold MembersAll. reads.
  - apply reads_answered. unfold Reachable, reach_one. reads.
  - apply reads_decode. intros q. apply reads_answered. unfold Show. reads.
  - apply reads_decode. intros q. apply reads_answered, reads_config.
  - apply reads_answered, reads_pending.
Qed.
(** A body that asks nothing of an endpoint that changes something is refused. *)
Lemma control_refused env x body (d : Machine) :
  looks x = false → control_ops x body = [] → ∃ e, handle_control env x body d = (Ok (writeError e), d).
Proof.
  destruct x; try done; intros _; cbn [control_ops handle_control];
    unfold handleCreate, handleConnect, handleDisconnect, handleApprove, Socket.handleReject,
    Socket.handleForget, Socket.handleBan, Socket.handleUnban, Socket.handleRemoveMember, Socket.handleSetToken, handleFamilies, handleCheat,
    handleDNSPlan, handleAlias, handleInbound, handleDelete, decode_body;
    match goal with |- context [match ?x with Some _ => _ | None => _ end] => destruct x as [q|] end; try done;
    try (intros _; by eexists).
  unfold lookupMode. destruct (find_first _ _); [done|]. intros _. by eexists.
Qed.
(** An answer of success: 200 with a value, or 204 with none. *)
Definition well_answered (r : control_reply) : Prop := (r.1 = StatusOK ∧ ∀ e, r.2 ≠ AError e) ∨ r = nothing.
Lemma control_works env x body :
  control_ops x body ≠ [] → works env (handle_control env x body) (control_ops x body) well_answered.
Proof.
  destruct x; try done; cbn [control_ops handle_control];
    unfold handleCreate, handleConnect, handleDisconnect, handleApprove, Socket.handleReject,
    Socket.handleForget, Socket.handleBan, Socket.handleUnban, Socket.handleRemoveMember, Socket.handleSetToken, handleFamilies, handleCheat,
    handleDNSPlan, handleAlias, handleInbound, handleDelete, decode_body;
    match goal with |- context [match ?x with Some _ => _ | None => _ end] => destruct x as [q|] end; try done; intros Hne.
  all: try (apply works_refreshed; [first [done|intros; apply ignored_unit]|intros; by left]; fail).
  all: try (apply works_answered; [first [done|intros; apply ignored_unit]|intros; first [by right|by left]]; fail).
  - apply works_tried; [done|done|]. intros [created token] d. eexists. split; [done|by left].
  - destruct (lookupMode (nq_Mode q)); try done. apply works_answered; [done|intros; by left].
  - apply works_tried; [intros; apply ignored_unit|done|]. intros [] d. eexists. split; [done|by left].
Qed.
(** A request leaves the machine as the operations it carried out did, or
    only read it. *)
Definition does (env : TEnv) (ops : list DOp) (d d' : Machine) : Prop :=
  match ops with [] => kept_machine d d' | _ => d' = (carry_out env ops d).2 end.
Lemma control_does env x body d : does env (control_ops x body) d (handle_control env x body d).2.
Proof.
  destruct (looks x) eqn:Hx.
  - assert (control_ops x body = []) as -> by by destruct x. by apply reads_control.
  - pose proof (control_works env x body) as Hw. pose proof (control_refused env x body d Hx) as Hr.
    destruct (control_ops x body) as [|op ops]; [by destruct Hr as [e ->]|]. unfold does.
    specialize (Hw ltac:(done) d). destruct (carry_out env (op :: ops) d) as [[u|e|] d']; [by destruct Hw as (a&->&_)|by rewrite Hw..].
Qed.

(** *** Sessions *)

Record request : Type := mkRequestTo { sq_env : TEnv; sq_Method : string; sq_Path : string; sq_Body : string }.
Definition serve_request (d : Machine) (q : request) : Machine :=
  (serve_control (sq_env q) (sq_Method q) (sq_Path q) (sq_Body q) d).2.
Definition session (reqs : list request) (d : Machine) : Machine := foldl serve_request d reqs.

Lemma serve_state env method path body (d : Machine) :
  (serve_control env method path body d).2 =
    match find_control Cheating method path with Some x => (handle_control env x body d).2 | None => d end.
Proof.
  unfold serve_control. destruct (find_control _ _ _) as [x|]; [|done].
  unfold bindM. by destruct (handle_control env x body d) as [[[]|e|]].
Qed.
Lemma run_dops_foldl env ops (d : Machine) : run_dops env ops d = foldl (λ d eo, (run_dop eo.1 eo.2 d).2) d (pair env <$> ops).
Proof. unfold run_dops. revert d. by induction ops as [|op ops IH]; intros d; simpl. Qed.
Lemma does_rendered env ops (d d' : Machine) : does env ops d d' → rendered_runs (d_run d) → rendered_runs (d_run d').
Proof.
  intros Hd Hr. destruct ops as [|op ops]; [destruct Hd as (_&->&_); done|].
  hnf in Hd. destruct (carry_out_prefix env (op :: ops) d) as (done&_&E). rewrite Hd, E, run_dops_foldl. by apply runs_rendered.
Qed.
Lemma session_rendered reqs (d : Machine) : rendered_runs (d_run d) → rendered_runs (d_run (session reqs d)).
Proof.
  revert d. induction reqs as [|q reqs IH]; intros d H; [done|]. simpl. apply IH. unfold serve_request.
  rewrite serve_state. destruct (find_control _ _ _) as [x|]; [|done]. by eapply does_rendered; [apply control_does|].
Qed.
Lemma does_trace env ops (d d' : Machine) t :
  does env ops d d' → (∃ l, trace (l ++ t) (d_state d)) → ∃ l, trace (l ++ t) (d_state d').
Proof.
  intros Hd Ht. destruct ops as [|op ops]; [destruct Hd as (->&_); done|]. hnf in Hd.
  destruct (carry_out_prefix env (op :: ops) d) as (done&_&E). rewrite Hd, E. clear Hd E.
  assert (∀ env fn s, data_op fn → (∃ l, trace (l ++ t) s) → ∃ l, trace (l ++ t) (Write env fn s).2) as HI.
  { intros e fn s Hop [l Hl]. eexists (_ :: l). by apply trace_write. }
  unfold run_dops. revert d Ht. induction done as [|o done IH]; intros d Ht; simpl; [done|]. apply IH.
  apply (keeps_dop (λ s, ∃ l, trace (l ++ t) s) HI (λ _, True)) with (K := λ _, True); [done..|apply hub_keeps_True|done].
Qed.

(** Only the endpoint of the configuration answers with one. *)
Lemma answered_kind {A} (c : M Machine A) k d st a d' :
  answered c k d = (Ok (st, a), d') → (∃ v, c d = (Ok v, d') ∧ (st, a) = k v) ∨ ∃ e, a = AError e.
Proof.
  unfold answered, tryM. destruct (c d) as [[v|e|] d1]; simpl; [|by intros [= <- <- <-]; right; eexists|done].
  intros [= E <-]. left. by eexists.
Qed.
Lemma refreshed_kind {A} env (c : M Machine A) k d st a d' :
  refreshed env c k d = (Ok (st, a), d') → (∃ s, (st, a) = k s) ∨ ∃ e, a = AError e.
Proof.
  unfold refreshed, tryM. destruct (c d) as [[v|e|] d1]; [|by intros [= <- <- <-]; right; eexists|done].
  intros H. apply bindM_Ok in H as (u&d2&_&H). apply readState_Ok in H as [E _]. left. by eexists.
Qed.
Lemma config_answer env x body d st live shown d' :
  handle_control env x body d = (Ok (st, AConfig live shown), d') →
  ∃ q, x = XConfig ∧ read_config body = Some q ∧
    ConnectionConfig env (gq_Instance q) (gq_ShowKeys q) d = (Ok (live, shown), d').
Proof.
  intros H. destruct x; cbn [handle_control] in H;
    unfold handleList, handleMembers, handleReach, Socket.handlePending, handleShow, handleCreate, handleConnect, handleDisconnect,
      handleApprove, Socket.handleReject, Socket.handleForget, Socket.handleBan, Socket.handleUnban, Socket.handleRemoveMember,
      Socket.handleSetToken, handleFamilies, handleCheat, handleDNSPlan, handleAlias, handleInbound, handleDelete, handleRestart,
      handleConfig, decode_body in H;
    try match type of H with context [match ?x with Some _ => _ | None => _ end] => destruct x as [q|] eqn:Eq end; try done.
  all: try (apply answered_kind in H as [(v&_&[=])|(e&[=])]; fail).
  all: try (apply refreshed_kind in H as [(s&[=])|(e&[=])]).
  - exfalso. unfold handleStatus in H. apply bindM_Ok in H as (s&d1&_&H). apply bindM_Ok in H as (entries&d2&_&H).
    apply bindM_Ok in H as (pending&d3&_&H). discriminate H.
  - apply answered_kind in H as [([l c]&Hc&[= _ -> ->])|(e&[=])]. by exists q.
  - exfalso. unfold tryM in H. destruct (Create _ _ _ d) as [[[created token]|e|] d1]; discriminate H.
  - exfalso. destruct (lookupMode (nq_Mode q)); [|discriminate H..].
    apply answered_kind in H as [(v&_&[=])|(e&[=])].
  - exfalso. unfold tryM in H. destruct (SetAlias _ _ _ d) as [[[]|e|] d1]; discriminate H.
Qed.

(** C14: a request to the control socket is operations of the daemon.  The one
    endpoint that fits decides which; they are done in their order, the second
    only when the first went well, and nothing else happens.  The answer is one
    of success exactly when all of them went well; otherwise it is 400 with the
    error of the one that failed, or none when that one panicked.  An endpoint
    that only looks leaves the state, what runs and the routers alone; a body
    that asks nothing of one that changes something is answered with an error
    and a path nobody serves with 404 or 405, and both leave everything as it
    was.  Whatever is asked in a session, the state only goes through the
    writes of [trace].  And in a build that does not allow the workarounds no
    request reaches the endpoint that sets them. *)
Theorem control_drives_the_daemon :
  (∀ env method path body (d : Machine),
     let served := serve_control env method path body d in
     let replied st a := Ok (mkSocketReply VersionString st a false) in
     match find_control Cheating method path with
     | Some x =>
         if looks x then kept_machine d served.2 else
         match control_ops x body with
         | [] => ∃ e, served = (replied StatusBadRequest (AError e), d)
         | ops =>
             match carry_out env ops d with
             | (Ok _, d') => ∃ st a, served = (replied st a, d') ∧ well_answered (st, a)
             | (Err e, d') => served = (replied StatusBadRequest (AError e), d')
             | (Panic, d') => served = (Panic, d')
             end
         end
     | None => served = (replied StatusNotFound ANothing, d) ∨ served = (replied StatusMethodNotAllowed ANothing, d)
     end) ∧
  (∀ reqs (d : Machine) t, trace t (d_state d) → ∃ l, trace (l ++ t) (d_state (session reqs d))) ∧
  (Cheating = false → ∀ method path, find_control Cheating method path ≠ Some XCheat).
Proof.
  split_and!.
  - intros env method path body d. cbv zeta. unfold serve_control. destruct (find_control _ _ _) as [x|] eqn:Hf.
    2: { destruct (existsb _ _); [by right|by left]. }
    destruct (looks x) eqn:Hx.
    { pose proof (serve_state env method path body d) as E. unfold serve_control in E. rewrite Hf in E. rewrite E. by apply reads_control. }
    assert (match x with XRestart => true | _ => false end = false) as -> by by destruct x.
    pose proof (control_works env x body) as Hw. pose proof (control_refused env x body d Hx) as Hr. unfold bindM.
    destruct (control_ops x body) as [|op ops]; [destruct Hr as [e ->]; [done|]; by exists e|]. specialize (Hw ltac:(done) d).
    destruct (carry_out env (op :: ops) d) as [[u|e|] d']; [|by rewrite Hw..].
    destruct Hw as ([st a]&->&Hg). by exists st, a.
  - intros reqs d t Ht. assert (∃ l, trace (l ++ t) (d_state d)) as H by by exists []. clear Ht. revert d H.
    induction reqs as [|q reqs IH]; intros d H; [done|]. simpl. apply IH. unfold serve_request. rewrite serve_state.
    destruct (find_control _ _ _) as [x|]; [|done]. by eapply does_trace; [apply control_does|].
  - intros -> method path. unfold find_control. intros H. apply fmap_Some in H as ([e x]&H&E). simpl in E. subst x.
    apply find_first_Some in H as [H _]. cbn in H. repeat (apply elem_of_cons in H as [[= ]|H]). by apply elem_of_nil in H.
Qed.

End Control.

(** ** Whose the socket is *)

(** The socket is its owner's.  Once the daemon takes requests, the file is
    there with mode 0600, given to the user who registered the machine, or the
    daemon's own when nobody but root did: that user and root can connect, and
    nobody else, whatever groups they are in.  Where it could not be handed
    over, there is no socket; and in the moment before, others are kept out
    when the mask of the daemon takes their right to write. *)
Theorem socket_is_the_owners (env : SocketEnv) (s : State) (path : string) (fs fs' : sockets) (r : res ()) :
  open_socket env s path fs = (r, fs') →
  match r with
  | Ok _ => ∃ f, fs' !! path = Some f ∧ so_mode f = 384 ∧
      so_uid f = (if 0 <? dt_OwnerUID (st_data s) then dt_OwnerUID (st_data s) else se_uid env) ∧
      ∀ uid gid, may_connect uid gid f = true ↔ uid = 0 ∨ uid = so_uid f
  | _ => se_mkdir env = None → fs' !! path = None
  end ∧
  (∀ p, p ≠ path → fs' !! p = fs !! p) ∧
  (Z.testbit (se_umask env) 4 = true → Z.testbit (se_umask env) 1 = true →
   let f := mkSocketFile (se_uid env) (se_gid env) (Z.ldiff 511 (se_umask env)) in
   ∀ uid gid, may_connect uid gid f = true → uid = 0 ∨ uid = se_uid env).
Proof.
  intros H.
  assert ((∀ uid gid, may_connect uid gid (mkSocketFile (se_uid env) (se_gid env) (Z.ldiff 511 (se_umask env))) = true →
             Z.testbit (se_umask env) 4 = true → Z.testbit (se_umask env) 1 = true → uid = 0 ∨ uid = se_uid env)) as Hmask.
  { intros uid gid. unfold may_connect. cbn [so_uid so_gid so_mode]. intros Hc H4 H1. revert Hc.
    rewrite !Z.ldiff_spec, H4, H1, !andb_false_r.
    destruct (Z.eqb_spec uid 0) as [->|]; [by left|]. destruct (Z.eqb_spec uid (se_uid env)) as [->|]; [by right|].
    by destruct (gid =? se_gid env). }
  assert (∀ u g uid gid, may_connect uid gid (mkSocketFile u g 384) = true ↔ uid = 0 ∨ uid = u) as H600.
  { intros u g uid gid. unfold may_connect. cbn [so_uid so_gid so_mode].
    destruct (Z.eqb_spec uid 0); [naive_solver|]. destruct (Z.eqb_spec uid u); [naive_solver|].
    simpl. destruct (gid =? g); naive_solver. }
  split; [|split; [|by eauto]]; clear Hmask; unfold open_socket, applySocketPermissions, faulty, tryM, bindM, retM, raise, modify in H.
  - destruct (se_mkdir env) as [e1|]; [by simplify_eq|]. destruct (se_listen env) as [e2|].
    { simplify_eq. intros _. apply lookup_delete_eq. }
    destruct (0 <? dt_OwnerUID (st_data s)), (se_chown env) as [e3|], (se_chmod env) as [e4|]; simplify_eq;
      try (intros _; apply lookup_delete_eq).
    all: eexists; (split; [repeat rewrite lookup_alter_eq; by rewrite lookup_insert_eq|]); (split; [done|]); (split; [done|]); apply H600.
  - intros p Hp. destruct (se_mkdir env) as [e1|]; [by simplify_eq|]. destruct (se_listen env) as [e2|].
    { simplify_eq. by rewrite lookup_delete_ne. }
    destruct (0 <? dt_OwnerUID (st_data s)), (se_chown env) as [e3|], (se_chmod env) as [e4|]; simplify_eq;
      by rewrite ?lookup_delete_ne, ?lookup_alter_ne, ?lookup_insert_ne, ?lookup_delete_ne by done.
Qed.
