(* ===== verification/SecretSpec.v ===== *)
(** * What the private keys of a machine can be told by

    Two machines that differ in nothing but private keys answer every request
    to their control sockets alike: a relation between computations, closed
    under the ways they are put together, that every operation of the daemon
    is in. *)

From Stdlib Require Import Ascii.
From S2P Require Export SocketSpec.

Open Scope Z_scope.

(** ** Computations that cannot be told apart *)

(** The same outcome, up to a relation of what is returned. *)
Definition res_rel {A B} (R : A → B → Prop) (x : res A) (y : res B) : Prop :=
  match x, y with
  | Ok a, Ok b => R a b
  | Err e, Err e' => e = e'
  | Panic, Panic => True
  | _, _ => False
  end.
(** From states that are related to outcomes and states that are. *)
Definition sim {S A B} (L : relation S) (R : A → B → Prop) (c1 : M S A) (c2 : M S B) : Prop :=
  ∀ s1 s2, L s1 s2 → res_rel R (c1 s1).1 (c2 s2).1 ∧ L (c1 s1).2 (c2 s2).2.

Section Sim.
Context {S : Type} (L : relation S).
Lemma res_rel_eq {A} (r : res A) : res_rel eq r r.
Proof. by destruct r. Qed.
Lemma res_rel_eq_inv {A} (x y : res A) : res_rel eq x y → x = y.
Proof. destruct x, y; simpl; intros H; by subst. Qed.
Lemma sim_ret {A B} (R : A → B → Prop) a b : R a b → sim L R (retM a) (retM b).
Proof. by intros H s1 s2. Qed.
Lemma sim_raise {A B} (R : A → B → Prop) e : sim L R (raise e) (raise e).
Proof. by intros s1 s2. Qed.
Lemma sim_panic {A B} (R : A → B → Prop) : sim L R panic panic.
Proof. by intros s1 s2. Qed.
Lemma sim_get : sim L L getM getM.
Proof. by intros s1 s2. Qed.
Lemma sim_lift {A B} (R : A → B → Prop) r1 r2 : res_rel R r1 r2 → sim L R (liftR r1) (liftR r2).
Proof. by intros H s1 s2. Qed.
Lemma sim_lift_eq {A} (r : res A) : sim L eq (liftR r) (liftR r).
Proof. apply sim_lift, res_rel_eq. Qed.
Lemma sim_outcome {A} (r : res A) : sim L eq (λ s, (r, s)) (λ s, (r, s)).
Proof. intros s1 s2 H. split; [apply res_rel_eq|done]. Qed.
Lemma sim_guard b e : sim L eq (guard b e) (guard b e).
Proof. intros s1 s2 H. unfold guard. by destruct b. Qed.
Lemma sim_modify f1 f2 : (∀ s1 s2, L s1 s2 → L (f1 s1) (f2 s2)) → sim L eq (modify f1) (modify f2).
Proof. intros Hf s1 s2 H. split; [done|]. by apply Hf. Qed.
Lemma sim_bind {A B A' B'} (R : A → B → Prop) (R' : A' → B' → Prop) c1 c2 k1 k2 :
  sim L R c1 c2 → (∀ a b, R a b → sim L R' (k1 a) (k2 b)) → sim L R' (bindM c1 k1) (bindM c2 k2).
Proof.
  intros Hc Hk s1 s2 H. unfold bindM. specialize (Hc s1 s2 H) as [Hr Hs].
  destruct (c1 s1) as [[a|e|] s1'], (c2 s2) as [[b|e'|] s2']; simpl in *; try done. by apply Hk.
Qed.
Lemma sim_try {A B A' B'} (R : A → B → Prop) (R' : A' → B' → Prop) c1 c2 k1 k2 :
  sim L R c1 c2 → (∀ a b, R a b → sim L R' (k1 (inl a)) (k2 (inl b))) → (∀ e, sim L R' (k1 (inr e)) (k2 (inr e))) →
  sim L R' (tryM c1 k1) (tryM c2 k2).
Proof.
  intros Hc Hk He s1 s2 H. unfold tryM. specialize (Hc s1 s2 H) as [Hr Hs].
  destruct (c1 s1) as [[a|e|] s1'], (c2 s2) as [[b|e'|] s2']; simpl in *; try done; [by apply Hk|subst; by apply He].
Qed.
Lemma sim_logged c1 c2 : sim L eq c1 c2 → sim L eq (logged c1) (logged c2).
Proof. intros H. eapply sim_try; [exact H|..]; intros; by apply sim_ret. Qed.
Lemma sim_each {A B} (Q : A → B → Prop) f1 f2 l1 l2 :
  Forall2 Q l1 l2 → (∀ a b, Q a b → sim L eq (f1 a) (f2 b)) → sim L eq (eachM f1 l1) (eachM f2 l2).
Proof.
  intros HQ Hf. induction HQ as [|a b l1 l2 Hab _ IH]; simpl; [by apply sim_ret|].
  eapply sim_bind; [by apply Hf|done].
Qed.
Lemma sim_collect {A B C} (Q : A → B → Prop) (f1 : A → M S (list C)) f2 l1 l2 :
  Forall2 Q l1 l2 → (∀ a b, Q a b → sim L eq (f1 a) (f2 b)) → sim L eq (collectM f1 l1) (collectM f2 l2).
Proof.
  intros HQ Hf. induction HQ as [|a b l1 l2 Hab _ IH]; simpl; [by apply sim_ret|].
  eapply sim_bind; [by apply Hf|]. intros x _ <-. eapply sim_bind; [exact IH|]. intros y _ <-. by apply sim_ret.
Qed.
Lemma sim_ignored {A B} (R : A → B → Prop) c1 c2 : sim L R c1 c2 → sim L eq (ignored c1) (ignored c2).
Proof. intros H. eapply sim_bind; [exact H|]. intros. by apply sim_ret. Qed.
End Sim.

Lemma Forall2_same {A} (l : list A) : Forall2 eq l l.
Proof. by induction l; constructor. Qed.
Lemma fmap_Forall2 {A B} (f : A → B) l1 l2 : f <$> l1 = f <$> l2 → Forall2 (λ a b, f a = f b) l1 l2.
Proof. intros H. apply Forall2_fmap_1. rewrite H. apply Forall2_same. Qed.

(** ** Data without its keys *)

Definition hide_conn (c : Connection) : Connection := with_key RedactedKey c.
Definition with_ca (k : string) (o : Owned) : Owned := mkOwned (ow_InstanceID o) (ow_Name o) (ow_CACert o) k (ow_SharedToken o).
Definition hide_map {A} (f : A → A) (m : gomap A) : gomap A := match m with Some m => Some (f <$> m) | None => None end.
Definition hide_run (r : runner) : runner := mkRunner (rn_instance r) (RedactTree (rn_raw r)).

Lemma hidden_conn a b : hide_conn a = hide_conn b → ∃ k, a = with_key k b.
Proof. intros H. exists (cn_PrivateKey a). destruct a, b. unfold hide_conn, with_key in *. simpl in *. by injection H as -> -> -> -> -> -> -> -> -> -> -> -> -> ->. Qed.
Lemma hide_with_key k c : hide_conn (with_key k c) = hide_conn c.
Proof. done. Qed.
Lemma mget_hide {A} (f : A → A) m : mget (hide_map f m) = f <$> mget m.
Proof. destruct m; simpl; [done|]. by rewrite fmap_empty. Qed.
Lemma mlookup_hide {A} (f : A → A) m k : mlookup (hide_map f m) k = f <$> mlookup m k.
Proof. unfold mlookup. by rewrite mget_hide, lookup_fmap. Qed.
Lemma mdelete_hide {A} (f : A → A) m k : hide_map f (mdelete m k) = mdelete (hide_map f m) k.
Proof. destruct m; simpl; [|done]. by rewrite fmap_delete. Qed.
Lemma mget_hidden {A} (f : A → A) m1 m2 : hide_map f m1 = hide_map f m2 → f <$> mget m1 = f <$> mget m2.
Proof. intros H. by rewrite <-!mget_hide, H. Qed.
Lemma mlookup_hidden {A} (f : A → A) m1 m2 k : hide_map f m1 = hide_map f m2 → f <$> mlookup m1 k = f <$> mlookup m2 k.
Proof. intros H. by rewrite <-!mlookup_hide, H. Qed.

(** Which element of a map comes when does not depend on what is filed under
    the keys. *)
Definition walks_blind (ρ : Range) : Prop :=
  ∀ A B (f : A → B) (m : gmap string A), range ρ (f <$> m) = prod_map id f <$> range ρ m.
Lemma range_default_blind : walks_blind range_default.
Proof. intros A B f m. simpl. apply map_to_list_fmap. Qed.
Lemma walked_alike {A} (ρ : Range) (f : A → A) m1 m2 :
  walks_blind ρ → f <$> m1 = f <$> m2 → Forall2 (λ a b, f a = f b) (range ρ m1).*2 (range ρ m2).*2.
Proof.
  intros Hρ H. apply fmap_Forall2. assert (∀ m : gmap string A, f <$> (range ρ m).*2 = (range ρ (f <$> m)).*2) as E.
  { intros m. rewrite Hρ, <-!list_fmap_compose. by apply list_fmap_ext. }
  by rewrite !E, H.
Qed.

#[export] Instance Control_eq_dec : EqDecision Control.
Proof. solve_decision. Defined.

(** ** Machines that differ in their keys *)

Section Keys.
Context {W : Type} `{HW : HubClient W} `{HL : CertLib} `{HB : Build} `{HU : Urls} `{HJ : SocketJson}.
Abbreviation Machine := (Daemon W).
(** Whether the keys of the authorities may differ too. *)
Context (ca : bool).

Definition hide_owned (o : Owned) : Owned := if ca then with_ca RedactedKey o else o.
(** Everything but the keys and who the machine is to the hub. *)
Definition plain_fields (d : data) :=
  (dt_HubURL d, dt_Binder d, dt_Name d, dt_Insecure d, dt_Pin d, dt_Families d, dt_Inbound d, dt_Cheats d, dt_Aliases d,
   (dt_Owner d, dt_OwnerUID d, dt_OwnerGID d)).
Record data_alike (x y : data) : Prop := {
  al_plain : plain_fields x = plain_fields y;
  al_Owned : hide_map hide_owned (dt_Owned x) = hide_map hide_owned (dt_Owned y);
  al_Connections : hide_map hide_conn (dt_Connections x) = hide_map hide_conn (dt_Connections y);
}.
Definition file_alike (f g : option data) : Prop :=
  match f, g with Some x, Some y => data_alike x y | None, None => True | _, _ => False end.
Definition state_alike (s1 s2 : State) : Prop := data_alike (st_data s1) (st_data s2) ∧ file_alike (st_file s1) (st_file s2).
Definition runs_alike (r1 r2 : runners) : Prop := hide_run <$> r1 = hide_run <$> r2.
(** The two hold the same, run the same and see the same world, except for the
    private keys: of the connections, in the configurations that run, of the
    identity, and of the authorities if [ca]. *)
Definition differ_in_keys (d1 d2 : Machine) : Prop :=
  state_alike (d_state d1) (d_state d2) ∧ runs_alike (d_run d1) (d_run d2) ∧
  d_routers d1 = d_routers d2 ∧ d_world d1 = d_world d2.
Let L : relation Machine := differ_in_keys.

Lemma hidden_owned a b : hide_owned a = hide_owned b → ∃ k, a = with_ca k b ∧ (ca = false → a = b).
Proof.
  intros H. exists (ow_CAKey a). destruct a, b. unfold hide_owned, with_ca in *.
  destruct ca; simpl in *; [|by split; [injection H as -> -> -> -> ->|done]]. split; [|done]. by injection H as -> -> -> ->.
Qed.

(** *** Reaching one part *)

Lemma sim_hub {A} (c : M W A) : sim L eq (onHub c) (onHub c).
Proof.
  intros d1 d2 (Hs&Hr&Hro&Hw). unfold onHub. rewrite Hw. destruct (c (d_world d2)) as [r w]. split; [apply res_rel_eq|].
  by split_and!.
Qed.
Lemma sim_state {A} (R : A → A → Prop) c1 c2 : sim state_alike R c1 c2 → sim L R (onState c1) (onState c2).
Proof.
  intros Hc d1 d2 (Hs&Hr&Hro&Hw). unfold onState. specialize (Hc _ _ Hs).
  destruct (c1 (d_state d1)), (c2 (d_state d2)). destruct Hc. split; [done|]. by split_and!.
Qed.
Lemma sim_run {A} (R : A → A → Prop) c1 c2 : sim runs_alike R c1 c2 → sim L R (onRun c1) (onRun c2).
Proof.
  intros Hc d1 d2 (Hs&Hr&Hro&Hw). unfold onRun. specialize (Hc _ _ Hr).
  destruct (c1 (d_run d1)), (c2 (d_run d2)). destruct Hc. split; [done|]. by split_and!.
Qed.
Lemma sim_routers {A} (c : M routers A) : sim L eq (onRouters c) (onRouters c).
Proof.
  intros d1 d2 (Hs&Hr&Hro&Hw). unfold onRouters. rewrite Hro. destruct (c (d_routers d2)). split; [apply res_rel_eq|].
  by split_and!.
Qed.
Lemma sim_read {A} (R : A → A → Prop) f : (∀ s1 s2, state_alike s1 s2 → R (f s1) (f s2)) → sim L R (readState f) (readState f).
Proof. intros Hf d1 d2 H. split; [|done]. apply Hf, H. Qed.
Lemma sim_Write env fn1 fn2 : sim data_alike eq fn1 fn2 → sim state_alike eq (Write env fn1) (Write env fn2).
Proof.
  intros Hf s1 s2 [Hd Hfile]. unfold Write, save_state. specialize (Hf _ _ Hd).
  destruct (fn1 (st_data s1)) as [[[]|e|] x], (fn2 (st_data s2)) as [[[]|e'|] y]; simpl in Hf; try (by destruct Hf).
  destruct Hf as [_ Hxy]. by destruct (save_fault env).
Qed.

(** *** What is read out of the state *)

Lemma plain_alike {A} (f : data → A) x y :
  (∀ x y, plain_fields x = plain_fields y → f x = f y) → data_alike x y → f x = f y.
Proof. intros Hf []. by apply Hf. Qed.
Ltac plain := intros; eapply plain_alike; [|eassumption];
  let x := fresh in let y := fresh in intros x y; destruct x, y; unfold plain_fields; simpl; intros; by simplify_eq/=.
Lemma conn_lookup x y id : data_alike x y →
  match mlookup (dt_Connections x) id, mlookup (dt_Connections y) id with
  | Some a, Some b => ∃ k, a = with_key k b
  | None, None => True
  | _, _ => False
  end.
Proof.
  intros H. pose proof (mlookup_hidden _ _ _ id (al_Connections _ _ H)) as E.
  destruct (mlookup (dt_Connections x) id), (mlookup (dt_Connections y) id); try done. apply (inj Some) in E. by apply hidden_conn.
Qed.
Definition conns_alike (l1 l2 : list Connection) : Prop := Forall2 (λ a b, ∃ k, a = with_key k b) l1 l2.
Lemma Connections_alike ρ s1 s2 : walks_blind ρ → state_alike s1 s2 → conns_alike (Connections ρ s1) (Connections ρ s2).
Proof.
  intros Hρ [H _]. eapply Forall2_impl; [apply (walked_alike ρ hide_conn); [done|]|intros; by apply hidden_conn].
  apply mget_hidden, H.
Qed.
Definition owned_alike (a b : Owned) : Prop := ∃ k, a = with_ca k b ∧ (ca = false → a = b).
Lemma ownedList_alike ρ s1 s2 : walks_blind ρ → state_alike s1 s2 → Forall2 owned_alike (ownedList ρ s1) (ownedList ρ s2).
Proof.
  intros Hρ [H _]. eapply Forall2_impl; [apply (walked_alike ρ hide_owned); [done|]|intros; by apply hidden_owned].
  apply mget_hidden, H.
Qed.
Definition opt_alike {A} (R : A → A → Prop) (a b : option A) : Prop :=
  match a, b with Some a, Some b => R a b | None, None => True | _, _ => False end.
Lemma OwnedOf_alike id s1 s2 : state_alike s1 s2 → opt_alike owned_alike (OwnedOf s1 id) (OwnedOf s2 id).
Proof.
  intros [H _]. pose proof (mlookup_hidden _ _ _ id (al_Owned _ _ H)) as E. unfold OwnedOf.
  destruct (mlookup (dt_Owned (st_data s1)) id), (mlookup (dt_Owned (st_data s2)) id); try done. apply (inj Some) in E.
  by apply hidden_owned.
Qed.
Lemma find_conn_alike (p : Connection → bool) l1 l2 : (∀ k c, p (with_key k c) = p c) → conns_alike l1 l2 →
  opt_alike (λ a b, ∃ k, a = with_key k b) (find_first p l1) (find_first p l2).
Proof.
  intros Hp. induction 1 as [|a b l1 l2 [k ->] _ IH]; simpl; [done|]. rewrite Hp. destruct (p b); [by exists k|done].
Qed.
Lemma connectionFor_alike ρ ref s1 s2 : walks_blind ρ → state_alike s1 s2 →
  opt_alike (λ a b, ∃ k, a = with_key k b) (connectionFor ρ s1 ref) (connectionFor ρ s2 ref).
Proof.
  intros Hρ H. unfold connectionFor, ConnectionOf. pose proof (conn_lookup _ _ ref (proj1 H)) as Hl.
  destruct (mlookup (dt_Connections (st_data s1)) ref), (mlookup (dt_Connections (st_data s2)) ref); try done.
  apply find_conn_alike; [done|]. by apply Connections_alike.
Qed.
Lemma choicesOf_alike s1 s2 : state_alike s1 s2 → choicesOf s1 = choicesOf s2.
Proof.
  intros [H _]. unfold choicesOf, Families, Inbound, Cheat.
  replace (dt_Families (st_data s1)) with (dt_Families (st_data s2)) by (symmetry; revert H; plain).
  replace (dt_Inbound (st_data s1)) with (dt_Inbound (st_data s2)) by (symmetry; revert H; plain).
  by replace (dt_Cheats (st_data s1)) with (dt_Cheats (st_data s2)) by (symmetry; revert H; plain).
Qed.
Lemma Aliases_alike s1 s2 : state_alike s1 s2 → Aliases s1 = Aliases s2.
Proof.
  intros [H _]. unfold Aliases. by replace (dt_Aliases (st_data s1)) with (dt_Aliases (st_data s2)) by (symmetry; revert H; plain).
Qed.
Lemma Name_alike s1 s2 : state_alike s1 s2 → dt_Name (st_data s1) = dt_Name (st_data s2).
Proof. intros [H _]. revert H. plain. Qed.
Lemma hubAddress_alike s1 s2 : state_alike s1 s2 → hubAddress s1 = hubAddress s2.
Proof.
  intros [H _]. unfold hubAddress. replace (dt_Pin (st_data s1)) with (dt_Pin (st_data s2)) by (symmetry; revert H; plain).
  by replace (dt_HubURL (st_data s1)) with (dt_HubURL (st_data s2)) by (symmetry; revert H; plain).
Qed.
Lemma run_lookup_alike r1 r2 id : runs_alike r1 r2 →
  opt_alike (λ a b, hide_run a = hide_run b) (r1 !! id) (r2 !! id).
Proof.
  intros H. assert (hide_run <$> (r1 !! id) = hide_run <$> (r2 !! id)) as E.
  { etrans; [symmetry; apply lookup_fmap|]. etrans; [|apply lookup_fmap]. exact (f_equal (lookup id) H). }
  destruct (r1 !! id), (r2 !! id); try done. by apply (inj Some) in E.
Qed.
Lemma isRunning_alike r1 r2 id : runs_alike r1 r2 → run_isRunning r1 id = run_isRunning r2 id.
Proof.
  intros H. pose proof (run_lookup_alike r1 r2 id H) as Hl. unfold run_isRunning. apply bool_decide_ext.
  destruct (r1 !! id), (r2 !! id); try done; split; intros _; by eexists.
Qed.

(** *** Looking *)

Section Env.
Context (env : TEnv) (Hρ : walks_blind (ρ_of (t_env env))).

Lemma sim_conns : sim L conns_alike (readState (Connections (ρ_of (t_env env)))) (readState (Connections (ρ_of (t_env env)))).
Proof. apply sim_read. intros. by apply Connections_alike. Qed.
Lemma sim_owned : sim L (Forall2 owned_alike) (readState (ownedList (ρ_of (t_env env)))) (readState (ownedList (ρ_of (t_env env)))).
Proof. apply sim_read. intros. by apply ownedList_alike. Qed.
(** A call of the hub, and what is made of its answer. *)
Lemma sim_asked {A B} (R : B → B → Prop) (c : M W A) (k1 k2 : A + error → M Machine B) :
  (∀ r, sim L R (k1 r) (k2 r)) → sim L R (tryM (onHub c) k1) (tryM (onHub c) k2).
Proof. intros H. eapply sim_try; [apply sim_hub|intros a _ <-; apply H|intros; apply H]. Qed.
Lemma sim_bind_eq {A B} (R : B → B → Prop) (c : M Machine A) (k1 k2 : A → M Machine B) :
  sim L eq c c → (∀ a, sim L R (k1 a) (k2 a)) → sim L R (bindM c k1) (bindM c k2).
Proof. intros Hc Hk. eapply sim_bind; [exact Hc|]. intros a _ <-. apply Hk. Qed.
Lemma sim_ret_eq {A} (a : A) : sim L eq (retM a) (retM a).
Proof. by apply sim_ret. Qed.
Lemma entries_of_alike k o records : entries_of (with_ca k o) records = entries_of o records.
Proof. induction records as [|r records IH]; simpl; [done|]. by rewrite IH. Qed.
Lemma sim_PendingAll : sim L eq (PendingAll env) (PendingAll env).
Proof.
  eapply sim_bind; [apply sim_owned|]. intros l1 l2 Hl. eapply sim_collect; [exact Hl|]. intros _ o (k&->&_).
  apply sim_asked. intros [records|e]; [|apply sim_ret_eq]. rewrite entries_of_alike. apply sim_lift_eq.
Qed.
Lemma sim_MembersAll : sim L eq (MembersAll env) (MembersAll env).
Proof.
  eapply sim_bind; [apply sim_conns|]. intros l1 l2 Hl. eapply sim_collect; [exact Hl|]. intros _ c [k ->].
  apply sim_asked. intros [ms|e]; apply sim_ret_eq.
Qed.
Lemma sim_get_machine {B} (R : B → B → Prop) (k1 k2 : Machine → M Machine B) :
  (∀ d1 d2, L d1 d2 → sim L R (k1 d1) (k2 d2)) → sim L R (bindM getM k1) (bindM getM k2).
Proof. intros H. eapply sim_bind; [apply sim_get|exact H]. Qed.
Lemma sim_Reachable : sim L eq (Reachable env) (Reachable env).
Proof.
  eapply sim_bind; [apply sim_conns|]. intros l1 l2 Hl. apply sim_bind with (R := eq).
  - eapply sim_collect; [exact Hl|]. intros _ c [k ->]. unfold reach_one. change (Ready (with_key k c)) with (Ready c).
    destruct (negb (Ready c)); [apply sim_ret_eq|]. apply sim_asked. intros [table|e]; [|apply sim_ret_eq].
    apply sim_get_machine. intros d1 d2 (_&_&Hro&_). rewrite Hro. apply sim_ret_eq.
  - intros out _ <-. apply sim_ret_eq.
Qed.
Lemma sim_Show wanted : sim L eq (Show wanted) (Show wanted).
Proof.
  apply sim_bind_eq; [apply sim_hub|]. intros instances. destruct (find_first _ _) as [inst|]; [|apply sim_raise].
  eapply sim_bind; [apply sim_read, OwnedOf_alike|]. intros o1 o2 Ho.
  apply sim_bind_eq; [apply sim_read, hubAddress_alike|]. intros [hubURL hubPin].
  destruct o1 as [o1|], o2 as [o2|]; try done. destruct Ho as (k&->&_). apply sim_ret_eq.
Qed.
Lemma render_alike k conn table local :
  res_rel (λ a b, RedactTree a = RedactTree b) (renderConfig (with_key k conn) table local) (renderConfig conn table local).
Proof.
  pose proof (redacted_render conn table local k) as H.
  destruct (renderConfig (with_key k conn) table local), (renderConfig conn table local); simpl in *; by simplify_eq.
Qed.
(** A configuration is shown alike, and shows the key only when asked to. *)
Lemma sim_Config ref keys : sim L (λ a b, keys = false → a = b) (ConnectionConfig env ref keys) (ConnectionConfig env ref keys).
Proof.
  eapply sim_bind; [apply sim_read; intros; by apply connectionFor_alike|]. intros o1 o2 Ho.
  destruct o1 as [c1|], o2 as [c2|]; try done. destruct Ho as (k&->).
  apply sim_get_machine. intros d1 d2 (_&Hrun&_).
  apply sim_bind with (R := λ a b : bool * tree, a.1 = b.1 ∧ RedactTree a.2 = RedactTree b.2).
  - change (cn_InstanceID (with_key k c2)) with (cn_InstanceID c2).
    pose proof (run_lookup_alike _ _ (cn_InstanceID c2) Hrun) as Hl. unfold run_loaded.
    destruct (d_run d1 !! cn_InstanceID c2) as [r1|], (d_run d2 !! cn_InstanceID c2) as [r2|]; simpl; try done.
    + apply sim_ret. split; [done|]. by injection Hl as _ Hl.
    + apply sim_bind_eq; [apply sim_hub|]. intros table. apply sim_bind_eq; [apply sim_read, choicesOf_alike|]. intros local.
      eapply sim_bind; [apply sim_lift, render_alike|]. intros a b Hab. by apply sim_ret.
  - intros [live1 raw1] [live2 raw2] [[= ->] Hraw]. simpl in Hraw. apply sim_ret. intros ->. by rewrite Hraw.
Qed.
Lemma sim_status_entry k conn : sim L eq (status_entry (with_key k conn)) (status_entry conn).
Proof.
  apply sim_get_machine. intros d1 d2 (Hs&Hrun&_). apply sim_bind with (R := eq).
  { apply sim_asked. intros [table|e]; apply sim_ret_eq. }
  intros routes _ <-. simpl. pose proof (OwnedOf_alike (cn_InstanceID conn) _ _ Hs) as Ho.
  rewrite (isRunning_alike _ _ _ Hrun), (hubAddress_alike _ _ Hs).
  destruct (OwnedOf (d_state d1) _) as [o1|], (OwnedOf (d_state d2) _) as [o2|]; try done.
  destruct Ho as (ko&->&_). apply sim_ret_eq.
Qed.
Lemma sim_handleStatus : sim L eq (handleStatus env) (handleStatus env).
Proof.
  eapply sim_bind; [apply sim_read with (R := state_alike); done|]. intros s1 s2 Hs.
  apply sim_bind with (R := eq).
  { eapply sim_collect; [by apply Connections_alike|]. intros _ c [k ->]. apply sim_status_entry. }
  intros entries _ <-. apply sim_bind with (R := eq).
  { eapply sim_try; [apply sim_PendingAll|intros a _ <-; apply sim_ret_eq|intros; apply sim_ret_eq]. }
  intros pending _ <-. apply sim_ret. destruct Hs as [[Hp Ho Hc] _]. unfold Families, Inbound, CheatsOn.
  destruct s1 as [x f], s2 as [y g]. simpl in *. destruct x, y. unfold plain_fields in Hp. simpl in *. by simplify_eq/=.
Qed.

(** *** Running *)

Lemma insert_run_alike id r1 r2 x y :
  runs_alike r1 r2 → hide_run x = hide_run y → runs_alike (<[id := x]> r1) (<[id := y]> r2).
Proof.
  intros H Hxy. unfold runs_alike, runners in *. etrans; [apply fmap_insert|]. etrans; [|symmetry; apply fmap_insert].
  by rewrite H, Hxy.
Qed.
Lemma sim_run_start e k conn table local : sim runs_alike eq (run_start e (with_key k conn) table local) (run_start e conn table local).
Proof.
  eapply sim_bind; [apply sim_get|]. intros r1 r2 Hr. change (cn_InstanceID (with_key k conn)) with (cn_InstanceID conn).
  pose proof (run_lookup_alike _ _ (cn_InstanceID conn) Hr) as Hl.
  destruct (r1 !! cn_InstanceID conn) as [a|], (r2 !! cn_InstanceID conn) as [b|]; try done.
  eapply sim_bind; [apply sim_lift, render_alike|]. intros t1 t2 Ht. destruct (nebula_start e); [apply sim_raise|].
  apply sim_modify. intros s1 s2 Hs. apply insert_run_alike; [done|]. unfold hide_run. simpl. by rewrite Ht.
Qed.
Lemma sim_run_reload e k conn table local : sim runs_alike eq (run_reload e (with_key k conn) table local) (run_reload e conn table local).
Proof.
  eapply sim_bind; [apply sim_get|]. intros r1 r2 Hr. change (cn_InstanceID (with_key k conn)) with (cn_InstanceID conn).
  pose proof (run_lookup_alike _ _ (cn_InstanceID conn) Hr) as Hl.
  destruct (r1 !! cn_InstanceID conn) as [a|], (r2 !! cn_InstanceID conn) as [b|]; try done.
  eapply sim_bind; [apply sim_lift, render_alike|]. intros t1 t2 Ht. destruct (nebula_reload e); [apply sim_raise|].
  apply sim_modify. intros s1 s2 Hs. apply insert_run_alike; [done|]. injection Hl as Hi _. unfold hide_run. simpl. by rewrite Ht, Hi.
Qed.
Lemma sim_run_stop id : sim runs_alike eq (run_stop id) (run_stop id).
Proof.
  apply sim_modify. intros s1 s2 Hs. unfold runs_alike, runners in *. etrans; [apply fmap_delete|].
  etrans; [|symmetry; apply fmap_delete]. by rewrite Hs.
Qed.
Lemma sim_held k conn r1 r2 held l1 l2 : runs_alike r1 r2 → conns_alike l1 l2 →
  sim L eq (held_by_others (with_key k conn) r1 held l1) (held_by_others conn r2 held l2).
Proof.
  intros Hr Hl. revert held. induction Hl as [|a b l1 l2 [ka ->] _ IH]; intros held; simpl; [apply sim_ret_eq|].
  rewrite (isRunning_alike _ _ _ Hr). destruct (_ || _); [apply IH|]. apply sim_asked. intros [table|e]; apply IH.
Qed.
Lemma sim_startConnection k conn table : sim L eq (startConnection env (with_key k conn) table) (startConnection env conn table).
Proof.
  apply sim_get_machine. intros d1 d2 (Hs&Hr&_). apply sim_bind with (R := eq).
  { apply sim_held; [done|]. by apply Connections_alike. }
  intros held _ <-. change (cn_Name (with_key k conn)) with (cn_Name conn). destruct (collides _ _ _ _); [apply sim_raise|].
  apply sim_bind_eq; [apply sim_read, choicesOf_alike|]. intros local. apply sim_run, sim_run_start.
Qed.

(** *** Data *)

Lemma choices_alike f i c a x y : data_alike x y →
  data_alike (set_choices f i c a x) (set_choices f i c a y).
Proof.
  intros [H1 H2 H3]. split; [|done..]. destruct x, y. unfold plain_fields in *. simpl in *. by simplify_eq/=.
Qed.
Lemma conns_alike_set x y m m' : data_alike x y → hide_map hide_conn m = hide_map hide_conn m' →
  data_alike (set_Connections m x) (set_Connections m' y).
Proof. by intros [H1 H2 H3]. Qed.
Lemma owned_alike_set x y m m' : data_alike x y → hide_map hide_owned m = hide_map hide_owned m' →
  data_alike (set_Owned m x) (set_Owned m' y).
Proof. by intros [H1 H2 H3]. Qed.
Lemma massign_hidden {A} (f : A → A) m m' k a b : hide_map f m = hide_map f m' → f a = f b →
  match massign m k a, massign m' k b with
  | Some m, Some m' => hide_map f m = hide_map f m'
  | None, None => True
  | _, _ => False
  end.
Proof.
  intros H Hab. destruct m as [m|], m' as [m'|]; try done. simpl in *. injection H as H. f_equal.
  by rewrite !fmap_insert, H, Hab.
Qed.
Lemma sim_put a b : hide_conn a = hide_conn b → sim data_alike eq (put_connection a) (put_connection b).
Proof.
  intros Hab x y H. unfold put_connection, assignD. replace (cn_InstanceID a) with (cn_InstanceID b) by (by destruct (hidden_conn _ _ Hab) as [k ->]).
  pose proof (massign_hidden _ _ _ (cn_InstanceID b) _ _ (al_Connections _ _ H) Hab) as Hm.
  destruct (massign (dt_Connections x) _ _), (massign (dt_Connections y) _ _); try done. split; [done|]. by apply conns_alike_set.
Qed.
Lemma nextDevice_alike x y : data_alike x y → nextDevice x = nextDevice y.
Proof.
  intros H. unfold nextDevice, devices_of. do 2 f_equal.
  assert (∀ m : gmap string Connection, cn_Device <$> (map_to_list m).*2 = cn_Device <$> (map_to_list (hide_conn <$> m)).*2) as E.
  { intros m. rewrite map_to_list_fmap, <-!list_fmap_compose. by apply list_fmap_ext. }
  by rewrite E, (mget_hidden _ _ _ (al_Connections _ _ H)), <-E.
Qed.
Lemma hide_insert {A} (f : A → A) (m m' : gomap A) k a b : hide_map f m = hide_map f m' → f a = f b →
  hide_map f (<[k := a]> <$> m) = hide_map f (<[k := b]> <$> m').
Proof.
  intros H Hab. destruct m as [m|], m' as [m'|]; try done. simpl in *. injection H as H. f_equal. by rewrite !fmap_insert, H, Hab.
Qed.

(** *** Refreshing *)

Lemma sim_collect_fn id b : sim data_alike eq (collect_fn env id b) (collect_fn env id b).
Proof.
  eapply sim_bind; [apply sim_get|]. intros x y H. pose proof (conn_lookup _ _ id H) as Hl.
  destruct (mlookup (dt_Connections x) id) as [c1|], (mlookup (dt_Connections y) id) as [c2|]; try done.
  destruct Hl as [k ->]. apply sim_modify. intros x' y' H'. apply conns_alike_set; [done|].
  apply hide_insert; [apply H'|done].
Qed.
Lemma sim_collect_conn k conn : sim L eq (collect env (with_key k conn)) (collect env conn).
Proof.
  apply sim_bind_eq; [apply sim_hub|]. intros r. unfold collect. change (cn_InstanceID (with_key k conn)) with (cn_InstanceID conn).
  repeat (case_match; try apply sim_raise). apply sim_state, sim_Write, sim_collect_fn.
Qed.
Lemma sim_refresh_one k conn : sim L eq (refresh_one env (with_key k conn)) (refresh_one env conn).
Proof.
  unfold refresh_one. change (Ready (with_key k conn)) with (Ready conn).
  destruct (negb (Ready conn)); [apply sim_logged, sim_collect_conn|]. apply sim_asked. intros [table|e]; [|apply sim_ret_eq].
  apply sim_bind_eq; [apply sim_read, Aliases_alike|]. intros aliases. apply sim_bind with (R := eq).
  { apply sim_logged. change (startRouter env aliases (with_key k conn) table) with (startRouter env aliases conn table). apply sim_routers. }
  intros [] [] _. apply sim_get_machine. intros d1 d2 (_&Hr&_). change (cn_InstanceID (with_key k conn)) with (cn_InstanceID conn).
  rewrite (isRunning_alike _ _ _ Hr). destruct (negb _); [apply sim_logged, sim_startConnection|].
  apply sim_bind_eq; [apply sim_read, choicesOf_alike|]. intros local. apply sim_logged, sim_run, sim_run_reload.
Qed.
Lemma sim_Refresh : sim L eq (Refresh env) (Refresh env).
Proof.
  eapply sim_bind; [apply sim_conns|]. intros l1 l2 Hl. eapply sim_each; [exact Hl|]. intros _ c [k ->]. apply sim_refresh_one.
Qed.
Lemma sim_plan_entry remove k conn : sim L eq (plan_entry env remove (with_key k conn)) (plan_entry env remove conn).
Proof.
  unfold plan_entry. change (Ready (with_key k conn)) with (Ready conn). destruct (_ || _); [apply sim_ret_eq|].
  apply sim_asked. intros [table|e]; [|apply sim_ret_eq]. apply sim_bind_eq; [apply sim_read, Aliases_alike|]. intros aliases.
  apply sim_bind with (R := eq); [apply sim_logged, sim_routers|]. intros [] [] _. apply sim_ret_eq.
Qed.
Lemma sim_DNSPlan remove : sim L eq (DNSPlan env remove) (DNSPlan env remove).
Proof.
  eapply sim_bind; [apply sim_conns|]. intros l1 l2 Hl. eapply sim_collect; [exact Hl|]. intros _ c [k ->]. apply sim_plan_entry.
Qed.

(** *** What is set *)

(** The choices are the same on both sides, and can be changed alike. *)
Lemma set_choices_alike (g : data → string * string * gomap bool * gomap string) x y :
  (∀ x y, plain_fields x = plain_fields y → g x = g y) → data_alike x y →
  data_alike (set_choices (g x).1.1.1 (g x).1.1.2 (g x).1.2 (g x).2 x) (set_choices (g y).1.1.1 (g y).1.1.2 (g y).1.2 (g y).2 y).
Proof. intros Hg H. rewrite (Hg x y) by apply H. by apply choices_alike. Qed.
Ltac same_fields := let x := fresh in let y := fresh in intros x y; destruct x, y; unfold plain_fields; simpl; intros; by simplify_eq/=.
Lemma sim_SetFamilies e f : sim L eq (onState (SetFamilies e f)) (onState (SetFamilies e f)).
Proof.
  apply sim_state. unfold SetFamilies. destruct (negb _); [apply sim_raise|]. apply sim_Write, sim_modify. intros x y H.
  apply (set_choices_alike (λ d, (f, dt_Inbound d, dt_Cheats d, dt_Aliases d)) x y); [same_fields|done].
Qed.
Lemma sim_SetInbound e v : sim L eq (onState (SetInbound e v)) (onState (SetInbound e v)).
Proof.
  apply sim_state. unfold SetInbound. destruct (negb _); [apply sim_raise|]. apply sim_Write, sim_modify. intros x y H.
  apply (set_choices_alike (λ d, (dt_Families d, v, dt_Cheats d, dt_Aliases d)) x y); [same_fields|done].
Qed.
Lemma Cheats_alike x y : data_alike x y → dt_Cheats x = dt_Cheats y.
Proof. plain. Qed.
Lemma dt_Aliases_alike x y : data_alike x y → dt_Aliases x = dt_Aliases y.
Proof. plain. Qed.
Lemma sim_cheat_fn vendor name on : sim data_alike eq (cheat_fn vendor name on) (cheat_fn vendor name on).
Proof.
  unfold cheat_fn. destruct (negb on).
  { apply sim_modify. intros x y H.
    apply (set_choices_alike (λ d, (dt_Families d, dt_Inbound d, mdelete (dt_Cheats d) (cheatKey vendor name), dt_Aliases d)) x y);
      [same_fields|done]. }
  apply sim_bind with (R := eq).
  { apply sim_modify. intros x y H.
    apply (set_choices_alike (λ d, (dt_Families d, dt_Inbound d, ensure (dt_Cheats d), dt_Aliases d)) x y); [same_fields|done]. }
  intros [] [] _ x y H. unfold assignD. rewrite (Cheats_alike _ _ H). destruct (massign _ _ _) as [m|]; [|done]. split; [done|].
  apply (set_choices_alike (λ d, (dt_Families d, dt_Inbound d, m, dt_Aliases d)) x y); [same_fields|done].
Qed.
Lemma sim_SetCheat e vendor name on : sim L eq (onState (SetCheat e vendor name on)) (onState (SetCheat e vendor name on)).
Proof. apply sim_state. unfold SetCheat. destruct (negb _); [apply sim_raise|]. apply sim_Write, sim_cheat_fn. Qed.
Lemma sim_alias_fn alias canonical : sim data_alike eq (alias_fn alias canonical) (alias_fn alias canonical).
Proof.
  unfold alias_fn. destruct (decide (canonical = "")).
  { apply sim_modify. intros x y H.
    apply (set_choices_alike (λ d, (dt_Families d, dt_Inbound d, dt_Cheats d, mdelete (dt_Aliases d) alias)) x y); [same_fields|done]. }
  apply sim_bind with (R := eq).
  { apply sim_modify. intros x y H.
    apply (set_choices_alike (λ d, (dt_Families d, dt_Inbound d, dt_Cheats d, ensure (dt_Aliases d))) x y); [same_fields|done]. }
  intros [] [] _ x y H. unfold assignD. rewrite (dt_Aliases_alike _ _ H). destruct (massign _ _ _) as [m|]; [|done]. split; [done|].
  apply (set_choices_alike (λ d, (dt_Families d, dt_Inbound d, dt_Cheats d, m)) x y); [same_fields|done].
Qed.
Lemma sim_known_target target l1 l2 : conns_alike l1 l2 → sim L eq (known_target target l1) (known_target target l2).
Proof.
  induction 1 as [|a b l1 l2 [k ->] _ IH]; simpl; [apply sim_ret_eq|]. change (Ready (with_key k b)) with (Ready b).
  destruct (negb (Ready b)); [done|]. apply sim_asked. intros [table|e]; [|done]. destruct (bool_decide _); [apply sim_ret_eq|done].
Qed.
Lemma sim_SetAlias alias canonical : sim L eq (SetAlias env alias canonical) (SetAlias env alias canonical).
Proof.
  unfold SetAlias, SetAliasState. destruct (_ && _); [apply sim_ret_eq|]. apply sim_bind_eq; [apply sim_lift_eq|]. intros name.
  destruct (decide (canonical = "")); [apply sim_state, sim_Write, sim_alias_fn|].
  apply sim_bind_eq; [apply sim_lift_eq|]. intros target. eapply sim_bind; [apply sim_conns|]. intros l1 l2 Hl.
  apply sim_bind with (R := eq); [by apply sim_known_target|]. intros known _ <-.
  apply sim_bind_eq; [apply sim_guard|]. intros _. apply sim_bind_eq; [apply sim_guard|]. intros _.
  apply sim_state, sim_Write, sim_alias_fn.
Qed.

(** *** What is let go *)

Lemma sim_resolve wanted : sim L eq (resolveInstance wanted) (resolveInstance wanted).
Proof.
  apply sim_bind_eq; [apply sim_hub|]. intros l. destruct (find_first _ _); [apply sim_ret_eq|apply sim_raise].
Qed.
Lemma sim_Disconnect ref : sim L eq (Disconnect env ref) (Disconnect env ref).
Proof.
  eapply sim_bind; [apply sim_read; intros; by apply connectionFor_alike|]. intros o1 o2 Ho.
  destruct o1 as [c1|], o2 as [c2|]; try done. destruct Ho as (k&->). change (cn_InstanceID (with_key k c2)) with (cn_InstanceID c2).
  apply sim_bind_eq; [apply sim_run, sim_run_stop|]. intros _. apply sim_bind_eq; [apply sim_routers|]. intros _.
  apply sim_state, sim_Write, sim_modify. intros x y H. apply conns_alike_set; [done|]. by rewrite !mdelete_hide, (al_Connections _ _ H).
Qed.
Lemma sim_Delete wanted force : sim L eq (DeleteInstance env wanted force) (DeleteInstance env wanted force).
Proof.
  apply sim_bind_eq; [apply sim_resolve|]. intros target. eapply sim_bind; [apply sim_read, OwnedOf_alike|]. intros o1 o2 Ho.
  destruct o1 as [o1|], o2 as [o2|]; try done. apply sim_bind_eq; [apply sim_guard|]. intros _.
  apply sim_bind_eq; [apply sim_hub|]. intros _. apply sim_bind_eq; [apply sim_run, sim_run_stop|]. intros _.
  apply sim_bind_eq; [apply sim_routers|]. intros _. apply sim_bind_eq; [|intros _; apply sim_ret_eq].
  apply sim_state, sim_Write, sim_modify. intros x y H. apply conns_alike_set.
  - apply owned_alike_set; [done|]. by rewrite !mdelete_hide, (al_Owned _ _ H).
  - rewrite !mdelete_hide. simpl. by rewrite (al_Connections _ _ H).
Qed.

(** *** Instances *)

Lemma owned_alike_hidden a b : owned_alike a b → hide_owned a = hide_owned b.
Proof. intros (k&->&He). unfold hide_owned. destruct ca; [done|by apply He]. Qed.
Lemma find_owned_alike (p : Owned → bool) l1 l2 : (∀ k o, p (with_ca k o) = p o) → Forall2 owned_alike l1 l2 →
  opt_alike owned_alike (find_first p l1) (find_first p l2).
Proof.
  intros Hp. induction 1 as [|a b l1 l2 Hab _ IH]; simpl; [done|]. destruct (Hab) as (k&->&_). rewrite Hp. by destruct (p b).
Qed.
Lemma sim_token_fn id token : sim data_alike eq (token_fn id token) (token_fn id token).
Proof.
  apply sim_modify. intros x y H. pose proof (mlookup_hidden _ _ _ id (al_Owned _ _ H)) as E.
  destruct (mlookup (dt_Owned x) id) as [o1|], (mlookup (dt_Owned y) id) as [o2|]; try done.
  apply (inj Some) in E. apply owned_alike_set; [done|]. apply hide_insert; [apply H|].
  destruct (hidden_owned _ _ E) as (k&->&He). unfold hide_owned. destruct ca; [done|]. by rewrite (He eq_refl).
Qed.
Lemma sim_SetToken ref token : sim L eq (SetToken env ref token) (SetToken env ref token).
Proof.
  eapply sim_bind; [apply sim_owned|]. intros l1 l2 Hl.
  set (p := λ o, bool_decide (ow_InstanceID o = ref) || EqualFold (ow_Name o) ref || HasPrefix (ow_InstanceID o) ref).
  pose proof (find_owned_alike p l1 l2 (λ _ _, eq_refl) Hl) as Ho.
  destruct (find_first p l1) as [o1|], (find_first p l2) as [o2|]; try done. destruct Ho as (k&->&_). simpl.
  apply sim_bind_eq; [apply sim_hub|]. intros _. apply sim_bind_eq; [apply sim_state, sim_Write, sim_token_fn|]. intros _.
  apply sim_bind_eq; [apply sim_read, hubAddress_alike|]. intros [hubURL hubPin]. apply sim_ret_eq.
Qed.
Lemma sim_create_fn created name token caPEM caKey pub key cert a a6 :
  sim data_alike eq (create_fn env created name token caPEM caKey pub key cert a a6)
                    (create_fn env created name token caPEM caKey pub key cert a a6).
Proof.
  apply sim_bind with (R := eq).
  { intros x y H. unfold assignD.
    pose proof (massign_hidden hide_owned _ _ (cp_ID created) (mkOwned (cp_ID created) name caPEM caKey token) _ (al_Owned _ _ H) eq_refl) as Hm.
    destruct (massign (dt_Owned x) _ _), (massign (dt_Owned y) _ _); try done. split; [done|]. by apply owned_alike_set. }
  intros [] [] _. eapply sim_bind; [apply sim_get|]. intros x y H. apply sim_put. by rewrite (nextDevice_alike _ _ H).
Qed.
Lemma machineName_alike s1 s2 : state_alike s1 s2 → machineName s1 = machineName s2.
Proof. intros H. unfold machineName. by rewrite (Name_alike _ _ H). Qed.
Lemma sim_Create name token : sim L eq (Create env name token) (Create env name token).
Proof.
  apply sim_bind_eq; [apply sim_hub|]. intros created. apply sim_bind_eq; [apply sim_lift_eq|]. intros [[authority caPEM] caKey].
  apply sim_bind_eq.
  { destruct (SignHost _ _ _); [apply sim_outcome|apply sim_outcome|]. apply (sim_outcome L Panic). }
  intros lighthouseCert. apply sim_bind_eq.
  { apply sim_asked. intros [[]|e]; [apply sim_ret_eq|apply sim_raise]. }
  intros _. apply sim_bind_eq; [apply sim_lift_eq|]. intros [pub key]. apply sim_bind_eq; [apply sim_read, machineName_alike|]. intros machine.
  apply sim_bind_eq; [apply sim_lift_eq|]. intros cert.
  apply sim_bind_eq; [apply sim_state, sim_Write, sim_create_fn|]. intros _. apply sim_ret_eq.
Qed.
(** An instance of its own a machine joins with its authority's key. *)
Lemma sim_rejoin target o : sim L eq (rejoinOwn env target o) (rejoinOwn env target o).
Proof.
  apply sim_bind_eq; [apply sim_lift_eq|]. intros authority. apply sim_bind_eq; [apply sim_hub|]. intros table.
  apply sim_bind_eq; [apply sim_lift_eq|]. intros [pub key]. apply sim_bind_eq; [apply sim_read, Name_alike|]. intros machine.
  apply sim_bind_eq; [apply sim_lift_eq|]. intros cert. apply sim_state, sim_Write. intros x y H.
  apply sim_put; [|done]. by rewrite (nextDevice_alike _ _ H).
Qed.
Lemma sim_Connect wanted : ca = false → sim L eq (Connect env wanted) (Connect env wanted).
Proof.
  intros Hca. eapply sim_bind; [apply sim_read; intros; by apply connectionFor_alike|]. intros o1 o2 Ho.
  destruct o1 as [c1|], o2 as [c2|]; try done.
  apply sim_bind_eq; [apply sim_resolve|]. intros target. eapply sim_bind; [apply sim_read, OwnedOf_alike|]. intros o1 o2 Hown.
  destruct o1 as [o1|], o2 as [o2|]; try done; [destruct Hown as (k&_&He); rewrite (He Hca); apply sim_rejoin|].
  apply sim_bind_eq; [apply sim_lift_eq|]. intros [pub key]. apply sim_bind_eq; [apply sim_read, Name_alike|]. intros name.
  apply sim_bind_eq; [|intros _; apply sim_hub]. apply sim_state, sim_Write. intros x y H.
  apply sim_put; [|done]. by rewrite (nextDevice_alike _ _ H).
Qed.

(** *** Deciding *)

Lemma sim_findPending rid : sim L eq (findPending env rid) (findPending env rid).
Proof. apply sim_bind_eq; [apply sim_PendingAll|]. intros. apply sim_lift_eq. Qed.
Lemma sim_Approve rid routes noDomain wanted : ca = false →
  sim L eq (ApproveRequest env rid routes noDomain wanted) (ApproveRequest env rid routes noDomain wanted).
Proof.
  intros Hca. apply sim_bind_eq; [apply sim_findPending|]. intros entry. eapply sim_bind; [apply sim_read, OwnedOf_alike|]. intros o1 o2 Hown.
  destruct o1 as [o1|], o2 as [o2|]; try done. destruct Hown as (k&_&He). rewrite (He Hca).
  apply sim_bind_eq; [apply sim_lift_eq|]. intros [[[routes' dropped] domain] name].
  apply sim_bind_eq; [apply sim_lift_eq|]. intros authority. apply sim_bind_eq; [apply sim_lift_eq|]. intros name'.
  apply sim_bind_eq; [apply sim_lift_eq|]. intros _. apply sim_bind_eq.
  { destruct (SignHost _ _ _); [apply sim_outcome|apply sim_outcome|]. apply (sim_outcome L Panic). }
  intros cert. apply sim_bind_eq; [apply sim_lift_eq|]. intros issued. apply sim_bind_eq; [apply sim_lift_eq|]. intros fp.
  apply sim_bind_eq; [apply sim_hub|]. intros _. apply sim_ret_eq.
Qed.
Lemma sim_Reject rid reason : sim L eq (RejectRequest env rid reason) (RejectRequest env rid reason).
Proof. apply sim_bind_eq; [apply sim_findPending|]. intros. apply sim_hub. Qed.
Lemma sim_Forget rid : sim L eq (ForgetRequest env rid) (ForgetRequest env rid).
Proof. apply sim_bind_eq; [apply sim_findPending|]. intros. apply sim_hub. Qed.

Definition member_alike (a b : ownedMember) : Prop := owned_alike a.1 b.1 ∧ a.2 = b.2.
Lemma sim_find_members ref instance f1 f2 unread l1 l2 : Forall2 member_alike f1 f2 → Forall2 owned_alike l1 l2 →
  sim L (λ a b, Forall2 member_alike a.1 b.1 ∧ a.2 = b.2) (find_members ref instance f1 unread l1) (find_members ref instance f2 unread l2).
Proof.
  intros Hf Hl. revert f1 f2 unread Hf. induction Hl as [|a b l1 l2 Hab _ IH]; intros f1 f2 unread Hf; simpl; [by apply sim_ret|].
  pose proof Hab as (k&->&_). simpl. destruct (_ && _); [by apply IH|]. apply sim_asked. intros [ms|e]; apply IH; [|done].
  apply Forall2_app; [done|]. apply Forall2_fmap. induction (filter _ ms); by constructor.
Qed.
Lemma sim_findMember ref instance : sim L member_alike (findMember env ref instance) (findMember env ref instance).
Proof.
  unfold findMember. destruct (decide (ref = "")); [apply sim_raise|]. eapply sim_bind; [apply sim_owned|]. intros l1 l2 Hl.
  eapply sim_bind; [by apply sim_find_members|]. intros [f1 u1] [f2 u2] [Hf Hu]. simpl in Hf, Hu. subst u2.
  destruct Hf as [|m1 m2 f1 f2 Hm Hf].
  - destruct u1; [apply sim_raise|]. destruct (decide _); apply sim_raise.
  - destruct Hf; [by apply sim_ret|apply sim_raise].
Qed.
Lemma sim_Ban req : sim L eq (BanMember env req) (BanMember env req).
Proof. eapply sim_bind; [apply sim_findMember|]. intros [o1 m1] [o m2] [(k&E&_) Em]. simpl in E, Em. subst o1 m1. apply sim_hub. Qed.
Lemma sim_Unban req : sim L eq (UnbanMember env req) (UnbanMember env req).
Proof. eapply sim_bind; [apply sim_findMember|]. intros [o1 m1] [o m2] [(k&E&_) Em]. simpl in E, Em. subst o1 m1. apply sim_hub. Qed.
Lemma sim_Remove req : sim L eq (RemoveMemberOf env req) (RemoveMemberOf env req).
Proof.
  eapply sim_bind; [apply sim_findMember|]. intros [o1 m1] [o m2] [(k&E&_) Em]. simpl in E, Em. subst o1 m1.
  apply sim_bind_eq; [apply sim_hub|]. intros. apply sim_ret_eq.
Qed.
End Env.

(** *** Requests *)

Lemma sim_answered {A} (R : A → A → Prop) (c : M Machine A) k : sim L R c c → (∀ a b, R a b → k a = k b) →
  sim L eq (answered c k) (answered c k).
Proof.
  intros Hc Hk. eapply sim_try; [exact Hc|..].
  - intros a b Hab. rewrite (Hk _ _ Hab). by apply sim_ret.
  - intros e. by apply sim_ret.
Qed.
Lemma sim_answered_eq {A} (c : M Machine A) k : sim L eq c c → sim L eq (answered c k) (answered c k).
Proof. intros Hc. eapply sim_answered; [exact Hc|]. by intros a _ <-. Qed.
Lemma sim_refreshed {A} env (c : M Machine A) k : walks_blind (ρ_of (t_env env)) → sim L eq c c →
  (∀ s1 s2, state_alike s1 s2 → k s1 = k s2) → sim L eq (refreshed env c k) (refreshed env c k).
Proof.
  intros Hρ Hc Hk. eapply sim_try; [exact Hc|..].
  - intros a _ <-. apply sim_bind_eq; [by apply sim_Refresh|]. intros _. by apply sim_read.
  - intros e. by apply sim_ret.
Qed.
Lemma sim_decode {A} (f : string → option A) body k (R : control_reply → control_reply → Prop) : (∀ r, R r r) →
  (∀ q, f body = Some q → sim L R (k q) (k q)) → sim L R (decode_body f body k) (decode_body f body k).
Proof. intros HR Hk. unfold decode_body. destruct (f body) as [q|] eqn:E; [by apply Hk|by apply sim_ret]. Qed.

(** Whether a request is for a configuration with its key; and whether what it
    does is signed with the key of an authority. *)
Definition asks_for_keys (x : Control) (body : string) : bool :=
  match x with XConfig => match read_config body with Some q => gq_ShowKeys q | None => false end | _ => false end.
Definition signs (x : Control) : bool := match x with XApprove | XConnect => true | _ => false end.

Lemma state_fields_alike s1 s2 : state_alike s1 s2 →
  Families s1 = Families s2 ∧ Inbound s1 = Inbound s2 ∧ dt_Cheats (st_data s1) = dt_Cheats (st_data s2) ∧ Aliases s1 = Aliases s2.
Proof.
  intros H. split_and!; [..|by apply Aliases_alike].
  - by injection (choicesOf_alike _ _ H).
  - by injection (choicesOf_alike _ _ H).
  - by apply Cheats_alike, H.
Qed.
Lemma sim_weaken {A} (R R' : A → A → Prop) c1 c2 : (∀ a b, R a b → R' a b) → sim L R c1 c2 → sim L R' c1 c2.
Proof.
  intros HR Hc d1 d2 H. destruct (Hc d1 d2 H) as [Hr ?]. split; [|done]. unfold res_rel in *. destruct (c1 d1).1, (c2 d2).1; auto.
Qed.
Lemma sim_handle env x body : walks_blind (ρ_of (t_env env)) → (signs x = true → ca = false) →
  sim L (λ a b, asks_for_keys x body = false → a = b) (handle_control env x body) (handle_control env x body).
Proof.
  intros Hρ Hca.
  assert (x ≠ XConfig → sim L eq (handle_control env x body) (handle_control env x body)) as Hrest.
  { intros Hx. destruct x; try done; cbn [handle_control].
    - by apply sim_handleStatus.
    - apply sim_answered_eq, sim_hub.
    - by apply sim_answered_eq, sim_MembersAll.
    - by apply sim_answered_eq, sim_Reachable.
    - apply sim_decode; [done|]. intros q _. apply sim_answered_eq, sim_Show.
    - by apply sim_answered_eq, sim_PendingAll.
    - apply sim_decode; [done|]. intros q _. eapply sim_try; [apply sim_Create|..].
      + intros [created token] _ <-. apply sim_read. intros s1 s2 H. unfold created_answer. by rewrite (hubAddress_alike _ _ H).
      + intros e. by apply sim_ret.
    - apply sim_decode; [done|]. intros q _. apply sim_refreshed; [done|by apply sim_Connect, Hca|done].
    - apply sim_decode; [done|]. intros q _. by apply sim_answered_eq, sim_Disconnect.
    - apply sim_decode; [done|]. intros q _. apply sim_answered_eq. by apply sim_Approve, Hca.
    - apply sim_decode; [done|]. intros q _. by apply sim_answered_eq, sim_Reject.
    - apply sim_decode; [done|]. intros q _. by apply sim_answered_eq, sim_Forget.
    - apply sim_decode; [done|]. intros q _. by apply sim_answered_eq, sim_Ban.
    - apply sim_decode; [done|]. intros q _. by apply sim_answered_eq, sim_Unban.
    - apply sim_decode; [done|]. intros q _. by apply sim_answered_eq, sim_Remove.
    - apply sim_decode; [done|]. intros q _. by apply sim_answered_eq, sim_SetToken.
    - apply sim_decode; [done|]. intros q _. apply sim_refreshed; [done|apply sim_SetFamilies|].
      intros s1 s2 H. by rewrite (proj1 (state_fields_alike _ _ H)).
    - apply sim_decode; [done|]. intros q _. apply sim_refreshed; [done|apply sim_SetCheat|].
      intros s1 s2 H. unfold Cheat. by rewrite (proj1 (proj2 (proj2 (state_fields_alike _ _ H)))).
    - apply sim_decode; [done|]. intros q _. destruct (lookupMode (nq_Mode q)); [|by apply sim_ret|apply sim_panic].
      by apply sim_answered_eq, sim_DNSPlan.
    - apply sim_decode; [done|]. intros q _. eapply sim_try; [by apply sim_SetAlias|..].
      + intros [] _ <-. apply sim_read. intros s1 s2 H. by rewrite (Aliases_alike _ _ H).
      + intros e. by apply sim_ret.
    - apply sim_decode; [done|]. intros q _. apply sim_refreshed; [done|apply sim_SetInbound|].
      intros s1 s2 H. by rewrite (proj1 (proj2 (state_fields_alike _ _ H))).
    - apply sim_decode; [done|]. intros q _. by apply sim_answered_eq, sim_Delete. }
  destruct (decide (x = XConfig)) as [->|Hx]; [|apply (sim_weaken eq); [by intros ?? ->|by apply Hrest]].
  apply sim_decode; [done|]. intros q Hq. unfold asks_for_keys. rewrite Hq.
  eapply sim_try; [by apply sim_Config|..].
  - intros a b Hab. apply sim_ret. intros Hk. by rewrite (Hab Hk).
  - intros e. by apply sim_ret.
Qed.
Lemma sim_serve env method path body : walks_blind (ρ_of (t_env env)) →
  (∀ x, find_control Cheating method path = Some x → signs x = true → ca = false) →
  sim L (λ a b, (∀ x, find_control Cheating method path = Some x → asks_for_keys x body = false) → a = b)
    (serve_control env method path body) (serve_control env method path body).
Proof.
  intros Hρ Hca. unfold serve_control. destruct (find_control _ _ _) as [x|]; [|by apply sim_ret].
  eapply sim_bind; [apply sim_handle; [done|by apply Hca]|]. intros [st1 a1] [st2 a2] H. apply sim_ret. intros Hk.
  by injection (H (Hk x eq_refl)) as -> ->.
Qed.
End Keys.

Section Socket.
Context {W : Type} `{HW : HubClient W} `{HL : CertLib} `{HB : Build} `{HU : Urls} `{HJ : SocketJson}.
Abbreviation Machine := (Daemon W).

(** A request met by a daemon that walks its maps by their keys; where the keys
    of the authorities may differ too, one that has nothing signed. *)
Definition untelling (ca : bool) (q : request) : Prop :=
  walks_blind (ρ_of (t_env (sq_env q))) ∧
  ∀ x, find_control Cheating (sq_Method q) (sq_Path q) = Some x → signs x = true → ca = false.
Lemma session_alike ca reqs (d1 d2 : Machine) : Forall (untelling ca) reqs → differ_in_keys ca d1 d2 →
  differ_in_keys ca (session reqs d1) (session reqs d2).
Proof.
  intros Hq. revert d1 d2. induction Hq as [|q reqs [Hρ Hs] _ IH]; intros d1 d2 H; [done|]. simpl. apply IH.
  by apply (sim_serve ca (sq_env q) (sq_Method q) (sq_Path q) (sq_Body q) Hρ Hs d1 d2 H).
Qed.
(** An answer with a configuration was asked for, and shows no key unasked. *)
Lemma config_without_key reqs env method path body (d0 d' : Machine) reply live shown :
  d_run d0 = ∅ →
  serve_control env method path body (session reqs d0) = (Ok reply, d') → sr_Body reply = AConfig live shown →
  ∃ q, read_config body = Some q ∧
    (gq_ShowKeys q = false →
     at_path ["pki"; "key"] shown = Some (TStr RedactedKey) ∧
     ∃ conn table local, ∀ k, (let? t := renderConfig (with_key k conn) table local in Ok (RedactTree t)) = Ok shown).
Proof.
  intros H0 H Hb. unfold serve_control in H. destruct (find_control _ _ _) as [x|]; [|by injection H as <- <-].
  apply bindM_Ok in H as ([st a]&d1&Hh&H). injection H as <- <-. simpl in Hb. subst a.
  apply config_answer in Hh as (q&->&Hq&Hc). exists q. split; [done|]. intros Hk. rewrite Hk in Hc.
  eapply shown_without_the_key; [|exact Hc]. apply session_rendered. rewrite H0. apply rendered_none.
Qed.

(** C34: no answer of a machine's control socket depends on a private key,
    except a configuration that is asked for with the key.  Take two machines
    that hold the same, run the same and see the same hub, except for the
    private keys of their connections (in the state, its file and the
    configurations that run) and of their identity: after any session, the same
    on both, every request is answered alike by both, whichever endpoint it is
    for and whether it goes well or not, unless it asks for a configuration with
    [show_keys].  The keys of the authorities they own may differ as well, as
    long as nothing is signed with them: as long as no request is to approve
    or to connect.  And the configuration that is shown unasked holds the
    marker where the key would be, whatever was asked before since the daemon
    started. *)
Theorem key_stays_unless_asked :
  (∀ ca reqs env method path body (d1 d2 : Machine),
     differ_in_keys ca d1 d2 → Forall (untelling ca) (reqs ++ [mkRequestTo env method path body]) →
     (∀ x, find_control Cheating method path = Some x → asks_for_keys x body = false) →
     (serve_control env method path body (session reqs d1)).1 = (serve_control env method path body (session reqs d2)).1) ∧
  (∀ reqs env method path body (d0 d' : Machine) reply live shown,
     d_run d0 = ∅ →
     serve_control env method path body (session reqs d0) = (Ok reply, d') → sr_Body reply = AConfig live shown →
     ∃ q, read_config body = Some q ∧
       (gq_ShowKeys q = false →
        at_path ["pki"; "key"] shown = Some (TStr RedactedKey) ∧
        ∃ conn table local, ∀ k, (let? t := renderConfig (with_key k conn) table local in Ok (RedactTree t)) = Ok shown)).
Proof.
  split; [|exact config_without_key]. intros ca reqs env method path body d1 d2 H [Hq [Hρ Hs]%Forall_singleton]%Forall_app Hk.
  apply res_rel_eq_inv. destruct (sim_serve ca env method path body Hρ Hs _ _ (session_alike ca reqs d1 d2 Hq H)) as [Hr _].
  unfold res_rel in *. destruct (serve_control _ _ _ _ (session reqs d1)).1, (serve_control _ _ _ _ (session reqs d2)).1; auto.
Qed.
End Socket.
