(* ===== verification/ApplySpec.v ===== *)
(** * What applying a plan leaves behind: [internal/tenant/dns.go]

    After [Apply] the files of the program are those of the plan and no
    others, nothing else on the machine changed, and applying once more
    changes nothing. *)

From Stdlib Require Import Ascii.
From S2P Require Export DnsPlan TenantSpec.

Open Scope Z_scope.

(** ** Paths *)

(** The file of each device there can be. *)
Definition unit_file (x : string) : string := networkUnitDir +:+ "/" +:+ unitPrefix +:+ x +:+ unitSuffix.
Definition devices : list string := device <$> seq 0 256.
Lemma networkUnitPath_devices :
  forallb (λ x, bool_decide (networkUnitPath x = unit_file x) && bool_decide (unit_device (unit_file x) = Some x))
    devices = true.
Proof. vm_compute. reflexivity. Qed.
Lemma networkUnitPath_device x : x ∈ devices → networkUnitPath x = unit_file x ∧ unit_device (unit_file x) = Some x.
Proof.
  intros H%list_elem_of_In. pose proof (proj1 (forallb_forall _ _) networkUnitPath_devices x H) as E.
  by apply andb_true_iff in E as [?%bool_decide_eq_true ?%bool_decide_eq_true].
Qed.
Lemma indexl_one c l : indexl [c] l = None → c ∉ l.
Proof.
  induction l as [|x l IH]; simpl; [intros _; apply not_elem_of_nil|].
  case_decide as Hp; [done|]. destruct (indexl [c] l) eqn:E; [done|]. intros _.
  apply not_elem_of_cons. split; [|by apply IH]. intros ->. apply Hp. by exists l.
Qed.
Lemma unit_device_Some path x :
  unit_device path = Some x → path = unit_file x ∧ "/"%char ∉ s2l x.
Proof.
  unfold unit_device, unit_file. destruct (CutPrefix _ _) as [rest|] eqn:E; [|done].
  apply CutPrefix_Some in E as ->. destruct (HasSuffix rest unitSuffix) eqn:Hs; [|done].
  destruct (Contains rest "/") eqn:Hc; [done|]. intros [= <-].
  apply HasSuffix_spec in Hs as (r&->). rewrite TrimSuffix_app. split; [by rewrite !string_app_assoc|].
  unfold Contains, Index in Hc. change (s2l "/") with ["/"%char] in Hc.
  destruct (indexl _ _) eqn:Hi; [done|]. apply indexl_one in Hi. rewrite s2l_app in Hi. set_solver.
Qed.
(** The device a file is about, the way [sweep] reads it off its path. *)
Lemma Base_unit_file x :
  "/"%char ∉ s2l x → TrimSuffix (TrimPrefix (Base (unit_file x)) unitPrefix) unitSuffix = x.
Proof.
  intros Hx. assert (Base (unit_file x) = unitPrefix +:+ x +:+ unitSuffix) as ->.
  { unfold Base, unit_file. rewrite decide_False by done.
    assert (∀ y, TrimRight (y +:+ unitSuffix) "/" = y +:+ unitSuffix) as Ht.
    { intros y. unfold TrimRight, trim_right_by. rewrite s2l_app, rev_app_distr. simpl.
      rewrite rev_involutive. rewrite <-!app_assoc. simpl. rewrite l2s_app, l2s_s2l. done. }
    rewrite <-!string_app_assoc, Ht, !string_app_assoc. rewrite decide_False by done.
    unfold Split. rewrite !s2l_app.
    change (s2l networkUnitDir ++ s2l "/" ++ s2l unitPrefix ++ s2l x ++ s2l unitSuffix)
      with ([] ++ "/"%char :: (s2l "etc" ++ "/"%char :: (s2l "systemd" ++ "/"%char ::
             (s2l "network" ++ "/"%char :: (s2l unitPrefix ++ s2l x ++ s2l unitSuffix))))).
    rewrite !splitl_app_sep by (apply (bool_decide_unpack _); by vm_compute).
    rewrite splitl_no_sep; [|rewrite !elem_of_app; intros [H|[H|H]]; [|done|]; revert H; by apply (bool_decide_unpack _)].
    change (l2s (s2l unitPrefix ++ s2l x ++ s2l unitSuffix) = unitPrefix +:+ x +:+ unitSuffix).
    by rewrite <-!s2l_app, l2s_s2l. }
  unfold TrimPrefix. rewrite HasPrefix_app, s2l_app. unfold len. rewrite drop_app_length, l2s_s2l.
  apply TrimSuffix_app.
Qed.

(** ** Sweeping *)

(** Nothing fails: the binary is there and answers, files can be written and
    removed. *)
Record works (env : REnv) : Prop := {
  wk_resolvectl : has_resolvectl env = true;
  wk_told : ∀ args, resolvectl_fails env args = None;
  wk_write : ∀ path, write_fails env path = None;
  wk_remove : ∀ path, remove_fails env path = false;
}.

(** The files that are about a device that is not kept. *)
Definition stale (keep : gset string) (path : string) : Prop :=
  match unit_device path with Some x => x ∉ keep | None => False end.
#[export] Instance stale_dec keep path : Decision (stale keep path).
Proof. unfold stale. destruct (unit_device path); apply _. Defined.

Lemma elem_globbed s path : path ∈ globbed s ↔ is_Some (units s !! path) ∧ is_Some (unit_device path).
Proof.
  unfold globbed. rewrite sort_strings_perm, list_elem_of_filter, list_elem_of_fmap. split.
  - intros [Hd ([p t]&->&H%elem_of_map_to_list)]. simpl in *. eauto.
  - intros [[t Ht] Hd]. split; [done|]. exists (path, t). split; [done|]. by apply elem_of_map_to_list.
Qed.
Lemma sweep_loop_run env keep files s :
  works env → Forall (λ p, is_Some (unit_device p)) files →
  ∃ s', sweep_loop env keep files s = (Ok (), s') ∧ links s' = links s ∧
    ∀ path, units s' !! path = if decide (stale keep path ∧ path ∈ files) then None else units s !! path.
Proof.
  intros Hw Hf. revert s. induction Hf as [|file files [x Hx] Hf IH]; intros s; simpl.
  { exists s. split_and!; [done..|]. intros path. rewrite decide_False; [done|]. set_solver. }
  destruct (unit_device_Some _ _ Hx) as [-> Hns]. rewrite Base_unit_file by done.
  case_bool_decide as Hk.
  - destruct (IH s) as (s'&E&Hl&Hu). exists s'. split_and!; [done..|]. intros path. rewrite Hu.
    apply decide_ext. rewrite elem_of_cons. split; [naive_solver|]. intros [Hst [->|?]]; [|done].
    unfold stale in Hst. by rewrite Hx in Hst.
  - unfold remove_unit. rewrite (wk_remove _ Hw), bind_modify.
    destruct (IH (mkResolved (delete (unit_file x) (units s)) (links s))) as (s'&E&Hl&Hu).
    exists s'. split_and!; [done..|]. intros path. rewrite Hu. simpl.
    destruct (decide (path = unit_file x)) as [->|Hne].
    + rewrite lookup_delete_eq. rewrite (decide_True (P := stale keep (unit_file x) ∧ unit_file x ∈ unit_file x :: files));
        [by destruct (decide _)|]. split; [|by left]. unfold stale. by rewrite Hx.
    + rewrite lookup_delete_ne by done. apply decide_ext. rewrite elem_of_cons. naive_solver.
Qed.
Lemma sweep_run env keep s :
  works env → ∃ s', sweep env keep s = (Ok (), s') ∧ links s' = links s ∧
    ∀ path, units s' !! path = if decide (stale keep path) then None else units s !! path.
Proof.
  intros Hw. unfold sweep. rewrite bind_get.
  destruct (sweep_loop_run env keep (globbed s) s Hw) as (s'&E&Hl&Hu).
  { apply Forall_forall. intros p Hp%elem_globbed. by destruct Hp. }
  exists s'. split_and!; [done..|]. intros path. rewrite Hu.
  destruct (decide (stale keep path)) as [Hst|Hst]; [|rewrite decide_False; naive_solver].
  destruct (decide (path ∈ globbed s)) as [Hg|Hg]; [by rewrite decide_True|].
  rewrite decide_False by naive_solver. destruct (units s !! path) eqn:E'; [|done]. exfalso. apply Hg.
  apply elem_globbed. split; [done|]. unfold stale in Hst. by destruct (unit_device path).
Qed.

(** ** Entries *)

Definition routing_of (e : DNSEntry) : list string := (λ d, "~" +:+ d) <$> dn_Domains e.
(** What an entry comes to: its file, and what its link is told. *)
Definition unit_of (e : DNSEntry) : option string :=
  if decide (dn_Domains e = []) then None
  else Some (unit_text (dn_Device e) (dn_Servers e) (routing_of e)).
Definition link_of (e : DNSEntry) (before : option (list string * list string)) : option (list string * list string) :=
  if decide (dn_Domains e = []) then before
  else Some (if decide (dn_Servers e = []) then (default ([], []) before).1 else dn_Servers e, routing_of e).
Lemma link_of_twice e o : link_of e (link_of e o) = link_of e o.
Proof. unfold link_of. destruct (decide (dn_Domains e = [])); [done|]. simpl. by destruct (decide (dn_Servers e = [])). Qed.
(** The entry of a device. *)
Definition entry_of (plan : list DNSEntry) (x : string) : option DNSEntry :=
  find_first (λ e, bool_decide (dn_Device e = x)) plan.

Lemma told_twice x l l' s :
  l' ≠ [] →
  links (told "domain" x l' (told "dns" x l s)) =
    <[x := (if decide (l = []) then (default ([], []) (links s !! x)).1 else l, l')]> (links s).
Proof.
  intros Hl'. unfold told. rewrite (decide_False (P := l' = [])) by done.
  destruct (default ([], []) (links s !! x)) as [a b] eqn:E. destruct (decide (l = [])).
  - by rewrite E.
  - simpl. rewrite lookup_insert_eq. simpl. by rewrite insert_insert_eq.
Qed.
Lemma told_units what x l s : units (told what x l s) = units s.
Proof. unfold told. destruct (decide (l = [])); [done|]. by destruct (default _ _). Qed.

Lemma entry_run env e s :
  works env → dn_Device e ∈ devices →
  ∃ s', wrapped (if bool_decide (dn_Domains e = []) then systemdRemove env (dn_Device e)
                 else systemdInstall env (dn_Device e) (dn_Servers e) (dn_Domains e)) s = (Ok (), s') ∧
    (∀ path, units s' !! path = if decide (path = unit_file (dn_Device e)) then unit_of e else units s !! path) ∧
    (∀ x, links s' !! x = if decide (x = dn_Device e) then link_of e (links s !! x) else links s !! x).
Proof.
  intros Hw Hx. destruct (networkUnitPath_device _ Hx) as [Hp _]. unfold wrapped, unit_of, link_of.
  assert (∀ s, haveResolved env s = (Ok (), s)) as Hh by (intros; unfold haveResolved; by rewrite (wk_resolvectl _ Hw)).
  assert (∀ what l s, resolvectl env what (dn_Device e) l s = (Ok (), told what (dn_Device e) l s)) as Ht
    by (intros; unfold resolvectl; by rewrite (wk_told _ Hw)).
  case_bool_decide as Hd.
  - unfold systemdRemove. rewrite (bind_run _ _ _ _ _ (Hh _)). unfold remove_unit. rewrite (wk_remove _ Hw), bind_modify.
    rewrite (bind_run _ _ _ _ _ (Ht _ _ _)), Ht. eexists. split; [done|]. rewrite !told_units. simpl.
    rewrite !(decide_True (P := dn_Domains e = [])) by done.
    split.
    + intros path. rewrite Hp. case_decide as Hpath; [subst; by rewrite lookup_delete_eq|by rewrite lookup_delete_ne].
    + intros x. rewrite (decide_True (P := dn_Domains e = [])) by done. by destruct (decide (x = dn_Device e)).
  - unfold systemdInstall. rewrite (bind_run _ _ _ _ _ (Hh _)). unfold write_unit. rewrite (wk_write _ Hw), bind_modify.
    rewrite (bind_run _ _ _ _ _ (Ht _ _ _)), Ht. eexists. split; [done|]. rewrite !told_units. simpl.
    rewrite !(decide_False (P := dn_Domains e = [])) by done.
    split.
    + intros path. rewrite Hp. case_decide as Hpath; [subst; by rewrite lookup_insert_eq|by rewrite lookup_insert_ne].
    + intros x. rewrite told_twice by (intros H%fmap_nil_inv; done). simpl.
     
      rewrite (decide_False (P := dn_Domains e = [])) by done.
      destruct (decide (x = dn_Device e)) as [->|]; [by rewrite lookup_insert_eq|by rewrite lookup_insert_ne].
Qed.

Lemma unit_file_inj x y : unit_file x = unit_file y → x = y.
Proof.
  unfold unit_file. rewrite <-!string_app_assoc. intros H. apply (f_equal s2l) in H. rewrite !s2l_app in H.
  rewrite <-!app_assoc in H. repeat apply app_inv_head in H. apply app_inv_tail in H. by apply (inj s2l).
Qed.
Lemma entry_of_Some plan x e : entry_of plan x = Some e → e ∈ plan ∧ dn_Device e = x.
Proof.
  unfold entry_of. induction plan as [|e' plan IH]; simpl; [done|]. case_bool_decide as He.
  - intros [= ->]. split; [by left|done].
  - intros H. destruct (IH H). split; [by right|done].
Qed.
Lemma entry_of_None plan x : entry_of plan x = None ↔ x ∉ dn_Device <$> plan.
Proof.
  unfold entry_of. induction plan as [|e' plan IH]; simpl; [split; [intros _; apply not_elem_of_nil|done]|].
  rewrite not_elem_of_cons. case_bool_decide as He; [naive_solver|]. rewrite IH. naive_solver.
Qed.

Lemma entry_of_elem plan e : NoDup (dn_Device <$> plan) → e ∈ plan → entry_of plan (dn_Device e) = Some e.
Proof.
  intros Hnd He. destruct (entry_of plan (dn_Device e)) as [e'|] eqn:E.
  - apply entry_of_Some in E as [He' Hd]. f_equal.
    apply list_elem_of_lookup in He as [i Hi], He' as [j Hj].
    assert (i = j) as ->; [|by simplify_eq]. eapply NoDup_lookup; [exact Hnd|by rewrite list_lookup_fmap, Hi|].
    by rewrite list_lookup_fmap, Hj, <-Hd.
  - apply entry_of_None in E. destruct E. by apply list_elem_of_fmap_2.
Qed.
Lemma entry_of_cons e plan x :
  entry_of (e :: plan) x = if decide (dn_Device e = x) then Some e else entry_of plan x.
Proof. unfold entry_of. cbn [find_first]. by case_bool_decide; case_decide. Qed.
Lemma apply_entries_run env plan s :
  works env → NoDup (dn_Device <$> plan) → Forall (λ e, dn_Device e ∈ devices) plan →
  ∃ s', apply_entries env (mkMode ModeSystemd systemdInstall systemdRemove) plan s = (Ok (), s') ∧
    (∀ x, units s' !! unit_file x = match entry_of plan x with Some e => unit_of e | None => units s !! unit_file x end) ∧
    (∀ path, (path ∉ unit_file ∘ dn_Device <$> plan) → units s' !! path = units s !! path) ∧
    (∀ x, links s' !! x = match entry_of plan x with Some e => link_of e (links s !! x) | None => links s !! x end).
Proof.
  intros Hw. revert s. induction plan as [|e plan IH]; intros s Hnd Hdev; simpl.
  { exists s. done. }
  apply NoDup_cons in Hnd as [Hnot Hnd]. apply Forall_cons in Hdev as [Hx Hdev].
  destruct (entry_run env e s Hw Hx) as (s1&E1&Hu1&Hl1). rewrite (bind_run _ _ _ _ _ E1).
  destruct (IH s1 Hnd Hdev) as (s'&E&Hu&Ho&Hl). exists s'. split; [done|].
  apply entry_of_None in Hnot. split_and!.
  - intros x. rewrite Hu, Hu1. rewrite entry_of_cons. destruct (decide (dn_Device e = x)) as [<-|Hex].
    + rewrite Hnot. by rewrite decide_True.
    + rewrite decide_False; [done|]. intros E'. by apply unit_file_inj in E'.
  - intros path [Hne Hpath]%not_elem_of_cons. rewrite Ho, Hu1 by done. by rewrite decide_False.
  - intros x. rewrite Hl, Hl1. rewrite entry_of_cons. destruct (decide (dn_Device e = x)) as [<-|Hex].
    + rewrite Hnot. by rewrite decide_True.
    + by rewrite decide_False.
Qed.

(** ** Applying *)

(** What the machine's resolver is after applying a plan: the files of the
    program are the plan's, whatever was left of an earlier one; files of
    others are as before; a link of an entry with domains has those and the
    entry's servers, every other link has what it had. *)
Record applied (plan : list DNSEntry) (s s' : Resolved) : Prop := {
  ad_units : ∀ path x, unit_device path = Some x →
    units s' !! path = entry_of plan x ≫= unit_of;
  ad_others : ∀ path, unit_device path = None → units s' !! path = units s !! path;
  ad_links : ∀ x, links s' !! x =
    match entry_of plan x with Some e => link_of e (links s !! x) | None => links s !! x end;
}.

Lemma Apply_run env plan s :
  works env → NoDup (dn_Device <$> plan) → Forall (λ e, dn_Device e ∈ devices) plan →
  ∃ s', Apply env ModeSystemd plan s = (Ok (), s') ∧ applied plan s s'.
Proof.
  intros Hw Hnd Hdev. unfold Apply. rewrite bind_liftR. simpl.
  destruct (sweep_run env (kept_devices plan) s Hw) as (s1&E1&Hl1&Hu1). rewrite (bind_run _ _ _ _ _ E1).
  destruct (apply_entries_run env plan s1 Hw Hnd Hdev) as (s'&E&Hu&Ho&Hl). exists s'. split; [done|].
  split.
  - intros path x Hx. destruct (unit_device_Some _ _ Hx) as [-> _]. rewrite Hu.
    destruct (entry_of plan x) as [e|] eqn:He; [done|]. simpl. rewrite Hu1.
    rewrite decide_True; [done|]. unfold stale. rewrite Hx. apply entry_of_None in He.
    intros Hin. apply He. unfold kept_devices in Hin. rewrite elem_of_list_to_set, list_elem_of_fmap in Hin.
    destruct Hin as (e&->&Hin%list_elem_of_filter). apply list_elem_of_fmap_2. by destruct Hin.
  - intros path Hnone. rewrite Ho, Hu1.
    + rewrite decide_False; [done|]. unfold stale. rewrite Hnone. tauto.
    + intros (e&->&He)%list_elem_of_fmap. unfold compose in Hnone.
      pose proof (proj1 (Forall_forall _ _) Hdev e He) as Hx. by rewrite (proj2 (networkUnitPath_device _ Hx)) in Hnone.
  - intros x. by rewrite Hl, Hl1.
Qed.
Lemma applied_unique plan s s1 s2 : applied plan s s1 → applied plan s s2 → s1 = s2.
Proof.
  intros [U1 O1 L1] [U2 O2 L2]. destruct s1 as [u1 l1], s2 as [u2 l2]. cbn [units links] in *. f_equal; apply map_eq; intros i.
  - destruct (unit_device i) as [x|] eqn:E; [by rewrite (U1 i x E), (U2 i x E)|by rewrite (O1 i E), (O2 i E)].
  - by rewrite L1, L2.
Qed.
Lemma applied_twice plan s s1 s2 : applied plan s s1 → applied plan s1 s2 → applied plan s s2.
Proof.
  intros [U1 O1 L1] [U2 O2 L2]. split.
  - done.
  - intros path H. by rewrite O2, O1.
  - intros x. rewrite L2, L1. destruct (entry_of plan x); [apply link_of_twice|done].
Qed.

