(* ===== verification/Discover.v ===== *)
(** * What a connector finds out about its host: [internal/connector/discover.go], [nebconfig.go]

    The networks a host is attached to, the platform it runs on and what that
    says about names, the hints given to the owner, and the MTU of the tunnel.
    Interfaces, environment variables and files are what the operating system
    answers. *)

From Stdlib Require Import Ascii.
From S2P Require Export TenantRun.

Open Scope Z_scope.

(** ** The host *)

(** An address of an interface: an [*net.IPNet], or something else. *)
Record IPNet : Type := mkIPNet { ip_IP : list Z; ip_Mask : list Z }.
Record Iface : Type := mkIface {
  if_Name : string;
  if_MTU : Z;
  if_Up : bool;
  if_Loopback : bool;
  if_Addrs : option (list (option IPNet));
}.
Class HostOs := {
  ho_os :: Os;
  Interfaces : option (list Iface);
  Hostname : option string;
  has_dockerenv : bool;
}.

(** ** Go's net and netip *)

(** [netip.AddrFromSlice]. *)
Definition AddrFromSlice (ip : list Z) : option Addr :=
  if (length ip =? 4)%nat then Some (Addr4 (be_val ip))
  else if (length ip =? 16)%nat then Some (Addr6 (be_val ip)) else None.
Definition IsLoopback (a : Addr) : bool :=
  match a with AddrZero => false | Addr4 n => n / 2 ^ 24 =? 127 | Addr6 n => n =? 1 end.
Definition IsLinkLocalUnicast (a : Addr) : bool :=
  match a with AddrZero => false | Addr4 n => n / 2 ^ 16 =? 43518 | Addr6 n => n / 2 ^ 118 =? 1018 end.
Definition IsUnspecified (a : Addr) : bool :=
  match a with AddrZero => false | Addr4 n | Addr6 n => n =? 0 end.
(** [mask.Size()]: the leading ones and the width, zeros when ones come after
    a zero. *)
Definition byte_bits (b : Z) : list bool := Z.testbit b <$> [7; 6; 5; 4; 3; 2; 1; 0].
Definition MaskSize (mask : list Z) : Z * Z :=
  let bits := mask ≫= byte_bits in
  let ones := length (take_while id bits) in
  if forallb negb (drop ones bits) then (Z.of_nat ones, 8 * Z.of_nat (length mask)) else (0, 0).

(** ** Platforms *)

Record platform : Type := mkPlatform {
  pf_name : string;
  pf_dropIPv4 : bool;
  pf_detect : string;
  pf_domainVar : string;
  pf_domainZone : string;
  pf_fields : list (string * string);
}.
Definition platforms : list platform :=
  [mkPlatform "railway" true "RAILWAY_ENVIRONMENT_NAME" "RAILWAY_PRIVATE_DOMAIN" "railway.internal"
     [("project", "RAILWAY_PROJECT_NAME"); ("environment", "RAILWAY_ENVIRONMENT_NAME");
      ("service", "RAILWAY_SERVICE_NAME"); ("region", "RAILWAY_REPLICA_REGION")];
   mkPlatform "fly" false "FLY_APP_NAME" "" "" [("service", "FLY_APP_NAME"); ("region", "FLY_REGION")];
   mkPlatform "render" false "RENDER_SERVICE_NAME" "" ""
     [("service", "RENDER_SERVICE_NAME"); ("environment", "RENDER_GIT_BRANCH")];
   mkPlatform "koyeb" false "KOYEB_SERVICE_NAME" "" ""
     [("project", "KOYEB_APP_NAME"); ("service", "KOYEB_SERVICE_NAME"); ("region", "KOYEB_REGION")];
   mkPlatform "cloud-run" false "K_SERVICE" "" "" [("service", "K_SERVICE"); ("environment", "K_REVISION")];
   mkPlatform "cloudflare-pages" false "CF_PAGES_BRANCH" "" ""
     [("project", "CF_PAGES_URL"); ("environment", "CF_PAGES_BRANCH")];
   mkPlatform "kubernetes" false "KUBERNETES_SERVICE_HOST" "" ""
     [("project", "POD_NAMESPACE"); ("service", "POD_NAME")]].

(** [announcedDomain]. *)
Definition announcedDomain (dns : bool) (given detected : string) : string :=
  if negb dns then "" else if negb (bool_decide (given = "")) then given
  else if negb (bool_decide (detected = "")) then detected else RootDomain.

Section Discover.
Context `{HH : HostOs}.

Definition detectPlatform : option platform :=
  find_first (λ p, negb (bool_decide (Getenv (pf_detect p) = ""))) platforms.
Definition keepPlatformIPv4 : bool :=
  negb (bool_decide (Getenv "ROBINET_KEEP_PLATFORM_IPV4" ∈ [""; "0"; "false"; "no"; "off"])).
Definition platformFilter (routes : list Prefix) : list Prefix :=
  match detectPlatform with
  | None => routes
  | Some p =>
      if negb (pf_dropIPv4 p) || keepPlatformIPv4 then routes else
      match filter (λ r, Is4 (p_addr r) = false) routes with [] => routes | kept => kept end
  end.

(** The prefix an interface's address stands for, if it is one to announce. *)
Definition attached (a : option IPNet) : option Prefix :=
  ipnet ← a;
  addr ← AddrFromSlice (ip_IP ipnet);
  let addr := Unmap addr in
  if IsLoopback addr || IsLinkLocalUnicast addr || IsUnspecified addr then None else
  let '(ones, bits) := MaskSize (ip_Mask ipnet) in
  if (ones =? 0) || (ones =? bits) then None else Some (Masked (PrefixFrom addr ones)).
Fixpoint first_of_each (seen : gset Prefix) (l : list Prefix) : list Prefix :=
  match l with
  | [] => []
  | p :: l => if bool_decide (p ∈ seen) then first_of_each seen l else p :: first_of_each ({[p]} ∪ seen) l
  end.
Definition iface_prefixes (iface : Iface) : list Prefix :=
  if negb (if_Up iface) || if_Loopback iface then [] else
  match if_Addrs iface with None => [] | Some addrs => omap attached addrs end.
Definition attachedPrefixes : list Prefix :=
  match Interfaces with None => [] | Some ifaces => first_of_each ∅ (ifaces ≫= iface_prefixes) end.
Definition DiscoverRoutes : list Prefix := platformFilter attachedPrefixes.

Definition DiscoverDomain : string :=
  match detectPlatform with
  | None => ""
  | Some p =>
      if decide (pf_domainVar p = "") then "" else
      let value := ToLower (TrimSuffix (TrimSpace (Getenv (pf_domainVar p))) ".") in
      if negb (bool_decide (value = pf_domainZone p)) && negb (HasSuffix value ("." +:+ pf_domainZone p))
      then "" else pf_domainZone p
  end.

Definition field_hints (p : platform) (hints : gmap string string) : gmap string string :=
  foldl (λ h kv, if decide (Getenv kv.2 = "") then h else <[kv.1 := Getenv kv.2]> h) hints (pf_fields p).
Definition DiscoverHints : gmap string string :=
  let hints := match Hostname with
               | Some host => if decide (host = "") then ∅ else {["hostname" := host]}
               | None => ∅
               end in
  match detectPlatform with
  | Some p => field_hints p (<["platform" := pf_name p]> hints)
  | None => if has_dockerenv then <["platform" := "container"]> hints else hints
  end.

(** ** The MTU of the stack *)

Definition nebulaOverhead : Z := 60.
Definition minimumMTU : Z := 1280.
(** The interface of the default route in [/proc/net/route]. *)
Fixpoint route_lines (lines : list string) : string :=
  match lines with
  | [] => ""
  | line :: lines =>
      match Fields line with
      | name :: dest :: _ :: _ => if decide (dest = "00000000") then name else route_lines lines
      | _ => route_lines lines
      end
  end.
Definition defaultRouteInterface : string :=
  match ReadFile "/proc/net/route" with
  | inr _ => ""
  | inl raw => route_lines (tail (Split raw (chr 10)))
  end.
(** [uint32(iface.MTU)]. *)
Definition uint32 (z : Z) : Z := z mod 2 ^ 32.
Definition widest (best : Z) (iface : Iface) : Z :=
  if negb (if_Up iface) || if_Loopback iface || (if_MTU iface <=? 0) then best
  else if best <? uint32 (if_MTU iface) then uint32 (if_MTU iface) else best.
Definition tunnelLinkMTU : Z :=
  let name := defaultRouteInterface in
  let named := if decide (name = "") then None else
    match Interfaces with
    | Some ifaces => find_first (λ i, bool_decide (if_Name i = name)) ifaces
    | None => None
    end in
  let fallback :=
    match Interfaces with
    | None => 1500
    | Some ifaces => let best := foldl widest 0 ifaces in if best =? 0 then 1500 else best
    end in
  match named with
  | Some i => if 0 <? if_MTU i then uint32 (if_MTU i) else fallback
  | None => fallback
  end.
Definition overlayMTU (hubMTU override : Z) : Z :=
  if 0 <? override then override else
  let link := tunnelLinkMTU in
  let link := if (0 <? hubMTU) && (hubMTU <? link) then hubMTU else link in
  let mtu := if nebulaOverhead + minimumMTU <? link then link - nebulaOverhead else minimumMTU in
  uint32 mtu.
End Discover.

(** ** The configuration of a connector's nebula *)

Definition connectorConfig (bundle : Bundle) (keyPEM : string) : res tree :=
  if negb (Addr_IsValid (l_OverlayAddress (bu_Lighthouse bundle)))
  then Err (Errorf "the bundle carries no lighthouse address")
  else if bool_decide (l_Endpoints (bu_Lighthouse bundle) = [])
  then Err (Errorf "the bundle carries no lighthouse endpoint") else
  let lighthouse := Addr_String (l_OverlayAddress (bu_Lighthouse bundle)) in
  let pki := [("ca", TStr (bu_CA bundle)); ("cert", TStr (bu_Certificate bundle)); ("key", TStr keyPEM)]
             ++ (if (0 <? length (bu_Blocked bundle))%nat
                 then [("blocklist", strings_tree (bu_Blocked bundle))] else []) in
  Ok (TMap
    [("pki", TMap pki);
     ("static_host_map", TMap [(lighthouse, strings_tree (l_Endpoints (bu_Lighthouse bundle)))]);
     ("lighthouse", TMap [("am_lighthouse", TBool false); ("interval", TInt 5); ("hosts", strings_tree [lighthouse])]);
     ("listen", TMap [("host", TStr "0.0.0.0"); ("port", TInt 0)]);
     ("punchy", TMap [("punch", TBool true); ("respond", TBool true); ("target_all_remotes", TBool true)]);
     ("relay", TMap [("am_relay", TBool false); ("use_relays", TBool (l_Relay (bu_Lighthouse bundle)))]);
     ("handshakes", TMap [("try_interval", TStr "100ms"); ("retries", TInt 40)]);
     ("timers", TMap [("connection_alive_interval", TInt 2); ("pending_deletion_interval", TInt 3)]);
     ("firewall", TMap
        [("default_local_cidr_any", TBool true);
         ("outbound", TSeq [rule_tree (mkRule "any" "any" "any")]);
         ("inbound", TSeq [rule_tree (mkRule "any" "any" "any")])]);
     ("logging", TMap [("level", TStr "info"); ("format", TStr "text")])]).
