(* ===== verification/Connector.v ===== *)
(** * The connector: [internal/connector/state.go], [enroll.go], [connector.go]

    What runs inside the network being exposed: its identity on disk, asking
    to be admitted and waiting for the answer, and keeping its refusals up to
    date once it runs. *)

From Stdlib Require Import Ascii.
From S2P Require Export Discover HubApi.

Open Scope Z_scope.

(** ** The state directory *)

(** [State]: the files of the directory, and what was read from them. *)
Record CState : Type := mkCState {
  cs_files : gmap string string;
  cs_PublicKeyPEM : string;
  cs_PrivateKeyPEM : string;
  cs_RequestID : string;
  cs_Bundle : option Bundle;
}.
Definition fileKey : string := "host.key".
Definition filePublicKey : string := "host.pub".
Definition fileRequest : string := "request.id".
Definition fileBundle : string := "bundle.json".

(** What the file system answers, how a bundle is written as JSON, and the
    PEM forms of a fresh key. *)
Class ConnDisk := {
  mkdir_fails : option error;
  read_fails : string → option error;
  write_fails : string → option error;
  marshal_bundle : Bundle → res string;
  unmarshal_bundle : string → option Bundle;
  fresh_key : res (string * string);
}.

Section Connector.
Context `{HK : ConnDisk}.

Definition set_cs_files (f : gmap string string) (s : CState) : CState :=
  mkCState f (cs_PublicKeyPEM s) (cs_PrivateKeyPEM s) (cs_RequestID s) (cs_Bundle s).
Definition set_cs_grant (id : string) (b : option Bundle) (s : CState) : CState :=
  mkCState (cs_files s) (cs_PublicKeyPEM s) (cs_PrivateKeyPEM s) id b.
Definition set_cs_keys (pub priv : string) (s : CState) : CState :=
  mkCState (cs_files s) pub priv (cs_RequestID s) (cs_Bundle s).

(** [s.write]: beside and renamed over. *)
Definition write_file (name contents : string) : M CState () :=
  match write_fails name with
  | Some e => raise e
  | None => modify (λ s, set_cs_files (<[name := contents]> (cs_files s)) s)
  end.
(** [os.ReadFile]: [None] is a file that is not there. *)
Definition read_file (files : gmap string string) (name : string) : option string + error :=
  match read_fails name with Some e => inr e | None => inl (files !! name) end.

Definition LoadKeys : M CState () :=
  let* s := getM in
  match read_file (cs_files s) fileKey with
  | inl None =>
      let* (pub, priv) := liftR fresh_key in
      do* write_file fileKey priv in
      do* write_file filePublicKey pub in
      modify (set_cs_keys pub priv)
  | inr e => raise (Wrap "could not read the host key: %w" e)
  | inl (Some key) =>
      match read_file (cs_files s) filePublicKey with
      | inl (Some pub) => modify (set_cs_keys pub key)
      | inl None => raise (Wrap "could not read the public key: %w" (Errorf "file does not exist"))
      | inr e => raise (Wrap "could not read the public key: %w" e)
      end
  end.
Definition LoadState : M CState () :=
  match mkdir_fails with
  | Some e => raise (Wrap "could not create the state directory: %w" e)
  | None =>
      do* LoadKeys in
      let* s := getM in
      let id := match read_file (cs_files s) fileRequest with inl (Some id) => id | _ => "" end in
      let bundle := match read_file (cs_files s) fileBundle with
                    | inl (Some raw) => unmarshal_bundle raw | _ => None end in
      modify (set_cs_grant id bundle)
  end.
(** A process that starts on a directory. *)
Definition started (files : gmap string string) : CState := mkCState files "" "" "" None.

Definition SaveRequestID (id : string) : M CState () :=
  do* modify (λ s, set_cs_grant id (cs_Bundle s) s) in write_file fileRequest id.
Definition SaveBundle (b : Bundle) : M CState () :=
  let* raw := liftR (marshal_bundle b) in
  do* write_file fileBundle raw in
  modify (λ s, set_cs_grant (cs_RequestID s) (Some b) s).
(** [Reset], whose removals are not checked. *)
Definition Reset : M CState () :=
  do* modify (set_cs_grant "" None) in
  modify (λ s, set_cs_files (delete fileRequest (delete fileBundle (cs_files s))) s).

(** ** Enrolling *)

(** What the connector meets while it waits: the hub's answers, one per poll,
    and when the process is told to stop. *)
Record Waiting : Type := mkWaiting {
  submit_answer : res string;
  poll : nat → res Result;
  cancelled : nat → bool;
}.
Definition refusedBackoff : Z := 30 * Second.
Definition initialBackoff : Z := 5 * Second.
(** [time.Duration(n) * time.Second], in 64 bits. *)
Definition wrap64 (z : Z) : Z := (z + 2 ^ 63) mod 2 ^ 64 - 2 ^ 63.
Definition retry_wait (retryAfter backoff : Z) : Z :=
  if 0 <? retryAfter then wrap64 (retryAfter * Second) else backoff.

Definition ErrCancelled : error := Errorf "context canceled".
(** [refused]: the error is held back for a while; [i] is the poll it was met
    at. *)
Definition refused (w : Waiting) (i : nat) (e : error) : error :=
  if cancelled w i then ErrCancelled else e.

(** The loop: poll after poll, with the wait in between.  It gives the answer
    and the waits before it; the fuel is the number of polls looked at. *)
Fixpoint wait_loop (w : Waiting) (fuel i : nat) (backoff : Z) : option (res Bundle * list Z) :=
  match fuel with
  | O => None
  | S fuel =>
      let again backoff :=
        if cancelled w i then Some (Err ErrCancelled, [])
        else (λ r, (r.1, backoff :: r.2)) <$> wait_loop w fuel (S i) backoff in
      match poll w i with
      | Ok result =>
          match rs_Status result with
          | StatusApproved =>
              match rs_Bundle result with
              | None => Some (Err (Errorf "the hub reported approval without a certificate"), [])
              | Some bundle => Some (Ok bundle, [])
              end
          | StatusRejected => Some (Err (refused w i (Errorf "enrollment rejected: %s")), [])
          | _ => again (retry_wait (rs_RetryAfter result) backoff)
          end
      | _ => again backoff
      end
  end.
(** [waitForApproval]: the request is submitted once, and remembered. *)
Definition submit_once (w : Waiting) : M CState () :=
  let* s := getM in
  if decide (cs_RequestID s = "") then
    match submit_answer w with
    | Ok id => SaveRequestID id
    | Err e => raise (refused w 0 e)
    | Panic => panic
    end
  else retM ().
Definition waitForApproval (w : Waiting) (fuel : nat) : M CState (option (res Bundle * list Z)) :=
  do* submit_once w in retM (wait_loop w fuel 0 initialBackoff).

(** ** Starting *)

Record ConnConfig : Type := mkConnConfig {
  cc_HubURL : string;
  cc_Instance : string;
  cc_SharedToken : string;
  cc_Name : string;
  cc_Routes : list Prefix;
  cc_Domain : string;
  cc_DisableAutodiscover : bool;
  cc_MTU : Z;
  cc_DNS : bool;
  cc_StateDir : string;
  cc_Insecure : bool;
  cc_Pin : string;
}.

(** [dedupe]: masked, one of each, in the order of how they are written. *)
Definition dedupe (prefixes : list Prefix) : list Prefix :=
  sort_by Prefix_String (first_of_each ∅ (Masked <$> prefixes)).
(** [dedupeStrings]: the first of each. *)
Fixpoint dedupe_loop (seen : gset string) (l : list string) : list string :=
  match l with
  | [] => []
  | s :: l => if bool_decide (s ∈ seen) then dedupe_loop seen l else s :: dedupe_loop ({[s]} ∪ seen) l
  end.
Definition dedupeStrings (l : list string) : list string := dedupe_loop ∅ l.
Definition warnIfEphemeral (dir : string) : bool := HasPrefix dir "/tmp/".
Definition orNone (domain : string) : string := if decide (domain = "") then "none" else domain.

(** The domain a connector is configured with, as [Run] goes on with it. *)
Definition given_domain (cfg : ConnConfig) : res string :=
  if decide (cc_Domain cfg = "") then Ok "" else
  match ParseDomain (cc_Domain cfg) with
  | Err e => Err (Wrap "ROBINET_DOMAIN: %w, and it takes one zone, or . for a network that appends nothing to a name" e)
  | r => r
  end.
(** What [Run] announces: the routes and the domain. *)
Definition announced `{HH : HostOs} (cfg : ConnConfig) : res (list Prefix * string) :=
  if bool_decide (cc_HubURL cfg = "") || bool_decide (cc_Instance cfg = "")
  then Err (Errorf "the hub url and the instance are required") else
  let? given := given_domain cfg in
  let found := if cc_DisableAutodiscover cfg then [] else DiscoverRoutes in
  let foundDomain := if cc_DisableAutodiscover cfg then "" else DiscoverDomain in
  Ok (dedupe (cc_Routes cfg ++ found), announcedDomain (cc_DNS cfg) given foundDomain).
Definition enrollment `{HH : HostOs} (cfg : ConnConfig) (s : CState) (routes : list Prefix) (domain : string) : Request :=
  mkRequest (cs_PublicKeyPEM s) (cc_Name cfg) routes domain (Some DiscoverHints).
(** [Run] up to the connection: enroll if there is no bundle. *)
Definition enrollIfNeeded `{HH : HostOs} (cfg : ConnConfig) (w : Request → Waiting) (fuel : nat) : M CState () :=
  let* (routes, domain) := liftR (announced cfg) in
  do* LoadState in
  let* s := getM in
  match cs_Bundle s with
  | Some _ => retM ()
  | None =>
      let* answer := waitForApproval (w (enrollment cfg s routes domain)) fuel in
      match answer with
      | None => retM ()
      | Some (Ok bundle, _) => SaveBundle bundle
      | Some (Err e, _) => raise e
      | Some (Panic, _) => panic
      end
  end.

(** [compareRoutes]: the detected networks a certificate does not carry. *)
Definition missing_routes (detected granted : list Prefix) : list Prefix :=
  let granted : gset Prefix := list_to_set (Masked <$> granted) in
  filter (λ p, Masked p ∉ granted) detected.

(** ** Watching the blocklist *)

(** [without]. *)
Definition without (l : list string) (drop : string) : list string :=
  if bool_decide (drop = "") || negb (bool_decide (drop ∈ l)) then l else filter (λ v, v ≠ drop) l.
(** What a running connector keeps: whether it was told it is banned, and the
    configuration nebula holds. *)
Record Watch : Type := mkWatch { w_state : CState; w_banned : bool; w_raw : tree }.
(** One tick: what the hub answered, whether nebula takes a configuration. *)
Definition watch_tick (self : string) (reload_fails : option error) (answer : res Result) (w : Watch) : Watch :=
  match answer with
  | Ok result =>
      match rs_Bundle result, cs_Bundle (w_state w) with
      | Some theirs, Some ours =>
          let banned := negb (bool_decide (self = "")) && bool_decide (self ∈ bu_Blocked theirs) in
          let w := mkWatch (w_state w) banned (w_raw w) in
          let fresh := without (bu_Blocked theirs) self in
          if bool_decide (fresh = bu_Blocked ours) then w else
          let updated := set_Blocked fresh ours in
          match connectorConfig updated (cs_PrivateKeyPEM (w_state w)), reload_fails with
          | Ok raw, None =>
              let s := (SaveBundle updated (w_state w)).2 in
              mkWatch (set_cs_grant (cs_RequestID s) (Some updated) s) banned raw
          | _, _ => w
          end
      | _, _ => w
      end
  | _ => w
  end.
(** [connect]: the configuration nebula starts with. *)
Definition connect (s : CState) : res Watch :=
  match cs_Bundle s with
  | None => Panic
  | Some bundle => let? raw := connectorConfig bundle (cs_PrivateKeyPEM s) in Ok (mkWatch s false raw)
  end.
End Connector.
