(* ===== verification/ConnSpec.v ===== *)
(** * What a connector gets right: enrolling, starting again, following refusals

    A connector that is approved gets in and stays in when it is started
    again, and while it runs, what nebula refuses follows what the hub says. *)

From Stdlib Require Import Ascii.
From S2P Require Export MemberSpec Connector.

Open Scope Z_scope.

(** ** Waiting *)

(** An answer that ends the wait neither way. *)
Definition undecided_answer (r : res Result) : Prop :=
  match r with Ok result => rs_Status result ≠ StatusApproved ∧ rs_Status result ≠ StatusRejected | _ => True end.

Lemma wait_again w fuel i backoff :
  undecided_answer (poll w i) → cancelled w i = false →
  ∃ backoff', wait_loop w (S fuel) i backoff = (λ r, (r.1, backoff' :: r.2)) <$> wait_loop w fuel (S i) backoff'.
Proof.
  intros Hu Hc. simpl. rewrite Hc. destruct (poll w i) as [result|e|]; [|by eexists..].
  destruct Hu as [Ha Hr]. destruct (rs_Status result); [by eexists|done|done|..]; by eexists.
Qed.
Lemma wait_loop_approved w n i fuel backoff result b :
  (∀ j, (j < n)%nat → undecided_answer (poll w (i + j)) ∧ cancelled w (i + j) = false) →
  poll w (i + n) = Ok result → rs_Status result = StatusApproved → rs_Bundle result = Some b →
  (n < fuel)%nat →
  ∃ waits, wait_loop w fuel i backoff = Some (Ok b, waits) ∧ length waits = n.
Proof.
  revert i fuel backoff. induction n as [|n IH]; intros i fuel backoff Hw Hp Hs Hb Hf; (destruct fuel as [|fuel]; [lia|]).
  - rewrite Nat.add_0_r in Hp. simpl. rewrite Hp, Hs, Hb. by exists [].
  - destruct (Hw 0%nat) as [Hu Hc]; [lia|]. rewrite Nat.add_0_r in Hu, Hc.
    destruct (wait_again w fuel i backoff Hu Hc) as (backoff'&->).
    destruct (IH (S i) fuel backoff') as (waits&->&Hl); [|by rewrite <-Nat.add_succ_comm in Hp|done|done|lia|].
    + intros j Hj. rewrite Nat.add_succ_comm. apply Hw. lia.
    + exists (backoff' :: waits). split; [done|]. simpl. lia.
Qed.

(** ** The state directory *)

Section Directory.
Context `{HK : ConnDisk}.

(** A file system on which nothing fails, and a bundle that reads back as it
    was written. *)
Record disk_ok : Prop := {
  dk_mkdir : mkdir_fails = None;
  dk_read : ∀ name, read_fails name = None;
  dk_write : ∀ name, write_fails name = None;
  dk_key : ∃ pub priv, fresh_key = Ok (pub, priv);
}.
(** Both halves of the key are there, or neither. *)
Definition paired (files : gmap string string) : Prop :=
  is_Some (files !! fileKey) ↔ is_Some (files !! filePublicKey).

(** What the files say, read into memory. *)
Definition read_in (s : CState) : Prop :=
  cs_files s !! fileKey = Some (cs_PrivateKeyPEM s) ∧
  cs_files s !! filePublicKey = Some (cs_PublicKeyPEM s) ∧
  cs_RequestID s = default "" (cs_files s !! fileRequest) ∧
  cs_Bundle s = cs_files s !! fileBundle ≫= unmarshal_bundle.

Lemma write_file_run name contents s :
  disk_ok → write_file name contents s = (Ok (), set_cs_files (<[name := contents]> (cs_files s)) s).
Proof. intros Hd. unfold write_file. by rewrite (dk_write Hd). Qed.
Lemma read_file_run files name : disk_ok → read_file files name = inl (files !! name).
Proof. intros Hd. unfold read_file. by rewrite (dk_read Hd). Qed.

Lemma reads_again s : disk_ok → read_in s → LoadState (started (cs_files s)) = (Ok (), s).
Proof.
  intros Hd (Hk&Hp&Hr&Hb). unfold LoadState. rewrite (dk_mkdir Hd).
  rewrite (bind_run _ _ _ () (set_cs_keys (cs_PublicKeyPEM s) (cs_PrivateKeyPEM s) (started (cs_files s)))).
  - rewrite bind_get. simpl. rewrite !read_file_run by done. unfold modify. do 2 f_equal.
    destruct s as [files pub priv id b]. simpl in *. unfold set_cs_grant, set_cs_keys. simpl. f_equal.
    + rewrite Hr. by destruct (files !! fileRequest).
    + rewrite Hb. by destruct (files !! fileBundle).
  - unfold LoadKeys. rewrite bind_get. simpl. rewrite !read_file_run, Hk by done.
    rewrite Hp. done.
Qed.
Lemma LoadState_run files :
  disk_ok → paired files →
  ∃ s, LoadState (started files) = (Ok (), s) ∧ read_in s ∧
    (∀ name, is_Some (files !! name) → cs_files s !! name = files !! name) ∧
    cs_files s !! fileRequest = files !! fileRequest ∧ cs_files s !! fileBundle = files !! fileBundle.
Proof.
  intros Hd Hpair. destruct (files !! fileKey) as [key|] eqn:Hk.
  - assert (is_Some (files !! filePublicKey)) as [pub Hp] by (apply Hpair; by rewrite Hk).
    set (s := mkCState files pub key (default "" (files !! fileRequest)) (files !! fileBundle ≫= unmarshal_bundle)).
    exists s. split_and!; [apply (reads_again s Hd)|..]; done.
  - destruct (dk_key Hd) as (pub&priv&Hkey).
    assert (files !! filePublicKey = None) as Hp.
    { apply eq_None_not_Some. intros H%Hpair. rewrite Hk in H. by destruct H. }
    set (files' := <[filePublicKey := pub]> (<[fileKey := priv]> files)).
    assert (files' !! fileRequest = files !! fileRequest) as Er by (unfold files'; by rewrite !lookup_insert_ne).
    assert (files' !! fileBundle = files !! fileBundle) as Eb by (unfold files'; by rewrite !lookup_insert_ne).
    exists (mkCState files' pub priv (default "" (files !! fileRequest)) (files !! fileBundle ≫= unmarshal_bundle)).
    split_and!; [| |intros name [t Ht]; simpl|done..].
    + unfold LoadState. rewrite (dk_mkdir Hd).
      rewrite (bind_run _ _ _ () (set_cs_keys pub priv (set_cs_files files' (started files)))).
      * rewrite bind_get. simpl. rewrite !read_file_run by done. rewrite Er, Eb. unfold modify. do 2 f_equal.
      * unfold LoadKeys. rewrite bind_get. simpl. rewrite read_file_run by done. rewrite Hk.
        rewrite bind_liftR, Hkey.
        rewrite (bind_run _ _ _ _ _ (write_file_run _ _ _ Hd)).
        rewrite (bind_run _ _ _ _ _ (write_file_run _ _ _ Hd)). done.
    + unfold read_in. simpl. rewrite Er, Eb. split_and!; [|unfold files'; by rewrite lookup_insert_eq|done..].
      unfold files'. rewrite lookup_insert_ne by done. by rewrite lookup_insert_eq.
    + unfold files'. rewrite !lookup_insert_ne; [done| |]; intros <-; congruence.
Qed.

(** A bundle reads back as it was written. *)
Definition bundle_json : Prop := ∀ b, ∃ raw, marshal_bundle b = Ok raw ∧ unmarshal_bundle raw = Some b.

Lemma SaveBundle_run b s :
  disk_ok → bundle_json → read_in s →
  ∃ s', SaveBundle b s = (Ok (), s') ∧ read_in s' ∧ cs_Bundle s' = Some b ∧
    cs_PrivateKeyPEM s' = cs_PrivateKeyPEM s ∧ cs_PublicKeyPEM s' = cs_PublicKeyPEM s ∧
    cs_RequestID s' = cs_RequestID s.
Proof.
  intros Hd Hj (Hk&Hp&Hr&Hb). destruct (Hj b) as (raw&Hm&Hu). unfold SaveBundle.
  rewrite bind_liftR, Hm. rewrite (bind_run _ _ _ _ _ (write_file_run _ _ _ Hd)).
  eexists. split; [done|]. split; [|done]. unfold read_in. simpl.
  rewrite !lookup_insert_ne, lookup_insert_eq by done. simpl. by rewrite Hu.
Qed.
Lemma SaveRequestID_run id s :
  disk_ok → read_in s →
  ∃ s', SaveRequestID id s = (Ok (), s') ∧ read_in s' ∧ cs_RequestID s' = id ∧ cs_Bundle s' = cs_Bundle s ∧
    cs_PrivateKeyPEM s' = cs_PrivateKeyPEM s ∧ cs_PublicKeyPEM s' = cs_PublicKeyPEM s.
Proof.
  intros Hd (Hk&Hp&Hr&Hb). unfold SaveRequestID. rewrite bind_modify, (write_file_run _ _ _ Hd).
  eexists. split; [done|]. split; [|done]. unfold read_in. simpl.
  split_and!.
  - by rewrite lookup_insert_ne.
  - by rewrite lookup_insert_ne.
  - by rewrite lookup_insert_eq.
  - by rewrite lookup_insert_ne.
Qed.

(** ** Getting in *)

Context `{HH : HostOs}.

(** A connector that is configured, can reach the hub once to be recorded
    and is approved, however many polls were left undecided or failed before
    and whatever it was told to wait, gets in: if it is not told to stop
    before the [n]th poll says so, starting it comes to an end with the bundle
    the hub gave, saved; and from then on it is in for good: started again on
    its directory it has the same keys and the bundle, and neither submits nor
    polls. *)
Theorem approved_gets_in cfg (w : Request → Waiting) files routes domain n fuel result b rid :
  disk_ok → bundle_json → paired files → files !! fileBundle = None →
  announced cfg = Ok (routes, domain) →
  (∀ req, submit_answer (w req) = Ok rid) → rid ≠ "" →
  (∀ req j, (j < n)%nat → undecided_answer (poll (w req) j) ∧ cancelled (w req) j = false) →
  (∀ req, poll (w req) n = Ok result) → rs_Status result = StatusApproved → rs_Bundle result = Some b →
  (n < fuel)%nat →
  ∃ s, enrollIfNeeded cfg w fuel (started files) = (Ok (), s) ∧ cs_Bundle s = Some b ∧
    cs_RequestID s = default rid (files !! fileRequest ≫= λ id, if decide (id = "") then None else Some id) ∧
    (∀ key, files !! fileKey = Some key → cs_PrivateKeyPEM s = key) ∧
    ∀ w' fuel', enrollIfNeeded cfg w' fuel' (started (cs_files s)) = (Ok (), s).
Proof.
  intros Hd Hj Hpair Hnb Hann Hsub Hrid Hwait Hpoll Hst Hbu Hfuel.
  destruct (LoadState_run files Hd Hpair) as (s0&Hload&Hreads&Hsame&Hreq&Hbun).
  assert (cs_Bundle s0 = None) as Hnone by (destruct Hreads as (_&_&_&->); by rewrite Hbun, Hnb).
  set (req := enrollment cfg s0 routes domain).
  destruct (wait_loop_approved (w req) n 0 fuel initialBackoff result b) as (waits&Hloop&_);
    [intros j Hj0; by apply (Hwait req j)|by apply Hpoll|done|done|done|].
  assert (∃ s1, submit_once (w req) s0 = (Ok (), s1) ∧ read_in s1 ∧
    cs_RequestID s1 = default rid (files !! fileRequest ≫= λ id, if decide (id = "") then None else Some id) ∧
    cs_PrivateKeyPEM s1 = cs_PrivateKeyPEM s0) as (s1&Hs1&Hr1&Hid1&Hk1).
  { unfold submit_once. rewrite bind_get. destruct Hreads as (R1&R2&R3&R4). rewrite Hreq in R3.
    destruct (decide (cs_RequestID s0 = "")) as [E|E].
    - rewrite Hsub. destruct (SaveRequestID_run rid s0 Hd) as (s1&E1&Hr1&Hid&_&Hk&_).
      { unfold read_in. by rewrite R3, Hreq. }
      exists s1. split_and!; [done..| |done]. rewrite Hid. rewrite E in R3.
      destruct (files !! fileRequest) as [id|]; simpl in *; [subst; by rewrite decide_True|done].
    - exists s0. split_and!; [done|unfold read_in; by rewrite R3, Hreq| |done].
      rewrite R3 in *. destruct (files !! fileRequest) as [id|]; simpl in *; [by rewrite decide_False|done]. }
  destruct (SaveBundle_run b s1 Hd Hj Hr1) as (s2&Hs2&Hr2&Hb2&Hk2&_&Hid2).
  exists s2. split_and!; [|done|congruence| |].
  - unfold enrollIfNeeded. rewrite bind_liftR, Hann. rewrite (bind_run _ _ _ _ _ Hload), bind_get, Hnone.
    fold req. unfold waitForApproval.
    rewrite (bind_run _ _ _ (Some (Ok b, waits)) s1); [done|].
    rewrite (bind_run _ _ _ _ _ Hs1). by rewrite Hloop.
  - intros key Hkey. rewrite Hk2, Hk1. destruct Hreads as (R1&_). rewrite Hsame in R1 by (by rewrite Hkey).
    congruence.
  - intros w' fuel'. unfold enrollIfNeeded. rewrite bind_liftR, Hann.
    rewrite (bind_run _ _ _ _ _ (reads_again s2 Hd Hr2)), bind_get, Hb2. done.
Qed.

(** A connector that was rejected does not ask again when it is started
    again: the request it remembers is never dropped, so whatever the hub would
    say to a new one, it polls the old one and ends with the same answer, and
    leaves its directory as it found it. *)
Theorem rejected_never_asks_again cfg (w : Request → Waiting) files id routes domain fuel result :
  disk_ok → paired files → is_Some (files !! fileKey) →
  files !! fileRequest = Some id → id ≠ "" → files !! fileBundle = None →
  announced cfg = Ok (routes, domain) →
  (∀ req, poll (w req) 0 = Ok result) → rs_Status result = StatusRejected → (0 < fuel)%nat →
  ∃ e s, enrollIfNeeded cfg w fuel (started files) = (Err e, s) ∧ cs_files s = files ∧ cs_RequestID s = id.
Proof.
  intros Hd Hpair [key Hkey] Hreq Hne Hnb Hann Hpoll Hst Hf.
  assert (is_Some (files !! filePublicKey)) as [pub Hpub] by (apply Hpair; by rewrite Hkey).
  set (s := mkCState files pub key id None).
  assert (read_in s) as Hs by (unfold read_in; simpl; by rewrite Hreq, Hnb).
  exists (refused (w (enrollment cfg s routes domain)) 0 (Errorf "enrollment rejected: %s")), s. split; [|done].
  unfold enrollIfNeeded. rewrite bind_liftR, Hann.
  rewrite (bind_run _ _ _ () s) by exact (reads_again s Hd Hs). rewrite bind_get.
  change (cs_Bundle s) with (@None Bundle). unfold waitForApproval, submit_once.
  destruct fuel as [|fuel]; [lia|].
  rewrite (bind_run _ _ _ (wait_loop (w (enrollment cfg s routes domain)) (S fuel) 0 initialBackoff) s).
  - simpl. rewrite Hpoll, Hst. done.
  - rewrite (bind_run _ _ _ () s); [done|]. rewrite bind_get. simpl. by rewrite decide_False.
Qed.

(** ** Following refusals *)

(** A tick: whether nebula takes a configuration, and what the hub answered. *)
Definition ticks (self : string) (l : list (option error * res Result)) (w : Watch) : Watch :=
  foldl (λ w t, watch_tick self t.1 t.2 w) w l.

(** What runs is what is kept. *)
Record in_step (s0 : CState) (b0 : Bundle) (w : Watch) : Prop := {
  is_bundle : ∃ blocked, cs_Bundle (w_state w) = Some (set_Blocked blocked b0);
  is_raw : ∀ b, cs_Bundle (w_state w) = Some b →
    connectorConfig b (cs_PrivateKeyPEM (w_state w)) = Ok (w_raw w);
  is_reads : read_in (w_state w);
  is_keys : cs_PrivateKeyPEM (w_state w) = cs_PrivateKeyPEM s0 ∧ cs_PublicKeyPEM (w_state w) = cs_PublicKeyPEM s0;
}.
Lemma connectorConfig_blocked b blocked key t :
  connectorConfig b key = Ok t → ∃ t', connectorConfig (set_Blocked blocked b) key = Ok t'.
Proof.
  unfold connectorConfig. simpl. destruct (negb _); [done|]. destruct (bool_decide _); [done|]. by eexists.
Qed.
Lemma set_Blocked_same b : set_Blocked (bu_Blocked b) b = b.
Proof. by destruct b. Qed.

(** A tick with an answer that carries a bundle. *)
Lemma tick_answered self fails result theirs w s0 b0 :
  disk_ok → bundle_json → in_step s0 b0 w → rs_Bundle result = Some theirs →
  in_step s0 b0 (watch_tick self fails (Ok result) w) ∧
  (fails = None → cs_Bundle (w_state (watch_tick self fails (Ok result) w)) =
     Some (set_Blocked (without (bu_Blocked theirs) self) b0)) ∧
  w_banned (watch_tick self fails (Ok result) w) =
    negb (bool_decide (self = "")) && bool_decide (self ∈ bu_Blocked theirs).
Proof.
  intros Hd Hj [[blocked Hb] Hraw Hreads Hkeys] Ht. unfold watch_tick. rewrite Ht, Hb. cbn zeta.
  pose proof (Hraw _ Hb) as Hcfg.
  case_bool_decide as Hsame.
  { split_and!; [|intros _; simpl; by rewrite Hsame, Hb|done]. split; simpl; [by exists blocked|done..]. }
  simpl. destruct (connectorConfig_blocked _ (without (bu_Blocked theirs) self) _ _ Hcfg) as [t Ht'].
  rewrite Ht'. destruct fails as [e|].
  { split_and!; [|done|done]. split; simpl; [by exists blocked|done..]. }
  destruct (SaveBundle_run (set_Blocked (without (bu_Blocked theirs) self) (set_Blocked blocked b0)) (w_state w) Hd Hj Hreads)
    as (s'&E&Hr'&Hb'&Hk1&Hk2&_).
  rewrite E. simpl. split_and!; [|done|done]. split; simpl.
  - by exists (without (bu_Blocked theirs) self).
  - intros b [= <-]. rewrite Hk1. done.
  - destruct Hr' as (R1&R2&R3&R4). unfold read_in. simpl. rewrite <-R4, Hb'. done.
  - by rewrite Hk1, Hk2.
Qed.
Lemma tick_other self fails answer w :
  (∀ result theirs, answer = Ok result → rs_Bundle result = Some theirs → False) → watch_tick self fails answer w = w.
Proof.
  intros H. unfold watch_tick. destruct answer as [result| |]; [|done..].
  destruct (rs_Bundle result) eqn:E; [|done]. by destruct (H result b eq_refl).
Qed.
Lemma without_spec l self c : c ∈ without l self ↔ c ∈ l ∧ (self = "" ∨ c ≠ self).
Proof.
  unfold without. case_bool_decide as Hs; simpl; [naive_solver|].
  case_bool_decide as Hl; simpl; [rewrite list_elem_of_filter; naive_solver|]. split; [|naive_solver].
  intros H. split; [done|]. right. by intros ->.
Qed.

(** C33: from the moment it connects, whatever the hub answers and whenever
    nebula refuses a configuration, a connector runs the configuration of the
    bundle it keeps, in memory and on disk, which differs from the one it was
    given in what is blocked alone; and after an answer that carries a bundle,
    if nebula takes the change, exactly what the hub blocks is blocked, except
    for the connector itself, which is told apart instead. *)
Theorem follows_the_blocklist self l fails result theirs s0 b0 w0 :
  disk_ok → bundle_json → read_in s0 → cs_Bundle s0 = Some b0 → connect s0 = Ok w0 →
  in_step s0 b0 (ticks self l w0) ∧
  (rs_Bundle result = Some theirs →
   let w := ticks self (l ++ [(fails, Ok result)]) w0 in
   in_step s0 b0 w ∧
   (fails = None → ∃ b, cs_Bundle (w_state w) = Some b ∧
      LoadState (started (cs_files (w_state w))) = (Ok (), w_state w) ∧
      ∀ c, c ∈ bu_Blocked b ↔ c ∈ bu_Blocked theirs ∧ (self = "" ∨ c ≠ self)) ∧
   (w_banned w = true ↔ self ≠ "" ∧ self ∈ bu_Blocked theirs)).
Proof.
  intros Hd Hj Hreads Hb Hc.
  assert (in_step s0 b0 w0) as H0.
  { unfold connect in Hc. rewrite Hb in Hc. destruct (connectorConfig b0 _) as [raw| |] eqn:E; simpl in Hc; [|done..].
    injection Hc as <-. split; simpl; [exists (bu_Blocked b0); by rewrite set_Blocked_same|congruence|done..]. }
  assert (∀ l, in_step s0 b0 (ticks self l w0)) as Hall.
  { intros l'. induction l' as [|[f a] l' IH] using rev_ind; [done|]. unfold ticks in *. rewrite foldl_app. simpl.
    destruct a as [r| |]; [|by rewrite tick_other..].
    destruct (rs_Bundle r) as [t|] eqn:Er; [|rewrite tick_other; [done|congruence]].
    by apply (tick_answered self f r t). }
  split; [apply Hall|]. intros Ht. cbn zeta. split; [apply Hall|].
  pose proof (Hall (l ++ [(fails, Ok result)])) as Hin.
  destruct (tick_answered self fails result theirs (ticks self l w0) s0 b0 Hd Hj (Hall l) Ht) as (_&Hbl&Hban).
  unfold ticks in *. rewrite foldl_app in *. simpl in *. split.
  - intros Hf. eexists. split_and!; [by apply Hbl|by apply reads_again, (is_reads _ _ _ Hin)|].
    intros c. simpl. apply without_spec.
  - rewrite Hban, andb_true_iff, negb_true_iff, bool_decide_eq_true, bool_decide_eq_false. done.
Qed.
End Directory.
