(* ===== verification/ConnClient.v ===== *)
(** * The connector's client of the hub: [internal/connector/enroll.go], [connector.go]

    How a connector asks to be admitted and what became of it, over any
    transport; waiting for the answer as the loop it is; what it says of its
    network; and the watch over the blocklist, tick after tick. *)

From Stdlib Require Import Ascii.
From S2P Require Export WireSpec ConnSpec.

Open Scope Z_scope.

(** ** The client *)

(** [hubClient] of the connector. *)
Record connClient : Type := mkConnClient { nc_base : string; nc_token : string; nc_client : Verification }.

(** The JSON it writes and reads; [Decode_id] is [out.ID]. *)
Class ConnJson := {
  Marshal_request : Request → string;
  Decode_id : string → option string;
  Decode_enroll_result : string → option Result;
  Decode_enroll_error : string → option (string * string);
}.

Section Client.
Context {W : Type} `{HT : !Transport W} `{HP : UrlParser} `{HN : ConnJson}.
Context `{HC : Crypto} `{HX : X509}.

Definition newConnClient (base sharedToken : string) (insecure : bool) (hubPin : string) : res connClient :=
  let? client := (if decide (hubPin ≠ "") then let? cfg := TLSConfig hubPin in Ok (VerifyPin cfg)
                  else if insecure then Ok VerifyNothing else Ok VerifyChain) in
  Ok (mkConnClient (TrimRight base "/") sharedToken client).

(** [responseError]: the error the hub wrote is wrapped, text and all. *)
Definition enroll_error (resp : HttpResponse) : error :=
  let body := str_take (Z.to_nat (Z.shiftl 4 10)) (rs_Body resp) in
  let returned rest := Errorf ("hub returned " +:+ rs_StatusText resp +:+ ": " +:+ rest) in
  match Decode_enroll_error body with
  | Some (code, message) =>
      if decide (code ≠ "") then returned (if decide (message = "") then code else code +:+ ": " +:+ message)
      else returned (TrimSpace body)
  | None => returned (TrimSpace body)
  end.

Definition submit (ρ : Range) (c : connClient) (instance : string) (req : Request) : M W string :=
  let body := Marshal_request req in
  let* (u, r) := liftR (NewRequest MethodPost (nc_base c +:+ "/v1/enroll/" +:+ instance) body) in
  let r := Header_Set ContentType "application/json" r in
  let r := if decide (nc_token c ≠ "") then Header_Set MACHeader (MAC ρ req (nc_token c)) r else r in
  let* resp := http_Do (nc_client c) u r in
  if 300 <=? rs_StatusCode resp then raise (enroll_error resp) else
  match Decode_id (rs_Body resp) with
  | None => raise ErrDecode
  | Some id => if decide (id = "") then raise (Errorf "the hub returned no request id") else retM id
  end.
Definition result (c : connClient) (instance id : string) : M W Result :=
  let* (u, r) := liftR (NewRequest MethodGet (nc_base c +:+ "/v1/enroll/" +:+ instance +:+ "/" +:+ id) "") in
  let* resp := http_Do (nc_client c) u r in
  if 300 <=? rs_StatusCode resp then raise (enroll_error resp) else
  match Decode_enroll_result (rs_Body resp) with None => raise ErrDecode | Some r => retM r end.

(** ** Waiting *)

(** The loop of [waitForApproval] itself; [cancelled i] is whether the process
    is told to stop after the [i]-th poll. *)
Fixpoint poll_loop (c : connClient) (instance id : string) (cancelled : nat → bool) (fuel i : nat) (backoff : Z)
    : W → option (res Bundle * list Z) * W := λ w,
  match fuel with
  | O => (None, w)
  | S fuel =>
      let '(answer, w) := result c instance id w in
      let again backoff :=
        if cancelled i then (Some (Err ErrCancelled, []), w) else
        let '(r, w) := poll_loop c instance id cancelled fuel (S i) backoff w in
        ((λ r, (r.1, backoff :: r.2)) <$> r, w) in
      match answer with
      | Ok res =>
          match rs_Status res with
          | StatusApproved =>
              match rs_Bundle res with
              | None => (Some (Err (Errorf "the hub reported approval without a certificate"), []), w)
              | Some bundle => (Some (Ok bundle, []), w)
              end
          | StatusRejected =>
              (Some (Err (if cancelled i then ErrCancelled else Errorf "enrollment rejected: %s"), []), w)
          | _ => again (retry_wait (rs_RetryAfter res) backoff)
          end
      | _ => again backoff
      end
  end.
(** The answers of a world to one poll after another. *)
Fixpoint world_after (c : connClient) (instance id : string) (n : nat) (w : W) : W :=
  match n with O => w | S n => world_after c instance id n (result c instance id w).2 end.
Definition waiting_on (c : connClient) (instance id : string) (submitted : res string) (cancelled : nat → bool) (w : W) : Waiting :=
  {| submit_answer := submitted; poll n := (result c instance id (world_after c instance id n w)).1; cancelled := cancelled |}.

(** The loop is [wait_loop], with the answers the world gives. *)
Lemma poll_loop_waits c instance id cancelled submitted fuel backoff i w w0 :
  w = world_after c instance id i w0 →
  (poll_loop c instance id cancelled fuel i backoff w).1 =
    wait_loop (waiting_on c instance id submitted cancelled w0) fuel i backoff.
Proof.
  revert i backoff w. induction fuel as [|fuel IH]; intros i backoff w Hw; [done|].
  assert (∀ n x, world_after c instance id (S n) x = (result c instance id (world_after c instance id n x)).2) as Hs.
  { clear. induction n as [|n IHn]; intros x; [done|]. change (world_after c instance id (S (S n)) x) with (world_after c instance id (S n) (result c instance id x).2). by rewrite IHn. }
  cbn [poll_loop wait_loop]. change (poll (waiting_on c instance id submitted cancelled w0) i) with
    (result c instance id (world_after c instance id i w0)).1. rewrite <-Hw.
  assert ((result c instance id w).2 = world_after c instance id (S i) w0) as Hn by by rewrite Hs, <-Hw.
  destruct (result c instance id w) as [answer w1]. cbn [fst snd] in *.
  assert (∀ b, (if cancelled i then (Some (Err ErrCancelled, []), w1) else
       let '(r, w) := poll_loop c instance id cancelled fuel (S i) b w1 in ((λ r, (r.1, b :: r.2)) <$> r, w)).1 =
     (if Connector.cancelled (waiting_on c instance id submitted cancelled w0) i then Some (Err ErrCancelled, [])
      else (λ r, (r.1, b :: r.2)) <$> wait_loop (waiting_on c instance id submitted cancelled w0) fuel (S i) b)) as Ha.
  { intros b. change (Connector.cancelled (waiting_on c instance id submitted cancelled w0) i) with (cancelled i).
    destruct (cancelled i); [done|]. specialize (IH (S i) b w1 Hn).
    destruct (poll_loop c instance id cancelled fuel (S i) b w1) as [r w2]. simpl in *. by rewrite IH. }
  destruct answer as [res|e|]; [|apply Ha..]. destruct (rs_Status res); try apply Ha; [by destruct (rs_Bundle res)|done].
Qed.

(** [waitForApproval]: the request is submitted unless one is remembered. *)
Definition await_approval `{HK : ConnDisk} (ρ : Range) (c : connClient) (instance : string) (req : Request)
    (cancelled : nat → bool) (fuel : nat) (s : CState) (w : W) : res (option (res Bundle * list Z)) * CState * W :=
  let wait s w :=
    let '(r, w) := poll_loop c instance (cs_RequestID s) cancelled fuel 0 initialBackoff w in (Ok r, s, w) in
  if decide (cs_RequestID s = "") then
    match submit ρ c instance req w with
    | (Ok id, w) =>
        match SaveRequestID id s with
        | (Ok _, s) => wait s w
        | (Err e, s) => (Err e, s, w)
        | (Panic, s) => (Panic, s, w)
        end
    | (Err e, w) => (Err (if cancelled 0%nat then ErrCancelled else e), s, w)
    | (Panic, w) => (Panic, s, w)
    end
  else wait s w.
(** It is [Connector.waitForApproval], with what the world answers: what is
    shown of that holds over any transport. *)
Lemma await_approval_waits `{HK : ConnDisk} ρ c instance req cancelled fuel s w :
  let submitted := submit ρ c instance req w in
  let w1 := if decide (cs_RequestID s = "") then submitted.2 else w in
  let id := if decide (cs_RequestID s = "") then match submitted.1 with Ok id => id | _ => "" end else cs_RequestID s in
  (await_approval ρ c instance req cancelled fuel s w).1 =
    waitForApproval (waiting_on c instance id submitted.1 cancelled w1) fuel s.
Proof.
  cbv zeta. unfold await_approval, waitForApproval, submit_once. unfold bindM at 1. rewrite bind_get.
  assert (∀ id sub s w, cs_RequestID s = id →
    (let '(r, w) := poll_loop c instance (cs_RequestID s) cancelled fuel 0 initialBackoff w in (Ok r, s, w) : res (option (res Bundle * list Z)) * CState * W).1 =
    retM (wait_loop (waiting_on c instance id sub cancelled w) fuel 0 initialBackoff) s) as Hw.
  { intros id sub s0 w0 <-. rewrite <-(poll_loop_waits c instance (cs_RequestID s0) cancelled sub fuel initialBackoff 0 w0 w0 eq_refl).
    by destruct (poll_loop _ _ _ _ _ _ _ _) as [r w2]. }
  destruct (decide (cs_RequestID s = "")) as [Ei|Ei]; [|by apply Hw].
  destruct (submit ρ c instance req w) as [[id|e|] w1]; [|done..]. cbn [submit_answer waiting_on fst snd].
  unfold SaveRequestID. rewrite bind_modify. unfold write_file. destruct (write_fails fileRequest); [done|]. by apply Hw.
Qed.
End Client.

(** ** What a call comes to at the hub *)

Section Calls.
Context `{HC : Crypto} `{HE : Ed25519} `{HS : SshLib} `{HJ : Json} `{HV : ServerJson} `{HP : UrlParser} `{HN : ConnJson}.
Context (wx : Weather).
#[local] Instance conn_Transport : Transport Net := net_Transport wx.

(** A connector's request reaches the hub, which is not talked to by others
    meanwhile. *)
Record calm_for (c : connClient) (host : string) (w : Net) : Prop := {
  cf_base : base_url (nc_base c) host;
  cf_alone : wx_others wx (n_tick w) = [];
  cf_fate : wx_fate wx (n_tick w) = Delivered;
  cf_trusted : ∀ u, trusted wx (nc_client c) u = true;
}.
Definition conn_source : string := sourceAddr (set_remote wx (mkHttp "" "" "" ∅ ∅ "" "")).
Definition conn_applicant (ρ : Range) (c : connClient) (req : Request) : Applicant :=
  mkApplicant KindConnector "" "" (if decide (nc_token c = "") then "" else MAC ρ req (nc_token c)) conn_source.

Lemma conn_sent c host w method segs raw (f : HttpRequest → HttpRequest) :
  calm_for c host w → segs ≠ [] → Forall plain_segment segs →
  ∃ u, NewRequest method (nc_base c +:+ "/" +:+ Join segs "/") raw =
         Ok (u, mkHttp host method ("/" +:+ Join segs "/") ∅ ∅ raw "") ∧
    let out := HubHandler (wx_env wx (n_tick w) (n_api w))
                 (set_remote wx (f (mkHttp host method ("/" +:+ Join segs "/") ∅ ∅ raw ""))) segs (n_api w) in
    http_Do (nc_client c) u (f (mkHttp host method ("/" +:+ Join segs "/") ∅ ∅ raw "")) w =
      (respond out.1, mkNet out.2 (S (n_tick w))).
Proof.
  intros [[scheme Hb] Ha Hf Ht] Hne Hp. exists (mkUrl scheme host ("/" +:+ Join segs "/") segs ∅). split.
  - unfold NewRequest. by rewrite Hb.
  - cbn [http_Do conn_Transport net_Transport]. unfold net_Do. by rewrite Ha, Hf, Ht.
Qed.
Lemma connector_endpoint id rid :
  id ≠ "" → rid ≠ "" →
  find_endpoint "POST" ["v1"; "enroll"; id] = Some (EEnroll id) ∧
  find_endpoint "GET" ["v1"; "enroll"; id; rid] = Some (EResult id rid).
Proof. destruct id as [|a id]; [done|]. destruct rid as [|b rid]; [done|]. intros _ _. by vm_compute. Qed.

Lemma submit_served cfg env c host instance req ρ st (r : res HubRecord) h' rl :
  config_ok cfg → hub_ok cfg (a_hub st) → instance ≠ "" → carried (Some (Marshal_request req)) →
  decode_enroll (Marshal_request req) = Some req → allow (now env) conn_source (a_rl st) = (true, rl) →
  Enroll env instance req (conn_applicant ρ c req) (a_hub st) = (r, h') →
  let req0 := Header_Set ContentType "application/json"
                (mkHttp host MethodPost ("/" +:+ Join ["v1"; "enroll"; instance] "/") ∅ ∅ (Marshal_request req) "") in
  let R := set_remote wx (if decide (nc_token c ≠ "") then Header_Set MACHeader (MAC ρ req (nc_token c)) req0 else req0) in
  r ≠ Panic ∧ ∃ a, HubHandler env R ["v1"; "enroll"; instance] st = (a, mkApi h' (a_nonces st) rl) ∧
  match r with
  | Ok record => a = Reply StatusAccepted (PAccepted (hr_ID record) (hr_Status record) 5)
  | Err _ => ∃ status code e, a = writeError status code e ∧ 300 <= status
  | Panic => False
  end.
Proof.
  intros Hcfg Hok Hi Hcar Hdec Hal Hen req0 R.
  assert (r ≠ Panic) as Hnp.
  { destruct (run_op_ok cfg env (OpEnroll instance req (conn_applicant ρ c req)) (a_hub st) Hcfg) as [Hp _]; [by left|done|].
    cbn [run_op] in Hp. apply ignore_panic in Hp. by rewrite Hen in Hp. }
  split; [done|]. unfold HubHandler.
  assert (r_Method R = "POST") as -> by (unfold R; by destruct (decide (nc_token c ≠ ""))).
  rewrite (proj1 (connector_endpoint instance "r" Hi ltac:(done))). cbn [handle]. unfold handleEnroll, limited.
  assert (sourceAddr R = conn_source) as -> by (unfold R; by destruct (decide (nc_token c ≠ ""))).
  assert (r_Body R = Marshal_request req) as Eb by (unfold R; by destruct (decide (nc_token c ≠ ""))).
  rewrite Hal. unfold HubApi.decode. rewrite (readBody_carried R) by by rewrite Eb. rewrite Eb, Hdec. unfold call.
  assert (Header_Get R MACHeader = if decide (nc_token c = "") then "" else MAC ρ req (nc_token c)) as ->.
  { unfold R, req0. destruct (decide (nc_token c = "")) as [E|E].
    - rewrite decide_False by (by intros []). reflexivity.
    - rewrite decide_True by done. unfold Header_Get, Header_Set, set_remote. simpl. by rewrite lookup_insert_eq. }
  fold (conn_applicant ρ c req). change (a_hub (set_rl rl st)) with (a_hub st). rewrite Hen.
  destruct r as [record|e|]; [|eexists; split; [done|]|done].
  - rewrite (Enroll_fingerprint cfg env _ Hok _ _ _ _ _ Hen). by eexists.
  - destruct (errors_Is e ErrNotFound); [by do 3 eexists|]. by destruct (errors_Is e ErrAmbiguous); do 3 eexists.
Qed.
Lemma result_served env host instance id st :
  instance ≠ "" → id ≠ "" →
  let R := set_remote wx (mkHttp host MethodGet ("/" +:+ Join ["v1"; "enroll"; instance; id] "/") ∅ ∅ "" "") in
  HubHandler env R ["v1"; "enroll"; instance; id] st =
    (match ResultOf (ρ_of env) (a_hub st) instance id with
     | Ok r => Reply StatusOK (PResult r)
     | _ => writeError StatusNotFound "not_found" (Errorf "no such request")
     end, st).
Proof.
  intros Hi Hd R. unfold HubHandler. change (r_Method R) with "GET".
  rewrite (proj2 (connector_endpoint instance id Hi Hd)). cbn [handle]. unfold handleResult, ResultOf.
  pose proof (Resolve_not_panic (ρ_of env) (h_store (a_hub st)) instance).
  destruct (Resolve _ _ _) as [inst|e|]; [|done..]. simpl. by destruct (mlookup _ _).
Qed.

Lemma enroll_words : plain_segment "v1" ∧ plain_segment "enroll".
Proof. split; by apply (bool_decide_unpack _). Qed.
Lemma submit_run c host instance req ρ w a s1 :
  calm_for c host w → plain_segment instance →
  (let req0 := Header_Set ContentType "application/json"
                (mkHttp host MethodPost ("/" +:+ Join ["v1"; "enroll"; instance] "/") ∅ ∅ (Marshal_request req) "") in
   let R := set_remote wx (if decide (nc_token c ≠ "") then Header_Set MACHeader (MAC ρ req (nc_token c)) req0 else req0) in
   HubHandler (wx_env wx (n_tick w) (n_api w)) R ["v1"; "enroll"; instance] (n_api w) = (a, s1)) →
  submit ρ c instance req w =
    (match respond a with
     | Ok resp =>
         if 300 <=? rs_StatusCode resp then Err (enroll_error resp) else
         match Decode_id (rs_Body resp) with
         | None => Err ErrDecode
         | Some id => if decide (id = "") then Err (Errorf "the hub returned no request id") else Ok id
         end
     | Err e => Err e
     | Panic => Panic
     end, mkNet s1 (S (n_tick w))).
Proof.
  intros Hw Hi Hs. cbv zeta in Hs. destruct enroll_words as [P1 P2].
  destruct (conn_sent c host w MethodPost ["v1"; "enroll"; instance] (Marshal_request req)
    (λ req0, let req0 := Header_Set ContentType "application/json" req0 in
             if decide (nc_token c ≠ "") then Header_Set MACHeader (MAC ρ req (nc_token c)) req0 else req0)) as (u&Hu&Hdo);
    [done|done|by repeat (apply Forall_cons_2; [done|])|].
  unfold submit. change (nc_base c +:+ "/v1/enroll/" +:+ instance) with (nc_base c +:+ "/" +:+ Join ["v1"; "enroll"; instance] "/").
  rewrite Hu, bind_liftR. cbv zeta in Hdo. rewrite Hs in Hdo. cbn [fst snd] in Hdo. unfold bindM. cbv zeta. rewrite Hdo.
  destruct (respond a) as [resp|e|]; [|done..]. destruct (300 <=? rs_StatusCode resp); [done|].
  destruct (Decode_id (rs_Body resp)) as [id|]; [|done]. by destruct (decide (id = "")).
Qed.
Lemma result_run c host instance id w :
  calm_for c host w → plain_segment instance → plain_segment id →
  result c instance id w =
    (match ResultOf (ρ_of (wx_env wx (n_tick w) (n_api w))) (a_hub (n_api w)) instance id with
     | Ok r => match Decode_enroll_result (Marshal_payload (PResult r)) with Some r => Ok r | None => Err ErrDecode end
     | _ => Err (enroll_error (mkResponse 404 "404 Not Found" (Marshal_payload (PError "not_found" (Errorf "no such request")))))
     end, mkNet (n_api w) (S (n_tick w))).
Proof.
  intros Hw Hi Hd. destruct enroll_words as [P1 P2].
  destruct (conn_sent c host w MethodGet ["v1"; "enroll"; instance; id] "" (λ r, r)) as (u&Hu&Hdo);
    [done|done|by repeat (apply Forall_cons_2; [done|])|].
  unfold result. change (nc_base c +:+ "/v1/enroll/" +:+ instance +:+ "/" +:+ id)
    with (nc_base c +:+ "/" +:+ Join ["v1"; "enroll"; instance; id] "/").
  rewrite Hu, bind_liftR. cbv zeta in Hdo. rewrite result_served in Hdo by (apply Hi || apply Hd).
  cbn [fst snd] in Hdo. unfold bindM. rewrite Hdo.
  destruct (ResultOf _ _ _ _) as [r|e|]; cbn [respond rs_StatusCode writeError]; [|done..].
  change (300 <=? StatusOK) with false. cbv iota. cbn [rs_Body]. by destruct (Decode_enroll_result _).
Qed.

(** C15: a connector's calls are the hub's operations.  When its request
    reaches the hub and the limiter has room, submitting it does to the hub
    exactly what enrolling does: with the request as the connector wrote it
    and the code of the token it was given, or none; and the connector learns
    the id of the request that was stored, or is refused when the hub refuses.
    Asking what became of it changes nothing and is answered with the hub's
    own result, the bundle included, or with an error when there is none.  And
    waiting for approval over any network is the loop of [waitForApproval],
    fed with what the network gives. *)
Theorem connector_calls_exact (cfg : Config) (c : connClient) (host instance id : string) (req : Request) (ρ : Range)
    (w : Net) (r : res HubRecord) (h' : Hub) (rl : rateLimiter) :
  config_ok cfg → reachable cfg (a_hub (n_api w)) → calm_for c host w → plain_segment instance → plain_segment id →
  carried (Some (Marshal_request req)) → decode_enroll (Marshal_request req) = Some req →
  allow (now (wx_env wx (n_tick w) (n_api w))) conn_source (a_rl (n_api w)) = (true, rl) →
  Enroll (wx_env wx (n_tick w) (n_api w)) instance req (conn_applicant ρ c req) (a_hub (n_api w)) = (r, h') →
  (∃ out, submit ρ c instance req w = (out, mkNet (mkApi h' (a_nonces (n_api w)) rl) (S (n_tick w))) ∧
     match r with
     | Ok record =>
         Decode_id (Marshal_payload (PAccepted (hr_ID record) (hr_Status record) 5)) = Some (hr_ID record) →
         hr_ID record ≠ "" → out = Ok (hr_ID record)
     | _ => ∃ e, out = Err e
     end) ∧
  (∃ out, result c instance id w = (out, mkNet (n_api w) (S (n_tick w))) ∧
     match ResultOf (ρ_of (wx_env wx (n_tick w) (n_api w))) (a_hub (n_api w)) instance id with
     | Ok res => Decode_enroll_result (Marshal_payload (PResult res)) = Some res → out = Ok res
     | _ => ∃ e, out = Err e
     end) ∧
  (∀ (HK : ConnDisk) cancelled fuel s w, ∃ waiting,
     (await_approval ρ c instance req cancelled fuel s w).1 = waitForApproval waiting fuel s ∧
     (cs_RequestID s ≠ "" → poll waiting = λ n, (result c instance (cs_RequestID s) (world_after c instance (cs_RequestID s) n w)).1)).
Proof.
  intros Hcfg Hr Hw Hi Hd Hcar Hdec Hal Hen. pose proof (reachable_ok _ _ Hcfg Hr) as Hok. split_and!.
  - destruct (submit_served cfg _ c host instance req ρ (n_api w) r h' rl Hcfg Hok (proj1 Hi) Hcar Hdec Hal Hen) as (Hnp&a&Hs&Ha).
    rewrite (submit_run c host instance req ρ w a _ Hw Hi Hs). eexists. split; [done|].
    destruct r as [record|e|]; [subst a| |done].
    + intros Hj Hne. cbn [respond rs_StatusCode rs_Body]. change (300 <=? StatusAccepted) with false. cbv iota.
      rewrite Hj. by rewrite decide_False.
    + destruct Ha as (st&code&e'&->&Hst). cbn [respond rs_StatusCode writeError]. rewrite (proj2 (Z.leb_le _ _)) by done. by eexists.
  - rewrite (result_run c host) by done. eexists. split; [done|].
    destruct (ResultOf _ _ _ _) as [res|e|]; [intros ->; done|by eexists..].
  - intros HK cancelled fuel s w0. eexists. split; [apply await_approval_waits|]. intros Hne. cbn [poll waiting_on].
    by rewrite !decide_False by done.
Qed.
End Calls.

(** ** What is said, and the watch *)

Section Describing.
Context `{HH : HostOs}.

(** [prefixList] and [sortedKeys], for log lines. *)
Definition prefixList (routes : list Prefix) : string := Join (Prefix_String <$> routes) ",".
Definition sortedKeys (ρ : Range) (m : gmap string string) : list string := sort_strings (range ρ m).*1.

(** A line of the log: its message and its fields. *)
Definition log_line : Type := string * list (string * string).
(** [describeNetwork]: what was found, and what was told. *)
Definition describeNetwork (cfg : ConnConfig) (given found : list Prefix) (givenDomain foundDomain : string) : list log_line :=
  match detectPlatform with
  | Some p => [("recognized where this is running",
                [("platform", pf_name p);
                 ("dropsPlatformIPv4", if pf_dropIPv4 p && negb keepPlatformIPv4 then "true" else "false")])]
  | None => []
  end ++
  (if (0 <? length given)%nat then [("told to carry", [("routes", prefixList given)])] else []) ++
  (if decide (givenDomain = "") then [] else [("told to resolve", [("domain", givenDomain)])]) ++
  (if cc_DisableAutodiscover cfg then [("detecting nothing, by configuration", [])] else
   [("attached to", [("prefixes", prefixList attachedPrefixes)]);
    ("detected", [("routes", prefixList found); ("domain", orNone foundDomain)])]).
End Describing.

Section Watching.
Context `{HK : ConnDisk} `{HL : CertLib} `{HC : Crypto}.

(** [State.Fingerprint]. *)
Definition ConnFingerprint (s : CState) : string := fingerprintOf (cs_PublicKeyPEM s).
Definition ownFingerprint (bundle : option Bundle) : res string :=
  match bundle with
  | None => Err (Errorf "this connector holds no certificate")
  | Some b =>
      if decide (bu_Certificate b = "") then Err (Errorf "this connector holds no certificate") else
      let? issued := UnmarshalCertificateFromPEM (bu_Certificate b) in CertFingerprint issued
  end.
(** [compareRoutes]: the networks the log complains about. *)
Definition compareRoutes (detected : list Prefix) (bundle : option Bundle) : list Prefix :=
  match detected, bundle with
  | [], _ | _, None => []
  | _, Some b =>
      match UnmarshalCertificateFromPEM (bu_Certificate b) with
      | Ok c => missing_routes detected (tb_UnsafeNetworks (details c))
      | _ => []
      end
  end.
Definition blocklistInterval : Z := 5 * Minute.
(** [watchBlocklist]: nothing to ask about without a request; then one tick
    for each answer, whose reloads fail or not. *)
Definition watchBlocklist (answers : list (res Result * option error)) (w : Watch) : Watch :=
  if decide (cs_RequestID (w_state w) = "") then w else
  let self := match ownFingerprint (cs_Bundle (w_state w)) with Ok fp => fp | _ => "" end in
  foldl (λ w a, watch_tick self a.2 a.1 w) w answers.
End Watching.
