(* ===== verification/Endpoint.v ===== *)
(** * What a connector is told: [cmd/robinet/connect.go], [placeholder.go]

    The one line an owner hands out and a connector is configured with, its
    parser, and the settings of [robinet connect].  The line is written by the
    daemon of the owner's machine ([Tenant.shorthandEndpoint]) and read by
    another program: what is read is what was written. *)

From Stdlib Require Import Ascii.
From S2P Require Export ConnClient.

Open Scope Z_scope.

(** ** The endpoint *)

Definition Placeholder : string := "CHANGEME".
Definition isPlaceholder (endpoint : string) : bool := EqualFold (TrimSpace endpoint) Placeholder.

Definition DefaultAPIPort : string := "8443".

Record Shorthand : Type := mkShorthand { ep_Base : string; ep_Instance : string; ep_Token : string; ep_Pin : string }.

(** The parts after the instance, in the order they come: a token and a pin. *)
Fixpoint endpoint_parts (parts : list string) (token hubPin : string) : res (string * string) :=
  match parts with
  | [] => Ok (token, hubPin)
  | part :: parts =>
      if Written part then
        if decide (hubPin ≠ "") then Err (Errorf "endpoint %q carries two pins") else
        match ParsePin part with
        | Err e => Err (Wrap "endpoint %q: %w" e)
        | Panic => Panic
        | Ok _ => endpoint_parts parts token part
        end
      else if decide (token ≠ "") then Err (Errorf "endpoint %q has more parts than %s")
      else endpoint_parts parts part hubPin
  end.
Definition enrollMarker : string := "/v1/enroll/".
Definition parseEndpoint (raw : string) : res Shorthand :=
  let raw := TrimSpace raw in
  if decide (raw = "") then Ok (mkShorthand "" "" "" "") else
  if HasPrefix raw "http://" || HasPrefix raw "https://" then
    match Cut raw enrollMarker with
    | None => Ok (mkShorthand (TrimRight raw "/") "" "" "")
    | Some (base, rest) =>
        let instance := Trim rest "/" in
        if decide (instance = "") then Err (Errorf "enrollment url %q names no instance")
        else Ok (mkShorthand base instance "" "")
    end
  else
    match Split (Trim raw "/") "/"%char with
    | host :: instance :: parts =>
        if (2 <? length parts)%nat then Err (Errorf "endpoint %q has more parts than %s") else
        let host := match SplitHostPort host with
                    | Some _ => host
                    | None => JoinHostPort (Trim host "[]") DefaultAPIPort
                    end in
        let? (token, hubPin) := endpoint_parts parts "" "" in
        Ok (mkShorthand ("https://" +:+ host) instance token hubPin)
    | _ => Err (Errorf "endpoint %q is not %s and not a url")
    end.

(** ** The settings *)

Section Settings.
Context `{HO : Os}.

Definition envOr (name fallback : string) : string :=
  if decide (Getenv name ≠ "") then Getenv name else fallback.
Definition envBool (name : string) (fallback : bool) : bool :=
  let v := ToLower (TrimSpace (Getenv name)) in
  if decide (v = "") then fallback else negb (bool_decide (v ∈ ["0"; "false"; "no"; "off"])).
Definition envList (name : string) : list string :=
  let v := Getenv name in if decide (v = "") then [] else Split v ","%char.
Definition envUint (name : string) (fallback : Z) : Z :=
  let v := Getenv name in
  if decide (v = "") then fallback else match ParseUint v 32 with Some n => n | None => fallback end.

(** The flags of [robinet connect]. *)
Record ConnectFlags : Type := mkConnectFlags {
  cf_endpoint : string;
  cf_instance : string;
  cf_token : string;
  cf_name : string;
  cf_routes : list string;
  cf_domain : string;
  cf_noDiscover : bool;
  cf_stateDir : string;
  cf_mtu : Z;
  cf_insecure : bool;
  cf_dns : bool;
  cf_logLevel : string;
}.
(** Their defaults, from the environment. *)
Definition connect_flags : ConnectFlags := {|
  cf_endpoint := envOr "ROBINET_ENDPOINT" "";
  cf_instance := envOr "ROBINET_INSTANCE" "";
  cf_token := envOr "ROBINET_TOKEN" "";
  cf_name := envOr "ROBINET_NAME" "";
  cf_routes := envList "ROBINET_ANNOUNCE_ROUTES";
  cf_domain := envOr "ROBINET_DOMAIN" "";
  cf_noDiscover := envBool "ROBINET_DISABLE_AUTODISCOVER" false;
  cf_stateDir := envOr "ROBINET_STATE" "/var/lib/robinet";
  cf_mtu := envUint "ROBINET_MTU" 0 mod 2 ^ 32;
  cf_insecure := envBool "ROBINET_INSECURE" true;
  cf_dns := envBool "ROBINET_DNS" true;
  cf_logLevel := envOr "ROBINET_LOG" "info" |}.

Fixpoint announced_routes (raw : list string) : res (list Prefix) :=
  match raw with
  | [] => Ok []
  | r :: raw =>
      let r := TrimSpace r in
      if decide (r = "") then announced_routes raw else
      match ParsePrefix r with
      | None => Err (Errorf "bad prefix %q: %w")
      | Some p => let? rest := announced_routes raw in Ok (p :: rest)
      end
  end.
(** What [robinet connect] runs its connector with. *)
Definition connect_config (f : ConnectFlags) : res ConnConfig :=
  if isPlaceholder (cf_endpoint f) then Err (Errorf "no endpoint has been set") else
  let? e := parseEndpoint (cf_endpoint f) in
  let instance := if decide (ep_Instance e ≠ "") then ep_Instance e else cf_instance f in
  let token := if decide (ep_Token e ≠ "" ∧ cf_token f = "") then ep_Token e else cf_token f in
  if decide (ep_Base e = "" ∨ instance = "")
  then Err (Errorf "--endpoint is required, as host/instance[/token] or a full enrollment url") else
  let? routes := announced_routes (cf_routes f) in
  Ok (mkConnConfig (ep_Base e) instance token (cf_name f) routes (cf_domain f) (cf_noDiscover f) (cf_mtu f)
        (cf_dns f) (cf_stateDir f) (cf_insecure f) (ep_Pin e)).
End Settings.

(** ** Examples *)

Definition ex_written_pin : string := "SHA256:AAAAAAAAAAAAAAAAAAAAAAAAAAAAAAAAAAAAAAAAAAA".
Example parse_shorthand :
  parseEndpoint " 192.0.2.10/76615289c33b3186/sekret " = Ok (mkShorthand "https://192.0.2.10:8443" "76615289c33b3186" "sekret" "") ∧
  parseEndpoint "192.0.2.10:9443/lab" = Ok (mkShorthand "https://192.0.2.10:9443" "lab" "" "") ∧
  parseEndpoint "[2001:db8::1]/lab" = Ok (mkShorthand "https://[2001:db8::1]:8443" "lab" "" "") ∧
  parseEndpoint ("hub.example/lab/" +:+ ex_written_pin +:+ "/sekret") =
    Ok (mkShorthand "https://hub.example:8443" "lab" "sekret" ex_written_pin).
Proof. split_and!; vm_compute; reflexivity. Qed.
Example parse_url :
  parseEndpoint "https://hub.example:8443/v1/enroll/766/" = Ok (mkShorthand "https://hub.example:8443" "766" "" "") ∧
  parseEndpoint "https://hub.example/" = Ok (mkShorthand "https://hub.example" "" "" "") ∧
  parseEndpoint "hub.example" = Err (Errorf "endpoint %q is not %s and not a url") ∧
  isPlaceholder " changeme" = true.
Proof. split_and!; vm_compute; reflexivity. Qed.

(** ** Reading back what was written *)

(** Part of a path that is not trimmed, and holds no separator. *)
Definition segment (s : string) : Prop :=
  s ≠ "" ∧ Forall (λ c, 32 < code c < 128) (s2l s) ∧ "/"%char ∉ s2l s.
#[export] Instance segment_dec s : Decision (segment s).
Proof. unfold segment. apply _. Defined.
Definition unbracketed (s : string) : Prop := "["%char ∉ s2l s ∧ "]"%char ∉ s2l s.

Lemma cut_last_app h c p : c ∉ s2l p → cut_last (h +:+ l2s [c] +:+ p) c = Some (h, p).
Proof.
  intros Hp. unfold cut_last.
  assert (list_find (λ x, x = c) (rev (s2l (h +:+ l2s [c] +:+ p))) = Some (len p, c)) as ->.
  { apply list_find_Some. rewrite !s2l_app, s2l_l2s, !rev_app_distr. simpl.
    rewrite <-app_assoc. cbn [app]. unfold len. rewrite <-(length_rev (s2l p)). split_and!.
    - by rewrite list_lookup_middle.
    - done.
    - intros j y Hj Hlt ->. rewrite lookup_app_l in Hj by done. apply Hp.
      by apply list_elem_of_In, in_rev, list_elem_of_In, (list_elem_of_lookup_2 _ j). }
  unfold len. rewrite !s2l_app, s2l_l2s, !length_app. simpl.
  replace (length (s2l h) + S (length (s2l p)) - 1 - length (s2l p))%nat with (length (s2l h)) by lia.
  replace (length (s2l h) + S (length (s2l p)) - length (s2l p))%nat with (length (s2l h) + 1)%nat by lia.
  rewrite take_app_length, <-drop_drop, drop_app_length. simpl. by rewrite drop_0, !l2s_s2l.
Qed.
Lemma cut_last_no s c : c ∉ s2l s → cut_last s c = None.
Proof.
  intros H. unfold cut_last. assert (list_find (λ x, x = c) (rev (s2l s)) = None) as ->; [|done].
  apply list_find_None, Forall_forall. intros x Hx ->. apply H. by apply list_elem_of_In, in_rev, list_elem_of_In.
Qed.
Lemma Cut_one a c b : c ∉ s2l a → Cut (a +:+ l2s [c] +:+ b) (l2s [c]) = Some (a, b).
Proof.
  intros Ha. unfold Cut, Index. rewrite !s2l_app, s2l_l2s.
  change ([c] ++ s2l b) with (c :: s2l b).
  assert (indexl [c] (s2l a ++ c :: s2l b) = Some (length (s2l a))) as ->.
  { clear - Ha. induction (s2l a) as [|x l IH]; simpl.
    - rewrite decide_True; [done|]. by exists (s2l b).
    - apply not_elem_of_cons in Ha as [Hx Hl]. rewrite decide_False.
      + by rewrite IH.
      + by intros [k [= <- _]]. }
  unfold len. rewrite s2l_l2s. simpl. rewrite <-drop_drop, take_app_length, drop_app_length. simpl. by rewrite drop_0, !l2s_s2l.
Qed.
Lemma HasPrefix_one s c : HasPrefix s (l2s [c]) = true → c ∈ s2l s.
Proof. intros [r ->]%HasPrefix_spec. rewrite s2l_app, s2l_l2s. apply elem_of_app. left. by apply list_elem_of_singleton. Qed.

(** A host as a url has it. *)
Definition urlHost (host : string) : string :=
  if decide (":"%char ∈ s2l host) then "[" +:+ host +:+ "]" else host.
Lemma JoinHostPort_urlHost host port : JoinHostPort host port = urlHost host +:+ ":" +:+ port.
Proof.
  unfold JoinHostPort, urlHost. destruct (decide (":"%char ∈ s2l host)) as [H|H].
  - rewrite bool_decide_true by done. apply (inj s2l). rewrite !s2l_app. by rewrite <-!app_assoc.
  - by rewrite bool_decide_false.
Qed.
Lemma SplitHostPort_Join host port :
  unbracketed host → unbracketed port → ":"%char ∉ s2l port → SplitHostPort (JoinHostPort host port) = Some (host, port).
Proof.
  intros [H1 H2] [P1 P2] Hp. rewrite JoinHostPort_urlHost. unfold SplitHostPort.
  change ":" with (l2s [":"%char]). rewrite cut_last_app by done. unfold urlHost.
  destruct (decide (":"%char ∈ s2l host)) as [H|H].
  - assert (("[" +:+ host +:+ "]") +:+ l2s [":"%char] +:+ port = ("[" +:+ host) +:+ l2s ["]"%char] +:+ (":" +:+ port)) as ->.
    { apply (inj s2l). rewrite !s2l_app, !s2l_l2s. simpl. by rewrite <-app_assoc. }
    assert (HasPrefix (("[" +:+ host) +:+ l2s ["]"%char] +:+ (":" +:+ port)) "[" = true) as ->
      by (apply HasPrefix_spec; by eexists).
    change "]" with (l2s ["]"%char]). rewrite Cut_one.
    2: { rewrite s2l_app. intros [Hi|Hi]%elem_of_app; [|done]. by apply list_elem_of_singleton in Hi. }
    change (s2l (":" +:+ port)) with (":"%char :: s2l port). cbv iota. rewrite bool_decide_true by done.
    change (s2l (("[" +:+ host) +:+ l2s ["]"%char] +:+ (":" +:+ port))) with ("["%char :: s2l (host +:+ l2s ["]"%char] +:+ (":" +:+ port))).
    change (s2l ("[" +:+ host)) with ("["%char :: s2l host). cbn [drop]. rewrite !drop_0. unfold no_char.
    rewrite !bool_decide_true; [by rewrite !l2s_s2l| |].
    + intros [Hi|Hi]%elem_of_cons; done.
    + rewrite s2l_l2s, !s2l_app, !elem_of_app, s2l_l2s. intros [Hi|[Hi|[Hi|Hi]]]; [done|by apply list_elem_of_singleton in Hi..|done].
  - assert (HasPrefix (host +:+ l2s [":"%char] +:+ port) "[" = false) as ->.
    { apply not_true_is_false. intros Hi%(HasPrefix_one _ "["%char). rewrite !s2l_app, !elem_of_app, s2l_l2s in Hi.
      destruct Hi as [Hi|[Hi|Hi]]; [done|by apply list_elem_of_singleton in Hi|done]. }
    unfold no_char. rewrite !bool_decide_true; [done| | |done].
    all: rewrite !s2l_app, !elem_of_app, s2l_l2s; intros [Hi|[Hi|Hi]]; [done|by apply list_elem_of_singleton in Hi|done].
Qed.
Lemma SplitHostPort_urlHost host : unbracketed host → SplitHostPort (urlHost host) = None.
Proof.
  intros [H1 H2]. unfold SplitHostPort, urlHost. destruct (decide (":"%char ∈ s2l host)) as [H|H]; [|by rewrite cut_last_no].
  destruct (cut_last _ _) as [[before after]|]; [|done].
  assert (HasPrefix ("[" +:+ host +:+ "]") "[" = true) as -> by (apply HasPrefix_spec; by eexists).
  assert ("[" +:+ host +:+ "]" = ("[" +:+ host) +:+ l2s ["]"%char] +:+ "") as -> by done.
  change "]" with (l2s ["]"%char]). rewrite Cut_one; [done|].
  rewrite s2l_app. intros [Hi|Hi]%elem_of_app; [by apply list_elem_of_singleton in Hi|done].
Qed.
Lemma Trim_urlHost host : unbracketed host → Trim (urlHost host) "[]" = host.
Proof.
  intros [H1 H2]. unfold Trim.
  assert (Forall (λ c, in_cutset "[]" c = false) (s2l host)) as Hf.
  { apply Forall_forall. intros c Hc. unfold in_cutset. apply bool_decide_eq_false.
    intros [->|[->|[]%elem_of_nil]%elem_of_cons]%elem_of_cons; done. }
  unfold urlHost. destruct (decide (":"%char ∈ s2l host)) as [H|H].
  - change (s2l ("[" +:+ host +:+ "]")) with ("["%char :: s2l (host +:+ "]")). rewrite s2l_app. change (s2l "]") with ["]"%char].
    assert (drop_while (in_cutset "[]") ("["%char :: s2l host ++ ["]"%char]) = s2l host ++ ["]"%char]) as E.
    { change (drop_while (in_cutset "[]") (s2l host ++ ["]"%char]) = s2l host ++ ["]"%char]). apply drop_while_id.
      intros x Hx. destruct (s2l host) as [|y l] eqn:El; [by apply elem_of_nil in H|]. injection Hx as <-.
      by apply Forall_cons in Hf as [? _]. }
    unfold trim_by. rewrite E. unfold trim_right_by. rewrite rev_app_distr. cbn [rev app drop_while].
    change (in_cutset "[]" "]"%char) with true. cbv iota. change (rev (drop_while (in_cutset "[]") (rev (s2l host)))) with (trim_right_by (in_cutset "[]") (s2l host)).
    rewrite trim_right_by_all by done. apply l2s_s2l.
  - rewrite trim_by_id by done. apply l2s_s2l.
Qed.

(** The host an endpoint is read as. *)
Definition completed (host : string) : string :=
  match SplitHostPort host with Some _ => host | None => JoinHostPort (Trim host "[]") DefaultAPIPort end.
Lemma completed_join host port :
  unbracketed host → unbracketed port → ":"%char ∉ s2l port →
  completed (TrimSuffix (JoinHostPort host port) ":8443") = JoinHostPort host port.
Proof.
  intros Hh Hp Hc. unfold completed. destruct (decide (port = DefaultAPIPort)) as [->|Hne].
  - rewrite (JoinHostPort_urlHost host DefaultAPIPort). change (":" +:+ DefaultAPIPort) with ":8443".
    rewrite TrimSuffix_app, SplitHostPort_urlHost, Trim_urlHost by done. by rewrite JoinHostPort_urlHost.
  - rewrite TrimSuffix_no; [by rewrite SplitHostPort_Join|].
    apply not_true_is_false. intros [r Hr]%HasSuffix_spec. rewrite JoinHostPort_urlHost in Hr.
    apply (f_equal s2l) in Hr. rewrite !s2l_app in Hr.
    apply (last_sep_inj ":"%char _ _ _ (s2l DefaultAPIPort)) in Hr as [_ Hr]; [by apply (inj s2l) in Hr|done|].
    by apply (bool_decide_unpack _).
Qed.
Lemma urlHost_no_port host : HasSuffix (urlHost host) ":8443" = false.
Proof.
  apply not_true_is_false. intros [r Hr]%HasSuffix_spec. apply (f_equal s2l) in Hr. rewrite s2l_app in Hr. unfold urlHost in Hr.
  destruct (decide (":"%char ∈ s2l host)) as [H|H].
  - rewrite <-string_app_assoc, s2l_app in Hr. apply (f_equal last) in Hr.
    change (s2l ":8443") with ([":"; "8"; "4"; "4"] ++ ["3"])%char in Hr. change (s2l "]") with ["]"%char] in Hr.
    rewrite app_assoc, !last_snoc in Hr. discriminate Hr.
  - apply H. rewrite Hr. apply elem_of_app. right. by apply (bool_decide_unpack _).
Qed.
Lemma completed_urlHost host :
  unbracketed host → completed (TrimSuffix (urlHost host) ":8443") = JoinHostPort host DefaultAPIPort.
Proof.
  intros Hh. rewrite TrimSuffix_no by apply urlHost_no_port. unfold completed. by rewrite SplitHostPort_urlHost, Trim_urlHost.
Qed.

Lemma segment_head s : segment s → ∃ c l, s2l s = c :: l ∧ c ≠ "/"%char.
Proof.
  intros (Hne&_&Hs). destruct (s2l s) as [|c l] eqn:E.
  - by apply (f_equal l2s) in E; rewrite l2s_s2l in E.
  - exists c, l. split; [done|]. intros ->. apply Hs. left.
Qed.
Lemma joined_visible segs : Forall segment segs → Forall (λ c, 32 < code c < 128) (s2l (Join segs "/")).
Proof.
  induction 1 as [|s segs Hs H IH]; [constructor|]. destruct segs as [|t segs]; [apply Hs|].
  rewrite Join_cons, !s2l_app by done. apply Forall_app. split; [apply Hs|]. apply Forall_app. split; [|done].
  by apply (bool_decide_unpack _).
Qed.
Lemma joined_no_scheme h id segs p :
  segment h → segment id → Forall segment segs → p ∈ ["http:"; "https:"] → HasPrefix (Join (h :: id :: segs) "/") (p +:+ "//") = false.
Proof.
  intros Hh Hid Hs Hp. apply not_true_is_false. intros [r Hr]%HasPrefix_spec. apply (f_equal s2l) in Hr.
  rewrite Join_cons, !s2l_app in Hr by done. change (s2l "/") with ["/"%char] in Hr.
  change (s2l "//") with ["/"; "/"]%char in Hr. rewrite <-app_assoc in Hr. cbn [app] in Hr.
  apply first_sep_inj in Hr as [_ Hr]; [|apply Hh|].
  - destruct (segment_head id Hid) as (c&l&E&Hc). destruct segs; [|rewrite Join_cons in Hr by done]; cbn [Join] in Hr;
      rewrite ?s2l_app, E in Hr; by injection Hr.
  - apply elem_of_cons in Hp as [->|Hp]; [|apply list_elem_of_singleton in Hp as ->]; by apply (bool_decide_unpack _).
Qed.
Lemma Join_last segs : segs ≠ [] → Forall segment segs → ∃ l c, s2l (Join segs "/") = l ++ [c] ∧ c ≠ "/"%char.
Proof.
  intros Hne H. induction H as [|s segs Hs H IH]; [done|]. destruct segs as [|t segs].
  - cbn [Join]. destruct (segment_head s Hs) as (x&k&E&_), Hs as (_&_&Hn). destruct (s2l s) as [|c l _] eqn:El using rev_ind; [done|].
    exists l, c. split; [done|]. intros ->. apply Hn. apply elem_of_app. right. left.
  - destruct (IH ltac:(done)) as (l&c&E&Hc). rewrite Join_cons by done. exists (s2l s ++ s2l "/" ++ l), c.
    split; [|done]. by rewrite !s2l_app, E, !app_assoc.
Qed.
Lemma Trim_joined segs : segs ≠ [] → Forall segment segs → Trim (Join segs "/") "/" = Join segs "/".
Proof.
  intros Hne H. destruct (Join_last segs Hne H) as (l&c&E&Hc). unfold Trim, trim_by, trim_right_by.
  assert (∀ x, x ≠ "/"%char → in_cutset "/" x = false) as Hin.
  { intros x Hx. unfold in_cutset. apply bool_decide_eq_false. by intros ->%list_elem_of_singleton. }
  rewrite (drop_while_id _ (s2l (Join segs "/"))).
  - rewrite drop_while_id; [by rewrite rev_involutive, l2s_s2l|].
    intros x Hx. rewrite head_rev, E, last_snoc in Hx. injection Hx as <-. by apply Hin.
  - intros x Hx. apply Hin. destruct H as [|s segs Hs H]; [done|]. destruct (segment_head s Hs) as (y&k&Ey&Hy).
    destruct segs; [|rewrite Join_cons in Hx by done]; cbn [Join] in Hx; rewrite ?s2l_app, Ey in Hx; by injection Hx as <-.
Qed.
(** A shorthand is its parts. *)
Lemma parse_joined host id parts :
  segment host → segment id → Forall segment parts → (length parts ≤ 2)%nat →
  parseEndpoint (Join (host :: id :: parts) "/") =
    (let? (token, hubPin) := endpoint_parts parts "" "" in
     Ok (mkShorthand ("https://" +:+ completed host) id token hubPin)).
Proof.
  intros Hh Hi Hp Hl. assert (Forall segment (host :: id :: parts)) as Hf by (by repeat apply Forall_cons_2).
  unfold parseEndpoint. rewrite TrimSpace_visible by by apply joined_visible.
  rewrite decide_False.
  2: { destruct (Join_last (host :: id :: parts) ltac:(done) Hf) as (l&c&E&_). intros H. rewrite H in E. by destruct l. }
  change "http://" with ("http:" +:+ "//"). change "https://" with ("https:" +:+ "//").
  rewrite (joined_no_scheme host id parts "http:"), (joined_no_scheme host id parts "https:") by (done || by (apply (bool_decide_unpack _))).
  cbn [orb]. rewrite Trim_joined by done. rewrite (Split_Join "/"%char) by
    (done || (eapply Forall_impl; [exact Hf|]; by intros s (_&_&Hs))).
  rewrite (proj2 (Nat.ltb_ge _ _)) by lia. reflexivity.
Qed.
Lemma Written_rewritten stored p : Rewritten stored = Ok p → Written p = true ∧ ParsePin p = ParsePin stored ∧ segment p.
Proof.
  unfold Rewritten. intros (sum & Hs & [= <-])%bindR_Ok. destruct (ParsePin_bytes _ _ Hs) as [Hb Hl].
  pose proof (b64_digits_range sum Hb) as Hd.
  assert (Forall (λ c, 32 < code c < 128) (s2l (PinPrefix +:+ EncodeB64 true sum))) as Hv.
  { rewrite s2l_app. apply Forall_app. split; [by apply (bool_decide_unpack _)|].
    unfold EncodeB64. rewrite s2l_l2s, Forall_fmap. eapply Forall_impl; [exact Hd|]. intros d ?. by apply b64_digit_plain. }
  unfold segment. split_and!.
  - unfold Written. rewrite TrimSpace_visible by done. unfold has_fold_prefix. rewrite str_take_app, len_app.
    by rewrite (proj2 (Nat.leb_le _ _)) by lia.
  - by rewrite Hs, ParsePin_written.
  - intros H. by apply (f_equal s2l) in H.
  - done.
  - rewrite s2l_app. intros [H|H]%elem_of_app; [revert H; change ("/"%char ∉ s2l PinPrefix); by apply (bool_decide_unpack _)|].
    unfold EncodeB64 in H. rewrite s2l_l2s in H. apply list_elem_of_fmap in H as (d&E&Hin).
    eapply Forall_forall in Hd; [|exact Hin]. clear - E Hd.
    assert (bool_decide ("/"%char ≠ b64_digit true d) = true) as Hn.
    { revert d Hd E. intros d Hd _. revert d Hd.
      apply (all_below_spec (λ d, bool_decide ("/"%char ≠ b64_digit true d)) 64). by vm_compute. }
    by apply bool_decide_eq_true in Hn.
Qed.

(** What the parts of a shorthand are read as. *)
Lemma parts_read token hubPin :
  (token = "" ∨ Written token = false) → (hubPin = "" ∨ Written hubPin = true ∧ ∃ sum, ParsePin hubPin = Ok sum) →
  endpoint_parts ((if decide (token = "") then [] else [token]) ++ (if decide (hubPin = "") then [] else [hubPin])) "" "" =
    Ok (token, hubPin).
Proof.
  intros Ht Hp.
  assert (∀ t, endpoint_parts (if decide (hubPin = "") then [] else [hubPin]) t "" = Ok (t, hubPin)) as E.
  { intros t. destruct (decide (hubPin = "")) as [->|Hn]; [done|]. destruct Hp as [|[Hw [sum Hs]]]; [done|].
    cbn [endpoint_parts]. rewrite Hw, decide_False by (by intros H; apply H). by rewrite Hs. }
  destruct (decide (token = "")) as [->|Hn]; [apply E|]. destruct Ht as [|Hw]; [done|].
  cbn [endpoint_parts app]. rewrite Hw, decide_False by (by intros H; apply H). apply E.
Qed.
Lemma shorthand_joined `{HU : Urls} hubURL host id token hubPin :
  url_Host hubURL = Some host → host ≠ "" →
  shorthandEndpoint hubURL id token hubPin =
    Join (TrimSuffix host ":8443" :: id ::
          ((if decide (token = "") then [] else [token]) ++ (if decide (hubPin = "") then [] else [hubPin]))) "/".
Proof.
  intros Hu Hn. unfold shorthandEndpoint. rewrite Hu. rewrite (decide_False (P := host = "")) by done.
  destruct (decide (token = "")), (decide (hubPin = "")); simpl; by rewrite ?string_app_assoc.
Qed.

Lemma urlHost_segment host : segment host → unbracketed host → segment (urlHost host).
Proof.
  intros (Hn&Hv&Hs) _. unfold urlHost. destruct (decide _); [|done]. unfold segment. rewrite !s2l_app. split_and!.
  - intros H. by apply (f_equal s2l) in H.
  - by repeat (apply Forall_app; split); [apply (bool_decide_unpack _)| |apply (bool_decide_unpack _)].
  - rewrite !elem_of_app. intros [H|[H|H]]; [by apply list_elem_of_singleton in H|done|by apply list_elem_of_singleton in H].
Qed.
Lemma joined_segment a p : segment a → segment p → segment (a +:+ ":" +:+ p).
Proof.
  intros (Hn&Hv&Hs) (_&Hv'&Hs'). unfold segment. rewrite !s2l_app. split_and!.
  - intros H. apply (f_equal s2l) in H. rewrite s2l_app in H. apply app_nil in H as [H _].
    by apply Hn, (inj s2l).
  - by repeat (apply Forall_app; split); [|apply (bool_decide_unpack _)|].
  - rewrite !elem_of_app. intros [H|[H|H]]; [done|by apply list_elem_of_singleton in H|done].
Qed.
(** The host of a hub's url, as it is written and as it is completed. *)
Lemma written_host host port h :
  (h = JoinHostPort host port ∨ h = urlHost host ∧ port = DefaultAPIPort) →
  segment host → unbracketed host → segment port → unbracketed port → ":"%char ∉ s2l port →
  h ≠ "" ∧ segment (TrimSuffix h ":8443") ∧ completed (TrimSuffix h ":8443") = JoinHostPort host port.
Proof.
  intros Hh Hs Hu Hp Hup Hc. pose proof (urlHost_segment host Hs Hu) as Hb.
  assert (segment h) as Hseg.
  { destruct Hh as [-> |[-> _]]; [|done]. rewrite JoinHostPort_urlHost. by apply joined_segment. }
  split; [apply Hseg|]. split.
  - destruct (HasSuffix h ":8443") eqn:E; [|by rewrite TrimSuffix_no].
    apply HasSuffix_spec in E as [r Hr]. rewrite Hr, TrimSuffix_app. destruct Hh as [Hh|[Hh ->]].
    + rewrite JoinHostPort_urlHost, Hr in Hh. apply (f_equal s2l) in Hh. rewrite !s2l_app in Hh.
      apply (last_sep_inj ":"%char _ _ (s2l DefaultAPIPort)) in Hh as [Hh _]; [by apply (inj s2l) in Hh as ->| |done].
      by apply (bool_decide_unpack _).
    + rewrite Hh in Hr. pose proof (urlHost_no_port host) as Hb'. rewrite Hr, HasSuffix_app in Hb'. done.
  - destruct Hh as [-> |[-> ->]]; [by apply completed_join|by apply completed_urlHost].
Qed.
(** A shorthand is no placeholder: it holds a slash. *)
Lemma joined_no_placeholder host id parts :
  Forall segment (host :: id :: parts) → isPlaceholder (Join (host :: id :: parts) "/") = false.
Proof.
  intros H. unfold isPlaceholder. rewrite TrimSpace_visible by by apply joined_visible. apply bool_decide_eq_false.
  intros E. assert (¬ 47 ∈ lower_byte <$> s2l Placeholder) as Hin by (by apply (bool_decide_unpack _)). apply Hin.
  rewrite <-E. apply list_elem_of_fmap. exists "/"%char. split; [done|].
  rewrite Join_cons, !s2l_app, !elem_of_app by done. right. left. by left.
Qed.

(** What a shorthand is read as, whatever the url it was made of: https at the
    host of that url, with its port, or the default one when it names none. *)
Lemma shorthand_read_as `{HU : Urls} (s : State) (hubURL hubPin host port id token h : string) (f : ConnectFlags)
    (routes : list Prefix) :
  hubAddress s = (hubURL, hubPin) → url_Host hubURL = Some h →
  (h = JoinHostPort host port ∨ h = urlHost host ∧ port = DefaultAPIPort) →
  segment host → unbracketed host → segment port → unbracketed port → ":"%char ∉ s2l port →
  segment id → (token = "" ∨ segment token ∧ Written token = false) →
  let e := shorthandEndpoint hubURL id token hubPin in
  let base := "https://" +:+ JoinHostPort host port in
  parseEndpoint e = Ok (mkShorthand base id token hubPin) ∧
  (hubPin ≠ "" → ParsePin hubPin = ParsePin (dt_Pin (st_data s))) ∧
  (is_ok (ParsePin (dt_Pin (st_data s))) = true → dt_Pin (st_data s) ≠ "" → hubPin ≠ "") ∧
  (cf_endpoint f = e → cf_token f = "" → announced_routes (cf_routes f) = Ok routes →
   connect_config f = Ok (mkConnConfig base id token (cf_name f) routes (cf_domain f) (cf_noDiscover f) (cf_mtu f)
                            (cf_dns f) (cf_stateDir f) (cf_insecure f) hubPin)).
Proof.
  intros Ha Hu Hh Hhost Hub Hport Hup Hc Hid Ht e base.
  assert (hubPin = "" ∨ Written hubPin = true ∧ ParsePin hubPin = ParsePin (dt_Pin (st_data s)) ∧ segment hubPin ∧
          ∃ sum, ParsePin hubPin = Ok sum) as Hp.
  { unfold hubAddress in Ha. destruct (decide _); [injection Ha as _ <-; by left|].
    destruct (Rewritten _) as [p|x|] eqn:Er; injection Ha as _ <-; [right|by left..].
    destruct (Written_rewritten _ _ Er) as (H1&H2&H3). split_and!; try done. rewrite H2. unfold Rewritten in Er.
    by apply bindR_Ok in Er as (sum&Er&_); exists sum. }
  destruct (written_host host port h) as (Hn&Hs&Hco); [done..|].
  set (parts := (if decide (token = "") then [] else [token]) ++ (if decide (hubPin = "") then [] else [hubPin])).
  assert (e = Join (TrimSuffix h ":8443" :: id :: parts) "/") as Ee by by apply shorthand_joined.
  assert (Forall segment parts ∧ (length parts ≤ 2)%nat) as [Hf Hl].
  { unfold parts. destruct (decide (token = "")), (decide (hubPin = "")), Ht as [|[? _]], Hp as [|(_&_&?&_)];
      simpl; split; try done; try lia; repeat (apply Forall_cons_2; [done|]); done. }
  assert (parseEndpoint e = Ok (mkShorthand base id token hubPin)) as He.
  { rewrite Ee, parse_joined by done. unfold parts.
    rewrite parts_read, Hco; [done|destruct Ht as [|[_ ?]]; auto|destruct Hp as [|(?&_&_&?)]; auto]. }
  split_and!.
  - done.
  - by destruct Hp as [|(_&?&_)].
  - intros Hok Hne. unfold hubAddress in Ha. rewrite decide_False in Ha by done. unfold Rewritten in Ha.
    destruct (ParsePin (dt_Pin (st_data s))); [|done..]. injection Ha as _ <-. intros H. by apply (f_equal s2l) in H.
  - intros Ef Etok Er. unfold connect_config. rewrite Ef, Ee, joined_no_placeholder, <-Ee, He, Etok by (by repeat apply Forall_cons_2).
    cbn [bindR ep_Instance ep_Token ep_Base ep_Pin]. destruct Hid as (Hi&_&_).
    rewrite (decide_True (P := id ≠ "")) by done. rewrite decide_False by (intros [H|H]; [by apply (f_equal s2l) in H|done]).
    rewrite Er. cbn [bindR]. f_equal. f_equal. destruct (decide (token = "")) as [->|Hne].
    + by rewrite decide_False by (by intros [? _]).
    + by rewrite decide_True by done.
Qed.


(** ** Where it is not what it was written for *)

(** The port of a url that names none is the scheme's own, 443, and the
    scheme itself may be http; the shorthand says neither, and is read as
    port 8443 over TLS.  And a token may be anything: one that holds a slash
    is read as two parts, one that starts like a pin as a pin. *)
Lemma endpoint_misread :
  let ex_urls := Build_Urls (λ s, match CutPrefix s "https://" with Some h => Some h | None => CutPrefix s "http://" end) in
  parseEndpoint (shorthandEndpoint (HU := ex_urls) "https://hub.example" "lab" "token" "") =
    Ok (mkShorthand "https://hub.example:8443" "lab" "token" "") ∧
  parseEndpoint (shorthandEndpoint (HU := ex_urls) "http://hub.example:8443" "lab" "token" "") =
    Ok (mkShorthand "https://hub.example:8443" "lab" "token" "") ∧
  parseEndpoint (shorthandEndpoint (HU := ex_urls) "https://hub.example:8443" "lab" "to/ken" "") =
    Err (Errorf "endpoint %q has more parts than %s") ∧
  parseEndpoint (shorthandEndpoint (HU := ex_urls) "https://hub.example:8443" "lab" ex_written_pin "") =
    Ok (mkShorthand "https://hub.example:8443" "lab" "" ex_written_pin).
Proof. split_and!; vm_compute; reflexivity. Qed.
