(* ===== verification/NetStack.v ===== *)
(** * The user space network: [internal/netstack], [internal/userdev]

    What a connector does with the packets that reach it: which flows it takes,
    where on the host network each is sent, its listeners, and where a packet
    into the mesh goes.  Moving the packets is the network stack's and nebula's,
    libraries both; what they answer is a class. *)

From Stdlib Require Import Ascii.
From S2P Require Export ConnClient.

Open Scope Z_scope.

(** ** Options: [service.go] *)

Record StackOptions : Type := mkStackOptions {
  sk_Gateway : bool;
  sk_GatewayUDPTimeout : Z;
  sk_DNS : bool;
  sk_DNSUpstreams : list string;
  sk_DNSResolvConf : string;
  sk_DNSPort : Z;
  sk_DNSIdleTimeout : Z;
  sk_HostDialTimeout : Z;
  sk_MTU : Z;
}.
Definition or_default (v d : Z) : Z := if v =? 0 then d else v.
(** [Options.applyDefaults]; the dialer and the log are not part of the model. *)
Definition stack_defaults (o : StackOptions) : StackOptions :=
  mkStackOptions (sk_Gateway o) (or_default (sk_GatewayUDPTimeout o) (60 * Second)) (sk_DNS o) (sk_DNSUpstreams o)
    (sk_DNSResolvConf o) (or_default (sk_DNSPort o) 53) (or_default (sk_DNSIdleTimeout o) (10 * Second))
    (or_default (sk_HostDialTimeout o) (10 * Second)) (or_default (sk_MTU o) 1280).
Definition set_upstreams (l : list string) (o : StackOptions) : StackOptions :=
  mkStackOptions (sk_Gateway o) (sk_GatewayUDPTimeout o) (sk_DNS o) l (sk_DNSResolvConf o) (sk_DNSPort o)
    (sk_DNSIdleTimeout o) (sk_HostDialTimeout o) (sk_MTU o).

(** ** The resolver of the host: [dns.go] *)

Definition defaultResolvConf : string := "/etc/resolv.conf".

(** [Addr.String] of an address with a zone; an unmapped one has none. *)
Definition addr_text (a : Addr) (zone : string) : string :=
  match a with
  | Addr6 _ => if decide (zone = "") then Addr_String a else Addr_String a +:+ "%" +:+ zone
  | _ => Addr_String a
  end.
Definition normalizeResolver (s : string) : res string :=
  if decide (s = "") then Err (Errorf "empty address") else
  match ParseAddr s with
  | Some (a, zone) => Ok (JoinHostPort (addr_text (Unmap a) zone) "53")
  | None =>
      match SplitHostPort s with
      | None => Err (Errorf "address %s: missing port in address")
      | Some (host, port) =>
          match ParseAddr host with
          | None => Err (Errorf "not an ip address: %s")
          | Some _ => if decide (port = "") then Err (Errorf "missing port") else Ok (JoinHostPort host port)
          end
      end
  end.

(** Every line of a file, or an error at one that does not fit. *)
Definition scan_lines (s : string) : res (list string) :=
  if existsb (λ l, (MaxScanTokenSize <=? length l)%nat) (lines_of s)
  then Err (Errorf "bufio.Scanner: token too long") else Ok ((λ l, l2s (drop_cr l)) <$> lines_of s).

(** The address a line of the file names, if it names one that can be used. *)
Definition nameserver_of (line : string) : option string :=
  let line := l2s (take_while (λ c, negb (in_cutset "#;" c)) (s2l line)) in
  match Fields line with
  | word :: value :: _ =>
      if decide (word = "nameserver") then match normalizeResolver value with Ok addr => Some addr | _ => None end else None
  | _ => None
  end.

Section Resolver.
Context `{HO : Os}.

Definition nameserversFromResolvConf (path : string) : res (list string) :=
  match ReadFile path with
  | inr e => Err (Wrap "could not read the resolver config: %w" e)
  | inl text =>
      match scan_lines text with
      | Ok lines => Ok (omap nameserver_of lines)
      | Err e => Err (Wrap "could not read the resolver config: %w" e)
      | Panic => Panic
      end
  end.
Fixpoint normalized (upstreams : list string) : res (list string) :=
  match upstreams with
  | [] => Ok []
  | u :: rest =>
      match normalizeResolver u with
      | Ok addr => let? rest := normalized rest in Ok (addr :: rest)
      | Err e => Err (Wrap "invalid DNS upstream %q: %w" e)
      | Panic => Panic
      end
  end.
Definition resolveDNSUpstreams (o : StackOptions) : res StackOptions :=
  match sk_DNSUpstreams o with
  | [] =>
      let path := if decide (sk_DNSResolvConf o = "") then defaultResolvConf else sk_DNSResolvConf o in
      let? upstreams := nameserversFromResolvConf path in
      if decide (upstreams = []) then Err (Errorf "no nameserver found in %s, set an upstream explicitly")
      else Ok (set_upstreams upstreams o)
  | upstreams => let? l := normalized upstreams in Ok (set_upstreams l o)
  end.
End Resolver.

(** ** The service *)

(** A flow as the stack names it: who it is for, and who it is from. *)
Record FlowID : Type := mkFlowID { fl_LocalAddress : Addr; fl_LocalPort : Z; fl_RemoteAddress : Addr; fl_RemotePort : Z }.
#[export] Instance FlowID_eq_dec : EqDecision FlowID.
Proof. solve_decision. Defined.

(** A listener; what waits in it are connections nobody accepted yet. *)
Record tcpListener : Type := mkListener { tl_port : Z; tl_closed : bool; tl_waiting : list FlowID }.
(** [Service]: its options, its own addresses, the listeners by port, and
    every listener it ever made, by the order they were made in. *)
Record Service : Type := mkService {
  sv_opts : StackOptions;
  sv_localAddrs : gset Addr;
  sv_listeners : gmap Z nat;
  sv_made : list tcpListener;
}.
Definition set_listeners (m : gmap Z nat) (s : Service) : Service := mkService (sv_opts s) (sv_localAddrs s) m (sv_made s).
Definition set_made (l : list tcpListener) (s : Service) : Service := mkService (sv_opts s) (sv_localAddrs s) (sv_listeners s) l.

(** What becomes of a flow: it is reset, it is left without an answer, it is
    taken and spliced to an address of the host network (a UDP one until it
    idles), or it is handed to a listener. *)
Inductive FlowAction : Type :=
  | Refuse
  | Ignore
  | Forward (dst : string) (idle : option Z)
  | Deliver (listener : nat).
#[export] Instance FlowAction_eq_dec : EqDecision FlowAction.
Proof. solve_decision. Defined.

Definition dnsUpstream (s : Service) : string := default "" (head (sk_DNSUpstreams (sv_opts s))).
Definition isLocalAddress (s : Service) (a : Addr) : bool := bool_decide (a ∈ sv_localAddrs s).
(** [hostAddress]: an address that is neither of four nor of sixteen bytes has
    no text. *)
Definition hostAddress (id : FlowID) : string :=
  match fl_LocalAddress id with
  | AddrZero => ""
  | a => JoinHostPort (Addr_String (Unmap a)) (Itoa (fl_LocalPort id))
  end.
(** [forwardTCP] and [forwardUDP], up to their dial; [endpoint] is whether the
    stack makes an endpoint. *)
Definition forwardTCP (endpoint : option error) (dst : string) : FlowAction :=
  if decide (dst = "") then Refuse else match endpoint with Some _ => Refuse | None => Forward dst None end.
Definition forwardUDP (endpoint : option error) (dst : string) (timeout : Z) : FlowAction :=
  if decide (dst = "") then Ignore else match endpoint with Some _ => Ignore | None => Forward dst (Some timeout) end.

Definition tcpHandler (endpoint : option error) (id : FlowID) (s : Service) : FlowAction * Service :=
  if negb (isLocalAddress s (fl_LocalAddress id)) then
    (if sk_Gateway (sv_opts s) then forwardTCP endpoint (hostAddress id) else Refuse, s)
  else
    match sv_listeners s !! fl_LocalPort id with
    | None =>
        (if sk_DNS (sv_opts s) && (fl_LocalPort id =? sk_DNSPort (sv_opts s)) then forwardTCP endpoint (dnsUpstream s)
         else Refuse, s)
    | Some l =>
        match endpoint with
        | Some _ => (Refuse, s)
        | None => (Deliver l, set_made (alter (λ t, mkListener (tl_port t) (tl_closed t)
                                                    (if tl_closed t then tl_waiting t else tl_waiting t ++ [id])) l (sv_made s)) s)
        end
    end.
Definition udpHandler (endpoint : option error) (id : FlowID) (s : Service) : FlowAction :=
  if isLocalAddress s (fl_LocalAddress id) then
    if sk_DNS (sv_opts s) && (fl_LocalPort id =? sk_DNSPort (sv_opts s))
    then forwardUDP endpoint (dnsUpstream s) (sk_DNSIdleTimeout (sv_opts s)) else Ignore
  else if negb (sk_Gateway (sv_opts s)) then Ignore
  else forwardUDP endpoint (hostAddress id) (sk_GatewayUDPTimeout (sv_opts s)).
(** The handler is registered only for a gateway or a resolver. *)
Definition udp_flow (endpoint : option error) (id : FlowID) (s : Service) : FlowAction :=
  if sk_Gateway (sv_opts s) || sk_DNS (sv_opts s) then udpHandler endpoint id s else Ignore.

(** *** Starting *)

(** What nebula and the stack answer while a service is made. *)
Record Making : Type := mkMaking {
  mk_start : option error;
  mk_setup : option error;
  mk_add : Addr → option error;
  mk_modes : option error;
}.
Fixpoint add_addresses (mk : Making) (networks : list Prefix) (local : gset Addr) : res (gset Addr) :=
  match networks with
  | [] => Ok local
  | network :: networks =>
      let addr := Unmap (p_addr network) in
      match mk_add mk addr with
      | Some e => Err (Wrap "could not add %s to the stack: %v" e)
      | None => add_addresses mk networks ({[addr]} ∪ local)
      end
  end.
(** [New]: the service, and whether nebula runs afterwards. *)
Definition stack_New `{HO : Os} (mk : Making) (networks : list Prefix) (o : StackOptions) : res Service * bool :=
  let o := stack_defaults o in
  match (if sk_DNS o then resolveDNSUpstreams o else Ok o) with
  | Err e => (Err e, false)
  | Panic => (Panic, false)
  | Ok o =>
      match mk_start mk with
      | Some e => (Err e, false)
      | None =>
          match mk_setup mk with
          | Some e => (Err (Wrap "could not create netstack NIC: %v" e), false)
          | None =>
              match add_addresses mk networks ∅ with
              | Ok local =>
                  match (if sk_Gateway o then mk_modes mk else None) with
                  | Some e => (Err (Wrap "could not enable promiscuous mode: %v" e), false)
                  | None => (Ok (mkService o local ∅ []), true)
                  end
              | Err e => (Err e, false)
              | Panic => (Panic, false)
              end
          end
      end
  end.

(** *** Listening: [service.go], [listener.go] *)

(** [net.ResolveTCPAddr]: no bytes are the wildcard, and a name is looked up. *)
Class TcpResolver := { ResolveTCPAddr : string → string → res (list Z * Z) }.

Definition Listen `{HR : TcpResolver} (network address : string) : M Service nat :=
  do* guard (bool_decide (network = "tcp" ∨ network = "tcp4")) (Errorf "only tcp is supported") in
  let* (ip, port) := liftR (ResolveTCPAddr network address) in
  do* guard (bool_decide (ip = [] ∨ ip = [0; 0; 0; 0])) (Errorf "only the wildcard address is supported, got %q") in
  do* guard (negb ((port <=? 0) || (65535 <=? port))) (Errorf "invalid port %d") in
  let* s := getM in
  match sv_listeners s !! port with
  | Some _ => raise (Errorf "already listening on port %d")
  | None =>
      let l := length (sv_made s) in
      do* modify (λ s, set_listeners (<[port := l]> (sv_listeners s)) (set_made (sv_made s ++ [mkListener port false []]) s)) in
      retM l
  end.
(** [Close]: what waited in it is closed too. *)
Definition Close (l : nat) : M Service () :=
  modify (λ s,
    match sv_made s !! l with
    | None => s
    | Some t => set_listeners (delete (tl_port t) (sv_listeners s)) (set_made (<[l := mkListener (tl_port t) true []]> (sv_made s)) s)
    end).
(** [Accept], when it does not block: a connection that waits, the [pick]th,
    or the end of a closed listener. *)
Definition EOF : error := Errorf "EOF".
Definition Accept (l pick : nat) (s : Service) : option (res FlowID * Service) :=
  t ← sv_made s !! l;
  match tl_waiting t !! pick with
  | Some id => Some (Ok id, set_made (<[l := mkListener (tl_port t) (tl_closed t) (delete pick (tl_waiting t))]> (sv_made s)) s)
  | None => if tl_closed t then Some (Err EOF, s) else None
  end.

(** *** What is logged of a packet *)

(** [tcpip.Address.String] is the library's. *)
Class StackText := { Address_String : Addr → string }.
Definition packet_protocol (b : list Z) : Z := if nth 0 b 0 / 16 =? 6 then 34525 else 2048.
Definition slice (i n : nat) (b : list Z) : list Z := take n (drop i b).
Definition describePacket `{HT : StackText} (b : list Z) : list (string * string) :=
  let size := ("len", Itoa (Z.of_nat (length b))) in
  match b with
  | [] => [size]
  | first :: _ =>
      if first / 16 =? 4 then
        if (length b <? 20)%nat then [("family", "ipv4"); size; ("note", "too short to read")]
        else [("family", "ipv4"); ("src", Address_String (Addr4 (be_val (slice 12 4 b))));
              ("dst", Address_String (Addr4 (be_val (slice 16 4 b)))); ("proto", Itoa (nth 9 b 0)); size]
      else if first / 16 =? 6 then
        if (length b <? 40)%nat then [("family", "ipv6"); size; ("note", "too short to read")]
        else [("family", "ipv6"); ("src", Address_String (Addr6 (be_val (slice 8 16 b))));
              ("dst", Address_String (Addr6 (be_val (slice 24 16 b)))); ("proto", Itoa (nth 6 b 0)); size]
      else [("family", "unknown"); size]
  end.
(** One tick of [watchDrops]: the counters that moved since the last one. *)
Definition counters : list string :=
  ["received"; "delivered"; "invalidDestination"; "invalidSource"; "malformed"; "disabled"; "ipTablesDropped"; "outgoingErrors"].
Definition watch_drops (read last : list Z) : list (string * Z) * list Z :=
  ((λ x, (x.1, x.2.1)) <$> filter (λ x : string * (Z * Z), x.2.1 ≠ x.2.2) (zip counters (zip read last)), read).

(** ** Splicing: [gateway.go] *)

(** What a reader meets after what a connection gave: its end, an error, or
    nothing, for as long as the other side is silent. *)
Inductive SourceEnd : Type := Ends | Breaks | Waits.
Inductive Progress : Type := Copying | Finished (clean : bool).
#[export] Instance Progress_eq_dec : EqDecision Progress.
Proof. solve_decision. Defined.
(** One direction of a spliced TCP connection: what its source will still
    give and what comes then; how many writes its destination still takes, if
    not any number, and whether a further one fails or waits; and what was
    written. *)
Record Copy : Type := mkCopy {
  co_coming : list string;
  co_then : SourceEnd;
  co_takes : option (nat * bool);
  co_sent : list string;
  co_progress : Progress;
}.
Definition start_copy (coming : list string) (then_ : SourceEnd) (takes : option (nat * bool)) : Copy :=
  mkCopy coming then_ takes [] Copying.
Definition with_progress (p : Progress) (c : Copy) : Copy := mkCopy (co_coming c) (co_then c) (co_takes c) (co_sent c) p.
(** One turn of [io.Copy], [None] while it waits; it ends cleanly at the end of
    its source, and only then closes the writing side of its destination. *)
Definition copy_turn (c : Copy) : option Copy :=
  match co_coming c with
  | [] =>
      match co_then c with
      | Ends => Some (with_progress (Finished true) c)
      | Breaks => Some (with_progress (Finished false) c)
      | Waits => None
      end
  | chunk :: rest =>
      match co_takes c with
      | Some (O, true) => Some (with_progress (Finished false) c)
      | Some (O, false) => None
      | Some (S n, fails) => Some (mkCopy rest (co_then c) (Some (n, fails)) (co_sent c ++ [chunk]) Copying)
      | None => Some (mkCopy rest (co_then c) None (co_sent c ++ [chunk]) Copying)
      end
  end.
(** [spliceTCP]: the two directions, and whether the connections are closed,
    which they are when both directions are done. *)
Record SpliceTCP : Type := mkSplice { sp_out : Copy; sp_back : Copy; sp_closed : bool }.
Inductive splice_step : SpliceTCP → SpliceTCP → Prop :=
  | splice_out o o' b c : co_progress o = Copying → copy_turn o = Some o' → splice_step (mkSplice o b c) (mkSplice o' b c)
  | splice_back o b b' c : co_progress b = Copying → copy_turn b = Some b' → splice_step (mkSplice o b c) (mkSplice o b' c)
  | splice_close o b :
      co_progress o ≠ Copying → co_progress b ≠ Copying →
      splice_step (mkSplice o b false) (mkSplice o b true).

(** [spliceUDP]: the datagrams of a direction, each with the time it comes at
    and whether it can be written on.  A direction ends when nothing comes for
    [timeout], or at a datagram that cannot be written. *)
Fixpoint pipe_ends (timeout last : Z) (coming : list (Z * bool)) : Z :=
  match coming with
  | [] => last + timeout
  | (t, written) :: coming =>
      if last + timeout <? t then last + timeout
      else if written then pipe_ends timeout (Z.max last t) coming else Z.max last t
  end.
(** The first direction to end ends the flow. *)
Definition udp_ends (timeout start : Z) (out back : list (Z * bool)) : Z :=
  Z.min (pipe_ends timeout start out) (pipe_ends timeout start back).
Definition delivered (ends : Z) (coming : list (Z * bool)) : list (Z * bool) := filter (λ x, x.1 ≤ ends) coming.

(** ** The device: [userdev/device.go] *)

Record DeviceRoute : Type := mkDeviceRoute { dr_Prefix : Prefix; dr_Gateway : Addr }.
(** A table routes were inserted in, in an order: what it answers is the
    longest prefix the address is in, the later of two equal ones. *)
Class BartTable := { table_lookup : list DeviceRoute → Addr → option Addr }.
Record Device : Type := mkDevice { dv_networks : list Prefix; dv_routes : option (list DeviceRoute) }.
Definition SetRoutes (routes : list DeviceRoute) (d : Device) : Device :=
  mkDevice (dv_networks d) (if decide (length routes = 0%nat) then None else Some routes).
Definition newDevice (networks : list Prefix) (routes : list DeviceRoute) : Device :=
  SetRoutes routes (mkDevice networks None).
(** A gateway and its weight. *)
Definition RoutesFor `{HR : BartTable} (d : Device) (ip : Addr) : list (Addr * Z) :=
  match dv_routes d ≫= (λ t, table_lookup t ip) with
  | Some gateway => [(gateway, 1)]
  | None => [(ip, 1)]
  end.
