(* ===== verification/NetSpec.v ===== *)
(** * The user space network: what its flows come to

    Where a flow may go, listeners that take their flows until they are closed,
    and splicing: what is delivered, in whatever order the two directions run. *)

From Stdlib Require Import Ascii.
From S2P Require Export NetStack.

Open Scope Z_scope.

(** ** Where flows go *)

Lemma add_addresses_Ok mk networks local s :
  add_addresses mk networks local = Ok s → s = list_to_set ((λ n, Unmap (p_addr n)) <$> networks) ∪ local.
Proof.
  revert local. induction networks as [|n networks IH]; intros local; simpl.
  - intros [= <-]. set_solver.
  - destruct (mk_add _ _); [done|]. intros ->%IH. set_solver.
Qed.
Lemma normalizeResolver_nonempty s a : normalizeResolver s = Ok a → a ≠ "".
Proof.
  assert (∀ h p, JoinHostPort h p ≠ "") as Hj.
  { intros h p H. unfold JoinHostPort in H. apply (f_equal s2l) in H. destruct (bool_decide _); rewrite !s2l_app in H; [done|].
    by destruct (s2l h). }
  unfold normalizeResolver. case_decide; [done|]. destruct (ParseAddr s) as [[x z]|]; [intros [= <-]; apply Hj|].
  destruct (SplitHostPort s) as [[h p]|]; [|done]. destruct (ParseAddr h); [|done]. case_decide; [done|]. intros [= <-]. apply Hj.
Qed.
Lemma normalized_Ok l l' : normalized l = Ok l' → Forall2 (λ u a, normalizeResolver u = Ok a) l l'.
Proof.
  revert l'. induction l as [|u l IH]; intros l'; simpl; [intros [= <-]; constructor|].
  destruct (normalizeResolver u) as [a|e|] eqn:E; [|done..]. intros (r & Hr & [= <-])%bindR_Ok. constructor; [done|]. by apply IH.
Qed.

Section Flows.
Context `{HO : Os}.

(** An upstream the options or the host's configuration name. *)
Definition named_upstream (o : StackOptions) (addr : string) : Prop :=
  ∃ u, normalizeResolver u = Ok addr ∧
    (u ∈ sk_DNSUpstreams o ∨
     sk_DNSUpstreams o = [] ∧ ∃ text line, ReadFile (if decide (sk_DNSResolvConf o = "") then defaultResolvConf else sk_DNSResolvConf o) = inl text ∧
       line ∈ lines_of text ∧ nameserver_of (l2s (drop_cr line)) = Some addr).
Lemma nameserver_normalized line a : nameserver_of line = Some a → ∃ u, normalizeResolver u = Ok a.
Proof.
  unfold nameserver_of. destruct (Fields _) as [|w [|v l]]; [done..|]. case_decide; [|done].
  destruct (normalizeResolver v) as [b|e|] eqn:E; [|done..]. intros [= <-]. by eexists.
Qed.
Lemma resolve_named o o' :
  resolveDNSUpstreams o = Ok o' →
  (∃ l, o' = set_upstreams l o ∧ l ≠ [] ∧ Forall (named_upstream o) l).
Proof.
  unfold resolveDNSUpstreams. destruct (sk_DNSUpstreams o) as [|u l] eqn:Eu.
  - intros (l & Hl & H)%bindR_Ok. case_decide as Hn; [done|]. injection H as <-. exists l. split_and!; [done..|].
    unfold nameserversFromResolvConf in Hl. destruct (ReadFile _) as [text|] eqn:Er; [|done].
    unfold scan_lines in Hl. destruct (existsb _ _); [done|]. injection Hl as <-.
    apply Forall_forall. intros a (line & Hl & Ha)%list_elem_of_omap. apply list_elem_of_fmap in Hl as (raw & -> & Hl).
    destruct (nameserver_normalized _ _ Ha) as [u Hu]. exists u. split; [done|]. right. split; [done|]. by exists text, raw.
  - intros (l' & Hl & [= <-])%bindR_Ok. apply normalized_Ok in Hl. exists l'. split_and!; [done|by inversion Hl|].
    apply Forall_forall. intros a Ha. apply list_elem_of_lookup in Ha as [i Hi].
    destruct (Forall2_lookup_r _ _ _ _ _ Hl Hi) as (v & Hv & Hn). exists v. split; [done|]. left. rewrite Eu.
    by apply (list_elem_of_lookup_2 _ i).
Qed.

(** What [New] makes. *)
Lemma New_makes mk networks o s running :
  stack_New mk networks o = (Ok s, running) →
  running = true ∧ sv_listeners s = ∅ ∧ sv_made s = [] ∧
  (∀ a, a ∈ sv_localAddrs s ↔ ∃ n, n ∈ networks ∧ a = Unmap (p_addr n)) ∧
  ∃ l, sv_opts s = set_upstreams l (stack_defaults o) ∧ (sk_DNS o = true → l ≠ [] ∧ Forall (named_upstream o) l).
Proof.
  unfold stack_New.
  destruct (if sk_DNS (stack_defaults o) then _ else _) as [o'|e|] eqn:Eo; [|done..].
  destruct (mk_start mk); [done|]. destruct (mk_setup mk); [done|].
  destruct (add_addresses _ _ _) as [local|e|] eqn:Ea; [|done..].
  destruct (if sk_Gateway o' then _ else _); [done|]. intros [= <- <-]. split_and!; try done.
  - intros a. apply add_addresses_Ok in Ea as ->. simpl. rewrite elem_of_union, elem_of_list_to_set, list_elem_of_fmap. set_solver.
  - change (sk_DNS (stack_defaults o)) with (sk_DNS o) in Eo. destruct (sk_DNS o).
    + apply resolve_named in Eo as (l & -> & Hn & Hl). exists l. split; [done|]. intros _. split; [done|].
      eapply Forall_impl; [exact Hl|]. done.
    + injection Eo as <-. exists (sk_DNSUpstreams o). by destruct o.
Qed.

Lemma tcp_forward ep id s d t :
  (tcpHandler ep id s).1 = Forward d t →
  t = None ∧
  (isLocalAddress s (fl_LocalAddress id) = true ∧ sv_listeners s !! fl_LocalPort id = None ∧
   sk_DNS (sv_opts s) = true ∧ fl_LocalPort id = sk_DNSPort (sv_opts s) ∧ d = dnsUpstream s ∨
   isLocalAddress s (fl_LocalAddress id) = false ∧ sk_Gateway (sv_opts s) = true ∧ d = hostAddress id ∧ d ≠ "").
Proof.
  assert (∀ dst, forwardTCP ep dst = Forward d t → d = dst ∧ t = None ∧ d ≠ "") as Hf
    by (intros dst; unfold forwardTCP; case_decide; [done|]; destruct ep; [done|]; by intros [= <- <-]).
  unfold tcpHandler. destruct (isLocalAddress _ _); cbn [negb].
  - destruct (sv_listeners s !! _); [by destruct ep|]. destruct (sk_DNS _); [|done]. cbn [andb].
    destruct (Z.eqb_spec (fl_LocalPort id) (sk_DNSPort (sv_opts s))); [|done]. intros (->&->&_)%Hf. auto 10.
  - destruct (sk_Gateway _); [|done]. intros (->&->&?)%Hf. auto 10.
Qed.
Lemma udp_forward ep id s d t :
  udp_flow ep id s = Forward d t →
  isLocalAddress s (fl_LocalAddress id) = true ∧ sk_DNS (sv_opts s) = true ∧ fl_LocalPort id = sk_DNSPort (sv_opts s) ∧
    d = dnsUpstream s ∧ t = Some (sk_DNSIdleTimeout (sv_opts s)) ∨
  isLocalAddress s (fl_LocalAddress id) = false ∧ sk_Gateway (sv_opts s) = true ∧ d = hostAddress id ∧ d ≠ "" ∧
    t = Some (sk_GatewayUDPTimeout (sv_opts s)).
Proof.
  assert (∀ dst x, forwardUDP ep dst x = Forward d t → d = dst ∧ t = Some x ∧ d ≠ "") as Hf
    by (intros dst x; unfold forwardUDP; case_decide; [done|]; destruct ep; [done|]; by intros [= <- <-]).
  unfold udp_flow. destruct (_ || _); [|done]. unfold udpHandler. destruct (isLocalAddress _ _).
  - destruct (sk_DNS _); [|done]. cbn [andb].
    destruct (Z.eqb_spec (fl_LocalPort id) (sk_DNSPort (sv_opts s))); [|done]. intros (->&->&_)%Hf. auto 10.
  - destruct (sk_Gateway _); [|done]. intros (->&->&?)%Hf. auto 10.
Qed.

(** C24: a flow leaves for the host network in two cases only.  Whatever
    addresses a service was made with, a flow for one of them is forwarded
    only when it asks the resolver, names are resolved here, and no listener
    has the port; it goes to an upstream the options or the host's own
    configuration name, and nowhere else.  Any other flow is forwarded only by
    a gateway, to exactly the address and the port it was for.  Everything
    else is reset, left unanswered, or handed to a listener of this
    service; and UDP idles out after the time that is set for its case. *)
Theorem forwards_only_abroad (mk : Making) (networks : list Prefix) (o : StackOptions) (s0 s : Service) (running : bool)
    (endpoint : option error) (id : FlowID) (dst : string) (idle : option Z) :
  stack_New mk networks o = (Ok s0, running) → sv_opts s = sv_opts s0 → sv_localAddrs s = sv_localAddrs s0 →
  let tcp := (tcpHandler endpoint id s).1 in
  let udp := udp_flow endpoint id s in
  let own := ∃ n, n ∈ networks ∧ fl_LocalAddress id = Unmap (p_addr n) in
  tcp = Forward dst idle ∨ udp = Forward dst idle →
  (own ∧ sk_DNS o = true ∧ fl_LocalPort id = or_default (sk_DNSPort o) 53 ∧ named_upstream o dst ∧
   (tcp = Forward dst idle → sv_listeners s !! fl_LocalPort id = None ∧ idle = None) ∧
   (udp = Forward dst idle → idle = Some (or_default (sk_DNSIdleTimeout o) (10 * Second)))) ∨
  (¬ own ∧ sk_Gateway o = true ∧ dst = hostAddress id ∧ fl_LocalAddress id ≠ AddrZero ∧
   (tcp = Forward dst idle → idle = None) ∧
   (udp = Forward dst idle → idle = Some (or_default (sk_GatewayUDPTimeout o) (60 * Second)))).
Proof.
  intros (_&_&_&Hloc&l&Ho&Hl)%New_makes Hos Hls tcp udp own Hf.
  assert (isLocalAddress s (fl_LocalAddress id) = true ↔ own) as Hown
    by (unfold isLocalAddress; rewrite bool_decide_eq_true, Hls, Hloc; unfold own; naive_solver).
  assert (∀ d, (dnsUpstream s) = d → sk_DNS o = true → named_upstream o d) as Hup.
  { intros d <- Hd. destruct (Hl Hd) as [Hn Hf']. unfold dnsUpstream. rewrite Hos, Ho. simpl.
    destruct Hf'; [done|]. done. }
  assert (sk_DNS (sv_opts s) = sk_DNS o ∧ sk_Gateway (sv_opts s) = sk_Gateway o ∧
          sk_DNSPort (sv_opts s) = or_default (sk_DNSPort o) 53 ∧
          sk_DNSIdleTimeout (sv_opts s) = or_default (sk_DNSIdleTimeout o) (10 * Second) ∧
          sk_GatewayUDPTimeout (sv_opts s) = or_default (sk_GatewayUDPTimeout o) (60 * Second)) as (E1&E2&E3&E4&E5)
    by (rewrite Hos, Ho; done).
  assert (hostAddress id ≠ "" → fl_LocalAddress id ≠ AddrZero) as Hz
    by (intros Hx E; apply Hx; unfold hostAddress; by rewrite E).
  assert (isLocalAddress s (fl_LocalAddress id) = false → ¬ own) as Hout by (intros E ?%Hown; congruence).
  pose proof (tcp_forward endpoint id s dst idle) as Ht. pose proof (udp_forward endpoint id s dst idle) as Hu.
  fold tcp in Ht. fold udp in Hu. rewrite E1, E2, E3 in Ht. rewrite E1, E2, E3, E4, E5 in Hu.
  destruct (isLocalAddress s (fl_LocalAddress id)) eqn:El; [left|right]; naive_solver.
Qed.
End Flows.

(** ** Listeners *)

Section Listeners.
Context `{HO : Os} `{HR : TcpResolver}.

(** A listener has its port until it is closed, and nobody else has it. *)
Definition listening (s : Service) : Prop :=
  (∀ port l, sv_listeners s !! port = Some l ↔ ∃ t, sv_made s !! l = Some t ∧ tl_port t = port ∧ tl_closed t = false) ∧
  (∀ l t, sv_made s !! l = Some t → tl_closed t = true → tl_waiting t = []).
Definition open_listener (l : nat) (s : Service) : Prop := ∃ t, sv_made s !! l = Some t ∧ tl_closed t = false.

(** What is done to a service: every listener is closed once at most. *)
Inductive served_by (s0 : Service) : Service → Prop :=
  | served_new : served_by s0 s0
  | served_listen network address s : served_by s0 s → served_by s0 (Listen network address s).2
  | served_close l s : served_by s0 s → open_listener l s → served_by s0 (Close l s).2
  | served_flow endpoint id s : served_by s0 s → served_by s0 (tcpHandler endpoint id s).2
  | served_accept l pick r s s' : served_by s0 s → Accept l pick s = Some (r, s') → served_by s0 s'.

Lemma Listen_run network address s r s' :
  Listen network address s = (r, s') →
  s' = s ∧ is_ok r = false ∨
  ∃ ip port, ResolveTCPAddr network address = Ok (ip, port) ∧ sv_listeners s !! port = None ∧ r = Ok (length (sv_made s)) ∧
    0 < port < 65535 ∧
    s' = set_listeners (<[port := length (sv_made s)]> (sv_listeners s)) (set_made (sv_made s ++ [mkListener port false []]) s).
Proof.
  unfold Listen. rewrite bind_guard. destruct (bool_decide _); [|intros [= <- <-]; by left].
  rewrite bind_liftR. destruct (ResolveTCPAddr _ _) as [[ip port]|e|]; [|intros [= <- <-]; by left..].
  rewrite bind_guard. destruct (bool_decide _); [|intros [= <- <-]; by left].
  rewrite bind_guard. destruct (negb _) eqn:Ep; [|intros [= <- <-]; by left].
  rewrite bind_get. destruct (sv_listeners s !! port) eqn:E; [intros [= <- <-]; by left|].
  intros [= <- <-]. right. exists ip, port. apply negb_true_iff, orb_false_iff in Ep as [?%Z.leb_gt ?%Z.leb_gt]. by split_and!.
Qed.

(** Changing what waits in a listener changes nothing else. *)
Lemma listening_wait s l t t' :
  listening s → sv_made s !! l = Some t → tl_port t' = tl_port t → tl_closed t' = tl_closed t →
  (tl_closed t' = true → tl_waiting t' = []) →
  listening (set_made (<[l := t']> (sv_made s)) s).
Proof.
  intros [H1 H2] Hl Hp Hc Hw. pose proof (lookup_lt_Some _ _ _ Hl) as Hlt. split.
  - intros port k. cbn [sv_listeners set_made sv_made]. rewrite H1. destruct (decide (k = l)) as [->|Hne].
    + rewrite list_lookup_insert_eq by done. rewrite Hl. split; intros (x&[= <-]&?&?); eexists; (split; [done|]); split; congruence.
    + by rewrite list_lookup_insert_ne by done.
  - intros k x. cbn [sv_made set_made]. destruct (decide (k = l)) as [->|Hne].
    + rewrite list_lookup_insert_eq by done. by intros [= <-].
    + rewrite list_lookup_insert_ne by done. apply H2.
Qed.
Lemma listening_listen network address s : listening s → listening (Listen network address s).2.
Proof.
  intros [H1 H2]. destruct (Listen network address s) as [r s'] eqn:E.
  apply Listen_run in E as [[-> _]|(ip&port&_&Hn&_&_&->)]; [done|]. split; cbn [snd sv_listeners sv_made set_listeners set_made].
  - intros p k. destruct (decide (p = port)) as [->|Hp].
    + rewrite lookup_insert_eq. split.
      * intros [= <-]. eexists. rewrite list_lookup_middle by done. done.
      * intros (t&Ht&Hport&Hc). apply lookup_snoc_Some in Ht as [[Hlt Ht]|[-> ?]]; [|done].
        assert (sv_listeners s !! port = Some k) as Hk by (apply H1; eauto). congruence.
    + rewrite lookup_insert_ne by done. rewrite H1. split.
      * intros (t&Ht&?&?). exists t. split; [|done]. by apply lookup_app_l_Some.
      * intros (t&Ht&?&?). apply lookup_snoc_Some in Ht as [[Hlt Ht]|[-> <-]]; [by exists t|done].
  - intros k t Ht Hc. apply lookup_snoc_Some in Ht as [[Hlt Ht]|[-> <-]]; [by eapply H2|done].
Qed.
Lemma listening_close l s : listening s → open_listener l s → listening (Close l s).2.
Proof.
  intros [H1 H2] (t&Ht&Hc). unfold Close, modify. cbn [snd]. rewrite Ht. pose proof (lookup_lt_Some _ _ _ Ht) as Hlt.
  assert (sv_listeners s !! tl_port t = Some l) as Hl by (apply H1; eauto).
  split; cbn [sv_listeners sv_made set_listeners set_made].
  - intros p k. destruct (decide (p = tl_port t)) as [->|Hp].
    + rewrite lookup_delete_eq. split; [done|]. intros (x&Hx&Hport&Hxc). destruct (decide (k = l)) as [->|Hne].
      * rewrite list_lookup_insert_eq in Hx by done. by injection Hx as <-.
      * rewrite list_lookup_insert_ne in Hx by done. assert (sv_listeners s !! tl_port t = Some k) as Hk by (apply H1; eauto). congruence.
    + rewrite lookup_delete_ne by done. rewrite H1. destruct (decide (k = l)) as [->|Hne].
      * rewrite list_lookup_insert_eq by done. split; [intros (x&Hx&?&_); congruence|by intros (x&[= <-]&_&?)].
      * by rewrite list_lookup_insert_ne.
  - intros k x. destruct (decide (k = l)) as [->|Hne]; [rewrite list_lookup_insert_eq by done; by intros [= <-]|].
    rewrite list_lookup_insert_ne by done. apply H2.
Qed.
Lemma alter_insert {A} (f : A → A) (l : list A) (i : nat) x : l !! i = Some x → alter f i l = <[i := f x]> l.
Proof.
  intros H. apply list_eq. intros j. destruct (decide (i = j)) as [<-|Hne].
  - rewrite list_lookup_alter_eq, H. by rewrite list_lookup_insert_eq by by apply lookup_lt_Some in H.
  - by rewrite list_lookup_alter_ne, list_lookup_insert_ne.
Qed.
Lemma tcpHandler_run endpoint id s s' a :
  listening s → tcpHandler endpoint id s = (a, s') →
  s' = s ∨ ∃ l t, a = Deliver l ∧ sv_listeners s !! fl_LocalPort id = Some l ∧ sv_made s !! l = Some t ∧ tl_closed t = false ∧
    s' = set_made (<[l := mkListener (tl_port t) (tl_closed t) (tl_waiting t ++ [id])]> (sv_made s)) s.
Proof.
  intros [H1 _]. unfold tcpHandler. destruct (negb _); [intros [= _ <-]; by left|].
  destruct (sv_listeners s !! _) as [l|] eqn:El; [|intros [= _ <-]; by left].
  destruct endpoint; intros [= <- <-]; [by left|]. right. apply H1 in El as Ht. destruct Ht as (t&Ht&_&Hc). exists l, t.
  split_and!; [done..|]. f_equal. rewrite (alter_insert _ _ _ t Ht). by rewrite Hc.
Qed.
Lemma served_listening s0 s : listening s0 → served_by s0 s → listening s.
Proof.
  intros H0 H. induction H as [|network address s _ IH|l s _ IH Ho|endpoint id s _ IH|l pick r s s' _ IH Ha]; [done|..].
  - by apply listening_listen.
  - by apply listening_close.
  - destruct (tcpHandler endpoint id s) as [a s'] eqn:E. apply tcpHandler_run in E as [->|(l&t&_&_&Ht&Hc&->)]; [done| |done].
    cbn [snd]. apply (listening_wait s l t); try done. intros Hcc. by rewrite Hc in Hcc.
  - unfold Accept in Ha. destruct (sv_made s !! l) as [t|] eqn:Et; [|done]. simpl in Ha.
    destruct (tl_waiting t !! pick) as [id|] eqn:Ew.
    + injection Ha as _ <-. apply (listening_wait s l t); try done. intros Hc. destruct IH as [_ H2].
      by rewrite (H2 l t Et Hc) in Ew.
    + destruct (tl_closed t); [|done]. by injection Ha as _ <-.
Qed.

(** A listener has its port until it is closed.  As long as nobody closes
    a listener twice, an open listener is the only one on its port, every flow
    for one of the service's own addresses and that port is handed to it, and
    accepting gives that flow; once it is closed nothing is handed to it any
    more, accepting from it ends, what waited in it is gone, and its port can
    be listened on again. *)
Theorem listening_until_closed (mk : Making) (networks : list Prefix) (o : StackOptions) (s0 s : Service) (running : bool) (l : nat) :
  stack_New mk networks o = (Ok s0, running) → served_by s0 s → open_listener l s →
  ∃ t, sv_made s !! l = Some t ∧
  (∀ k t', open_listener k s → sv_made s !! k = Some t' → tl_port t' = tl_port t → k = l) ∧
  (∀ id, isLocalAddress s (fl_LocalAddress id) = true → fl_LocalPort id = tl_port t →
   let out := tcpHandler None id s in
   out.1 = Deliver l ∧ ∃ s', Accept l (length (tl_waiting t)) out.2 = Some (Ok id, s') ∧ sv_made s' !! l = Some t) ∧
  let s' := (Close l s).2 in
  (∀ pick, Accept l pick s' = Some (Err EOF, s')) ∧
  (∀ endpoint id, (tcpHandler endpoint id s').1 ≠ Deliver l) ∧
  (∀ address, ResolveTCPAddr "tcp" address = Ok ([], tl_port t) → 0 < tl_port t < 65535 →
   (Listen "tcp" address s').1 = Ok (length (sv_made s))).
Proof.
  intros Hnew Hs Ho.
  assert (listening s) as Hl.
  { apply (served_listening s0); [|done]. apply New_makes in Hnew as (_&E1&E2&_). split; rewrite ?E1, E2.
    - intros p k. rewrite lookup_empty. split; [done|]. by intros (t&?&_).
    - by intros k t ?. }
  pose proof (listening_close l s Hl Ho) as Hl'. destruct Ho as (t&Ht&Hc). destruct Hl as [H1 H2].
  assert (sv_listeners s !! tl_port t = Some l) as Hp by (apply H1; eauto). pose proof (lookup_lt_Some _ _ _ Ht) as Hlt.
  exists t. split; [done|]. split; [|split].
  - intros k t' (t2&Ht2&Hc2) Ht' Hport. simplify_eq. assert (sv_listeners s !! tl_port t = Some k) by (apply H1; eauto). congruence.
  - intros id Ha Hport out. unfold out, tcpHandler. rewrite Ha, Hport, Hp. cbn [negb fst snd]. split; [done|].
    rewrite (alter_insert _ _ _ t Ht), Hc. unfold Accept. cbn [set_made sv_made]. rewrite list_lookup_insert_eq by done.
    cbn [mbind option_bind tl_waiting]. rewrite list_lookup_middle by done. eexists. split; [done|]. cbn [sv_made set_made].
    rewrite list_lookup_insert_eq by (by rewrite length_insert). rewrite delete_middle, app_nil_r. by destruct t; simpl in *; subst.
  - assert (sv_made (Close l s).2 = <[l := mkListener (tl_port t) true []]> (sv_made s) ∧
            sv_listeners (Close l s).2 = delete (tl_port t) (sv_listeners s)) as [Em El]
      by (unfold Close, modify; cbn [snd]; by rewrite Ht).
    split_and!.
    + intros pick. unfold Accept. rewrite Em, list_lookup_insert_eq by done. done.
    + intros endpoint id He. destruct (tcpHandler endpoint id _) as [a s2] eqn:E. cbn [fst] in He. subst a.
      unfold tcpHandler in E. destruct (negb _); [by destruct (sk_Gateway _); [unfold forwardTCP in E; case_decide; [|destruct endpoint]|]|].
      destruct (sv_listeners (Close l s).2 !! _) as [k|] eqn:Ek.
      * destruct endpoint; [done|]. injection E as <- _. destruct Hl' as [H1' _]. apply H1' in Ek as (x&Hx&_&Hxc).
        rewrite Em, list_lookup_insert_eq in Hx by done. by injection Hx as <-.
      * by destruct (_ && _); [unfold forwardTCP in E; case_decide; [|destruct endpoint]|].
    + intros address Hr Hrange. unfold Listen. rewrite bind_guard, bool_decide_true by by left. rewrite bind_liftR, Hr, bind_guard.
      rewrite bool_decide_true by by left. rewrite bind_guard.
      rewrite (proj2 (Z.leb_gt (tl_port t) 0)), (proj2 (Z.leb_gt 65535 (tl_port t))) by lia. cbn [orb negb].
      rewrite bind_get, El, lookup_delete_eq, Em, length_insert. done.
Qed.
End Listeners.

(** Closed a second time, a listener takes its port away from the one that has
    it now: that one is open, and gets nothing any more. *)
Definition any_port : TcpResolver := {| ResolveTCPAddr _ _ := Ok ([], 80) |}.
Definition twice_closed (s : Service) : Service :=
  let listen s := (Listen (HR := any_port) "tcp" ":80" s).2 in
  (Close 0 (listen (Close 0 (listen s)).2)).2.
Lemma second_close_unlistens o local id :
  let s := twice_closed (mkService o local ∅ []) in
  open_listener 1 s ∧ (tcpHandler None id s).1 ≠ Deliver 1.
Proof.
  split; [by eexists|]. unfold tcpHandler, twice_closed, forwardTCP.
  destruct (negb _); cbn [fst]; [by destruct (sk_Gateway _); [case_decide|]|].
  match goal with |- context [?m !! fl_LocalPort id] => assert (m = ∅) as -> by by vm_compute end.
  rewrite lookup_empty. cbn [fst]. destruct (_ && _); [|done]. by case_decide.
Qed.

(** ** Splicing TCP *)

(** How many chunks of a source are written, and what the copy stops at: an
    end, an error, or a wait that nothing ends. *)
Definition written (coming : list string) (takes : option (nat * bool)) : list string :=
  match takes with Some (n, _) => take n coming | None => coming end.
Definition stops_at (coming : list string) (then_ : SourceEnd) (takes : option (nat * bool)) : Progress :=
  let at_end := match then_ with Ends => Finished true | Breaks => Finished false | Waits => Copying end in
  match takes with
  | Some (n, fails) => if (length coming <=? n)%nat then at_end else if fails then Finished false else Copying
  | None => at_end
  end.
(** What a copy comes to. *)
Definition comes_to (c : Copy) : list string * Progress :=
  match co_progress c with
  | Copying => (co_sent c ++ written (co_coming c) (co_takes c), stops_at (co_coming c) (co_then c) (co_takes c))
  | Finished clean => (co_sent c, Finished clean)
  end.
Definition copy_left (c : Copy) : nat :=
  match co_progress c with Copying => S (length (co_coming c)) | Finished _ => 0 end.
Lemma copy_turn_end c c' :
  co_progress c = Copying → copy_turn c = Some c' → comes_to c' = comes_to c ∧ (copy_left c' < copy_left c)%nat.
Proof.
  destruct c as [coming then_ takes sent p]. intros [= ->]. unfold copy_turn. simpl. destruct coming as [|chunk rest].
  - intros H. assert (c' = with_progress (Finished (match then_ with Ends => true | _ => false end)) (mkCopy [] then_ takes sent Copying) ∧
      then_ ≠ Waits) as [-> Hw] by (destruct then_; by simplify_eq).
    unfold comes_to, copy_left, written, stops_at. simpl.
    split; [|lia]. destruct takes as [[n fails]|]; simpl; rewrite ?take_nil, app_nil_r; by destruct then_.
  - destruct takes as [[[|n] []]|]; intros [= <-]; unfold comes_to, copy_left, written, stops_at; simpl; rewrite <-?app_assoc, ?app_nil_r;
      (split; [done|lia]).
Qed.
(** A copy that cannot turn waits for good. *)
Lemma copy_blocked c : co_progress c = Copying → copy_turn c = None → comes_to c = (co_sent c, Copying).
Proof.
  destruct c as [coming then_ takes sent p]. intros [= ->]. unfold copy_turn, comes_to, written, stops_at. simpl.
  destruct coming as [|chunk rest].
  - destruct then_; [done..|]. intros _. destruct takes as [[n fails]|]; simpl; by rewrite ?take_nil, app_nil_r.
  - destruct takes as [[[|n] []]|]; try done. intros _. by rewrite app_nil_r.
Qed.

Definition splice_left (s : SpliceTCP) : nat :=
  copy_left (sp_out s) + copy_left (sp_back s) + (if sp_closed s then 0 else 1).
Definition closed_last (s : SpliceTCP) : Prop :=
  sp_closed s = true → co_progress (sp_out s) ≠ Copying ∧ co_progress (sp_back s) ≠ Copying.
Lemma splice_step_kept s s' :
  splice_step s s' → closed_last s →
  comes_to (sp_out s') = comes_to (sp_out s) ∧ comes_to (sp_back s') = comes_to (sp_back s) ∧ closed_last s'.
Proof.
  intros H Hc. destruct H as [o o' b c Hp Ht|o b b' c Hp Ht|o b Ho Hb]; unfold closed_last in *; simpl in *.
  - destruct (copy_turn_end o o' Hp Ht). split_and!; [done..|]. intros E. by destruct (Hc E).
  - destruct (copy_turn_end b b' Hp Ht). split_and!; [done..|]. intros E. by destruct (Hc E).
  - by split_and!.
Qed.
Lemma splice_step_left s s' : splice_step s s' → (splice_left s' < splice_left s)%nat.
Proof.
  intros [o o' b c Hp Ht|o b b' c Hp Ht|o b Ho Hb]; unfold splice_left; simpl.
  - destruct (copy_turn_end o o' Hp Ht). lia.
  - destruct (copy_turn_end b b' Hp Ht). lia.
  - lia.
Qed.
Lemma splice_steps s s' :
  rtc splice_step s s' → closed_last s →
  comes_to (sp_out s') = comes_to (sp_out s) ∧ comes_to (sp_back s') = comes_to (sp_back s) ∧ closed_last s'.
Proof.
  induction 1 as [s|s s1 s' H1 _ IH]; [done|]. intros Hc.
  destruct (splice_step_kept _ _ H1 Hc) as (E1&E2&Hc1). destruct (IH Hc1) as (E3&E4&H'). by rewrite E3, E4, E1, E2.
Qed.
(** A splice that cannot go on: each direction is done or waits for good, and
    it is closed exactly when both are done. *)
Lemma splice_stuck s :
  (∀ s', ¬ splice_step s s') → closed_last s →
  comes_to (sp_out s) = (co_sent (sp_out s), co_progress (sp_out s)) ∧
  comes_to (sp_back s) = (co_sent (sp_back s), co_progress (sp_back s)) ∧
  (sp_closed s = true ↔ co_progress (sp_out s) ≠ Copying ∧ co_progress (sp_back s) ≠ Copying).
Proof.
  intros Hn Hc. destruct s as [o b c]. cbn [sp_out sp_back sp_closed] in *. split_and!.
  - destruct (co_progress o) as [|co] eqn:Eo; [|by unfold comes_to; rewrite Eo].
    destruct (copy_turn o) as [o'|] eqn:Et; [exfalso; by eapply Hn, splice_out|by apply copy_blocked].
  - destruct (co_progress b) as [|cb] eqn:Eb; [|by unfold comes_to; rewrite Eb].
    destruct (copy_turn b) as [b'|] eqn:Et; [exfalso; by eapply Hn, splice_back|by apply copy_blocked].
  - split; [exact Hc|]. intros [Ho Hb]. destruct c; [done|]. exfalso. by eapply Hn, splice_close.
Qed.

(** C25: a spliced connection delivers what it is given, and is closed when
    neither direction waits.  In whatever order its two directions run, there
    are finitely many turns, and they always come to the same: both directions
    have written everything that came before their source broke or fell silent
    or their destination stopped taking, and a direction is half closed exactly
    when its source ended and all of it was written.  So one side that is
    finished takes nothing from what the other still sends.  The connections
    are closed only after both directions are done; so while one waits they
    stay open, for good when nothing comes, even when the other direction
    failed: a failure closes nothing, and nothing else ends the wait. *)
Theorem splice_delivers (out back : list string) (out_then back_then : SourceEnd) (out_takes back_takes : option (nat * bool)) :
  let start := mkSplice (start_copy out out_then out_takes) (start_copy back back_then back_takes) false in
  let out_stops := stops_at out out_then out_takes in
  let back_stops := stops_at back back_then back_takes in
  Acc (flip splice_step) start ∧
  ∀ s, rtc splice_step start s →
  (sp_closed s = true → co_progress (sp_out s) = out_stops ∧ co_progress (sp_back s) = back_stops ∧
     out_stops ≠ Copying ∧ back_stops ≠ Copying) ∧
  ((∀ s', ¬ splice_step s s') →
   co_sent (sp_out s) = written out out_takes ∧ co_progress (sp_out s) = out_stops ∧
   co_sent (sp_back s) = written back back_takes ∧ co_progress (sp_back s) = back_stops ∧
   (sp_closed s = true ↔ out_stops ≠ Copying ∧ back_stops ≠ Copying)).
Proof.
  intros start out_stops back_stops. split.
  { assert (∀ n s, (splice_left s < n)%nat → Acc (flip splice_step) s) as H; [|by apply (H (S (splice_left start))); lia].
    induction n as [|n IH]; intros s Hn; [lia|]. constructor. intros s' Hs%splice_step_left. apply IH. lia. }
  intros s Hs. destruct (splice_steps _ _ Hs) as (E1&E2&Hc); [done|].
  change (comes_to (sp_out start)) with (written out out_takes, out_stops) in E1.
  change (comes_to (sp_back start)) with (written back back_takes, back_stops) in E2. split.
  - intros Hcl. destruct (Hc Hcl) as [Ho Hb]. unfold comes_to in E1, E2.
    destruct (co_progress (sp_out s)), (co_progress (sp_back s)); try done.
    injection E1 as _ E1. injection E2 as _ E2. by rewrite <-E1, <-E2.
  - intros Hn. destruct (splice_stuck s Hn Hc) as (F1&F2&Hiff). rewrite F1 in E1. rewrite F2 in E2.
    injection E1 as -> E1. injection E2 as -> E2. by rewrite E1, E2 in *.
Qed.
(** Where the server resets while the client waits for its answer, the two
    connections stay open. *)
Lemma reset_leaves_waiting request :
  let start := mkSplice (start_copy [request] Waits None) (start_copy [] Breaks None) false in
  ∃ s, rtc splice_step start s ∧ (∀ s', ¬ splice_step s s') ∧ sp_closed s = false ∧ co_progress (sp_back s) = Finished false.
Proof.
  intros start. eexists (mkSplice (mkCopy [] Waits None [request] Copying) (mkCopy [] Breaks None [] (Finished false)) false).
  split; [|split; [|done]].
  - eapply rtc_l; [by apply splice_out|]. eapply rtc_l; [by apply splice_back|]. apply rtc_refl.
  - intros s' H. by inversion H; simplify_eq.
Qed.

(** ** Splicing UDP *)

Lemma pipe_ends_after timeout since coming :
  0 ≤ timeout → Forall (λ x, x.2 = true) coming → since + timeout ≤ pipe_ends timeout since coming.
Proof.
  intros Ht. revert since. induction coming as [|[t w] coming IH]; intros since H; simpl; [lia|].
  apply Forall_cons in H as [Hw H]. simpl in Hw. subst w. destruct (Z.ltb_spec (since + timeout) t); [lia|].
  specialize (IH (Z.max since t) H). lia.
Qed.
(** No two datagrams of a direction are further apart than [timeout]. *)
Fixpoint steady (timeout since : Z) (coming : list (Z * bool)) : Prop :=
  match coming with
  | [] => True
  | (t, _) :: coming => since ≤ t ≤ since + timeout ∧ steady timeout t coming
  end.
Lemma steady_ends timeout since coming :
  0 ≤ timeout → Forall (λ x, x.2 = true) coming → steady timeout since coming →
  pipe_ends timeout since coming = default since (last coming.*1) + timeout.
Proof.
  intros Ht. revert since. induction coming as [|[t w] coming IH]; intros since H Hs; [done|].
  apply Forall_cons in H as [Hw H]. simpl in Hw. subst w. destruct Hs as [Hlt Hs]. cbn [pipe_ends].
  rewrite (proj2 (Z.ltb_ge _ _)), Z.max_r by lia. rewrite (IH t H Hs), fmap_cons, last_cons. by destruct (last coming.*1).
Qed.
(** A UDP flow lives for [timeout] at least, and while both directions are
    used, for [timeout] after the one that was used last the longest ago.  So
    it idles by direction and not as a flow: one that nobody answers ends one
    [timeout] after it began, however much is sent over it. *)
Lemma udp_flow_idles timeout start out back :
  0 ≤ timeout → Forall (λ x, x.2 = true) out → Forall (λ x, x.2 = true) back →
  start + timeout ≤ udp_ends timeout start out back ∧
  (steady timeout start out → steady timeout start back →
   udp_ends timeout start out back = Z.min (default start (last out.*1)) (default start (last back.*1)) + timeout) ∧
  (back = [] → udp_ends timeout start out back = start + timeout).
Proof.
  intros Ht Ho Hb. pose proof (pipe_ends_after timeout start out Ht Ho) as H1.
  pose proof (pipe_ends_after timeout start back Ht Hb) as H2. unfold udp_ends. split_and!; [lia| |].
  - intros So Sb. rewrite !steady_ends by done. lia.
  - intros ->. simpl. lia.
Qed.
(** A minute of a log stream, one datagram a second, is cut short though the
    flow was never idle. *)
Lemma one_way_flow_is_cut :
  let stream := (λ i, (Z.of_nat i * Second, true)) <$> seq 1 120 in
  udp_ends (60 * Second) 0 stream [] = 60 * Second ∧ length (delivered (60 * Second) stream) = 60%nat ∧
  steady Second 0 stream.
Proof. vm_compute. split_and!; try reflexivity; repeat split; discriminate. Qed.
