(* ===== verification/ConnRun.v ===== *)
(** * A connector from its start: [internal/connector/connector.go]

    [Run]: what is announced, being admitted over the network, and nebula with
    the user space stack on top; and what it comes to when the hub's owner
    approves. *)

From Stdlib Require Import Ascii.
From S2P Require Export ConnClient NetSpec.

Open Scope Z_scope.

(** [nebula.Main] with a device of this program: the networks it gives the
    device, those of the certificate it was configured with. *)
Class NebulaLib := { nebula_Main : tree → res (list Prefix) }.

Section Running.
Context {W : Type} `{HT : !Transport W} `{HP : UrlParser} `{HN : ConnJson}.
Context `{HC : Crypto} `{HX : X509} `{HH : HostOs} `{HK : ConnDisk} `{HL : CertLib} `{HB : !NebulaLib}.

(** What runs: what follows the blocklist, the stack, the device's networks,
    and the networks the log complains about. *)
Record Running : Type := mkRunning {
  rn_watch : Watch;
  rn_service : Service;
  rn_device : Device;
  rn_missing : list Prefix;
}.
(** [connect]: nebula on a user space device, and the stack attached. *)
Definition connect_stack (cfg : ConnConfig) (mk : Making) (routes : list Prefix) (s : CState) : res Running :=
  let? watch := connect s in
  let? networks := nebula_Main (w_raw watch) in
  let device := newDevice networks [] in
  let mtu := overlayMTU (match cs_Bundle s with Some b => bu_MTU b | None => 0 end) (cc_MTU cfg) in
  let? service := (stack_New mk (dv_networks device) (mkStackOptions true 0 (cc_DNS cfg) [] "" 0 0 0 mtu)).1 in
  Ok (mkRunning watch service device (compareRoutes routes (cs_Bundle s))).

(** [Run]; [None] when the fuel ends before an answer. *)
Definition Run (ρ : Range) (cfg : ConnConfig) (mk : Making) (cancelled : nat → bool) (fuel : nat)
    (files : gmap string string) (w : W) : res (option Running) * CState * W :=
  let go routes s w := ((let? r := connect_stack cfg mk routes s in Ok (Some r)), s, w) in
  match announced cfg with
  | Err e => (Err e, started files, w)
  | Panic => (Panic, started files, w)
  | Ok (routes, domain) =>
      match LoadState (started files) with
      | (Err e, s) => (Err e, s, w)
      | (Panic, s) => (Panic, s, w)
      | (Ok _, s) =>
          match cs_Bundle s with
          | Some _ => go routes s w
          | None =>
              match newConnClient (cc_HubURL cfg) (cc_SharedToken cfg) (cc_Insecure cfg) (cc_Pin cfg) with
              | Err e => (Err e, s, w)
              | Panic => (Panic, s, w)
              | Ok c =>
                  match await_approval ρ c (cc_Instance cfg) (enrollment cfg s routes domain) cancelled fuel s w with
                  | (Err e, s, w) => (Err e, s, w)
                  | (Panic, s, w) => (Panic, s, w)
                  | (Ok None, s, w) => (Ok None, s, w)
                  | (Ok (Some (Err e, _)), s, w) => (Err e, s, w)
                  | (Ok (Some (Panic, _)), s, w) => (Panic, s, w)
                  | (Ok (Some (Ok bundle, _)), s, w) =>
                      match SaveBundle bundle s with
                      | (Ok _, s) => go routes s w
                      | (Err e, s) => (Err e, s, w)
                      | (Panic, s) => (Panic, s, w)
                      end
                  end
              end
          end
      end
  end.

(** How the loop ends when a poll is answered with a bundle, and in what
    world. *)
Lemma poll_loop_approved c instance id cancelled n i fuel backoff w result_ b :
  (∀ j, (j < n)%nat → undecided_answer (result c instance id (world_after c instance id j w)).1 ∧ cancelled (i + j)%nat = false) →
  (result c instance id (world_after c instance id n w)).1 = Ok result_ →
  rs_Status result_ = StatusApproved → rs_Bundle result_ = Some b → (n < fuel)%nat →
  ∃ waits, poll_loop c instance id cancelled fuel i backoff w =
    (Some (Ok b, waits), (result c instance id (world_after c instance id n w)).2) ∧ length waits = n.
Proof.
  revert i fuel backoff w. induction n as [|n IH]; intros i fuel backoff w Hw Hp Hs Hb Hf; (destruct fuel as [|fuel]; [lia|]).
  - cbn [world_after] in *. cbn [poll_loop]. destruct (result c instance id w) as [a w1]. cbn [fst snd] in *.
    rewrite Hp, Hs, Hb. by exists [].
  - destruct (Hw 0%nat) as [Hu Hc]; [lia|]. rewrite Nat.add_0_r in Hc. cbn [world_after] in *. cbn [poll_loop].
    destruct (result c instance id w) as [a w1] eqn:Er. cbn [fst snd] in *. rewrite Hc.
    assert (∀ bo, ∃ waits, (let '(r, w0) := poll_loop c instance id cancelled fuel (S i) bo w1 in ((λ r, (r.1, bo :: r.2)) <$> r, w0)) =
      (Some (Ok b, waits), (result c instance id (world_after c instance id n w1)).2) ∧ length waits = S n) as Hag.
    { intros bo. destruct (IH (S i) fuel bo w1) as (waits&->&Hl); [|done..|lia|].
      - intros j Hj. destruct (Hw (S j)) as [H1 H2]; [lia|]. cbn [world_after] in H1. rewrite Er in H1. split; [exact H1|].
        by rewrite Nat.add_succ_comm.
      - exists (bo :: waits). split; [done|]. simpl. lia. }
    destruct a as [r|e|]; [|apply Hag..]. destruct Hu as [Ha Hr]. by destruct (rs_Status r); try done; apply Hag.
Qed.

(** Starting on a directory that is new, when the request is accepted and one
    of the polls is answered with a bundle that nebula and the stack take. *)
Lemma Run_approved ρ cfg mk cancelled n fuel files w c routes domain rid w1 result_ b raw networks service s0 :
  disk_ok → bundle_json → paired files → files !! fileBundle = None → files !! fileRequest = None →
  LoadState (started files) = (Ok (), s0) → announced cfg = Ok (routes, domain) →
  newConnClient (cc_HubURL cfg) (cc_SharedToken cfg) (cc_Insecure cfg) (cc_Pin cfg) = Ok c →
  submit ρ c (cc_Instance cfg) (enrollment cfg s0 routes domain) w = (Ok rid, w1) → rid ≠ "" →
  (∀ j, (j < n)%nat → undecided_answer (result c (cc_Instance cfg) rid (world_after c (cc_Instance cfg) rid j w1)).1 ∧ cancelled j = false) →
  (result c (cc_Instance cfg) rid (world_after c (cc_Instance cfg) rid n w1)).1 = Ok result_ →
  rs_Status result_ = StatusApproved → rs_Bundle result_ = Some b → (n < fuel)%nat →
  connectorConfig b (cs_PrivateKeyPEM s0) = Ok raw → nebula_Main raw = Ok networks →
  stack_New mk networks (mkStackOptions true 0 (cc_DNS cfg) [] "" 0 0 0 (overlayMTU (bu_MTU b) (cc_MTU cfg))) = (Ok service, true) →
  ∃ r s, Run ρ cfg mk cancelled fuel files w =
    (Ok (Some r), s, (result c (cc_Instance cfg) rid (world_after c (cc_Instance cfg) rid n w1)).2) ∧
  cs_Bundle s = Some b ∧ cs_RequestID s = rid ∧ read_in s ∧
  w_raw (rn_watch r) = raw ∧ rn_service r = service ∧ rn_missing r = compareRoutes routes (Some b).
Proof.
  intros Hd Hj Hpair Hnb Hnr Hload Hann Hcl Hsub Hrid Hwait Hpoll Hst Hbu Hfuel Hraw Hneb Hstack.
  destruct (LoadState_run files Hd Hpair) as (s0'&Hload'&Hreads&_&Hreq&Hbun).
  rewrite Hload in Hload'. injection Hload' as <-.
  assert (cs_Bundle s0 = None ∧ cs_RequestID s0 = "") as [En Ei]
    by (destruct Hreads as (_&_&->&->); by rewrite Hreq, Hbun, Hnb, Hnr).
  destruct (SaveRequestID_run rid s0 Hd Hreads) as (s1&Hs1&Hr1&Hid1&Hb1&Hk1&Hp1).
  destruct (SaveBundle_run b s1 Hd Hj Hr1) as (s2&Hs2&Hr2&Hb2&Hk2&Hp2&Hid2).
  destruct (poll_loop_approved c (cc_Instance cfg) rid cancelled n 0 fuel initialBackoff w1 result_ b) as (waits&Hloop&_);
    [done..|].
  exists (mkRunning (mkWatch s2 false raw) service (newDevice networks []) (compareRoutes routes (Some b))), s2.
  split_and!; try done; [|congruence].
  unfold Run. rewrite Hann, Hload, En, Hcl. unfold await_approval. rewrite decide_True by done.
  rewrite Hsub, Hs1, Hid1, Hloop, Hs2.
  unfold connect_stack, connect. rewrite Hb2, Hk2, Hk1, Hraw. cbn [bindR w_raw]. rewrite Hneb. cbn [bindR].
  change (dv_networks (newDevice networks [])) with networks. by rewrite Hstack.
Qed.
End Running.

(** ** Over the network, with the hub at its other end *)

Section AtTheHub.
Context `{HC : Crypto} `{HE : Ed25519} `{HS : SshLib} `{HJ : Json} `{HV : ServerJson} `{HP : UrlParser} `{HN : ConnJson}.
Context `{HX : X509} `{HH : HostOs} `{HK : ConnDisk} `{HL : CertLib} `{HB : !NebulaLib}.
Context (wx : Weather).
#[local] Instance run_Transport : Transport Net := net_Transport wx.

(** A connector on a disk that works, with a request the hub can read. *)
Record starting (cfg : ConnConfig) (files : gmap string string) (c : connClient) (routes : list Prefix) (domain : string)
    (s0 : CState) : Prop := {
  sg_disk : disk_ok;
  sg_json : bundle_json;
  sg_paired : paired files;
  sg_new : files !! fileBundle = None ∧ files !! fileRequest = None;
  sg_load : LoadState (started files) = (Ok (), s0);
  sg_announced : announced cfg = Ok (routes, domain);
  sg_client : newConnClient (cc_HubURL cfg) (cc_SharedToken cfg) (cc_Insecure cfg) (cc_Pin cfg) = Ok c;
  sg_instance : plain_segment (cc_Instance cfg);
  sg_carried : carried (Some (Marshal_request (enrollment cfg s0 routes domain)));
  sg_read : decode_enroll (Marshal_request (enrollment cfg s0 routes domain)) = Some (enrollment cfg s0 routes domain);
}.

(** C16: a connector that is approved ends up running.  It starts on an empty
    directory, its request reaches the hub, which records it; then, whatever
    else happens on the network and at the hub, and however many of its polls
    are lost or find nothing decided, if one of them reaches a hub whose
    record is approved with a certificate that nebula and the stack take, the
    connector runs with exactly that certificate, it is saved with the id the
    hub gave the request, it forwards as a gateway for the addresses of that
    certificate, and resolves names when it was told to; and its polls have
    changed nothing at the hub. *)
Theorem approved_connector_runs (hcfg : Config) (cfg : ConnConfig) (mk : Making) (ρ : Range) (cancelled : nat → bool)
    (n fuel : nat) (files : gmap string string) (c : connClient) (routes : list Prefix) (domain host : string) (s0 : CState)
    (w : Net) (record : HubRecord) (h' : Hub) (rl : rateLimiter) (result_ : Result) (b : Bundle) (raw : tree)
    (networks : list Prefix) (service : Service) :
  config_ok hcfg → reachable hcfg (a_hub (n_api w)) → starting cfg files c routes domain s0 → calm_for wx c host w →
  allow (now (wx_env wx (n_tick w) (n_api w))) (conn_source wx) (a_rl (n_api w)) = (true, rl) →
  let req := enrollment cfg s0 routes domain in
  Enroll (wx_env wx (n_tick w) (n_api w)) (cc_Instance cfg) req (conn_applicant wx ρ c req) (a_hub (n_api w)) = (Ok record, h') →
  let rid := hr_ID record in
  rid ≠ "" → plain_segment rid → Decode_id (Marshal_payload (PAccepted rid (hr_Status record) 5)) = Some rid →
  let w1 := mkNet (mkApi h' (a_nonces (n_api w)) rl) (S (n_tick w)) in
  let at_poll j := world_after c (cc_Instance cfg) rid j w1 in
  (∀ j, (j < n)%nat → undecided_answer (result c (cc_Instance cfg) rid (at_poll j)).1 ∧ cancelled j = false) →
  calm_for wx c host (at_poll n) →
  ResultOf (ρ_of (wx_env wx (n_tick (at_poll n)) (n_api (at_poll n)))) (a_hub (n_api (at_poll n))) (cc_Instance cfg) rid = Ok result_ →
  Decode_enroll_result (Marshal_payload (PResult result_)) = Some result_ →
  rs_Status result_ = StatusApproved → rs_Bundle result_ = Some b → (n < fuel)%nat →
  connectorConfig b (cs_PrivateKeyPEM s0) = Ok raw → nebula_Main raw = Ok networks →
  stack_New mk networks (mkStackOptions true 0 (cc_DNS cfg) [] "" 0 0 0 (overlayMTU (bu_MTU b) (cc_MTU cfg))) = (Ok service, true) →
  ∃ r s, Run ρ cfg mk cancelled fuel files w = (Ok (Some r), s, mkNet (n_api (at_poll n)) (S (n_tick (at_poll n)))) ∧
    cs_Bundle s = Some b ∧ cs_RequestID s = rid ∧ w_raw (rn_watch r) = raw ∧ read_in s ∧
    (∀ a, isLocalAddress (rn_service r) a = true ↔ ∃ p, p ∈ networks ∧ a = Unmap (p_addr p)) ∧
    sk_Gateway (sv_opts (rn_service r)) = true ∧ sk_DNS (sv_opts (rn_service r)) = cc_DNS cfg.
Proof.
  intros Hcfg Hr Hst Hw Hal req Hen rid Hrid Hseg Hdid w1 at_poll Hwait Hcalm Hres Hdec Hap Hbu Hfuel Hraw Hneb Hstack.
  pose proof (reachable_ok _ _ Hcfg Hr) as Hok. pose proof (sg_instance _ _ _ _ _ _ Hst) as Hi.
  destruct (submit_served wx hcfg _ c host (cc_Instance cfg) req ρ (n_api w) (Ok record) h' rl Hcfg Hok (proj1 Hi)
              (sg_carried _ _ _ _ _ _ Hst) (sg_read _ _ _ _ _ _ Hst) Hal Hen) as (_&a&Hs&->).
  pose proof (submit_run wx c host (cc_Instance cfg) req ρ w _ _ Hw Hi Hs) as Hsub.
  cbn [respond rs_StatusCode rs_Body] in Hsub. change (300 <=? StatusAccepted) with false in Hsub. cbv iota in Hsub.
  fold rid in Hsub. rewrite Hdid in Hsub. rewrite decide_False in Hsub by done.
  pose proof (result_run wx c host (cc_Instance cfg) rid (at_poll n) Hcalm Hi Hseg) as Hpoll.
  change (conn_Transport wx) with (run_Transport) in Hpoll, Hsub. rewrite Hres, Hdec in Hpoll.
  destruct Hst as [Hd Hj Hpair [Hnb Hnr] Hload Hann Hcl _ _ _].
  destruct (Run_approved ρ cfg mk cancelled n fuel files w c routes domain rid w1 result_ b raw networks service s0)
    as (r&s&Hrun&H1&H2&H3&H4&H5&_); try done; [by change (world_after c (cc_Instance cfg) rid n w1) with (at_poll n); rewrite Hpoll|].
  exists r, s. change (world_after c (cc_Instance cfg) rid n w1) with (at_poll n) in Hrun. rewrite Hpoll in Hrun.
  destruct (New_makes _ _ _ _ _ Hstack) as (_&_&_&Hloc&l&Ho&_).
  split_and!; try done.
  - intros x. unfold isLocalAddress. rewrite bool_decide_eq_true, H5. apply Hloc.
  - rewrite H5, Ho. done.
  - rewrite H5, Ho. done.
Qed.
End AtTheHub.
