(* ===== verification/Cli.v ===== *)
(** * The command line: [cmd/robinet]

    How a command asks the daemon of this machine ([control.go]), and what each
    command asks and prints.  What is printed is lines and tables: aligning the
    columns of a table is the library's, and so is reading the arguments. *)

From Stdlib Require Import Ascii.
From S2P Require Export SocketSpec ConnRun.

Open Scope Z_scope.

(** ** Printing *)

Inductive Printed : Type := Line (s : string) | Table (rows : list (list string)).
(** [fmt.Sprintf] of a number. *)
Definition numeral (n : nat) : string := Itoa (Z.of_nat n).

Definition dashIfEmpty (s : string) : string := if decide (s = "") then "-" else s.
Definition pendingOrDash (n : nat) : string := if decide (n = 0%nat) then "-" else numeral n.
Definition addrOrDash (p : Prefix) : string := if IsValid p then Prefix_String p else "-".
Definition prefixOrDash (p : Prefix) : string := if negb (IsValid p) then "-" else Prefix_String p.
Definition prefixes (l : list Prefix) : string :=
  if decide (length l = 0%nat) then "-" else Join (Prefix_String <$> l) ",".
Definition routeList (routes : list Route) : string :=
  if decide (length routes = 0%nat) then "-" else Join (Prefix_String <$> (rt_Prefix <$> routes)) ",".
(** [short]: an identifier cut for display. *)
Definition short (s : string) (n : nat) : string := if (len s <=? n)%nat then s else str_take n s.
(** [s[:n]], which panics when [s] is shorter. *)
Definition cut_to (s : string) (n : nat) : res string := if (len s <? n)%nat then Panic else Ok (str_take n s).
Definition connState (c : ConnectionStatus) : string :=
  if cs_Running c then "up" else if cs_Waiting c then "waiting" else "down".
Definition applicantName (r : Request) : string :=
  if decide (rq_Name r ≠ "") then rq_Name r else
  let host := default "" (mget (rq_Hints r) !! "hostname") in
  if decide (host ≠ "") then host else "-".
Definition willBeCalled (p : PendingEntry) : string :=
  if decide (pe_WillBeCalled p ≠ "") then pe_WillBeCalled p else applicantName (hr_Request (pe_Record p)).
(** [hintOrder]: what is known first, in that order, then the rest as it
    sorts. *)
Definition known_hints : list string := ["platform"; "project"; "environment"; "service"; "region"; "hostname"].
Definition hintOrder (ρ : Range) (hints : gmap string string) : list string :=
  let out := filter (λ k, default "" (hints !! k) ≠ "") known_hints in
  out ++ sort_strings (filter (λ k, k ∉ out) (range ρ hints).*1).

(** Formatting a time where the program runs. *)
Class LocalTime := { local_format : string → Time → string }.
Definition describe `{HT : LocalTime} (ρ : Range) (p : PendingEntry) : list Printed :=
  let r := pe_Record p in
  let name := willBeCalled p in
  let hints := mget (rq_Hints (hr_Request r)) in
  [Line ""; Line ("  " +:+ short (hr_ID r) 8 +:+ "  " +:+ hr_Kind r +:+ " in " +:+ pe_Instance p)] ++
  (if decide (name ≠ "-") then [Line ("    called       " +:+ name +:+ "." +:+ pe_Instance p +:+ "." +:+ Suffix)] else []) ++
  [Line ("    address      " +:+ Prefix_String (pe_Address p))] ++
  (if IsValid (er_OverlayAddress6 (hr_Record r))
   then [Line ("    address6     " +:+ Prefix_String (er_OverlayAddress6 (hr_Record r)))] else []) ++
  [Line ("    routes       " +:+ prefixes (rq_Routes (hr_Request r)))] ++
  (if decide (rq_Domain (hr_Request r) ≠ "") then [Line ("    domain       " +:+ rq_Domain (hr_Request r))] else []) ++
  [Line ("    from         " +:+ er_SourceAddr (hr_Record r));
   Line ("    key          " +:+ short (hr_Fingerprint r) 16)] ++
  (if decide (hr_Identity r ≠ "")
   then [Line ("    identity     " +:+ short (hr_Identity r) 16 +:+ " (binder " +:+ hr_Binder r +:+ ")")] else []) ++
  [Line ("    asked        " +:+ local_format "2006-01-02 15:04:05" (er_ReceivedAt (hr_Record r)));
   Table ((λ k, ["    " +:+ k; default "" (hints !! k)]) <$> hintOrder ρ hints)].

(** ** Asking the daemon: [control.go] *)

(** What dialing the socket fails with, inside the error of a url and the
    error of a dial. *)
Definition ErrRefused : error := Errorf "connection refused".
Definition ErrPermission : error := Errorf "permission denied".
Definition ErrDeadline : error := Errorf "context deadline exceeded".
Definition url_error : string := "%s %q: %w".
Definition op_error : string := "%s %s %s: %w".
(** [errors.As], and the error inside of what it finds. *)
Fixpoint inside (kind : string) (e : error) : option error :=
  match e with
  | Wrap f e' => if decide (f = kind) then Some e' else inside kind e'
  | _ => None
  end.

Record ControlReply : Type := mkControlReply { cr_Version : string; cr_StatusCode : Z; cr_Status : string; cr_Body : string }.
(** A request over the socket. *)
Class ControlTransport (W : Type) := { socket_Do : string → string → string → M W ControlReply }.
(** What [robinet instance create] reads of an answer: its members that are
    strings. *)
Record NewInstance : Type := mkNewInstance {
  nw_id : option string;
  nw_overlay : option string;
  nw_overlay6 : option string;
  nw_endpoint : option string;
}.
(** What is written into bodies, and read from them. *)
Class ControlWords := {
  write_connect : ConnectRequest → string;
  write_config : ConfigRequest → string;
  write_approve : ApproveBody → string;
  write_decision : DecisionRequest → string;
  write_delete : DeleteRequest → string;
  write_token : InstanceTokenRequest → string;
  write_inbound : InboundRequest → string;
  write_alias : AliasRequest → string;
  write_dns : DNSRequest → string;
  write_families : FamiliesRequest → string;
  write_cheat : CheatRequest → string;
  write_create : CreateRequest → string;
  write_member : MemberRef → string;
  as_status : string → option DaemonStatus;
  as_instances : string → option (list InstanceSummary);
  as_members : string → option (list MemberEntry);
  as_reach : string → option (list Reach);
  as_info : string → option InstanceInfo;
  as_config : string → option string;
  as_pending : string → option (list PendingEntry);
  as_created : string → option NewInstance;
  as_approved : string → option PendingEntry;
  as_removed : string → option MemberEntry;
  as_token : string → option TokenResult;
  as_version : string → option string;
  as_families : string → option string;
  as_inbound : string → option string;
  as_cheat : string → option bool;
  as_plan : string → option (list DNSEntry);
  as_aliases : string → option (gmap string string);
  as_deleted : string → option DeleteResult;
  as_error : string → option string;
}.

Record control : Type := mkControl { ct_path : string; ct_anyVersion : bool }.
Definition newControl (path : string) : control := mkControl path false.

Section Commands.
Context {W : Type} `{HT : !ControlTransport W} `{HW : ControlWords} `{HB : Build} `{HL : LocalTime}.

Definition unreachable (c : control) (err : error) : error :=
  let err := default err (inside url_error err) in
  let err := default err (inside op_error err) in
  if errors_Is err ErrCancelled || errors_Is err ErrDeadline then err
  else if errors_Is err ErrNotExist then Errorf "the daemon is not running: robinet setup"
  else if errors_Is err ErrRefused then Errorf ("the daemon is not running, though " +:+ ct_path c +:+ " is still there: robinet setup")
  else if errors_Is err ErrPermission then Errorf (ct_path c +:+ " belongs to the user who registered this machine, and this is not them")
  else Wrap ("could not reach the daemon on " +:+ ct_path c +:+ ": %w") err.
Definition headerOrUnknown (header : string) : string := if decide (header = "") then "an older build" else header.
Definition checkVersion (header : string) : res () :=
  if decide (header = VersionString) then Ok ()
  else Err (Errorf ("the daemon is running " +:+ headerOrUnknown header +:+ " and this command is " +:+ VersionString +:+ ": robinet restart")).
(** [control.do]; what it gives is the body. *)
Definition control_do (c : control) (method path body : string) : M W string :=
  let* resp := tryM (socket_Do method path body) (λ r, match r with inl resp => retM resp | inr e => raise (unreachable c e) end) in
  do* (if ct_anyVersion c then retM () else liftR (checkVersion (cr_Version resp))) in
  if 300 <=? cr_StatusCode resp then
    match as_error (str_take (Z.to_nat (Z.shiftl 4 10)) (cr_Body resp)) with
    | Some e => if decide (e ≠ "") then raise (Errorf e) else raise (Errorf ("daemon returned " +:+ cr_Status resp))
    | None => raise (Errorf ("daemon returned " +:+ cr_Status resp))
    end
  else retM (cr_Body resp).
Definition control_into {A} (out : string → option A) (c : control) (method path body : string) : M W A :=
  let* body := control_do c method path body in
  match out body with Some a => retM a | None => raise ErrDecode end.
Definition control_only (c : control) (method path body : string) : M W () :=
  let* _ := control_do c method path body in retM ().

(** ** The commands *)

Definition print (l : list Printed) : M W (list Printed) := retM l.

(** [robinet status]; a request whose id is shorter than eight bytes panics. *)
Definition status_pending (p : PendingEntry) : res (list string) :=
  let? id := cut_to (hr_ID (pe_Record p)) 8 in
  Ok ["  " +:+ id; pe_Instance p; hr_Kind (pe_Record p); rq_Name (hr_Request (pe_Record p)); Prefix_String (pe_Address p);
      prefixes (rq_Routes (hr_Request (pe_Record p))); er_SourceAddr (hr_Record (pe_Record p))].
Fixpoint rows_of {A} (f : A → res (list string)) (l : list A) : res (list (list string)) :=
  match l with
  | [] => Ok []
  | a :: l => let? row := f a in let? rows := rows_of f l in Ok (row :: rows)
  end.
Definition status_connections (l : list ConnectionStatus) : list Printed :=
  if decide (length l = 0%nat) then [] else
  let dual := existsb (λ c, IsValid (cs_Address6 c)) l in
  [Line ""; Line "connections";
   Table ((if dual then ["  INSTANCE"; "ROLE"; "ADDRESS"; "ADDRESS6"; "DEVICE"; "STATE"; "ROUTES"]
           else ["  INSTANCE"; "ROLE"; "ADDRESS"; "DEVICE"; "STATE"; "ROUTES"]) ::
          ((λ c, ["  " +:+ cs_Instance c; cs_Role c; addrOrDash (cs_Address c)] ++
                 (if dual then [addrOrDash (cs_Address6 c)] else []) ++
                 [cs_Device c; connState c; routeList (cs_Routes c)]) <$> l))] ++
  (l ≫= λ c, if decide (cs_Endpoint c = "") then [] else
             [Line ""; Line ("  connectors for " +:+ cs_Instance c); Line ("    ROBINET_ENDPOINT=" +:+ cs_Endpoint c);
              Line ("    ROBINET_ENDPOINT  " +:+ cs_Endpoint c)]).
Definition statusCmd (c : control) : M W (list Printed) :=
  let* status := control_into as_status c "GET" "/status" "" in
  let* waiting := liftR (rows_of status_pending (ds_Pending status)) in
  print ([Line ("hub        " +:+ ds_Hub status); Line ("machine    " +:+ ds_Name status +:+ " (binder " +:+ ds_Binder status +:+ ")")] ++
    (if decide (ds_Families status ≠ "" ∧ ds_Families status ≠ FamiliesBoth)
     then [Line ("routes     " +:+ ds_Families status +:+ " only, by local choice")] else []) ++
    (if decide (ds_Inbound status ≠ "" ∧ ds_Inbound status ≠ InboundPing) then [Line ("inbound    " +:+ ds_Inbound status)] else []) ++
    (if decide (ds_Version status ≠ "" ∧ ds_Version status ≠ VersionString)
     then [Line ("daemon     " +:+ ds_Version status +:+ ", this command is " +:+ VersionString)] else []) ++
    status_connections (ds_Connections status) ++
    (if decide (length (ds_Pending status) = 0%nat) then [] else
     [Line ""; Line "waiting for a decision"; Table (["  ID"; "INSTANCE"; "KIND"; "NAME"; "ADDRESS"; "ROUTES"; "FROM"] :: waiting);
      Line ""; Line "  robinet member approve <id>   to admit one"])).

(** [robinet instance list]. *)
Definition list_row (dual : bool) (i : InstanceSummary) : list string :=
  let owner := if decide (su_OwnerMachine i ≠ "") then su_Owner i +:+ " (" +:+ su_OwnerMachine i +:+ ")" else su_Owner i in
  let owner := if decide (su_Role i = KindOwner) then "you" else owner in
  let you := if decide (su_Role i = "") then "not joined"
             else if decide (su_Role i = KindOwner ∨ su_Role i = KindConnector) then su_Role i else "member" in
  [su_Name i; owner; you; addrOrDash (su_Address i)] ++ (if dual then [addrOrDash (su_Address6 i)] else []) ++
  [pendingOrDash (su_Pending i); if (0 <? su_Members i)%nat then numeral (su_Members i) else "-"].
Definition stranger_line (i : InstanceSummary) : string :=
  if su_Yours i then
    let where_ := if decide (su_OwnerMachine i = "") then "another machine" else su_OwnerMachine i in
    "  " +:+ su_Name i +:+ " is yours, but its authority is on " +:+ where_ +:+ ": attach here, approve on " +:+ where_
  else "  " +:+ su_Name i +:+ " belongs to " +:+ su_Owner i +:+ ": attach, and they approve it".
Definition listCmd (c : control) : M W (list Printed) :=
  let* instances := control_into as_instances c "GET" "/list" "" in
  if decide (length instances = 0%nat) then print [Line "nothing here yet: create one, or ask an owner for the name of theirs"] else
  let dual := existsb (λ i, IsValid (su_Address6 i)) instances in
  let strangers := filter (λ i, su_Role i = "") instances in
  print ([Table ((if dual then ["NAME"; "OWNER"; "YOU"; "ADDRESS"; "ADDRESS6"; "PENDING"; "MEMBERS"]
                  else ["NAME"; "OWNER"; "YOU"; "ADDRESS"; "PENDING"; "MEMBERS"]) :: (list_row dual <$> instances))] ++
    (filter (λ i, su_Running i = false) instances ≫= λ i,
       [Line ""; Line ("  " +:+ su_Name i +:+ ": its lighthouse is not running on the hub")]) ++
    (if decide (length strangers = 0%nat) then [] else [Line ""]) ++ ((λ i, Line (stranger_line i)) <$> strangers)).

Definition attachCmd (c : control) (instance : string) : M W (list Printed) :=
  do* control_only c "POST" "/connect" (write_connect (mkConnectRequest instance)) in
  print [Line ("asked to join " +:+ instance +:+ ", waiting for the owner")].
Definition detachCmd (c : control) (instance : string) : M W (list Printed) :=
  do* control_only c "POST" "/disconnect" (write_connect (mkConnectRequest instance)) in
  print [Line ("left " +:+ instance)].
(** Without an argument the choice is read, with one it is made. *)
Definition familyCmd (c : control) (arg : option string) : M W (list Printed) :=
  match arg with
  | None => let* status := control_into as_status c "GET" "/status" "" in print [Line (ds_Families status)]
  | Some families =>
      let* out := control_into as_families c "POST" "/families" (write_families (mkFamiliesRequest families)) in
      print [Line ("installing " +:+ out +:+ " routes")]
  end.
Definition inboundCmd (c : control) (arg : option string) : M W (list Printed) :=
  match arg with
  | None => let* status := control_into as_status c "GET" "/status" "" in print [Line (ds_Inbound status)]
  | Some inbound =>
      let* out := control_into as_inbound c "POST" "/inbound" (write_inbound (mkInboundRequest inbound)) in
      print [Line ("members may reach: " +:+ out)]
  end.
(** [robinet restart] asks a daemon of any build; [error_text] is [Error()]. *)
Definition restartCmd (error_text : error → string) (path : string) : M W (list Printed) :=
  tryM (control_into as_version (mkControl path true) "POST" "/restart" "") (λ r,
    match r with
    | inl was => print [Line ("daemon " +:+ was +:+ " is stopping, its supervisor starts " +:+ VersionString)]
    | inr e => if Contains (error_text e) "404"
               then raise (Errorf "this daemon is too old to restart itself: sudo systemctl restart robinet") else raise e
    end).

(** [robinet member]. *)
Fixpoint only_routes (only : list string) : res (list Prefix) :=
  match only with
  | [] => Ok []
  | raw :: only =>
      match ParsePrefix (TrimSpace raw) with
      | None => Err (Errorf "bad prefix %q: %w")
      | Some p => let? rest := only_routes only in Ok (p :: rest)
      end
  end.
Definition approveCmd (c : control) (id : string) (only : list string) (noDomain : bool) (name : string) : M W (list Printed) :=
  let* routes := liftR (only_routes only) in
  let* entry := control_into as_approved c "POST" "/approve"
                  (write_approve (mkApproveBody id name (if decide (length routes = 0%nat) then None else Some routes) noDomain)) in
  let r := pe_Record entry in
  let at6 := er_OverlayAddress6 (hr_Record r) in
  let at_ := Prefix_String (pe_Address entry) +:+ (if IsValid at6 then " and " +:+ Prefix_String at6 else "") in
  print ([Line ("admitted " +:+ applicantName (hr_Request r) +:+ " to " +:+ pe_Instance entry +:+ " at " +:+ at_)] ++
    (if decide (length (pe_Routes entry) = 0%nat) then [] else [Line ("carrying " +:+ prefixes (pe_Routes entry))]) ++
    (if decide (pe_Domain entry ≠ "") then [Line ("resolving " +:+ pe_Domain entry)] else []) ++
    ((λ d, Line ("not carrying " +:+ Prefix_String d +:+ ": this instance has no address of that family")) <$> pe_Dropped entry)).
Definition decisionCmd (c : control) (action id reason : string) : M W (list Printed) :=
  do* control_only c "POST" ("/" +:+ action) (write_decision (mkDecisionRequest id reason)) in
  print [Line (action +:+ " " +:+ id)].
Definition removeMemberCmd (c : control) (member instance : string) : M W (list Printed) :=
  let* entry := control_into as_removed c "POST" "/member/remove" (write_member (mkMemberRef member instance "")) in
  print [Line ("removed " +:+ dashIfEmpty (m_Name (me_Member entry)) +:+ " from " +:+ me_Instance entry +:+
               ", its credentials are burned, and " +:+ Prefix_String (m_Address (me_Member entry)) +:+ " is free again")].
Definition banCmd (c : control) (member instance note : string) : M W (list Printed) :=
  do* control_only c "POST" "/ban" (write_member (mkMemberRef member instance note)) in
  print [Line ("banned " +:+ member +:+ ", its certificate is blocklisted and its routes are gone")].
Definition unbanCmd (c : control) (member instance note : string) : M W (list Printed) :=
  do* control_only c "POST" "/unban" (write_member (mkMemberRef member instance note)) in
  print [Line ("unbanned " +:+ member +:+ ", its certificate works again and its routes are back")].
Definition pendingCmd (ρ : Range) (c : control) : M W (list Printed) :=
  let* pending := control_into as_pending c "GET" "/pending" "" in
  if decide (length pending = 0%nat) then print [Line "nothing waiting"] else
  print ([Table (["ID"; "INSTANCE"; "KIND"; "WILL BE CALLED"; "ADDRESS"] ::
                 ((λ p, [short (hr_ID (pe_Record p)) 8; pe_Instance p; hr_Kind (pe_Record p); willBeCalled p;
                         Prefix_String (pe_Address p)]) <$> pending))] ++
    (pending ≫= describe ρ) ++ [Line ""; Line "  robinet member approve <id>"]).
Definition member_row (dual : bool) (m : Member) : list string :=
  [m_Kind m; dashIfEmpty (m_Name m); dashIfEmpty (m_Binder m); addrOrDash (m_Address m)] ++
  (if dual then [addrOrDash (m_Address6 m)] else []) ++
  [prefixes (m_Routes m); dashIfEmpty (m_Domain m); if Banned m then "banned" else "ok"].
(** [--instance] folds case; it drops the first column. *)
Definition memberListCmd (c : control) (instance : string) : M W (list Printed) :=
  let* members := control_into as_members c "GET" "/members" "" in
  let kept := if decide (instance = "") then members else filter (λ m, EqualFold (me_Instance m) instance = true) members in
  if decide (instance ≠ "" ∧ length kept = 0%nat ∧ length members ≠ 0%nat)
  then raise (Errorf ("no instance called " +:+ instance +:+ " here: robinet instance list")) else
  match kept with
  | [] => print [Line "no members yet"]
  | first :: _ =>
      let dual := existsb (λ m, IsValid (m_Address6 (me_Member m))) kept in
      let where_ m := if decide (instance = "") then [me_Instance m] else [] in
      print ((if decide (instance = "") then [] else [Line ("members of " +:+ me_Instance first); Line ""]) ++
        [Table (((if decide (instance = "") then ["INSTANCE"] else []) ++ ["KIND"; "NAME"; "BINDER"; "ADDRESS"] ++
                 (if dual then ["ADDRESS6"] else []) ++ ["ROUTES"; "DOMAIN"; "STATE"]) ::
                ((λ m, where_ m ++ member_row dual (me_Member m)) <$> kept))])
  end.

(** *** [robinet instance]: [groups.go], [tenant.go] *)

Definition connectorImage : string := "wyga/robinet:1".
Definition printConnectorHint (endpoint : string) : list Printed :=
  [Line ""; Line "run a connector inside the network you want to reach:"; Line "";
   Line "  docker run -d --name robinet -v robinet:/data \"; Line ("    -e ROBINET_ENDPOINT=" +:+ endpoint +:+ " \");
   Line ("    " +:+ connectorImage); Line ""; Line "or on a platform that only takes environment variables:"; Line "";
   Line ("  image             " +:+ connectorImage); Line ("  ROBINET_ENDPOINT  " +:+ endpoint);
   Line "  volume            /data   (its identity: without it every restart is a stranger)"; Line "";
   Line "then approve it: robinet member pending"].
Definition word_of (b : bool) : string := if b then "true" else "false".
Definition showCmd (c : control) (instance : string) : M W (list Printed) :=
  let* info := control_into as_info c "POST" "/show" (write_connect (mkConnectRequest instance)) in
  let endpoint := default "" (in_endpoint info) in
  print ([Line ("instance " +:+ in_name info); Line ("  id       " +:+ in_id info); Line ("  overlay  " +:+ in_overlay info);
          Line ("  owner    " +:+ in_owner info); Line ("  role     " +:+ dashIfEmpty (in_role info));
          Line ("  up       " +:+ word_of (in_running info))] ++
         (if decide (endpoint = "") then [Line ""; Line ("ask " +:+ in_owner info +:+ " for the endpoint to give a connector")]
          else printConnectorHint endpoint)).
Definition configCmd (c : control) (instance : string) (showKeys : bool) : M W (list Printed) :=
  let* config := control_into as_config c "POST" "/config" (write_config (mkConfigRequest instance showKeys)) in
  print [Line config].
Definition tokenCmd (c : control) (instance token : string) : M W (list Printed) :=
  let* result := control_into as_token c "POST" "/instance/token" (write_token (mkInstanceToken instance token)) in
  print (Line (dk_Instance result +:+ " has a new shared token, and the endpoints handed out before it no longer enroll") ::
         printConnectorHint (dk_Endpoint result)).
Definition deleteCmd (c : control) (instance : string) (force : bool) : M W (list Printed) :=
  let* result := control_into as_deleted c "POST" "/delete" (write_delete (mkDeleteRequest instance force)) in
  print (Line ("deleted " +:+ dr_Instance result) ::
         (if (1 <? dr_Members result)%nat
          then [Line (numeral (dr_Members result - 1) +:+ " members lost it, and their certificates are now useless")] else [])).
Definition createCmd (c : control) (name shared : string) : M W (list Printed) :=
  let* out := control_into as_created c "POST" "/create" (write_create (mkInstanceRequest name shared)) in
  let endpoint := default "" (nw_endpoint out) in
  print ([Line ("instance " +:+ name +:+ " created")] ++
    (match nw_id out with Some id => [Line ("  id       " +:+ id)] | None => [] end) ++
    (match nw_overlay out with Some overlay => [Line ("  overlay  " +:+ overlay)] | None => [] end) ++
    [Line ("           " +:+ default "ipv4 only, because the hub has no ipv6 pool" (nw_overlay6 out))] ++
    (if decide (endpoint = "") then [] else printConnectorHint endpoint)).

(** *** [robinet reach], [robinet dns], [robinet cheat] *)

Definition reach_names (e : Reach) : string :=
  if decide (re_Names e = "") then "-" else if negb (re_Installed e) then re_Names e +:+ "  (not installed)" else re_Names e.
Definition reachCmd (c : control) : M W (list Printed) :=
  let* entries := control_into as_reach c "GET" "/reach" "" in
  if decide (length entries = 0%nat)
  then print [Line "nothing: no connector in any instance this machine belongs to carries a network"] else
  print ([Table (["INSTANCE"; "NETWORK"; "CARRIED BY"; "NAMES"] ::
                 ((λ e, [re_Instance e; Prefix_String (re_Network e); dashIfEmpty (re_Carrier e); reach_names e]) <$> entries))] ++
         (if existsb (λ e, bool_decide (re_Names e ≠ "") && negb (re_Installed e)) entries
          then [Line ""; Line "  robinet dns install   to resolve those names on this machine"] else [])).
Definition dnsPlan (c : control) (mode : string) (remove : bool) : M W (list DNSEntry) :=
  control_into as_plan c "POST" "/dns" (write_dns (mkDNSRequest mode remove)).
Definition printDNSPlan (entries : list DNSEntry) : list Printed :=
  let carrying := filter (λ e, (0 < length (dn_Domains e))%nat) entries in
  if decide (length carrying = 0%nat)
  then [Line "nothing to resolve: no connector this machine can see announces a domain"] else
  [Table (["INSTANCE"; "DEVICE"; "DOMAINS"; "ASKING"] ::
          ((λ e, [dn_Instance e; dn_Device e; Join (dn_Domains e) ","; Join (dn_Servers e) ","]) <$> carrying))].
Definition dnsListCmd (error_text : error → string) (env : REnv) (c : control) (mode : string) (s : Resolved)
    : M W (list Printed) :=
  let* entries := dnsPlan c mode false in
  print (printDNSPlan entries ++
    match (CheckResolver env s).1 with
    | Err e => [Line ""; Line ("  warning: " +:+ error_text e); Line "  robinet dns install would fail on this machine"]
    | _ => []
    end).
(** [robinet dns install] and [remove], once root: the plan is the daemon's,
    applying it is done here. *)
Definition dnsInstallCmd (env : REnv) (c : control) (mode : string) (remove : bool) : M (W * Resolved) (list Printed) :=
  λ ws,
    match dnsPlan c mode remove ws.1 with
    | (Ok entries, w) =>
        match Apply env mode entries ws.2 with
        | (Ok _, s) => (Ok (if remove then [Line "resolver configuration removed"] else printDNSPlan entries), (w, s))
        | (Err e, s) => (Err e, (w, s))
        | (Panic, s) => (Panic, (w, s))
        end
    | (Err e, w) => (Err e, (w, ws.2))
    | (Panic, w) => (Panic, (w, ws.2))
    end.
(** What the arguments of [robinet dns alias] ask for. *)
Definition alias_request (remove : bool) (args : list string) : res AliasRequest :=
  if remove then
    match args with
    | [alias_] => Ok (mkAliasRequest alias_ "")
    | _ => Err (Errorf "--remove takes the alias, and nothing else")
    end
  else
    match args with
    | [] => Ok (mkAliasRequest "" "")
    | [canonical; alias_] => Ok (mkAliasRequest alias_ canonical)
    | _ => Err (Errorf "alias takes the name and what to call it here")
    end.
Definition alias_lines (ρ : Range) (remove : bool) (args : list string) (aliases : gmap string string) : list Printed :=
  let names := sort_strings (range ρ aliases).*1 in
  if decide (length names = 0%nat) then [Line "no aliases"] else
  [Table (["ALIAS"; "STANDS FOR"] :: ((λ alias_, [alias_; default "" (aliases !! alias_)]) <$> names)); Line "";
   Line (if (length args =? 0)%nat && negb remove then "  robinet dns alias --remove <alias>   to take one away"
         else "  robinet dns install   to resolve it here")].
Definition aliasCmd (ρ : Range) (c : control) (remove : bool) (args : list string) : M W (list Printed) :=
  let* req := liftR (alias_request remove args) in
  let* aliases := control_into as_aliases c "POST" "/alias" (write_alias req) in
  print (alias_lines ρ remove args aliases).

Definition chromiumProbeAddress : string := "2001:4860:4860::8888/128".
Definition cheatRef : string := CheatChromium +:+ "/" +:+ CheatChromiumProbeRoute.
Definition onOff (on : bool) : string := if on then "on" else "off".
Definition cheatCmd (c : control) (arg : option string) : M W (list Printed) :=
  match arg with
  | None =>
      let* status := control_into as_status c "GET" "/status" "" in
      print [Line (onOff (bool_decide (cheatRef ∈ ds_Cheats status)))]
  | Some word =>
      let* on := control_into as_cheat c "POST" "/cheat"
                   (write_cheat (mkCheatRequest CheatChromium CheatChromiumProbeRoute (bool_decide (word = "on")))) in
      print [Line (chromiumProbeAddress +:+ ": " +:+ onOff on)]
  end.

(** *** Completion: [complete.go] *)

(** [completing], and what each word is offered with; a failure is silence. *)
Definition completing {A} (out : string → option A) (path sock : string) : M W (option A) :=
  tryM (control_into out (newControl sock) "GET" path "") (λ r, retM match r with inl a => Some a | inr _ => None end).
Definition tab : string := l2s [chr 9].
Definition describeInstance (i : InstanceSummary) : string :=
  let owner := if decide (su_OwnerMachine i ≠ "") then su_Owner i +:+ " (" +:+ su_OwnerMachine i +:+ ")" else su_Owner i in
  if decide (su_Role i = "") then "owned by " +:+ owner else su_Role i +:+ ", owned by " +:+ owner.
Definition offered {A} (args : list string) (c : M W (option (list A))) (f : list A → list string) : M W (list string) :=
  if (0 <? length args)%nat then retM [] else let* l := c in retM (f (default [] l)).
Definition completeInstances (sock : string) (mine : bool) (args : list string) : M W (list string) :=
  offered args (completing as_instances "/list" sock) (λ l,
    (λ i, (if decide (su_Name i = "") then su_ID i else su_Name i) +:+ tab +:+ describeInstance i) <$>
      filter (λ i, mine = bool_decide (su_Role i ≠ "")) l).
Definition completePending (sock : string) (args : list string) : M W (list string) :=
  offered args (completing as_pending "/pending" sock) (λ l,
    (λ p, short (hr_ID (pe_Record p)) 8 +:+ tab +:+ hr_Kind (pe_Record p) +:+ " " +:+
          applicantName (hr_Request (pe_Record p)) +:+ " in " +:+ pe_Instance p) <$> l).
Definition completeMembers (sock : string) (args : list string) : M W (list string) :=
  offered args (completing as_members "/members" sock) (λ l,
    (λ m, (if decide (m_Name (me_Member m) = "") then short (m_Fingerprint (me_Member m)) 16 else m_Name (me_Member m)) +:+
          tab +:+ m_Kind (me_Member m) +:+ " in " +:+ me_Instance m +:+ " at " +:+ Prefix_String (m_Address (me_Member m))) <$>
      filter (λ m, m_Kind (me_Member m) ≠ KindOwner) l).
End Commands.

(** ** This machine: [main.go], [tenant.go] *)

(** [exitCodeFor]; [ctxErr] is whether the process was signalled. *)
Definition exitCodeFor (err : option error) (ctxErr : bool) : Z :=
  match err with None => 0 | Some _ => if ctxErr then 0 else 1 end.

(** The flags of [robinet join]; [None] where one was not given. *)
Record JoinFlags : Type := mkJoinFlags {
  jf_hub : string;
  jf_token : string;
  jf_name : string;
  jf_insecure : option bool;
  jf_pin : string;
}.

Section Main.
Context `{HB : Build}.

(** The names of the commands, in the order they are listed. *)
Definition newRootCmd : list string :=
  ["hub"; "connect"; "join"; "setup"; "up"; "status"; "reach"; "family"; "inbound"; "dns"; "restart"; "instance"; "member";
   "version"] ++ (if Cheating then ["cheat"] else []).
Definition versionCmd : list Printed :=
  Line VersionString :: (if decide (VariantString ≠ "") then [Line ("variant " +:+ VariantString)] else []).

Definition or_else (s preset : string) : string := if decide (s = "") then preset else s.
(** What is baked in fills in what was not given. *)
Definition preset_flags (f : JoinFlags) : JoinFlags :=
  match VariantLoad with
  | None => f
  | Some preset =>
      mkJoinFlags (or_else (jf_hub f) (v_Hub preset)) (or_else (jf_token f) (v_Token preset)) (jf_name f)
        (match jf_insecure f with None => if v_Insecure preset then Some true else None | given => given end)
        (or_else (jf_pin f) (v_Pin preset))
  end.

Section Joining.
Context `{HO : Os}.

Definition statePath (flagValue : string) : res string := if decide (flagValue ≠ "") then Ok flagValue else DefaultStatePath.
Definition socketPath (flagValue : string) : res string := if decide (flagValue ≠ "") then Ok flagValue else DefaultSocketPath.
Definition defaultMachineName (host : option string) : string :=
  match host with
  | Some host =>
      if decide (host = "") then "robinet" else
      match CurrentUser with inl user => if decide (user = "") then host else user +:+ "@" +:+ host | inr _ => host end
  | None => "robinet"
  end.
(** What the flags come to, on a machine that is registered or not. *)
Definition join_options (host : option string) (f : JoinFlags) (s : State) : res JoinOptions :=
  let f := preset_flags f in
  if decide (jf_hub f = "" ∨ jf_token f = "") then Err (Errorf "--hub and --token are required (this build has no hub baked in)") else
  let name := if decide (jf_name f = "") then (if Registered s then DefaultNameMarker else defaultMachineName host) else jf_name f in
  Ok (mkJoinOptions (jf_hub f) (jf_token f) name (default false (jf_insecure f)) (jf_pin f)).
Definition hubHost `{HU : Urls} (raw : string) : string :=
  match url_Host raw with Some host => if decide (host = "") then raw else host | None => raw end.
(** [robinet join], up to starting the daemon. *)
Definition joinCmd `{HU : Urls} (host : option string) (env : Env) (fresh : res Identity_)
    (register : JoinOptions → Identity_ → res RegisterResponse) (f : JoinFlags) : M State (list Printed) :=
  let* s := getM in
  let* opts := liftR (join_options host f s) in
  let* joined := Tenant.Join env fresh register opts in
  let what := if jd_Refreshed joined then "registration refreshed with" else "registered with" in
  retM (Line (what +:+ " " +:+ hubHost (jd_Hub joined) +:+ ", as " +:+ jd_Name joined) ::
        match VariantLoad with
        | Some preset => if decide (v_Note preset ≠ "") then [Line ""; Line (v_Note preset)] else []
        | None => []
        end).
End Joining.
End Main.

(** [daemonReachable]: any build will do. *)
Definition daemonReachable {W} `{HT : !ControlTransport W} `{HW : ControlWords} `{HB : Build} (path : string) : M W bool :=
  tryM (control_into as_status (mkControl path true) "GET" "/status" "") (λ r,
    retM match r with inl _ => true | inr _ => false end).
