(* ===== verification/CliSpec.v ===== *)
(** * What a command does to the daemon it asks

    The command line over the socket of a daemon: each command that changes
    something is the operations it names, and ends well exactly when they do;
    a daemon of another build has done it all the same. *)

From Stdlib Require Import Ascii.
From S2P Require Export Cli.

Open Scope Z_scope.

(** ** The daemon at the other end *)

(** How the daemon writes an answer, an error and a status line; and what a
    caller is told when the connection ends without an answer. *)
Class ControlText := {
  answer_text : Z → Answer → string;
  error_text : error → string;
  status_line : Z → string;
  no_answer : error;
}.

Section Over.
Context {W : Type} `{HW : HubClient W} `{HL : CertLib} `{HU : Urls} `{HJ : SocketJson} `{HX : ControlText}.
Context (env : TEnv) (daemon : Build).
Abbreviation Machine := (Daemon W).

#[local] Instance over_socket : ControlTransport Machine :=
  {| socket_Do method path body := λ d,
       match serve_control (HB := daemon) env method path body d with
       | (Ok reply, d') =>
           (Ok (mkControlReply (sr_Version reply) (sr_Status reply) (status_line (sr_Status reply))
                  (answer_text (sr_Status reply) (sr_Body reply))), d')
       | (_, d') => (Err no_answer, d')
       end |}.

(** *** What a handler comes to *)

Definition do_ops (ops : list DOp) : M Machine () := carry_out (HB := daemon) env ops.
Abbreviation works := (SocketSpec.works (HB := daemon) env).

(** ** Commands *)

(** The commands that change something. *)
Inductive Command : Type :=
  | CmdAttach (instance : string)
  | CmdDetach (instance : string)
  | CmdFamily (families : string)
  | CmdInbound (inbound : string)
  | CmdApprove (id : string) (only : list string) (noDomain : bool) (name : string)
  | CmdReject (id reason : string)
  | CmdForget (id reason : string)
  | CmdRemove (member instance : string)
  | CmdBan (member instance note : string)
  | CmdUnban (member instance note : string)
  | CmdCreate (name shared : string)
  | CmdToken (instance token : string)
  | CmdDelete (instance : string) (force : bool)
  | CmdAlias (remove : bool) (args : list string)
  | CmdCheat (word : string).
(** Its operations; an argument that cannot be read asks for nothing. *)
Definition only_of (only : list string) : res (option (list Prefix)) :=
  let? routes := only_routes only in Ok (if decide (length routes = 0%nat) then None else Some routes).
Definition command_ops (cmd : Command) : res (list DOp) :=
  match cmd with
  | CmdAttach instance => Ok [DConnect instance; DRefresh]
  | CmdDetach instance => Ok [DDisconnect instance]
  | CmdFamily families => Ok [DFamilies families; DRefresh]
  | CmdInbound inbound => Ok [DInbound inbound; DRefresh]
  | CmdApprove id only noDomain name => let? routes := only_of only in Ok [DApprove id routes noDomain name]
  | CmdReject id reason => Ok [DReject id reason]
  | CmdForget id _ => Ok [DForget id]
  | CmdRemove member instance => Ok [DRemove (mkMemberRef member instance "")]
  | CmdBan member instance note => Ok [DBan (mkMemberRef member instance note)]
  | CmdUnban member instance note => Ok [DUnban (mkMemberRef member instance note)]
  | CmdCreate name shared => Ok [DCreate name shared]
  | CmdToken instance token => Ok [DSetToken instance token]
  | CmdDelete instance force => Ok [DDelete instance force]
  | CmdAlias remove args => let? q := alias_request remove args in Ok [DAlias (lq_Alias q) (lq_Canonical q)]
  | CmdCheat word => Ok [DCheat CheatChromium CheatChromiumProbeRoute (bool_decide (word = "on")); DRefresh]
  end.

Context `{HT : ControlWords}.

Definition back {A} (read : string → option A) (write : A → string) (a : A) : Prop := read (write a) = Some a.
Definition answered_with {A B} (out : string → option A) (answer : B → Answer) : Prop :=
  ∀ b, is_Some (out (answer_text StatusOK (answer b))).
(** The daemon reads what the command wrote, and the command what the daemon
    answers when all went well. *)
Definition understood (cmd : Command) : Prop :=
  match cmd with
  | CmdAttach instance | CmdDetach instance => back read_connect write_connect (mkConnectRequest instance)
  | CmdFamily families => back read_families write_families (mkFamiliesRequest families) ∧ answered_with as_families AFamilies
  | CmdInbound inbound => back read_inbound write_inbound (mkInboundRequest inbound) ∧ answered_with as_inbound AInbound
  | CmdApprove id only noDomain name =>
      (∀ routes, only_of only = Ok routes → back read_approve write_approve (mkApproveBody id name routes noDomain)) ∧
      answered_with as_approved AApproved
  | CmdReject id reason | CmdForget id reason => back read_decision write_decision (mkDecisionRequest id reason)
  | CmdRemove member instance =>
      back read_member write_member (mkMemberRef member instance "") ∧ answered_with as_removed ARemoved
  | CmdBan member instance note | CmdUnban member instance note =>
      back read_member write_member (mkMemberRef member instance note)
  | CmdCreate name shared =>
      back read_create write_create (mkInstanceRequest name shared) ∧ answered_with as_created ACreated
  | CmdToken instance token =>
      back read_token write_token (mkInstanceToken instance token) ∧ answered_with as_token AToken
  | CmdDelete instance force =>
      back read_delete write_delete (mkDeleteRequest instance force) ∧ answered_with as_deleted ADeleted
  | CmdAlias remove args =>
      (∀ q, alias_request remove args = Ok q → back read_alias write_alias q) ∧ answered_with as_aliases AAliases
  | CmdCheat word =>
      (* the command is there, and so is what it asks *)
      Cheating (HB := daemon) = true ∧
      (let q := mkCheatRequest CheatChromium CheatChromiumProbeRoute (bool_decide (word = "on")) in
       back read_cheat write_cheat q ∧ ∀ b, is_Some (as_cheat (answer_text StatusOK (ACheat (hq_Vendor q) (hq_Name q) b))))
  end.

Section Caller.
Context (caller : Build) (ρ : Range) (c : control).

Definition run_command (cmd : Command) : M Machine (list Printed) :=
  match cmd with
  | CmdAttach instance => attachCmd (HB := caller) c instance
  | CmdDetach instance => detachCmd (HB := caller) c instance
  | CmdFamily families => familyCmd (HB := caller) c (Some families)
  | CmdInbound inbound => inboundCmd (HB := caller) c (Some inbound)
  | CmdApprove id only noDomain name => approveCmd (HB := caller) c id only noDomain name
  | CmdReject id reason => decisionCmd (HB := caller) c "reject" id reason
  | CmdForget id reason => decisionCmd (HB := caller) c "forget" id reason
  | CmdRemove member instance => removeMemberCmd (HB := caller) c member instance
  | CmdBan member instance note => banCmd (HB := caller) c member instance note
  | CmdUnban member instance note => unbanCmd (HB := caller) c member instance note
  | CmdCreate name shared => createCmd (HB := caller) c name shared
  | CmdToken instance token => tokenCmd (HB := caller) c instance token
  | CmdDelete instance force => deleteCmd (HB := caller) c instance force
  | CmdAlias remove args => aliasCmd (HB := caller) ρ c remove args
  | CmdCheat word => cheatCmd (HB := caller) c (Some word)
  end.

(** How a call ends, whose work is some operations. *)
Definition same_build : bool := bool_decide (VersionString (HB := daemon) = VersionString (HB := caller)).
Definition told_of (e : error) : Prop :=
  as_error (str_take (Z.to_nat (Z.shiftl 4 10)) (answer_text StatusBadRequest (AError e))) = Some (error_text e) ∧
  error_text e ≠ "".
Definition another_build : error :=
  Errorf ("the daemon is running " +:+ headerOrUnknown (VersionString (HB := daemon)) +:+ " and this command is " +:+
          VersionString (HB := caller) +:+ ": robinet restart").
Definition ends_as {A} (ops : list DOp) (d : Machine) (r : res A * Machine) : Prop :=
  r.2 = (do_ops ops d).2 ∧
  match (do_ops ops d).1 with
  | Ok _ => if same_build then ∃ a, r.1 = Ok a else r.1 = Err another_build
  | Err e => if same_build then (∃ e', r.1 = Err e') ∧ (told_of e → r.1 = Err (Errorf (error_text e))) else r.1 = Err another_build
  | Panic => r.1 = Err (unreachable c no_answer)
  end.
Lemma ends_bind {A B} ops d (m : M Machine A) (f : A → B) :
  ends_as ops d (m d) → ends_as ops d (bindM m (λ a, retM (f a)) d).
Proof.
  unfold ends_as, bindM. destruct (m d) as [[a|e|] d']; simpl; intros [<- H]; (split; [done|]);
    destruct (do_ops ops d).1 as [u|e0|]; try destruct same_build; naive_solver.
Qed.

Lemma asked_ends {A} (out : string → option A) x method path body ops (good : control_reply → Prop) (d : Machine) :
  ct_anyVersion c = false →
  find_control (Cheating (HB := daemon)) method path = Some x →
  works (handle_control (HB := daemon) env x body) ops good →
  (∀ p, good p → p.1 < 300 ∧ is_Some (out (answer_text p.1 p.2))) →
  ends_as ops d (control_into (HB := caller) out c method path body d).
Proof.
  intros Hc Hx Hw Hg.
  specialize (Hw d). unfold ends_as, do_ops, control_into, control_do, bindM, tryM.
  cbn [socket_Do over_socket]. unfold serve_control, bindM. rewrite Hx.
  destruct (carry_out env ops d) as [[[]|e|] d'].
  - destruct Hw as ([st a]&->&Hga). apply Hg in Hga as [Hst [v Hv]]. cbn in Hst, Hv. cbn. rewrite Hc. unfold liftR, checkVersion, same_build.
    case_decide as Hsame; [rewrite bool_decide_true by done|by rewrite bool_decide_false].
    rewrite (proj2 (Z.leb_gt _ _)) by lia. cbn. rewrite Hv. split; [done|]. by exists v.
  - rewrite Hw. cbn. rewrite Hc. unfold liftR, checkVersion, same_build.
    case_decide as Hsame; [rewrite bool_decide_true by done|by rewrite bool_decide_false].
    cbn. unfold told_of. destruct (as_error _) as [t|]; [case_decide|]; cbn; split_and!; try done; try (by eexists);
      intros [[= ?] ?]; by subst.
  - by rewrite Hw.
Qed.
Lemma only_ends x method path body ops (d : Machine) :
  ct_anyVersion c = false → find_control (Cheating (HB := daemon)) method path = Some x →
  works (handle_control (HB := daemon) env x body) ops (λ p, p.1 < 300) →
  ends_as ops d (control_only (HB := caller) c method path body d).
Proof.
  intros Hc Hf Hw.
  pose proof (asked_ends Some x method path body ops _ d Hc Hf Hw) as H.
  unfold control_only. specialize (H (λ p Hp, conj Hp (ex_intro _ _ eq_refl))).
  apply (ends_bind _ _ _ (λ _, ())) in H. revert H. unfold control_into, bindM.
  by destruct (control_do c method path body d) as [[b|e|] d'].
Qed.
Lemma found_anywhere method path x :
  find_control true method path = Some x → find_control false method path = Some x → ∀ b, find_control b method path = Some x.
Proof. by intros ?? []. Qed.

Definition well (p : control_reply) : Prop := p.1 < 300.
Definition answers {A} (out : string → option A) (p : control_reply) : Prop := p.1 < 300 ∧ is_Some (out (answer_text p.1 p.2)).
Definition endpoint_of (cmd : Command) : string * Control * string :=
  match cmd with
  | CmdAttach instance => ("/connect", XConnect, write_connect (mkConnectRequest instance))
  | CmdDetach instance => ("/disconnect", XDisconnect, write_connect (mkConnectRequest instance))
  | CmdFamily families => ("/families", XFamilies, write_families (mkFamiliesRequest families))
  | CmdInbound inbound => ("/inbound", XInbound, write_inbound (mkInboundRequest inbound))
  | CmdApprove id only noDomain name =>
      ("/approve", XApprove, write_approve (mkApproveBody id name (match only_of only with Ok r => r | _ => None end) noDomain))
  | CmdReject id reason => ("/reject", XReject, write_decision (mkDecisionRequest id reason))
  | CmdForget id reason => ("/forget", XForget, write_decision (mkDecisionRequest id reason))
  | CmdRemove member instance => ("/member/remove", XRemoveMember, write_member (mkMemberRef member instance ""))
  | CmdBan member instance note => ("/ban", XBan, write_member (mkMemberRef member instance note))
  | CmdUnban member instance note => ("/unban", XUnban, write_member (mkMemberRef member instance note))
  | CmdCreate name shared => ("/create", XCreate, write_create (mkInstanceRequest name shared))
  | CmdToken instance token => ("/instance/token", XSetToken, write_token (mkInstanceToken instance token))
  | CmdDelete instance force => ("/delete", XDelete, write_delete (mkDeleteRequest instance force))
  | CmdAlias remove args =>
      ("/alias", XAlias, write_alias (match alias_request remove args with Ok q => q | _ => mkAliasRequest "" "" end))
  | CmdCheat word =>
      ("/cheat", XCheat, write_cheat (mkCheatRequest CheatChromium CheatChromiumProbeRoute (bool_decide (word = "on"))))
  end.
Lemma endpoint_found cmd :
  understood cmd → find_control (Cheating (HB := daemon)) "POST" (endpoint_of cmd).1.1 = Some (endpoint_of cmd).1.2.
Proof. destruct cmd; try (intros _; apply found_anywhere; reflexivity). cbn. by intros [-> _]. Qed.
Ltac answers := intros; (split; [done|]); cbn; auto.
Lemma command_works cmd ops :
  understood cmd → command_ops cmd = Ok ops →
  works (handle_control (HB := daemon) env (endpoint_of cmd).1.2 (endpoint_of cmd).2) ops
    match cmd with
    | CmdFamily _ => answers as_families | CmdInbound _ => answers as_inbound | CmdApprove _ _ _ _ => answers as_approved
    | CmdRemove _ _ => answers as_removed | CmdCreate _ _ => answers as_created | CmdToken _ _ => answers as_token
    | CmdDelete _ _ => answers as_deleted | CmdAlias _ _ => answers as_aliases | CmdCheat _ => answers as_cheat
    | _ => well
    end.
Proof.
  destruct cmd; cbn [understood command_ops endpoint_of fst snd handle_control]; unfold back, answered_with.
  - intros Hq [= <-]. unfold handleConnect, decode_body. rewrite Hq. apply works_refreshed; [intros; apply ignored_unit|done].
  - intros Hq [= <-]. unfold handleDisconnect, decode_body. rewrite Hq. apply works_answered; [intros; apply ignored_unit|done].
  - intros [Hq Ha] [= <-]. unfold handleFamilies, decode_body. rewrite Hq.
    apply works_refreshed; [intros; apply ignored_unit|answers].
  - intros [Hq Ha] [= <-]. unfold handleInbound, decode_body. rewrite Hq.
    apply works_refreshed; [intros; apply ignored_unit|answers].
  - intros [Hq Ha] H. destruct (only_of only) as [routes|e|]; [|done..]. injection H as <-. unfold handleApprove, decode_body.
    rewrite Hq by done. apply works_answered; [done|answers].
  - intros Hq [= <-]. unfold Socket.handleReject, decode_body. rewrite Hq. apply works_answered; [intros; apply ignored_unit|done].
  - intros Hq [= <-]. unfold Socket.handleForget, decode_body. rewrite Hq. apply works_answered; [intros; apply ignored_unit|done].
  - intros [Hq Ha] [= <-]. unfold Socket.handleRemoveMember, decode_body. rewrite Hq. apply works_answered; [done|answers].
  - intros Hq [= <-]. unfold Socket.handleBan, decode_body. rewrite Hq. apply works_answered; [intros; apply ignored_unit|done].
  - intros Hq [= <-]. unfold Socket.handleUnban, decode_body. rewrite Hq. apply works_answered; [intros; apply ignored_unit|done].
  - intros [Hq Ha] [= <-]. unfold handleCreate, decode_body. rewrite Hq. apply works_tried; [done|done|].
    intros [created token] d. eexists. split; [reflexivity|answers].
  - intros [Hq Ha] [= <-]. unfold Socket.handleSetToken, decode_body. rewrite Hq. apply works_answered; [done|answers].
  - intros [Hq Ha] [= <-]. unfold handleDelete, decode_body. rewrite Hq. apply works_answered; [done|answers].
  - intros [Hq Ha] H. destruct (alias_request remove args) as [q|e|]; [|done..]. injection H as <-. unfold handleAlias, decode_body.
    rewrite (Hq q) by done. apply works_tried; [intros; apply ignored_unit|done|].
    intros [] d. eexists. split; [reflexivity|answers].
  - intros (_&Hq&Ha) [= <-]. unfold handleCheat, decode_body. rewrite Hq.
    apply works_refreshed; [intros; apply ignored_unit|answers].
Qed.
End Caller.

(** C17: a command is its operations.  Given to the daemon at the other end of
    the socket, a command that changes something leaves the daemon exactly as
    its operations do, in their order, the second only after the first went
    well; arguments that cannot be read ask nothing.  Between two halves of one
    build it ends well exactly when the operations did, and otherwise with the
    text of the error there.  And a daemon of another build is refused, but
    only for its answer: it has done what was asked by then. *)
Theorem command_is_its_operations (caller : Build) (ρ : Range) (c : control) (cmd : Command) (d : Machine) :
  ct_anyVersion c = false → understood cmd →
  match command_ops cmd with
  | Ok ops => ends_as caller c ops d (run_command caller ρ c cmd d)
  | Err e => run_command caller ρ c cmd d = (Err e, d)
  | Panic => False
  end.
Proof.
  intros Hc Hu.
  assert (∀ raws, only_routes raws ≠ Panic) as Hnp.
  { induction raws as [|raw raws IH]; simpl; [done|]. destruct (ParsePrefix _); [|done]. by destruct (only_routes raws). }
  destruct (command_ops cmd) as [ops|e|] eqn:Eops.
  - pose proof (command_works cmd ops Hu Eops) as Hw. pose proof (endpoint_found cmd Hu) as Hf.
    destruct cmd; cbn [endpoint_of fst snd] in Hw, Hf; cbn [run_command].
    all: unfold attachCmd, detachCmd, familyCmd, inboundCmd, decisionCmd, removeMemberCmd, banCmd, unbanCmd, createCmd, tokenCmd,
      deleteCmd, cheatCmd, print.
    all: try (apply ends_bind; eapply asked_ends; [done|exact Hf|exact Hw|by intros p Hp]).
    all: try (apply (ends_bind _ _ _ _ _ (λ _ : (), _)); eapply only_ends; [done|exact Hf|exact Hw]).
    + unfold approveCmd, print. cbn [command_ops] in Eops. unfold only_of in *. unfold bindM at 1, liftR.
      destruct (only_routes only) as [routes|e|]; [|done..]. cbn [bindR] in *.
      apply ends_bind. eapply asked_ends; [done|exact Hf|exact Hw|by intros p Hp].
    + unfold aliasCmd, print. cbn [command_ops] in Eops. unfold bindM at 1, liftR.
      destruct (alias_request remove args) as [q|e|]; [|done..]. cbn [bindR] in *.
      match goal with |- ends_as _ _ _ _ (bindM _ ?k _) => change k with
        (λ aliases, retM (S := Machine) (alias_lines ρ remove args aliases)) end.
      apply ends_bind. eapply asked_ends; [done|exact Hf|exact Hw|by intros p Hp].
  - destruct cmd; try done; cbn [run_command]; cbn [command_ops] in Eops.
    + unfold approveCmd, only_of in *. unfold bindM at 1, liftR. specialize (Hnp only).
      by destruct (only_routes only) as [routes|e'|]; simplify_eq/=.
    + unfold aliasCmd. unfold bindM at 1, liftR. by destruct (alias_request remove args) as [q|e'|]; simplify_eq/=.
  - destruct cmd; try done; cbn [command_ops] in Eops.
    + unfold only_of in Eops. specialize (Hnp only). by destruct (only_routes only) as [routes|e'|]; simplify_eq/=.
    + revert Eops. unfold alias_request. by repeat case_match.
Qed.
End Over.
