(* ===== verification/HubCli.v ===== *)
(** * The command line of the hub: [cmd/robinet/hub*.go]

    The commands that read the hub's state file and configuration
    ([hubinspect.go], [hubtest.go]), what undoes an installation
    ([hubcleanup.go], [setupcleanup.go]) and the units that are installed
    ([hubinstall.go], [setup.go]).  Nothing here talks to a running hub. *)

From Stdlib Require Import Ascii.
From S2P Require Export Cli.

Open Scope Z_scope.

(** ** Reading the state *)

(** [filepath.Dir]. *)
Definition Dir (path : string) : string :=
  Clean (match cut_last path "/"%char with Some (before, _) => before +:+ "/" | None => "" end).

(** [Addr.Less], as the order [sort.Slice] sorts by. *)
Definition addr_rank (a : Addr) : Z * Z :=
  match a with AddrZero => (0, 0) | Addr4 n => (32, n) | Addr6 n => (128, n) end.
Definition addr_le (a b : Addr) : Prop :=
  (addr_rank a).1 < (addr_rank b).1 ∨ (addr_rank a).1 = (addr_rank b).1 ∧ (addr_rank a).2 ≤ (addr_rank b).2.
#[export] Instance addr_le_dec : RelDecision addr_le.
Proof. intros a b. unfold addr_le. apply _. Defined.
Definition member_le : relation Member := λ m n, addr_le (p_addr (m_Address m)) (p_addr (m_Address n)).
#[export] Instance member_le_dec : RelDecision member_le.
Proof. intros m n. unfold member_le. apply _. Defined.
Definition machine_le : relation Registration := λ m n,
  if decide (g_Binder m ≠ g_Binder n) then String.le (g_Binder m) (g_Binder n) else String.le (g_Name m) (g_Name n).
#[export] Instance machine_le_dec : RelDecision machine_le.
Proof. intros m n. unfold machine_le. destruct (decide _); apply _. Defined.

Definition sortedMembers (ρ : Range) (inst : Instance_) : list Member :=
  merge_sort member_le (range ρ (mget (i_Members inst))).*2.
Definition waiting_requests (ρ : Range) (inst : Instance_) : list HubRecord :=
  filter (λ r, hr_Status r = StatusPending) (range ρ (mget (i_Requests inst))).*2.
Definition pendingIn (ρ : Range) (inst : Instance_) : nat := length (waiting_requests ρ inst).

Section Inspect.
Context `{HF : Files} `{HS : SshLib} `{HL : LocalTime}.
(** What the state file of a path holds. *)
Context (read_state : string → res (option state)).

(** The configuration a command reads; that nobody may create an instance yet
    does not matter to it. *)
Definition load_for_reading (configPath : string) (configDirs : list string) : res File :=
  let? fv := LoadFile configPath configDirs in
  match fv.2 with
  | Err ErrNoBinders | Ok _ => Ok fv.1
  | Err e => Err e
  | Panic => Panic
  end.
Definition openHubState (configPath : string) (configDirs : list string) : res Store :=
  let? file := load_for_reading configPath configDirs in
  let? s := read_state (f_StatePath file) in
  Ok (OpenStore s).

Definition date : string := "2006-01-02".
Definition minute : string := "2006-01-02 15:04".
Definition RFC3339 : string := "2006-01-02T15:04:05Z07:00".
Definition hub_row (ρ : Range) (dual : bool) (inst : Instance_) : list string :=
  [i_Name inst; i_ID inst; i_Binder inst; Prefix_String (i_Overlay inst)] ++
  (if dual then [prefixOrDash (i_Overlay6 inst)] else []) ++
  [Itoa (i_Port inst); numeral (MemberCount inst); pendingOrDash (pendingIn ρ inst); local_format date (i_CreatedAt inst)].
Definition hubListCmd (ρ : Range) (store : Store) : list Printed :=
  let instances := List ρ store in
  if decide (length instances = 0%nat) then [Line "no instances"] else
  let instances := sort_by i_Name instances in
  let dual := existsb (λ i, IsValid (i_Overlay6 i)) instances in
  [Table ((["NAME"; "ID"; "BINDER"; "OVERLAY"] ++ (if dual then ["OVERLAY6"] else []) ++
           ["PORT"; "MEMBERS"; "PENDING"; "CREATED"]) :: (hub_row ρ dual <$> instances))].

Definition state_of (m : Member) : string := if Banned m then "banned" else "ok".
Definition show_member (m : Member) : list string :=
  ["  " +:+ m_Kind m; dashIfEmpty (m_Name m); addrOrDash (m_Address m); prefixOrDash (m_Address6 m); prefixes (m_Routes m);
   dashIfEmpty (m_Domain m); state_of m; local_format minute (m_JoinedAt m)].
Definition show_request (r : HubRecord) : list string :=
  ["  " +:+ short (hr_ID r) 8; hr_Kind r; applicantName (hr_Request r); Prefix_String (er_OverlayAddress (hr_Record r));
   prefixes (rq_Routes (hr_Request r)); er_SourceAddr (hr_Record r); local_format minute (er_ReceivedAt (hr_Record r))].
Definition hubShowCmd (ρ : Range) (store : Store) (ref : string) : res (list Printed) :=
  match Resolve ρ store ref with
  | Err _ => Err (Errorf ("no instance " +:+ ref))
  | Panic => Panic
  | Ok inst =>
      Ok ([Line ("name        " +:+ i_Name inst); Line ("id          " +:+ i_ID inst); Line ("binder      " +:+ i_Binder inst);
           Line ("overlay     " +:+ Prefix_String (i_Overlay inst));
           Line (if IsValid (i_Overlay6 inst) then "            " +:+ Prefix_String (i_Overlay6 inst)
                 else "            ipv4 only, and no certificate under it can ever carry an ipv6 route");
           Line ("port        " +:+ Itoa (i_Port inst));
           Line ("lighthouse  " +:+ addrOrDash (PrefixFrom (i_LighthouseAddress inst) (p_bits (i_Overlay inst))));
           Line ("relay       " +:+ word_of (i_Relay inst));
           Line ("created     " +:+ local_format RFC3339 (i_CreatedAt inst))] ++
          (if decide (length (sortedMembers ρ inst) = 0%nat) then [] else
           [Line ""; Line "members"; Table (["  KIND"; "NAME"; "ADDRESS"; "ADDRESS6"; "ROUTES"; "DOMAIN"; "STATE"; "JOINED"] ::
                                            (show_member <$> sortedMembers ρ inst))]) ++
          (if decide (pendingIn ρ inst = 0%nat) then [] else
           [Line ""; Line "waiting for a decision";
            Table (["  ID"; "KIND"; "NAME"; "ADDRESS"; "ROUTES"; "FROM"; "ASKED"] :: (show_request <$> waiting_requests ρ inst));
            Line ""; Line ("  only " +:+ i_Binder inst +:+ " can admit these, on the machine holding the authority")]))
  end.

(** Where each machine ended up. *)
Definition membership (ρ : Range) (store : Store) (identity : string) : list string :=
  List ρ store ≫= λ inst,
    (λ m, i_Name inst +:+ " " +:+ Addr_String (p_addr (m_Address m)) +:+
          (if IsValid (m_Address6 m) then " " +:+ Addr_String (p_addr (m_Address6 m)) else "")) <$>
      filter (λ m, m_Identity m ≠ "" ∧ m_Identity m = identity) (range ρ (mget (i_Members inst))).*2.
Definition machine_row (ρ : Range) (store : Store) (m : Registration) : list string :=
  [g_Binder m; dashIfEmpty (g_Name m); short (g_Identity m) 16;
   if decide (g_LastSeenAt m = TimeZero) then "-" else local_format minute (g_LastSeenAt m);
   dashIfEmpty (Join (sort_strings (membership ρ store (g_Identity m))) ", ")].
Definition hubMachinesCmd (ρ : Range) (store : Store) : list Printed :=
  let machines := Registrations ρ store in
  if decide (length machines = 0%nat) then [Line "no machines registered"] else
  [Table (["BINDER"; "MACHINE"; "IDENTITY"; "LAST SEEN"; "MEMBER OF"] ::
          (machine_row ρ store <$> merge_sort machine_le machines));
   Line ""; Line "  connectors are not registered machines and are not listed here: robinet hub members"].
Definition hubMembersCmd (ρ : Range) (store : Store) (kind : string) : list Printed :=
  let rows := sort_by i_Name (List ρ store) ≫= λ inst,
    (λ m, [i_Name inst; m_Kind m; dashIfEmpty (m_Name m); addrOrDash (m_Address m); prefixOrDash (m_Address6 m);
           prefixes (m_Routes m); dashIfEmpty (m_Domain m); state_of m]) <$>
      filter (λ m, kind = "" ∨ m_Kind m = kind) (sortedMembers ρ inst) in
  if decide (length rows = 0%nat) then [Line "no members"] else
  [Table (["INSTANCE"; "KIND"; "NAME"; "ADDRESS"; "ADDRESS6"; "ROUTES"; "DOMAIN"; "STATE"] :: rows)].
(** [robinet hub config], whose last step writes the configuration out. *)
Definition hubConfigCmd (ρ : Range) (configPath : string) (configDirs : list string) (ref : string) (showKeys : bool)
    : res NebulaConf :=
  let? file := load_for_reading configPath configDirs in
  let? cfg := ConfigOf ρ file in
  let? s := read_state (c_StatePath cfg) in
  match Resolve ρ (OpenStore s) ref with
  | Ok inst => LighthouseConfig ρ inst cfg showKeys
  | Err _ => Err (Errorf ("no instance " +:+ ref))
  | Panic => Panic
  end.
Definition completeHubInstances (ρ : Range) (configPath : string) (configDirs args : list string) : list string :=
  if (0 <? length args)%nat then [] else
  match openHubState configPath configDirs with
  | Ok store =>
      sort_strings ((λ inst, (if decide (i_Name inst = "") then i_ID inst else i_Name inst) +:+ tab +:+
                             Prefix_String (i_Overlay inst) +:+ ", " +:+ numeral (MemberCount inst) +:+ " members") <$> List ρ store)
  | _ => []
  end.

(** ** Checking a configuration: [hubtest.go] *)

Definition tlsMode (f : File) : string :=
  if decide (f_APIEntrypoint f = EntrypointHTTP) then "plain http, something else terminates TLS"
  else if decide (f_TLSCert f ≠ "" ∧ f_TLSKey f ≠ "") then "certificate from " +:+ f_TLSCert f
  else "self signed certificate, clients need --insecure".
Definition enabled (on : bool) : string := if on then "enabled" else "disabled".
Definition countSubnets (bits size : Z) : Z :=
  let shift := size - bits in
  if shift <? 0 then 0 else if 30 <? shift then Z.shiftl 1 30 else Z.shiftl 1 shift.
(** What follows the second space of the line a key is written as. *)
Definition keyComment (key : PublicKey) : string :=
  match Cut (TrimSpace (MarshalAuthorizedKey key)) " " with
  | Some (_, rest) => match Cut rest " " with Some (_, comment) => comment | None => "" end
  | None => ""
  end.
(** The files of a directory, and whether it could not be read. *)
Definition yamlFilesIn (dir : string) : list string * bool :=
  match ReadDir dir with
  | Ok entries =>
      (sort_strings ((λ n, JoinPath [dir; n]) <$>
         filter (λ n, ToLower (Ext n) = ".yaml" ∨ ToLower (Ext n) = ".yml")
           (filter (λ e : string * bool, e.2 = false) entries).*1), false)
  | _ => ([], true)
  end.
Definition tested_dir (dir : string) : list Printed :=
  match yamlFilesIn dir with
  | (_, true) => [Line ("           ! " +:+ dir +:+ " does not exist")]
  | ([], false) => [Line ("           ! " +:+ dir +:+ " holds no yaml")]
  | (files, false) => (λ f, Line ("           + " +:+ f)) <$> files
  end.
Definition pool_room (p : Pool) : Z := countSubnets (p_bits (Pool_Prefix p)) (Pool_Size p).
Definition instances_room (cfg : Config) : Z := foldr Z.add 0 (pool_room <$> c_Overlays cfg).
Definition ports_room (cfg : Config) : Z := c_PortMax cfg - c_PortMin cfg + 1.
Definition room_lines (f : File) (cfg : Config) : list Printed :=
  let label (i : nat) := if (i =? 0)%nat then "overlays   " else "           " in
  let first6 := length (c_Overlays cfg) in
  imap (λ i p, Line (label i +:+ Prefix_String (Pool_Prefix p) +:+ " in /" +:+ Itoa (Pool_Size p) +:+ ", room for " +:+
                     Itoa (pool_room p) +:+ " instances")) (c_Overlays cfg) ++
  imap (λ i p, Line (label (first6 + i)%nat +:+ Prefix_String (Pool_Prefix p) +:+ " in /" +:+ Itoa (Pool_Size p))) (c_Overlays6 cfg) ++
  (match c_Overlays6 cfg with
   | [] => [Line (label first6 +:+ "no ipv6 pool, so no instance here can carry an ipv6 route")]
   | _ => []
   end) ++
  [Line ("ports      " +:+ f_Ports f +:+ ", room for " +:+ Itoa (ports_room cfg) +:+ " instances")] ++
  (let limit := Z.min (instances_room cfg) (ports_room cfg) in
   if limit <? Z.max (instances_room cfg) (ports_room cfg)
   then [Line ("           the smaller of the two applies: " +:+ Itoa limit +:+ " instances")] else []).
(** [%-10s]. *)
Definition padded (n : nat) (s : string) : string := s +:+ l2s (replicate (n - length (runes s)) " "%char).
Definition binder_lines (cfg : Config) : list Printed :=
  sort_strings (map_to_list (c_Binders cfg)).*1 ≫= λ name,
    imap (λ i key, Line ("  " +:+ padded 10 (if (i =? 0)%nat then name else "") +:+ " " +:+ FingerprintSHA256 key +:+ " " +:+ keyComment key))
      (default [] (c_Binders cfg !! name)).
(** [testHubConfig]: what is printed, and the verdict; [pin] is [existingPin]. *)
Definition testHubConfig (ρ : Range) (pin : string → string) (configPath : string) (configDirs : list string)
    : list Printed * res () :=
  let head := Line ("config     " +:+ configPath) :: (configDirs ≫= tested_dir) in
  match LoadFile configPath configDirs with
  | Err e => (head ++ [Line ""], Err e)
  | Panic => (head, Panic)
  | Ok (file, v) =>
      let incomplete := match v with Err ErrNoBinders => true | _ => false end in
      match v, incomplete with
      | Err e, false => (head ++ [Line ""], Err e)
      | Panic, _ => (head, Panic)
      | _, _ =>
          let cfg := ConfigOf ρ file in
          match cfg, incomplete with
          | Err e, false => (head ++ [Line ""], Err e)
          | Panic, _ => (head, Panic)
          | _, _ =>
              let body := head ++
                [Line ("endpoint   " +:+ f_PublicEndpoint file); Line ("api        " +:+ f_APIListen file +:+ " (" +:+ tlsMode file +:+ ")")] ++
                (if decide (pin (f_StatePath file) ≠ "") then [Line ("           pin " +:+ pin (f_StatePath file))] else []) ++
                [Line ("state      " +:+ f_StatePath file)] ++
                (match cfg with Ok cfg => room_lines file cfg | _ => [] end) ++
                [Line ("relay      " +:+ enabled (default false (f_Relay file))); Line ("mtu        " +:+ Itoa (f_MTU file))] in
              match incomplete, cfg with
              | true, _ => (body ++ [Line "binders    none"; Line ""], Err ErrNoBinders)
              | false, Ok cfg => (body ++ [Line "binders"] ++ binder_lines cfg ++ [Line ""; Line "ok"], Ok ())
              | false, _ => (body, Panic)
              end
          end
      end
  end.
End Inspect.

(** ** Undoing an installation: [hubcleanup.go], [setupcleanup.go] *)

(** The files and directories of the machine, and the commands that ran. *)
Record Host : Type := mkHost { ho_files : gset string; ho_dirs : gset string; ho_ran : list (list string) }.
(** What it meets there: whether systemctl is installed, and what removing a
    path fails with. *)
Record CleanEnv : Type := mkCleanEnv { ce_systemctl : bool; ce_fails : string → option error }.

Definition beneath (dir path : string) : bool := HasPrefix path (dir +:+ "/").
Definition run (args : list string) : M Host () := modify (λ h, mkHost (ho_files h) (ho_dirs h) (ho_ran h ++ [args])).
(** [os.Remove]: a file, or a directory that is empty. *)
Definition Remove_path (env : CleanEnv) (path : string) : M Host () := λ h,
  match ce_fails env path with
  | Some e => (Err e, h)
  | None =>
      if decide (path ∈ ho_files h) then (Ok (), mkHost (ho_files h ∖ {[path]}) (ho_dirs h) (ho_ran h))
      else if decide (path ∈ ho_dirs h) then
        if existsb (beneath path) (elements (ho_files h ∪ ho_dirs h)) then (Err (Errorf "directory not empty"), h)
        else (Ok (), mkHost (ho_files h) (ho_dirs h ∖ {[path]}) (ho_ran h))
      else (Err ErrNotExist, h)
  end.
(** [os.RemoveAll]. *)
Definition RemoveAll_path (env : CleanEnv) (path : string) : M Host () := λ h,
  match ce_fails env path with
  | Some e => (Err e, h)
  | None =>
      let gone p := p = path ∨ beneath path p = true in
      (Ok (), mkHost (filter (λ p, ¬ gone p) (ho_files h)) (filter (λ p, ¬ gone p) (ho_dirs h)) (ho_ran h))
  end.

Definition hubUnit : string := "robinet-hub.service".
Definition hubUnitPath : string := "/etc/systemd/system/" +:+ hubUnit.
(** The path of what it removes; the service goes another way. *)
Inductive Target : Type := TService | TPath (path : string).
Definition hubStatePath `{HF : Files} (configPath : string) : string :=
  match LoadFile configPath [] with
  | Ok (file, Ok _) => if decide (f_StatePath file = "") then "/var/lib/robinet/hub.json" else f_StatePath file
  | _ => "/var/lib/robinet/hub.json"
  end.
Definition hubTargets `{HF : Files} (configPath : string) : list Target :=
  let state := hubStatePath configPath in [TService; TPath state; TPath (state +:+ ".tmp"); TPath configPath].
Definition stopHubService (env : CleanEnv) : M Host () :=
  if negb (ce_systemctl env) then retM () else
  let* h := getM in
  if decide (hubUnitPath ∈ ho_files h) then
    do* run ["stop"; hubUnit] in
    do* run ["disable"; hubUnit] in
    tryM (Remove_path env hubUnitPath) (λ r, match r with inl _ => run ["daemon-reload"] | inr _ => retM () end)
  else run ["stop"; hubUnit].
(** The loop over the targets: those that could not be removed. *)
Fixpoint remove_targets (env : CleanEnv) (targets : list Target) : M Host (list string) :=
  match targets with
  | [] => retM []
  | TService :: targets => remove_targets env targets
  | TPath path :: targets =>
      let* failed := tryM (Remove_path env path) (λ r,
        retM match r with inl _ => [] | inr e => if decide (e = ErrNotExist) then [] else [path] end) in
      let* rest := remove_targets env targets in
      retM (failed ++ rest)
  end.
Definition cleanupHub `{HF : Files} (env : CleanEnv) (configPath : string) (force : bool) : M Host () :=
  if negb force then raise (Errorf "refusing to do that without --force") else
  do* stopHubService env in
  let* failed := remove_targets env (hubTargets configPath) in
  let dir := Dir (hubStatePath configPath) in
  do* (if decide (dir = "" ∨ dir = "/" ∨ dir = ".") then retM () else tryM (Remove_path env dir) (λ _, retM ())) in
  guard (bool_decide (failed = [])) (Errorf "could not remove: %v").

Definition tenantUnit : string := "robinet.service".
Definition tenantUnitPath : string := "/etc/systemd/system/" +:+ tenantUnit.
(** What would be lost, from what is in the state file. *)
Definition ownedInstances (file : option data) : list string :=
  match file with Some d => sort_strings (ow_Name <$> (map_to_list (mget (dt_Owned d))).*2) | None => [] end.
(** [cleanupTenant]; [path] is the state file's. *)
Definition cleanupTenant (env : CleanEnv) (renv : REnv) (path : string) (force : bool) : M (Host * Resolved) () :=
  λ hr,
    if negb force then (Err (Errorf "refusing to do that without --force"), hr) else
    let unit_gone : M Host () :=
      if negb (ce_systemctl env) then retM () else
      do* run ["stop"; tenantUnit] in
      do* run ["disable"; tenantUnit] in
      tryM (Remove_path env tenantUnitPath) (λ r, match r with inl _ => run ["daemon-reload"] | inr _ => retM () end) in
    let h := (unit_gone hr.1).2 in
    let s := (RemoveAll renv hr.2).2 in
    match RemoveAll_path env (Dir path) h with
    | (Err e, h) => (Err (Wrap "could not remove %s: %w" e), (h, s))
    | (r, h) => (r, (h, s))
    end.

(** ** Units *)

Definition hubUser : string := "robinet".
Definition renderHubUnit (exePath configPath : string) (configDirs : list string) : list string :=
  let args := " --config " +:+ configPath +:+ String.concat "" ((λ dir, " --config-dir " +:+ dir) <$> configDirs) in
  ["[Unit]"; "Description=robinet hub"; "Documentation=https://github.com/rjsocha/robinet"; "After=network-online.target";
   "Wants=network-online.target"; ""; "[Service]"; "Type=simple"; "User=" +:+ hubUser; "Group=" +:+ hubUser;
   "ExecStartPre=" +:+ exePath +:+ " hub test" +:+ args; "ExecStart=" +:+ exePath +:+ " hub run" +:+ args;
   "StateDirectory=robinet"; "CapabilityBoundingSet=CAP_NET_ADMIN CAP_NET_BIND_SERVICE";
   "AmbientCapabilities=CAP_NET_ADMIN CAP_NET_BIND_SERVICE"; "NoNewPrivileges=yes"; "ProtectSystem=strict"; "ProtectHome=yes";
   "PrivateTmp=yes"; "ProtectKernelTunables=yes"; "ProtectControlGroups=yes";
   "RestrictAddressFamilies=AF_INET AF_INET6 AF_UNIX AF_NETLINK"; "Restart=on-failure"; "RestartSec=2"; ""; "[Install]";
   "WantedBy=multi-user.target"].
Definition renderUnit (exePath statePath_ socketPath_ logLevel owner : string) : list string :=
  ["[Unit]"; "Description=robinet tenant daemon"; "Documentation=https://github.com/rjsocha/robinet";
   "After=network-online.target"; "Wants=network-online.target"; "StartLimitIntervalSec=60"; "StartLimitBurst=5"; "";
   "[Service]"; "Type=simple"; "User=" +:+ owner;
   "ExecStart=" +:+ exePath +:+ " up --state " +:+ statePath_ +:+ " --socket " +:+ socketPath_ +:+ " --log " +:+ logLevel;
   "AmbientCapabilities=CAP_NET_ADMIN"; "CapabilityBoundingSet=CAP_NET_ADMIN"; "DeviceAllow=/dev/net/tun rw";
   "RuntimeDirectory=robinet"; "RuntimeDirectoryMode=0750"; "NoNewPrivileges=yes"; "ProtectSystem=strict";
   "ProtectHome=read-only"; "ReadWritePaths=" +:+ Dir statePath_; "PrivateTmp=yes"; "Restart=always"; "RestartSec=500ms"; "";
   "[Install]"; "WantedBy=multi-user.target"].
(** [randomULA], of the five bytes drawn. *)
Definition hex2 (b : Z) : string := l2s [hex_digit (b / 16); hex_digit (b mod 16)].
Definition randomULA (r0 r1 r2 r3 r4 : Z) : string :=
  "fd" +:+ hex2 r0 +:+ ":" +:+ hex2 r1 +:+ hex2 r2 +:+ ":" +:+ hex2 r3 +:+ hex2 r4 +:+ "::/48/112".
