(* ===== verification/HubCliSpec.v ===== *)
(** * What the hub's command line says and undoes

    The room [robinet hub test] reports is the room there is; and what a
    cleanup removes. *)

From Stdlib Require Import Ascii.
From S2P Require Export HubCli HubInv HubConfig.

Open Scope Z_scope.

(** ** Counting overlays *)

(** How many subnets a pool has. *)
Definition subnets (p : Pool) : Z := 2 ^ (Pool_Size p - p_bits (Pool_Prefix p)).
Definition subnets_of (p : Pool) : list Prefix := subnet p <$> seq 0 (Z.to_nat (subnets p)).
Definition total (pools : list Pool) : Z := foldr Z.add 0 (subnets <$> pools).

Section Pool.
Context (p : Pool) (Hp : pool_ok p).
Lemma subnets_pos : 0 < subnets p.
Proof. destruct Hp as [_ ?]. apply Z.pow_pos_nonneg; lia. Qed.
Lemma subnets_last k : lo (Pool_Prefix p) + Z.of_nat k * block p ≤ hi (Pool_Prefix p) ↔ Z.of_nat k < subnets p.
Proof.
  assert (2 ^ host_bits (Pool_Prefix p) = subnets p * block p) as E.
  { destruct Hp as [_ ?]. unfold subnets, block, host_bits. rewrite <-Z.pow_add_r by lia. f_equal. lia. }
  unfold hi. rewrite E. pose proof (block_pos p Hp). pose proof subnets_pos. nia.
Qed.
Lemma elem_of_subnets c : c ∈ subnets_of p ↔ pool_subnet p c.
Proof.
  unfold subnets_of. rewrite list_elem_of_fmap. split.
  - intros (k&->&Hk%elem_of_seq). exists k. split; [done|]. apply subnets_last. lia.
  - intros (k&->&Hk%subnets_last). exists k. split; [done|]. apply elem_of_seq. lia.
Qed.
Lemma NoDup_subnets : NoDup (subnets_of p).
Proof.
  apply NoDup_fmap_2_strong; [|apply NoDup_seq]. intros i j Hi%elem_of_seq Hj%elem_of_seq He.
  apply (subnet_inj p Hp); [apply subnet_inside, subnets_last; (done || lia)..|done].
Qed.
Lemma length_subnets : Z.of_nat (length (subnets_of p)) = subnets p.
Proof. unfold subnets_of. rewrite length_fmap, length_seq. pose proof subnets_pos. lia. Qed.
(** What is reported is that number, where an instance has two addresses of
    its own. *)
Lemma pool_room_subnets : Pool_Size p ≤ 30 → pool_room p = subnets p.
Proof.
  destruct Hp as [(_&Hb&_) Hs]. intros Hle. unfold pool_room, countSubnets, subnets.
  rewrite (proj2 (Z.ltb_ge _ _)), (proj2 (Z.ltb_ge _ _)) by lia. by rewrite Z.shiftl_mul_pow2, Z.mul_1_l by lia.
Qed.
End Pool.

Lemma length_all_subnets pools : Forall pool_ok pools → Z.of_nat (length (pools ≫= subnets_of)) = total pools.
Proof.
  induction 1 as [|p pools Hp _ IH]; [done|].
  change ((p :: pools) ≫= subnets_of) with (subnets_of p ++ (pools ≫= subnets_of)).
  change (total (p :: pools)) with (subnets p + total pools). by rewrite length_app, Nat2Z.inj_add, length_subnets, IH.
Qed.
Lemma elem_of_all_subnets pools c : Forall pool_ok pools → c ∈ pools ≫= subnets_of ↔ ∃ p, p ∈ pools ∧ pool_subnet p c.
Proof.
  intros Hp. rewrite list_elem_of_bind. rewrite Forall_forall in Hp. split.
  - intros (p&H&Hin). exists p. split; [done|]. apply elem_of_subnets; auto.
  - intros (p&Hin&H). exists p. split; [|done]. apply elem_of_subnets; auto.
Qed.
(** A subnet of two pools makes them overlap. *)
Lemma shared_subnet p q c : pool_ok p → pool_ok q → pool_subnet p c → pool_subnet q c → Overlaps (Pool_Prefix p) (Pool_Prefix q) = true.
Proof.
  intros Hp Hq Hc Hc'. destruct (pool_subnet_ok p c Hp Hc) as (Hok&_&H1&_&H2&H3).
  destruct (pool_subnet_ok q c Hq Hc') as (_&_&H1'&_&H2'&H3'). pose proof (lo_hi_range c Hok) as (_&?&_).
  apply Overlaps_intervals; [apply Hp|apply Hq|]. split_and!; [by rewrite <-H1|lia..].
Qed.
Lemma NoDup_all_subnets pools : Forall pool_ok pools → disjoint_pools pools → NoDup (pools ≫= subnets_of).
Proof.
  induction 1 as [|p pools Hp Hps IH]; intros Hd; [constructor|].
  change ((p :: pools) ≫= subnets_of) with (subnets_of p ++ (pools ≫= subnets_of)). apply NoDup_app. split_and!.
  - by apply NoDup_subnets.
  - intros c Hc (q&Hq&Hcq)%elem_of_all_subnets; [|done]. apply elem_of_subnets in Hc; [|done].
    apply list_elem_of_lookup in Hq as [j Hj]. assert (pool_ok q) as Hqok by (by eapply Forall_lookup_1).
    pose proof (shared_subnet p q c Hp Hqok Hc Hcq). by rewrite (Hd 0%nat (S j) p q) in * by (done || lia).
  - apply IH. intros i j q q' Hij Hi Hj. by apply (Hd (S i) (S j)); [lia|..].
Qed.

Lemma room_left pools taken :
  Forall pool_ok pools → disjoint_pools pools → Z.of_nat (size taken) < total pools →
  ∃ c pool, allocateOverlay pools taken = Ok c ∧ pool ∈ pools ∧ pool_subnet pool c.
Proof.
  intros Hp Hd Hn. pose proof (allocate_pools_result pools taken Hp) as H. unfold allocateOverlay.
  destruct pools as [|p0 pools0] eqn:E; [cbn in Hn; lia|]. rewrite <-E in *.
  destruct (allocate_pools pools taken) as [c|e|] eqn:Ea; [|exfalso|done].
  - destruct H as (before&pool&after&He&Hc&_). exists c, pool. split; [done|]. split; [|done]. rewrite He. set_solver.
  - assert (length (pools ≫= subnets_of) ≤ length (elements taken))%nat as Hl.
    { apply submseteq_length, NoDup_submseteq; [by apply NoDup_all_subnets|].
      intros c (pool&Hin&Hc)%elem_of_all_subnets; [|done]. apply elem_of_elements. by eapply H. }
    pose proof (length_all_subnets pools Hp). unfold size, set_size in Hn. simpl in Hn. lia.
Qed.

(** Where two bits are left, an instance has room for its own two addresses. *)
Lemma inner_usable c i : prefix_ok c → lo c < i < hi c → usable c (with_num (p_addr c) i).
Proof.
  intros Hc Hi. pose proof (lo_hi_range c Hc) as (H0&_&H1).
  assert (ContainsAddr c (with_num (p_addr c) i) = true) as Hin by (apply ContainsAddr_with_num; [done|lia]).
  assert (∀ n, with_num (p_addr c) i = with_num (p_addr c) n → 0 ≤ n → i = n) as Hinj.
  { intros n He Hn. apply (f_equal num) in He. by rewrite !num_with_num in He by apply Hc. }
  split_and!; [done|..].
  - rewrite Masked_addr by done. intros He. apply Hinj in He; lia.
  - apply not_true_iff_false. intros Hb. apply broadcast_last in Hb; [|done..]. apply Hinj in Hb; lia.
Qed.
Lemma two_addresses c :
  prefix_ok c → p_bits c + 2 ≤ BitLen (p_addr c) →
  ∃ lh ta, reserveLighthouse c = Ok lh ∧ lowestFree c {[lh]} = Ok ta.
Proof.
  intros Hc Hb. assert (4 ≤ 2 ^ host_bits c) as H4.
  { change 4 with (2 ^ 2). apply Z.pow_le_mono_r; [lia|]. unfold host_bits. lia. }
  pose proof (inner_usable c (lo c + 1) Hc ltac:(unfold hi; lia)) as U1.
  pose proof (inner_usable c (lo c + 2) Hc ltac:(unfold hi; lia)) as U2.
  pose proof (lowestFree_result c Hc ∅) as Hl. unfold reserveLighthouse. destruct (lowestFree c ∅) as [lh|e|]; [| |done].
  2: { destruct Hl as [_ Hl]. exfalso. by apply (not_elem_of_empty (C := gset Addr) _ (Hl _ U1)). }
  exists lh. pose proof (lowestFree_result c Hc {[lh]}) as Ht. destruct (lowestFree c {[lh]}) as [ta|e|]; [by exists ta| |done].
  destruct Ht as [_ Ht]. exfalso. pose proof (Ht _ U1) as E1%elem_of_singleton. pose proof (Ht _ U2) as E2%elem_of_singleton.
  rewrite <-E1 in E2. apply (f_equal num) in E2. rewrite !num_with_num in E2 by apply Hc. lia.
Qed.

(** Both addresses of an overlay nobody has. *)
Lemma family_left pools taken :
  Forall pool_ok pools → disjoint_pools pools → Z.of_nat (size taken) < total pools →
  Forall (λ p, Pool_Size p + 2 ≤ BitLen (p_addr (Pool_Prefix p))) pools →
  ∃ c lh ta, allocateOverlay pools taken = Ok c ∧ reserveLighthouse c = Ok lh ∧ lowestFree c {[lh]} = Ok ta.
Proof.
  intros Hp Hd Hn Hs. destruct (room_left pools taken Hp Hd Hn) as (c&pool&Ha&Hin&Hc).
  rewrite Forall_forall in Hp, Hs. destruct (pool_subnet_ok pool c (Hp _ Hin) Hc) as (Hok&Hb&HL&_).
  destruct (two_addresses c Hok) as (lh&ta&?&?); [rewrite Hb, HL; by apply Hs|]. by exists c, lh, ta.
Qed.

Section Room.
Context (cfg : Config) (s : Store) (Hcfg : config_ok cfg) (Hs : state_ok cfg (mem s)).
Definition carved : nat := size (s_Instances (mem s)).

(** A field no two instances share takes as many values as there are
    instances. *)
Lemma distinct_field {A} (f : Instance_ → A) (l : list A) :
  (∀ id id' i i', s_Instances (mem s) !! id = Some i → s_Instances (mem s) !! id' = Some i' → f i = f i' → id = id') →
  (∀ id i, s_Instances (mem s) !! id = Some i → f i ∈ l) →
  (carved ≤ length l)%nat ∧ ((length l ≤ carved)%nat → ∀ a, a ∈ l → a ∈ f <$> instances_of s).
Proof.
  intros Hinj Hin. set (m := map_to_list (s_Instances (mem s))).
  assert (f <$> instances_of s = (λ kv : string * Instance_, f kv.2) <$> m) as E by (unfold instances_of; by rewrite <-list_fmap_compose).
  assert (length (f <$> instances_of s) = carved) as Hl by (rewrite E, length_fmap; apply length_map_to_list).
  assert (NoDup (f <$> instances_of s)) as Hnd.
  { rewrite E. apply NoDup_fmap_2_strong; [|apply NoDup_map_to_list].
    intros [id i] [id' i'] H%elem_of_map_to_list H'%elem_of_map_to_list He. cbn in He.
    assert (id = id') as -> by eauto. simpl in *. congruence. }
  assert (f <$> instances_of s ⊆+ l) as Hsub.
  { apply NoDup_submseteq; [done|]. intros a. rewrite E, list_elem_of_fmap. intros ([id i]&->&H%elem_of_map_to_list). eauto. }
  rewrite <-Hl. split; [by apply submseteq_length|]. intros Hle a Ha. by rewrite (submseteq_length_Permutation _ _ Hsub Hle).
Qed.
Lemma carved_overlays : (carved ≤ length (c_Overlays cfg ≫= subnets_of))%nat ∧
  ((length (c_Overlays cfg ≫= subnets_of) ≤ carved)%nat →
   ∀ pool c, pool ∈ c_Overlays cfg → pool_subnet pool c → c ∈ UsedOverlays s).
Proof.
  destruct (distinct_field i_Overlay (c_Overlays cfg ≫= subnets_of)) as [H1 H2].
  - apply Hs.
  - intros id i Hi. apply elem_of_all_subnets; [apply Hcfg|]. by destruct (so_pools _ _ Hs _ _ Hi) as (_&?&_).
  - split; [done|]. intros Hle pool c Hin Hc. unfold UsedOverlays. apply elem_of_list_to_set, H2; [done|].
    apply elem_of_all_subnets; [apply Hcfg|]. eauto.
Qed.
Lemma carved_ports : Z.of_nat carved ≤ ports_room cfg ∧
  (ports_room cfg ≤ Z.of_nat carved → ∀ q, c_PortMin cfg ≤ q ≤ c_PortMax cfg → q ∈ UsedPorts s).
Proof.
  pose proof (cf_ports _ Hcfg) as Hports. unfold ports_room.
  destruct (distinct_field i_Port (seqZ (c_PortMin cfg) (c_PortMax cfg - c_PortMin cfg + 1))) as [H1 H2].
  - apply Hs.
  - intros id i Hi. apply elem_of_seqZ. destruct (so_pools _ _ Hs _ _ Hi) as (?&_). lia.
  - rewrite length_seqZ in *. split; [lia|]. intros Hle q Hq. unfold UsedPorts.
    apply elem_of_list_to_set, H2; [lia|]. apply elem_of_seqZ. lia.
Qed.
Lemma port_left : Z.of_nat carved < ports_room cfg → ∃ port, freePort cfg (UsedPorts s) = Ok port.
Proof.
  intros Hn. pose proof (freePort_result cfg (UsedPorts s) Hcfg) as H. pose proof (cf_ports _ Hcfg) as Hports.
  destruct (freePort _ _) as [port|e|]; [by exists port| |done]. exfalso.
  assert (length (seqZ (c_PortMin cfg) (ports_room cfg)) ≤ length (elements (UsedPorts s)))%nat as Hl.
  { apply submseteq_length, NoDup_submseteq; [apply NoDup_seqZ|]. intros q Hq%elem_of_seqZ. apply elem_of_elements, H.
    unfold ports_room in Hq. lia. }
  rewrite length_seqZ in Hl. change (length (elements (UsedPorts s))) with (size (UsedPorts s)) in Hl.
  assert (size (UsedPorts s) ≤ carved)%nat; [|lia]. unfold UsedPorts. etrans; [apply list_to_set_size|].
  unfold instances_of. by rewrite !length_fmap, length_map_to_list.
Qed.
End Room.

Lemma size_used_overlays s : (size (UsedOverlays s) ≤ carved s)%nat.
Proof.
  unfold UsedOverlays. etrans; [apply list_to_set_size|]. unfold instances_of. by rewrite !length_fmap, length_map_to_list.
Qed.
Lemma size_used_overlays6 s : (size (UsedOverlays6 s) ≤ carved s)%nat.
Proof.
  unfold UsedOverlays6. etrans; [apply list_to_set_size|]. etrans; [apply length_filter|].
  unfold instances_of. by rewrite !length_fmap, length_map_to_list.
Qed.
Lemma disjoint_pools_app l1 l2 : disjoint_pools (l1 ++ l2) → disjoint_pools l1 ∧ disjoint_pools l2.
Proof.
  intros H. split; intros i j p q Hij Hi Hj.
  - apply (H i j); [done|by apply lookup_app_l_Some..].
  - apply (H (length l1 + i) (length l1 + j))%nat; [lia|rewrite lookup_app_r by lia; by rewrite Nat.add_comm, Nat.add_sub..].
Qed.
(** Two bits are left for an instance of either family. *)
Lemma pools_room (is4 : bool) pools :
  Forall pool_ok pools → Forall (λ p, Is4 (p_addr (Pool_Prefix p)) = is4) pools →
  Forall (λ p, Pool_Size p ≤ if is4 then 30 else 126) pools →
  Forall (λ p, Pool_Size p + 2 ≤ BitLen (p_addr (Pool_Prefix p))) pools.
Proof.
  rewrite !Forall_forall. intros Hok H4 Hs p Hin. specialize (Hok p Hin) as [(_&_&Hz) _]. specialize (H4 p Hin). specialize (Hs p Hin).
  destruct (p_addr (Pool_Prefix p)); simpl in *; subst; [done|lia..].
Qed.

(** What creating an instance meets outside the hub when nothing stands in
    its way. *)
Definition unhindered (env : Env) (name : string) (s : Store) : Prop :=
  s_Instances (mem s) !! newID env = None ∧ (∀ id i, s_Instances (mem s) !! id = Some i → i_Name i ≠ name) ∧
  (∃ keys, GenerateHostKey env = inr keys) ∧ save_fault env = None.
Lemma created cfg env binder owner name token h :
  h_cfg h = cfg → unhindered env name (h_store h) →
  (∃ c lh ta, allocateOverlay (c_Overlays cfg) (UsedOverlays (h_store h)) = Ok c ∧ reserveLighthouse c = Ok lh ∧
     lowestFree c {[lh]} = Ok ta) →
  (∃ port, freePort cfg (UsedPorts (h_store h)) = Ok port) →
  (c_Overlays6 cfg = [] ∨ ∃ c lh ta, allocateOverlay (c_Overlays6 cfg) (UsedOverlays6 (h_store h)) = Ok c ∧
     reserveLighthouse c = Ok lh ∧ lowestFree c {[lh]} = Ok ta) →
  ∃ inst, (CreateInstance env binder owner name token h).1 = Ok inst.
Proof.
  intros Ec (Hid&Hname&([pub key]&Hk)&Hsave) (c&lh&ta&Ha&Hl&Ht) (port&Hp) H6. unfold CreateInstance.
  rewrite bind_get, Ec, bind_liftR, Ha, bind_liftR, Hp, bind_liftR, Hl, bind_liftR, Ht.
  assert (∀ inst, i_ID inst = newID env → i_Name inst = name → (onStore (Add env inst) h).1 = Ok ()) as Hadd.
  { intros inst Ei En. unfold onStore, Add. rewrite bind_get, Ei, Hid.
    destruct (find_first _ _) as [[id i]|] eqn:Hf.
    - apply find_first_Some in Hf as [Hin%elem_of_range Hb]. apply bool_decide_eq_true in Hb. cbn in Hb.
      destruct (Hname id i Hin). congruence.
    - unfold set_mem. rewrite bind_modify. unfold save. by rewrite Hsave. }
  destruct H6 as [->|(c6&lh6&ta6&Ha6&Hl6&Ht6)].
  - rewrite bind_ret, Hk, bind_ret. cbn zeta. match goal with |- context [onStore (Add env ?i)] => set (inst := i) end.
    specialize (Hadd inst eq_refl eq_refl). unfold bindM. destruct (onStore _ h) as [[]]; simplify_eq/=. by eexists.
  - destruct (c_Overlays6 cfg) as [|p6 pools6]; [done|].
    rewrite bind_assoc, bind_liftR, Ha6, bind_assoc, bind_liftR, Hl6, bind_assoc, bind_liftR, Ht6, bind_ret, Hk, bind_ret.
    cbn zeta. match goal with |- context [onStore (Add env ?i)] => set (inst := i) end.
    specialize (Hadd inst eq_refl eq_refl). unfold bindM. destruct (onStore _ h) as [[]]; simplify_eq/=. by eexists.
Qed.

(** C18: the room [robinet hub test] reports is the room there is, when what
    it does not look at does not bind.  Take the configuration of a file whose
    ports start above 0 and whose instances are a /30 or larger, a /126 or
    larger in IPv6: in smaller ones none can ever be created, whatever room is
    reported ([small_instances_never_created]).  In every state the hub can reach there are at most as many instances as the
    smaller of the two numbers says; while there are fewer, one more can be
    created, as long as the IPv6 pools, which the report does not count, have a
    subnet left; and at that number the hub refuses. *)
Theorem room_is_the_limit `{HC : Crypto} `{HS : SshLib} (ρ : Range) (f : File) (cfg : Config) (h : Hub) :
  ConfigOf ρ f = Ok cfg → 0 < c_PortMin cfg → reachable cfg h →
  Forall (λ p, Pool_Size p ≤ 30) (c_Overlays cfg) → Forall (λ p, Pool_Size p ≤ 126) (c_Overlays6 cfg) →
  let n := Z.of_nat (carved (h_store h)) in
  let limit := Z.min (instances_room cfg) (ports_room cfg) in
  n ≤ limit ∧
  (n < limit → c_Overlays6 cfg = [] ∨ n < total (c_Overlays6 cfg) →
   ∀ env binder owner name token, unhindered env name (h_store h) →
     ∃ inst, (CreateInstance env binder owner name token h).1 = Ok inst) ∧
  (n = limit → ∀ env binder owner name token, ∃ e, CreateInstance env binder owner name token h = (Err e, h)).
Proof.
  intros Hc Hport Hr H30 H126 n limit.
  apply ConfigOf_inv in Hc as (pools&ports&Hp&Ho&_&Hpr&_&_&E4&E6&Emin&Emax&_).
  apply parse_overlays_Ok in Hp as (Hok4&Hok6&H4&H6). apply parsePortRange_Ok in Hpr. apply refuseOverlap_Ok in Ho.
  rewrite <-E4, <-E6 in *. rewrite <-Emin, <-Emax in *.
  assert (config_ok cfg) as Hcfg by (constructor; [done..|lia]).
  destruct (reachable_ok _ _ Hcfg Hr) as [Ec [Hs _]].
  assert (instances_room cfg = total (c_Overlays cfg)) as Eroom.
  { unfold instances_room, total. f_equal. apply list_fmap_ext. intros i p Hi. apply pool_room_subnets;
    [exact (Forall_lookup_1 _ _ _ _ Hok4 Hi)|exact (Forall_lookup_1 _ _ _ _ H30 Hi)]. }
  pose proof (length_all_subnets _ Hok4) as Hlen. destruct (carved_overlays cfg (h_store h) Hcfg Hs) as [Hn4 Hfull4].
  destruct (carved_ports cfg (h_store h) Hcfg Hs) as [Hnp Hfullp].
  assert (disjoint_pools (c_Overlays cfg) ∧ disjoint_pools (c_Overlays6 cfg)) as [Hd4 Hd6].
  { by apply disjoint_pools_app. }
  split; [lia|]. split.
  - intros Hlt H6room env binder owner name token Hun. apply (created cfg); [done|done|..].
    + apply family_left; [done|done|..].
      * pose proof (size_used_overlays (h_store h)). lia.
      * by apply (pools_room true).
    + apply port_left; [done|]. lia.
    + destruct H6room as [?|Hlt6]; [by left|right]. apply family_left; [done|done|..].
      * pose proof (size_used_overlays6 (h_store h)). lia.
      * by apply (pools_room false).
  - intros Hn env binder owner name token. unfold CreateInstance. rewrite bind_get, Ec, bind_liftR.
    pose proof (allocate_pools_result (c_Overlays cfg) (UsedOverlays (h_store h)) Hok4) as Ha.
    unfold allocateOverlay. destruct (c_Overlays cfg) as [|p0 l0] eqn:El; [by eexists|]. rewrite <-El in *.
    destruct (allocate_pools _ _) as [c|e|]; [|by eexists|done].
    destruct Ha as (before&pool&after&He&Hc&Hfree&_).
    assert (pool ∈ c_Overlays cfg) as Hin by (rewrite He; set_solver).
    rewrite bind_liftR. pose proof (freePort_result cfg (UsedPorts (h_store h)) Hcfg) as Hfp.
    destruct (freePort _ _) as [port|e|]; [|by eexists|done]. exfalso. destruct Hfp as (Hpr'&Hpn&_).
    destruct (decide (instances_room cfg ≤ ports_room cfg)).
    + apply Hfree. apply (Hfull4 ltac:(lia) pool c); done.
    + apply Hpn. apply Hfullp; lia.
Qed.

(** ** Cleaning up *)

Section Cleanup.
Context (env : CleanEnv) (Henv : ∀ p, ce_fails env p = None).

Lemma remove_file p h : p ∉ ho_dirs h →
  (Remove_path env p h).2 = mkHost (ho_files h ∖ {[p]}) (ho_dirs h) (ho_ran h) ∧
  ((Remove_path env p h).1 = Ok () ∨ (Remove_path env p h).1 = Err ErrNotExist).
Proof.
  intros Hd. unfold Remove_path. rewrite Henv. destruct (decide (p ∈ ho_files h)); [split; [done|by left]|].
  rewrite decide_False by done. split; [|by right]. destruct h; cbn in *. f_equal. set_solver.
Qed.
Lemma remove_dir p h : p ∉ ho_files h →
  ho_files (Remove_path env p h).2 = ho_files h ∧
  (ho_dirs (Remove_path env p h).2 = ho_dirs h ∨ ho_dirs (Remove_path env p h).2 = ho_dirs h ∖ {[p]}) ∧
  (Remove_path env p h).1 ≠ Panic.
Proof.
  intros Hd. unfold Remove_path. rewrite Henv, decide_False by done. case_decide; [|by split_and!; [|left|]].
  destruct (existsb _ _); split_and!; auto; done.
Qed.
Lemma remove_all_targets targets h :
  (∀ p, TPath p ∈ targets → p ∉ ho_dirs h) →
  remove_targets env targets h =
    (Ok [], mkHost (ho_files h ∖ list_to_set (omap (λ t, match t with TPath p => Some p | TService => None end) targets)) (ho_dirs h) (ho_ran h)).
Proof.
  revert h. induction targets as [|[|p] targets IH]; intros h Hd; cbn [remove_targets].
  - destruct h; cbn. unfold retM. do 2 f_equal. set_solver.
  - rewrite IH by set_solver. done.
  - destruct (remove_file p h) as [E Hr]; [set_solver|]. unfold bindM, tryM at 1. destruct (Remove_path env p h) as [r h1].
    cbn [fst snd] in E, Hr. subst h1.
    destruct Hr as [-> | ->]; cbn [retM]; rewrite ?decide_True by done; unfold bindM; rewrite IH by set_solver; cbn;
      unfold retM; do 2 f_equal; set_solver.
Qed.
End Cleanup.

(** The service is stopped, and its unit gone. *)
Lemma stop_service env h :
  (∀ p, ce_fails env p = None) → hubUnitPath ∉ ho_dirs h →
  ∃ ran, stopHubService env h =
    (Ok (), mkHost (ho_files h ∖ (if ce_systemctl env then {[hubUnitPath]} else ∅)) (ho_dirs h) ran).
Proof.
  intros Henv Hd. unfold stopHubService. destruct (ce_systemctl env); cbn [negb].
  2: { exists (ho_ran h). destruct h; cbn. unfold retM. do 2 f_equal. set_solver. }
  rewrite bind_get. case_decide as Hu.
  - unfold run. rewrite !bind_modify. unfold tryM. cbn [ho_files ho_dirs ho_ran].
    match goal with |- context [Remove_path env hubUnitPath ?h0] => destruct (remove_file env Henv hubUnitPath h0 Hd) as [E Hr] end.
    destruct (Remove_path env hubUnitPath _) as [r h1]. cbn [fst snd ho_files ho_dirs ho_ran] in E, Hr. subst h1.
    destruct Hr as [-> | ->]; by eexists.
  - eexists. unfold run, modify. do 2 f_equal. set_solver.
Qed.
(** What is done with [--force]. *)
Lemma cleaned_up `{HF : Files} env configPath h gone :
  (∀ p, ce_fails env p = None) →
  gone = {[hubStatePath configPath; hubStatePath configPath +:+ ".tmp"; configPath]} ∪
         (if ce_systemctl env then {[hubUnitPath]} else ∅) →
  (∀ p, p ∈ gone ∪ {[hubUnitPath]} → p ∉ ho_dirs h) → Dir (hubStatePath configPath) ∉ ho_files h →
  (cleanupHub env configPath true h).1 = Ok () ∧ ho_files (cleanupHub env configPath true h).2 = ho_files h ∖ gone ∧
  (ho_dirs (cleanupHub env configPath true h).2 = ho_dirs h ∨
   ho_dirs (cleanupHub env configPath true h).2 = ho_dirs h ∖ {[Dir (hubStatePath configPath)]}).
Proof.
  intros Henv Hgone Hd Hdir. unfold cleanupHub. cbn [negb].
  destruct (stop_service env h Henv) as [ran E]; [set_solver|]. rewrite (bind_run _ _ _ _ _ E).
  set (h1 := mkHost _ _ ran).
  assert (∀ p, TPath p ∈ hubTargets configPath → p ∉ ho_dirs h1) as Ht.
  { intros p Hp. apply Hd. unfold hubTargets in Hp. set_solver. }
  rewrite (bind_run _ _ _ _ _ (remove_all_targets env Henv _ h1 Ht)). cbn zeta.
  set (h2 := mkHost (ho_files h1 ∖ _) _ _).
  assert (ho_files h2 = ho_files h ∖ gone) as Ef by (unfold h2, h1, hubTargets; cbn; set_solver).
  destruct (remove_dir env Henv (Dir (hubStatePath configPath)) h2) as (Hf'&Hd'&Hnp); [rewrite Ef; set_solver|].
  rewrite bool_decide_true by done. cbn [guard]. case_decide; [by split_and!; [|rewrite <-Ef|left]|].
  assert ((do* tryM (Remove_path env (Dir (hubStatePath configPath))) (λ _, retM ()) in retM ()) h2 =
          (Ok (), (Remove_path env (Dir (hubStatePath configPath)) h2).2)) as ->.
  { unfold bindM, tryM. destruct (Remove_path env _ h2) as [[u|e|] h3]; [done..|done]. }
  cbn [fst snd]. split_and!; [done|by rewrite Hf', Ef|exact Hd'].
Qed.

(** A cleanup of a hub.  Without [--force] it changes nothing.  With it,
    where nothing refuses to be removed, exactly the state file, what a write
    left beside it, the configuration and the unit are gone, and of the
    directories at most the one the state was in; and repeating it is safe.
    The state it means is that of the main file alone: a configuration whose
    binders are all in fragments does not load without them, and the default
    path is taken for it. *)
Theorem cleanup_is_what_it_lists `{HF : Files} (env : CleanEnv) (configPath : string) (h : Host) :
  let state := hubStatePath configPath in
  let gone : gset string := {[state; state +:+ ".tmp"; configPath]} ∪ (if ce_systemctl env then {[hubUnitPath]} else ∅) in
  let cleaned := cleanupHub env configPath true h in
  cleanupHub env configPath false h = (Err (Errorf "refusing to do that without --force"), h) ∧
  ((∀ p, ce_fails env p = None) → (∀ p, p ∈ gone ∪ {[hubUnitPath]} → p ∉ ho_dirs h) → Dir state ∉ ho_files h →
   cleaned.1 = Ok () ∧ ho_files cleaned.2 = ho_files h ∖ gone ∧
   (ho_dirs cleaned.2 = ho_dirs h ∨ ho_dirs cleaned.2 = ho_dirs h ∖ {[Dir state]}) ∧
   (cleanupHub env configPath true cleaned.2).1 = Ok () ∧ ho_files (cleanupHub env configPath true cleaned.2).2 = ho_files cleaned.2) ∧
  (∀ base, readConfig configPath = Ok base → f_Binder base = [] → state = "/var/lib/robinet/hub.json").
Proof.
  intros state gone cleaned. split_and!; [done|..].
  - intros Henv Hd Hdir. destruct (cleaned_up env configPath h gone Henv eq_refl Hd Hdir) as (H1&H2&H3).
    fold cleaned in H1, H2, H3.
    destruct (cleaned_up env configPath cleaned.2 gone Henv eq_refl) as (H1'&H2'&_).
    + intros p Hp. specialize (Hd p Hp). set_solver.
    + rewrite H2. set_solver.
    + split_and!; [done..|]. rewrite H2', H2. set_solver.
  - intros base Hb Hnone. unfold state, hubStatePath, LoadFile. rewrite Hb. cbn [bindR merge_dirs].
    assert (validate (applyDefaults base) ≠ Ok ()) as Hv.
    { unfold validate. destruct (validateEndpoint _) as [[]| |]; cbn [bindR]; [|done..]. case_decide; [done|].
      change (f_Binder (applyDefaults base)) with (f_Binder base). by rewrite Hnone. }
    cbn zeta. destruct (validate (applyDefaults base)) as [[]|e|]; [by destruct Hv|done..].
Qed.

(** ** Concrete runs *)

(** Instances too small for their own two addresses: room is reported, and
    none is ever created. *)
Definition ex_small : Config :=
  mkConfig "" "" "hub.example" 20000 20999 [mkPool (mkPrefix (Addr4 167772160) 24) 31] [] "token" ∅ "" 1500 true true false.
Lemma small_instances_never_created `{HC : Crypto} env binder owner name token :
  instances_room ex_small = 128 ∧
  CreateInstance env binder owner name token (mkHub ex_small (OpenStore None) ∅) = (Err ErrPoolExhausted, mkHub ex_small (OpenStore None) ∅).
Proof. split; vm_compute; reflexivity. Qed.

(** A cleanup that takes the wrong state. *)
Definition ex_fragmented : Files :=
  {| readConfig := λ _, Ok (mkFile "hub.example" "" "" "" "" "" "/srv/robinet/hub.json" [] "" 0 None None "token" [] []);
     ReadDir := λ d, if decide (d = "/etc/site/robinet/binder") then Ok [("ann.yaml", false)] else Err ErrNotExist;
     readConfigIn := λ _ _, Ok (ex_fragment "ann" "ssh-a" "") |}.
Definition ex_config_path : string := "/etc/site/robinet/hub.yaml".
Definition ex_host : Host :=
  mkHost {[ex_config_path; "/srv/robinet/hub.json"; hubUnitPath]} {["/srv/robinet"; "/etc/site/robinet"]} [].
Definition ex_clean_env : CleanEnv := mkCleanEnv true (λ _, None).
Lemma cleanup_misses_the_state :
  (f_StatePath <$> match @LoadFile ex_fragmented ex_config_path ["/etc/site/robinet/binder"] with Ok (f, Ok _) => Some f | _ => None end) =
    Some "/srv/robinet/hub.json" ∧
  (@cleanupHub ex_fragmented ex_clean_env ex_config_path true ex_host).1 = Ok () ∧
  ho_files (@cleanupHub ex_fragmented ex_clean_env ex_config_path true ex_host).2 = {["/srv/robinet/hub.json"]}.
Proof. split_and!; vm_compute; reflexivity. Qed.
Lemma cleanup_is_what_it_lists_witness :
  @hubStatePath ex_fragmented ex_config_path = "/var/lib/robinet/hub.json" ∧
  (@cleanupHub ex_fragmented ex_clean_env ex_config_path true
     (@cleanupHub ex_fragmented ex_clean_env ex_config_path true ex_host).2).1 = Ok ().
Proof.
  destruct (@cleanup_is_what_it_lists ex_fragmented ex_clean_env ex_config_path ex_host) as (_&H2&H3).
  specialize (H3 _ eq_refl eq_refl). split; [exact H3|]. apply H2; [reflexivity|..]; rewrite H3.
  - intros p Hp. cbn [ce_systemctl ex_clean_env] in Hp. rewrite !elem_of_union, !elem_of_singleton in Hp.
    destruct_or! Hp; subst p; apply (bool_decide_unpack _); vm_compute; exact I.
  - apply (bool_decide_unpack _). vm_compute. exact I.
Defined.
