(* ===== verification/HubServe.v ===== *)
(** * Serving the hub: [cmd/robinet/hub.go]

    What [robinet hub run] starts with, the certificate a hub makes for itself
    once and keeps, and the pin a client verifies it by. *)

From Stdlib Require Import Ascii.
From S2P Require Export HubCliSpec Pin.

Open Scope Z_scope.

(** ** Certificates of its own *)

(** [tls.Certificate]: its leaf, and the private key. *)
Record KeyPair : Type := mkKeyPair { kp_Certificate : string; kp_PrivateKey : string }.
(** The template a certificate is made of. *)
Record CertTemplate : Type := mkCertTemplate {
  ct_CommonName : string;
  ct_NotBefore : Time;
  ct_NotAfter : Time;
  ct_IPAddresses : list Addr;
  ct_DNSNames : list string;
}.
(** The library of certificates and of PEM blocks. *)
Class KeyPairs := {
  CreateCertificate : CertTemplate → string → res string;
  MarshalPKCS8PrivateKey : string → res string;
  EncodeToMemory : string → string → string;
  X509KeyPair : string → string → option KeyPair;
  (** What was written is what is loaded. *)
  pair_back : ∀ t key der raw, CreateCertificate t key = Ok der → MarshalPKCS8PrivateKey key = Ok raw →
    X509KeyPair (EncodeToMemory "CERTIFICATE" der) (EncodeToMemory "PRIVATE KEY" raw) = Some (mkKeyPair der key);
}.

(** A file, and its mode. *)
Abbreviation disk_files := (gmap string (string * Z)).
(** What a start meets: the clock, the key that is drawn, and the calls that
    fail. A write that fails may have left the file with part of what was
    written. *)
Record ServeEnv : Type := mkServeEnv {
  sn_now : Time;
  sn_key : res string;
  sn_serial : option error;
  sn_mkdir : option error;
  sn_write : string → option (error * option string);
}.
(** [os.WriteFile]: the mode is that of a file that is created. *)
Definition put_file (path content : string) (mode : Z) (fs : disk_files) : disk_files :=
  <[path := (content, match fs !! path with Some (_, m) => m | None => mode end)]> fs.
Definition WriteFile (env : ServeEnv) (path content : string) (mode : Z) : M disk_files () :=
  match sn_write env path with
  | Some (e, None) => raise e
  | Some (e, Some part) => do* modify (put_file path part mode) in raise e
  | None => modify (put_file path content mode)
  end.

Section Serve.
Context `{HK : KeyPairs} `{HC : Crypto} `{HX : X509}.

Definition LoadX509KeyPair (certPath keyPath : string) (fs : disk_files) : option KeyPair :=
  cert ← fs !! certPath; key ← fs !! keyPath; X509KeyPair cert.1 key.1.
(** [net.ParseIP]. *)
Definition ParseIP (s : string) : option Addr :=
  match ParseAddr s with Some (a, zone) => if decide (zone = "") then Some a else None | None => None end.
Definition hours (n : Z) : Z := n * 3600 * 1000000000.
Definition generateSelfSigned (env : ServeEnv) (host : string) : res KeyPair :=
  let? key := sn_key env in
  let? _ := match sn_serial env with Some e => Err e | None => Ok () end in
  let template := mkCertTemplate host (sn_now env - hours 1) (sn_now env + hours (10 * 365 * 24))
    (match ParseIP host with Some ip => [ip] | None => [] end) (match ParseIP host with Some _ => [] | None => [host] end) in
  let? der := CreateCertificate template key in
  Ok (mkKeyPair der key).
Definition cert_path (dir : string) : string := JoinPath [dir; "api-cert.pem"].
Definition key_path (dir : string) : string := JoinPath [dir; "api-key.pem"].
Definition selfSignedCert (env : ServeEnv) (host dir : string) : M disk_files KeyPair :=
  let* fs := getM in
  match LoadX509KeyPair (cert_path dir) (key_path dir) fs with
  | Some existing => retM existing
  | None =>
      let* cert := liftR (generateSelfSigned env host) in
      do* (match sn_mkdir env with Some e => raise e | None => retM () end) in
      let* raw := liftR (MarshalPKCS8PrivateKey (kp_PrivateKey cert)) in
      do* WriteFile env (cert_path dir) (EncodeToMemory "CERTIFICATE" (kp_Certificate cert)) 420 in
      do* WriteFile env (key_path dir) (EncodeToMemory "PRIVATE KEY" raw) 384 in
      retM cert
  end.
Definition certPin (cert : KeyPair) : string :=
  match ParseCertificate (kp_Certificate cert) with Some parsed => PinOf parsed | None => "" end.
(** [existingPin] of [robinet hub test]. *)
Definition existingPin (fs : disk_files) (statePath : string) : string :=
  match LoadX509KeyPair (cert_path (Dir statePath)) (key_path (Dir statePath)) fs with Some cert => certPin cert | None => "" end.

(** How the API is served. *)
Inductive Serving : Type :=
  | ServePlain
  | ServeFiles (cert key : string)
  | ServePair (cert : KeyPair).
Definition serving (env : ServeEnv) (f : File) (cfg : Config) : M disk_files Serving :=
  if decide (f_APIEntrypoint f = EntrypointHTTP) then retM ServePlain
  else if decide (f_TLSCert f ≠ "" ∧ f_TLSKey f ≠ "") then retM (ServeFiles (f_TLSCert f) (f_TLSKey f))
  else let* cert := selfSignedCert env (c_PublicEndpoint cfg) (Dir (c_StatePath cfg)) in retM (ServePair cert).
(** [New], which looks at the configuration before it opens the file. *)
Definition open_hub (env : Env) (cfg : Config) (read_state : string → res (option state)) : res Hub :=
  let? _ := New env cfg None in
  let? s := read_state (c_StatePath cfg) in
  New env cfg s.
(** [robinet hub run], up to listening. *)
Definition hubRunCmd `{HF : Files} `{HS : SshLib} (senv : ServeEnv) (env : Env) (read_state : string → res (option state))
    (configPath : string) (configDirs : list string) : M disk_files (Hub * Serving) :=
  let* (file, v) := liftR (LoadFile configPath configDirs) in
  let* _ := liftR v in
  let* cfg := liftR (ConfigOf (ρ_of env) file) in
  let* h := liftR (open_hub env cfg read_state) in
  let* how := serving senv file cfg in
  retM (h, how).
End Serve.

(** ** Paths *)

(** A plain name at the end of a path stays what it is. *)
Lemma splitl_app c cur l1 l2 : splitl c cur (l1 ++ c :: l2) = splitl c cur l1 ++ splitl c [] l2.
Proof.
  revert cur. induction l1 as [|x l IH]; intros cur; simpl; [by rewrite decide_True|]. case_decide; [|apply IH]. by rewrite IH.
Qed.
Lemma Join_ends l sep : ∃ pre, ∀ x, Join (l ++ [x]) sep = pre +:+ x.
Proof.
  induction l as [|y l [pre IH]]; [by exists ""|]. exists (y +:+ sep +:+ pre). intros x.
  change ((y :: l) ++ [x]) with (y :: (l ++ [x])). rewrite Join_cons by (by destruct l). rewrite IH.
  apply (inj s2l). rewrite !s2l_app. by rewrite !app_assoc.
Qed.
Definition plain_name (name : string) : Prop := name ≠ "" ∧ name ≠ "." ∧ name ≠ ".." ∧ "/"%char ∉ s2l name.
Lemma clean_step_plain rooted out name : plain_name name → clean_step rooted out name = name :: out.
Proof. intros (H1&H2&H3&_). unfold clean_step. rewrite decide_False by naive_solver. by rewrite decide_False. Qed.
Lemma Clean_last dir : ∃ pre, ∀ name, plain_name name → Clean (dir +:+ "/" +:+ name) = pre +:+ name.
Proof.
  set (rooted := HasPrefix (dir +:+ "/") "/").
  destruct (Join_ends (rev (foldl (clean_step rooted) [] (Split dir "/"%char))) "/") as [pre Hpre].
  exists (if rooted then "/" +:+ pre else pre). intros name Hn. pose proof Hn as (H1&H2&H3&H4).
  assert (HasPrefix (dir +:+ "/" +:+ name) "/" = rooted) as Er.
  { unfold rooted. apply eq_true_iff_eq. rewrite !HasPrefix_spec. destruct dir as [|c l]; [split; intros _; by eexists|].
    split; intros [k Hk]; injection Hk as -> _; by eexists. }
  unfold Clean. rewrite Er.
  assert (Split (dir +:+ "/" +:+ name) "/"%char = Split dir "/"%char ++ [name]) as ->.
  { unfold Split. rewrite !s2l_app. change (s2l "/") with ["/"%char]. cbn [app]. rewrite splitl_app, fmap_app.
    rewrite (splitl_no_sep _ _ (s2l name)) by done. cbn. by rewrite l2s_s2l. }
  rewrite foldl_app. cbn [foldl]. rewrite clean_step_plain by done. cbn [rev]. rewrite Hpre. destruct rooted; [apply (inj s2l); by rewrite !s2l_app|].
  rewrite decide_False; [done|]. intros E. apply (f_equal s2l) in E. rewrite s2l_app in E. apply app_eq_nil in E as [_ E].
  apply H1, (inj s2l). by rewrite E.
Qed.
(** The two files are not one. *)
Lemma plain_cert : plain_name "api-cert.pem".
Proof. unfold plain_name. split_and!; [done|done|done|]. by apply (bool_decide_unpack _). Qed.
Lemma plain_key : plain_name "api-key.pem".
Proof. unfold plain_name. split_and!; [done|done|done|]. by apply (bool_decide_unpack _). Qed.
Lemma paths_differ dir : cert_path dir ≠ key_path dir.
Proof.
  destruct (decide (dir = "")) as [->|Hd]; [by vm_compute|]. destruct (Clean_last dir) as [pre H].
  unfold cert_path, key_path, JoinPath. rewrite !filter_cons_True by done. cbn [filter list_filter Join].
  rewrite (H "api-cert.pem" plain_cert), (H "api-key.pem" plain_key).
  intros E. apply (f_equal s2l) in E. rewrite !s2l_app in E. by apply app_inv_head in E.
Qed.

(** ** The certificate *)

Lemma put_same p c m fs : ∃ m', put_file p c m fs !! p = Some (c, m').
Proof. eexists. apply lookup_insert_eq. Qed.
Lemma put_other p q c m fs : p ≠ q → put_file p c m fs !! q = fs !! q.
Proof. apply lookup_insert_ne. Qed.

Section Kept.
Context `{HK : KeyPairs} `{HC : Crypto} `{HX : X509}.

(** What is in the two files is what a start serves with. *)
Lemma kept_is_served env host dir fs cert :
  LoadX509KeyPair (cert_path dir) (key_path dir) fs = Some cert → selfSignedCert env host dir fs = (Ok cert, fs).
Proof. intros H. unfold selfSignedCert, bindM, getM. cbn. by rewrite H. Qed.
(** And what a start serves with is in the two files when it does. *)
Lemma served_is_kept env host dir fs cert fs' :
  selfSignedCert env host dir fs = (Ok cert, fs') → LoadX509KeyPair (cert_path dir) (key_path dir) fs' = Some cert.
Proof.
  unfold selfSignedCert. rewrite bindM_Ok. intros (fs0 & s0 & [= <- <-] & H).
  destruct (LoadX509KeyPair _ _ fs) as [c|] eqn:E; [by injection H as <- <-|].
  apply bindM_Ok in H as (c & s1 & [= Hg <-] & H). apply bindM_Ok in H as ([] & s2 & Hm & H).
  assert (s2 = fs) as -> by (destruct (sn_mkdir env); [done|by injection Hm as <-]).
  apply bindM_Ok in H as (raw & s3 & [= Hr <-] & H).
  apply bindM_Ok in H as ([] & s4 & H1 & H). apply bindM_Ok in H as ([] & s5 & H2 & H).
  injection H as -> ->. unfold WriteFile in H1, H2.
  destruct (sn_write env (cert_path dir)) as [[? []]|]; [done..|]. injection H1 as <-.
  destruct (sn_write env (key_path dir)) as [[? []]|]; [done..|]. injection H2 as <-.
  unfold LoadX509KeyPair. rewrite (put_other (key_path dir) (cert_path dir)) by apply not_eq_sym, paths_differ.
  edestruct put_same as [m1 ->]. cbn. edestruct put_same as [m2 ->]. cbn.
  unfold generateSelfSigned in Hg. apply bindR_Ok in Hg as (key & _ & Hg). apply bindR_Ok in Hg as ([] & _ & Hg).
  apply bindR_Ok in Hg as (der & Hd & [= <-]). by eapply pair_back.
Qed.

(** C19: a hub that once served with a certificate of its own serves with the
    same one at every later start, whatever the clock, the keys drawn and the
    host named in its configuration are by then, and even when nothing can be
    written; its files stay as they are.  So the pin it printed keeps being
    true: [robinet hub test] prints it, a client that holds it accepts this
    certificate, and accepts no other certificate alone with another key.  A
    pin that [robinet hub test] prints is served from the next start on. *)
Theorem pin_survives_restarts (env env' : ServeEnv) (host host' statePath : string) (fs fs' : disk_files) (cert : KeyPair) :
  (selfSignedCert env host (Dir statePath) fs = (Ok cert, fs') →
   selfSignedCert env' host' (Dir statePath) fs' = (Ok cert, fs') ∧
   existingPin fs' statePath = certPin cert ∧
   ∀ parsed, ParseCertificate (kp_Certificate cert) = Some parsed →
     ∃ check, TLSConfig (certPin cert) = Ok check ∧ check [kp_Certificate cert] = Ok () ∧
       ∀ der other, ParseCertificate der = Some other → sumOf other ≠ sumOf parsed → check [der] ≠ Ok ()) ∧
  (existingPin fs statePath ≠ "" →
   ∃ kept, selfSignedCert env host (Dir statePath) fs = (Ok kept, fs) ∧ certPin kept = existingPin fs statePath).
Proof.
  split.
  - intros H%served_is_kept. split; [by apply kept_is_served|]. split; [unfold existingPin; by rewrite H|].
    intros parsed Hp. exists (verify_peer (sumOf parsed)).
    unfold TLSConfig, certPin. rewrite Hp. unfold PinOf. rewrite ParsePin_written by apply sha256_bytes.
    split; [done|]. cbn. rewrite Hp, bool_decide_true by done. split; [done|].
    intros der other -> Ho. by rewrite bool_decide_false.
  - unfold existingPin. destruct (LoadX509KeyPair _ _ fs) as [kept|] eqn:E; [|done]. intros _.
    exists kept. split; [by apply kept_is_served|done].
Qed.
End Kept.

(** ** Starting *)

Section Starting.
Context `{HK : KeyPairs} `{HC : Crypto} `{HX : X509} `{HF : Files} `{HS : SshLib}.

(** The files of a configuration come with every default filled in. *)
Lemma LoadFile_defaults path dirs file v : LoadFile path dirs = Ok (file, v) → ∃ f, file = applyDefaults f.
Proof.
  unfold LoadFile. intros (f & _ & H)%bindR_Ok. apply bindR_Ok in H as (f' & _ & H). injection H as <- <-. by eexists.
Qed.
(** What is left for a start to refuse, once the configuration is one. *)
Lemma open_hub_opens ρ f env cfg read : ConfigOf ρ f = Ok cfg →
  if decide (c_PortMin cfg = 0) then open_hub env cfg read = Err (Errorf "invalid port range %d-%d")
  else match read (c_StatePath cfg) with
       | Ok s => ∃ h, open_hub env cfg read = Ok h ∧ h_cfg h = cfg ∧ h_store h = OpenStore s
       | Err e => open_hub env cfg read = Err e
       | Panic => open_hub env cfg read = Panic
       end.
Proof.
  intros (pools & ports & _ & _ & Hne & Hr & _ & _ & Ho & _ & Hlo & Hhi & _)%ConfigOf_inv.
  apply parsePortRange_Ok in Hr as (?&?&?). rewrite <-Ho in Hne. rewrite <-Hlo, <-Hhi in *. clear Ho Hlo Hhi pools ports.
  assert (∀ s, New env cfg s =
    if decide (c_PortMin cfg = 0) then Err (Errorf "invalid port range %d-%d") else
    Ok (start_all env (List (ρ_of env) (OpenStore s)) (mkHub cfg (OpenStore s) ∅)).2) as HN.
  { intros s. unfold New. pose proof (start_all_ok env (List (ρ_of env) (OpenStore s)) (mkHub cfg (OpenStore s) ∅)) as (Hp&_).
    case_decide as Hz; [by rewrite Hz|].
    destruct (Z.eqb_spec (c_PortMin cfg) 0); [done|]. destruct (Z.eqb_spec (c_PortMax cfg) 0); [lia|].
    destruct (Z.ltb_spec (c_PortMax cfg) (c_PortMin cfg)); [lia|]. simpl.
    destruct (c_Overlays cfg); [done|]. cbn [length Nat.eqb]. by destruct (start_all _ _ _) as [[[]| |] h']. }
  unfold open_hub. rewrite HN. case_decide; [done|]. cbn [bindR].
  destruct (read _) as [s|e|]; [|done..]. cbn [bindR]. rewrite HN. eexists. split; [done|].
  apply start_all_ok.
Qed.

(** C20: [robinet hub test] and [robinet hub run] agree.  What the test refuses
    the start refuses with the same error, before it touched a file.  What the
    test calls ok starts on exactly the configuration that was tested, as far
    as its state file can be read; unless its range of ports begins at zero,
    which the test calls ok and every start refuses. *)
Theorem tested_is_what_runs (senv : ServeEnv) (env : Env) (read_state : string → res (option state)) (pin : string → string)
    (configPath : string) (configDirs : list string) (fs : disk_files) :
  let tested := (testHubConfig (ρ_of env) pin configPath configDirs).2 in
  let started := hubRunCmd senv env read_state configPath configDirs fs in
  (∀ e, tested = Err e → started = (Err e, fs)) ∧ (tested = Panic → started = (Panic, fs)) ∧
  (tested = Ok () → ∃ file cfg, LoadFile configPath configDirs = Ok (file, Ok ()) ∧ ConfigOf (ρ_of env) file = Ok cfg ∧
     if decide (c_PortMin cfg = 0) then started = (Err (Errorf "invalid port range %d-%d"), fs)
     else match read_state (c_StatePath cfg) with
          | Ok s => ∃ h, h_cfg h = cfg ∧ h_store h = OpenStore s ∧
                      started = (let* how := serving senv file cfg in retM (h, how)) fs
          | Err e => started = (Err e, fs)
          | Panic => started = (Panic, fs)
          end).
Proof.
  cbn zeta. unfold testHubConfig, hubRunCmd, bindM, liftR.
  destruct (LoadFile configPath configDirs) as [[file v]| |] eqn:EL; [|by split_and!; [intros ? [= <-]|..]|by split_and!].
  destruct (LoadFile_defaults _ _ _ _ EL) as [f ->].
  pose proof (ConfigOf_not_panic (ρ_of env) f) as Hnp.
  destruct v as [[]|e|]; [| |by split_and!].
  - cbn. destruct (ConfigOf (ρ_of env) (applyDefaults f)) as [cfg|e|] eqn:EC; [|by split_and!; [intros ? [= <-]|..]|done].
    cbn. split_and!; [done..|]. intros _. exists (applyDefaults f), cfg. split_and!; [done..|].
    pose proof (open_hub_opens _ _ env _ read_state EC) as Ho. case_decide; [by rewrite Ho|].
    destruct (read_state _) as [s|e|]; [|by rewrite Ho..].
    destruct Ho as (h & -> & Hc & Hs). exists h. split_and!; done.
  - cbn. destruct e; cbn; try (by split_and!; [intros ? [= <-]|..]).
    destruct (ConfigOf (ρ_of env) (applyDefaults f)) as [cfg|e|] eqn:EC; cbn; [..|done]; by split_and!; [intros ? [= <-]|..].
Qed.
End Starting.

(** ** A hub that was started *)

(** A library of certificates that spells out what each was made of. *)
Definition pem_head (kind : string) : string := kind +:+ ":".
#[program] Definition toy_pairs : KeyPairs :=
  {| CreateCertificate t key := Ok (ct_CommonName t +:+ " by " +:+ key);
     MarshalPKCS8PrivateKey key := Ok key;
     EncodeToMemory kind bytes := pem_head kind +:+ bytes;
     X509KeyPair cert key :=
       c ← CutPrefix cert (pem_head "CERTIFICATE"); k ← CutPrefix key (pem_head "PRIVATE KEY"); Some (mkKeyPair c k) |}.
Next Obligation. intros t key der raw [= <-] [= <-]. cbn beta. by rewrite !CutPrefix_app. Qed.

(** A start that draws a key, and one where nothing can be written. *)
Definition ex_serve_env : ServeEnv := mkServeEnv 1000 (Ok "k1") None None (λ _, None).
Definition ex_later_env : ServeEnv := mkServeEnv 2000 (Ok "k2") None (Some (Errorf "read-only file system")) (λ _, Some (Errorf "read-only file system", None)).
Definition ex_state_path : string := "/var/lib/robinet/hub.json".
Definition ex_first_start : res KeyPair * disk_files :=
  @selfSignedCert toy_pairs ex_serve_env "hub.example" (Dir ex_state_path) ∅.
Definition ex_kept : KeyPair := mkKeyPair "hub.example by k1" "k1".

Lemma pin_survives_restarts_witness :
  ex_first_start.1 = Ok ex_kept ∧
  @selfSignedCert toy_pairs ex_later_env "hub.other" (Dir ex_state_path) ex_first_start.2 = (Ok ex_kept, ex_first_start.2) ∧
  (@selfSignedCert toy_pairs ex_later_env "hub.other" (Dir ex_state_path) ∅).1 = Err (Errorf "read-only file system") ∧
  @existingPin toy_pairs toy_crypto toy_x509 ex_first_start.2 ex_state_path ≠ "".
Proof.
  assert (ex_first_start = (Ok ex_kept, ex_first_start.2)) as H by (vm_compute; reflexivity).
  split; [by rewrite H|].
  destruct (@pin_survives_restarts toy_pairs toy_crypto toy_x509 ex_serve_env ex_later_env "hub.example" "hub.other"
    ex_state_path ∅ ex_first_start.2 ex_kept) as [Ha _].
  destruct (Ha H) as (Hr & He & _). split; [exact Hr|]. split; [vm_compute; reflexivity|].
  rewrite He. vm_compute. discriminate.
Defined.

Definition ex_run_env : Env := mkEnv 1000 "id1" (inr ("pub", "key")) None None None range_default.
Definition ex_dirs : list string := ["missing.d"; "conf.d"].
(** The same configuration with a range of ports that begins at zero. *)
Definition ex_from_zero : Files :=
  {| readConfig _ := Ok (mkFile "hub.example" "" "" "" "" "" "" ["198.19.0.0/16/24"] "0-20100" 0 None None "token"
                           [mkBinderEntry "ann" ["ssh-a"]] []);
     ReadDir _ := Err ErrNotExist; readConfigIn _ _ := Err ErrNotExist |}.
Definition ex_tested (F : Files) : res () := (@testHubConfig F toy_ssh range_default (λ _, "") "hub.yaml" ex_dirs).2.
Definition ex_run (F : Files) (read : string → res (option state)) : res (Hub * Serving) * disk_files :=
  @hubRunCmd toy_pairs F toy_ssh ex_serve_env ex_run_env read "hub.yaml" ex_dirs ∅.

Lemma tested_is_what_runs_witness :
  ex_tested ex_files = Ok () ∧
  (ex_run ex_files (λ _, Err (Errorf "unexpected end of JSON input"))).1 = Err (Errorf "unexpected end of JSON input") ∧
  (∃ h how, (ex_run ex_files (λ _, Ok None)).1 = Ok (h, how)) ∧
  ex_tested ex_from_zero = Ok () ∧
  (ex_run ex_from_zero (λ _, Ok None)).1 = Err (Errorf "invalid port range %d-%d").
Proof.
  split; [vm_compute; reflexivity|]. split.
  { destruct (@tested_is_what_runs toy_pairs ex_files toy_ssh ex_serve_env ex_run_env
      (λ _, Err (Errorf "unexpected end of JSON input")) (λ _, "") "hub.yaml" ex_dirs ∅) as (_&_&H).
    destruct H as (file & cfg & HL & HC & H); [vm_compute; reflexivity|].
    assert (c_PortMin cfg = 20000) as Hz.
    { pose proof (f_equal (λ r, match r with Ok (f, _) => f | _ => ex_base end) (eq_trans (eq_sym ex_load) HL)) as Hf.
      cbn beta iota in Hf. destruct Hf.
      pose proof (f_equal (λ r, match r with Ok c => c | _ => ex_config end) (eq_trans (eq_sym ex_config_made) HC)) as Hc.
      cbn beta iota in Hc. destruct Hc. vm_compute. reflexivity. }
    rewrite decide_False in H by (rewrite Hz; done). unfold ex_run. rewrite H. reflexivity. }
  split; [|split; vm_compute; reflexivity]. eexists _, _. vm_compute. reflexivity.
Defined.
