(* ===== verification/Install.v ===== *)
(** * Installing: [cmd/robinet] (setup.go, hubinstall.go, hubinit.go)

    The services of a machine and of a hub, the starter configuration of a hub,
    and what they leave on the system they are installed on. *)

From Stdlib Require Import Ascii.
From S2P Require Export HubServe Cli.

Open Scope Z_scope.

(** ** The system *)

(** A file or a directory; permission bits only count up to 0777, and what is
    above them (setuid, setgid, sticky) is kept in the mode as well. *)
Record Node : Type := mkNode { nd_dir : bool; nd_content : string; nd_mode : Z; nd_owner : Z; nd_group : Z }.
(** What is on it, its symbolic links, its accounts, and the commands that ran.
    A link goes to a path that is none; links among the directories a path
    leads through are not modelled. *)
Record Sys : Type := mkSys {
  sy_nodes : gmap string Node;
  sy_links : gmap string string;
  sy_users : gset string;
  sy_ran : list (list string);
}.
(** What a path is followed to, and what is there: [os.Stat]; and [os.Lstat],
    to which a link is a file that everyone may use. *)
Definition followed (s : Sys) (path : string) : string := default path (sy_links s !! path).
Definition stat_node (s : Sys) (path : string) : option Node := sy_nodes s !! followed s path.
Definition link_info : Node := mkNode false "" 511 0 0.
Definition lstat_node (s : Sys) (path : string) : option Node :=
  match sy_links s !! path with Some _ => Some link_info | None => sy_nodes s !! path end.
(** A process there: its binary and arguments, the groups, what its calls fail
    with, and the bytes it draws. *)
Record Process : Type := mkProcess {
  pr_exe : res string;
  pr_resolve : string → option string;
  pr_args : list string;
  pr_uid : Z;
  pr_gid : Z;
  pr_path : string → option string;
  pr_name : Z → res string;
  pr_groups : string → res Z;
  pr_fails : list string → option error;
  pr_command : list string → option string;
  pr_random : nat → res (list Z);
}.
Definition nodes_to (f : gmap string Node → gmap string Node) (s : Sys) : Sys := mkSys (f (sy_nodes s)) (sy_links s) (sy_users s) (sy_ran s).
Definition newline : string := String (ascii_of_nat 10) "".
Definition lines (l : list string) : string := Join l newline +:+ newline.

(** A call to the system, and what it is. *)
Definition syscall (pr : Process) (call : list string) (f : gmap string Node → gmap string Node) : M Sys () :=
  match pr_fails pr call with Some e => raise e | None => modify (nodes_to f) end.
(** [exec.Command(..).CombinedOutput], the error its output. *)
Definition command (pr : Process) (args : list string) : M Sys (option string) := λ s,
  (Ok (pr_command pr args), mkSys (sy_nodes s) (sy_links s) (sy_users s) (sy_ran s ++ [args])).
Definition write_node (pr : Process) (path content : string) (mode : Z) : M Sys () :=
  let* s := getM in
  let name := followed s path in
  syscall pr ["write"; path] (λ fs, <[name := match fs !! name with
    | Some n => mkNode (nd_dir n) content (nd_mode n) (nd_owner n) (nd_group n)
    | None => mkNode false content mode (pr_uid pr) (pr_gid pr)
    end]> fs).
(** A path and what it lies in, from the top. *)
Fixpoint ancestors (fuel : nat) (path : string) : list string :=
  match fuel with
  | O => []
  | S fuel => if decide (path = "/" ∨ path = "." ∨ path = "") then [] else ancestors fuel (Dir path) ++ [path]
  end.
Definition make_dirs (pr : Process) (mode : Z) (l : list string) (fs : gmap string Node) : gmap string Node :=
  foldl (λ fs p, match fs !! p with Some _ => fs | None => <[p := mkNode true "" mode (pr_uid pr) (pr_gid pr)]> fs end) fs l.
(** [os.MkdirAll]. *)
Definition MkdirAll (pr : Process) (path : string) (mode : Z) : M Sys () :=
  let* s := getM in
  let dirs := ancestors (S (len path)) path in
  if existsb (λ p, match stat_node s p with Some n => negb (nd_dir n) | None => bool_decide (sy_links s !! p ≠ None) end) dirs
  then raise (Errorf "not a directory")
  else syscall pr ["mkdir"; path] (make_dirs pr mode (filter (λ p, sy_links s !! p = None) dirs)).

(** The path of this binary, without links where they can be followed. *)
Definition own_path (pr : Process) : res string :=
  match pr_exe pr with
  | Ok exe => Ok (default exe (pr_resolve pr exe))
  | Err e => Err (Wrap "could not find this binary: %w" e)
  | Panic => Panic
  end.

(** ** A machine's service: [setup.go] *)

Record SetupFlags : Type := mkSetupFlags {
  sf_state : string; sf_socket : string; sf_binary : string;
  sf_noEnable : bool; sf_cleanup : bool; sf_force : bool; sf_log : string;
}.
(** How the command goes on: it became another program, it is undoing an
    installation, or it is done. *)
Inductive Outcome : Type :=
  | Became (program : string) (args : list string)
  | CleansUp (state : string) (force : bool)
  | Said (printed : list Printed).

Definition elevate (pr : Process) : M Sys Outcome :=
  match pr_path pr "sudo" with
  | None => raise (Errorf "setup needs root and sudo is not installed: run it as root")
  | Some sudo => let* exe := liftR (own_path pr) in retM (Became sudo (["sudo"; "--"; exe] ++ pr_args pr))
  end.
(** The binary the unit names: here a link that cannot be followed counts. *)
Definition unit_binary (pr : Process) (binary : string) : res string :=
  if decide (binary ≠ "") then Ok binary else
  match pr_exe pr with
  | Ok exe => match pr_resolve pr exe with
              | Some exe => Ok exe
              | None => Err (Wrap "could not resolve this binary: %w" ErrNotExist)
              end
  | Err e => Err (Wrap "could not find this binary: %w" e)
  | Panic => Panic
  end.
Definition ownerOf (pr : Process) (path : string) (s : Sys) : res string :=
  match stat_node s path with
  | None => Err ErrNotExist
  | Some n => match pr_name pr (nd_owner n) with Ok u => Ok u | Err e => Err (Wrap "could not resolve uid %d: %w" e) | Panic => Panic end
  end.
(** The loop over what systemctl is told. *)
Fixpoint systemctl_all (pr : Process) (l : list (list string)) : M Sys () :=
  match l with
  | [] => retM ()
  | args :: l =>
      let* failed := command pr ("systemctl" :: args) in
      match failed with Some out => raise (Errorf "systemctl %v failed: %s") | None => systemctl_all pr l end
  end.
Definition setup_calls : list (list string) := [["daemon-reload"]; ["enable"; "robinet"]; ["restart"; "robinet"]].
Definition setupCmd `{HO : Os} (pr : Process) (f : SetupFlags) : M Sys Outcome :=
  if sf_cleanup f then (if negb (Geteuid =? 0) then elevate pr else retM (CleansUp (sf_state f) (sf_force f))) else
  let* path := liftR (statePath (sf_state f)) in
  let* s := getM in
  if decide (stat_node s path = None) then raise (Errorf "this machine is not registered with a hub yet: robinet join") else
  if negb (Geteuid =? 0) then elevate pr else
  let* sock := liftR (socketPath (sf_socket f)) in
  let* exe := liftR (unit_binary pr (sf_binary f)) in
  let* owner := liftR (ownerOf pr path s) in
  do* tryM (write_node pr tenantUnitPath (lines (renderUnit exe path sock (sf_log f) owner)) 420) (λ r,
    match r with inl _ => retM () | inr e => raise (Wrap "could not write %s: %w" e) end) in
  let wrote := Line ("wrote " +:+ tenantUnitPath) in
  if sf_noEnable f then retM (Said [wrote; Line "run: systemctl daemon-reload && systemctl enable --now robinet"]) else
  do* systemctl_all pr setup_calls in
  retM (Said [wrote; Line "robinet is running, drive it with: robinet status"]).
(** [runSetup]: what [join] runs when it is done. *)
Definition runSetup `{HO : Os} (pr : Process) : M Sys (list string) :=
  let* exe := liftR (match pr_exe pr with Ok exe => Ok (default exe (pr_resolve pr exe)) | r => r end) in
  if negb (Geteuid =? 0) then
    match pr_path pr "sudo" with
    | None => raise (Errorf "registered, but starting the daemon needs root and sudo is not installed: run robinet setup as root")
    | Some sudo => retM [sudo; "--"; exe; "setup"]
    end
  else retM [exe; "setup"].

(** ** A hub's configuration: [hubinit.go] *)

Definition quoted (s : string) : string := let q := String (ascii_of_nat 34) "" in q +:+ s +:+ q.
Definition hubConfigTemplate (endpoint pool6 token : string) : list string :=
  ["# robinet hub configuration."; "";
   "public:"; "  # What connectors dial. No port: each instance gets its own."; "  endpoint: " +:+ endpoint; "";
   "  # What nebula binds to for every instance."; "  bind: 0.0.0.0"; "";
   "api:"; "  listen: " +:+ quoted ":8443"; "";
   "  # http or https. http is for a hub behind something that terminates TLS";
   "  # already, and means clients need no --insecure because whatever is in front";
   "  # presents a certificate of its own."; "  entrypoint: https"; "";
   "  tls:"; "    # Leave both empty for a self signed certificate, which is enough here: a";
   "    # bootstrap proves knowledge of a token that never travels, every later";
   "    # request is signed, and a certificate the hub carries cannot be forged by";
   "    # whoever carries it. Clients then need --insecure.";
   "    cert: " +:+ quoted ""; "    key: " +:+ quoted ""; "";
   "state:"; "  path: /var/lib/robinet/hub.json"; "";
   "# Address spaces instances are carved out of, each written as superprefix plus";
   "# the size handed to one instance. A /16 carved into /24s gives 256 instances of";
   "# 254 addresses each. Which family an entry is for is read off the prefix."; "#";
   "# They are used in order: when one is full the next is tried, so a hub that runs";
   "# out of room takes another line rather than a renumbering. Entries may not";
   "# overlap, since two pools covering the same addresses would hand the same";
   "# prefix out twice."; "#";
   "# Every member gets an address of each family that is listed here, and a";
   "# certificate carrying both, which is what nebula requires before it will sign";
   "# a route of either."; "#";
   "# The IPv6 pool is generated rather than defaulted to a constant. A unique";
   "# local address needs a random global id to be unique, and a value shared by";
   "# every robinet hub would be exactly what makes two networks impossible to join";
   "# later."; "overlays:"; "  - 198.19.0.0/16/24"; "  - " +:+ pool6; "";
   "# UDP ports instances are allocated from, one per instance."; "ports: 20000-24999"; "";
   "# This host's link mtu, handed to connectors so they can take the lower of that";
   "# and their own, minus nebula's overhead."; "mtu: 1500"; "";
   "# Let a lighthouse carry traffic for members that cannot punch through. Without";
   "# it, a member behind symmetric NAT has no way in."; "relay: true"; "";
   "# Let each lighthouse answer for the members of its instance, by their";
   "# certificate names, on its own overlay address. The lighthouse is the one";
   "# party every member handshakes, so it already holds the answer."; "#";
   "# Turning this off costs the names and nothing else. Either way each lighthouse";
   "# holds a tun device, which is why the hub needs CAP_NET_ADMIN, and DNS also";
   "# needs CAP_NET_BIND_SERVICE for port 53."; "dns: true"; "";
   "security:"; "  # Known to every operator who may create an instance here. It goes into the";
   "  # signed bootstrap message and is never transmitted, so a captured signature";
   "  # is worthless without it."; "  token: " +:+ token; "";
   "# Who may create instances. A binder is a name and the ssh keys that speak for";
   "# it - the same keys you would put in authorized_keys. The matching private key";
   "# never leaves the operator's agent."; "#";
   "# Nothing is filled in here on purpose: which keys may take address space on";
   "# this hub is a decision, not something to be guessed from whoever happened to";
   "# run --init."; "#";
   "# Binders can also live one file per operator in /etc/site/robinet/binder,";
   "# which is read by default. A directory that is not there yet is a warning,";
   "# not a refusal."; "#"; "# binder:"; "#   - name: robert"; "#     key:";
   "#       - " +:+ quoted "ssh-ed25519 AAAAC3NzaC1lZDI1NTE5AAAA... robert@laptop"].

(** The values that are set in it. *)
Definition starter_file (endpoint pool6 token : string) : File :=
  mkFile endpoint "0.0.0.0" ":8443" "https" "" "" "/var/lib/robinet/hub.json" ["198.19.0.0/16/24"; pool6] "20000-24999" 1500
    (Some true) (Some true) token [] [].
Definition placeholder : string := "CHANGE-ME".
(** [randomULA], with the bytes it draws. *)
Definition drawULA (pr : Process) : res string :=
  let? raw := pr_random pr 5 in
  match raw with [r0; r1; r2; r3; r4] => Ok (randomULA r0 r1 r2 r3 r4) | _ => Panic end.
Definition writeHubConfig (pr : Process) (path endpoint : string) : M Sys (list Printed) :=
  let* s := getM in
  if decide (stat_node s path ≠ None) then raise (Errorf "%s already exists, refusing to overwrite it") else
  let dir := Dir path in
  do* (if decide (dir ≠ "" ∧ dir ≠ ".") then MkdirAll pr dir 493 else retM ()) in
  let* tokenRaw := liftR (pr_random pr 16) in
  let token := EncodeHex tokenRaw in
  let endpoint := if decide (endpoint = "") then placeholder else endpoint in
  let* pool6 := liftR (drawULA pr) in
  do* write_node pr path (lines (hubConfigTemplate endpoint pool6 token)) 384 in
  retM ([Line ("wrote " +:+ path); Line ""] ++
        (if decide (endpoint = placeholder) then [Line "  set public.endpoint to the address connectors will dial"] else []) ++
        [Line "  add at least one binder: a name and the ssh keys that may create instances";
         Line ("  the ipv6 pool is a generated ULA: " +:+ pool6);
         Line "  the token is generated, hand it to whoever runs robinet join:"; Line ""; Line ("    " +:+ token)]).
Definition hubInitCmd `{HO : Os} (pr : Process) (path endpoint : string) : M Sys Outcome :=
  if negb (Geteuid =? 0) then elevate pr else let* printed := writeHubConfig pr path endpoint in retM (Said printed).

(** ** A hub's service: [hubinstall.go] *)

(** The order [filepath.Walk] visits in: a directory before what is in it, and
    that before what comes after the directory. *)
Definition walk_key (path : string) : string :=
  l2s ((λ c, if decide (c = "/"%char) then ascii_of_nat 0 else c) <$> s2l path).
Definition at_or_beneath (dir path : string) : Prop := path = dir ∨ beneath dir path = true.
#[export] Instance at_or_beneath_dec dir path : Decision (at_or_beneath dir path).
Proof. unfold at_or_beneath. apply _. Defined.
Definition walked (path : string) (s : Sys) : list string :=
  sort_by walk_key (filter (at_or_beneath path) (elements (dom (sy_nodes s) ∪ dom (sy_links s)))).
Definition alter_node (name : string) (f : Node → Node) (fs : gmap string Node) : gmap string Node := alter f name fs.
Definition give_to (gid : Z) (n : Node) : Node := mkNode (nd_dir n) (nd_content n) (nd_mode n) (nd_owner n) gid.
Definition opened (n : Node) : Z :=
  let mode := Z.lor (Z.land (nd_mode n) 511) 32 in if nd_dir n then Z.lor mode 8 else mode.
Definition with_mode (mode : Z) (n : Node) : Node := mkNode (nd_dir n) (nd_content n) mode (nd_owner n) (nd_group n).
(** [os.Chown] and [os.Chmod], which follow a link. *)
Definition at_target (pr : Process) (call name : string) (f : Node → Node) : M Sys () :=
  let* s := getM in
  if decide (stat_node s name = None) then raise ErrNotExist
  else syscall pr [call; name] (alter_node (followed s name) f).
(** What the walk does with each, from what [os.Lstat] says of it, and the
    walk. *)
Definition chown_one (pr : Process) (gid : Z) (name : string) : M Sys () :=
  let* s := getM in
  match lstat_node s name with
  | None => raise ErrNotExist
  | Some info =>
      do* at_target pr "chown" name (give_to gid) in
      at_target pr "chmod" name (with_mode (opened info))
  end.
Fixpoint chown_walk (pr : Process) (gid : Z) (names : list string) : M Sys () :=
  match names with [] => retM () | name :: names => do* chown_one pr gid name in chown_walk pr gid names end.
Definition chownGroup (pr : Process) (path group : string) : M Sys () :=
  let* gid := liftR (pr_groups pr group) in
  let* s := getM in
  if decide (lstat_node s path = None) then raise ErrNotExist else chown_walk pr gid (walked path s).
(** The loop over the configuration: what it could not give away is said. *)
Fixpoint give_all (pr : Process) (paths : list string) : M Sys (list Printed) :=
  match paths with
  | [] => retM []
  | path :: paths =>
      let* said := tryM (chownGroup pr path hubUser) (λ r,
        retM match r with inl _ => [] | inr _ => [Line ("could not give " +:+ path +:+ " to " +:+ hubUser)] end) in
      let* rest := give_all pr paths in
      retM (said ++ rest)
  end.
Definition ensureHubUser (pr : Process) (configPath : string) (configDirs : list string) : M Sys (list Printed) :=
  let* s := getM in
  let* created :=
    (if decide (hubUser ∈ sy_users s) then retM [] else
     match pr_path pr "useradd" with
     | None => raise (Errorf "no user %s and useradd is not available: create it, then install again")
     | Some add =>
         let* failed := command pr [add; "--system"; "--no-create-home"; "--shell"; "/usr/sbin/nologin"; hubUser] in
         match failed with
         | Some out => raise (Errorf "could not create the %s user: %s")
         | None => do* modify (λ s, mkSys (sy_nodes s) (sy_links s) ({[hubUser]} ∪ sy_users s) (sy_ran s)) in
                   retM [Line ("created the " +:+ hubUser +:+ " system account")]
         end
     end) in
  let* said := give_all pr (configPath :: configDirs) in
  retM (created ++ said).

Section Hub.
Context `{HF : Files} `{HS : SshLib}.
(** The order of the maps, and the pin [robinet hub test] prints. *)
Context (ρ : Range) (pin : string → string).

(** From writing the unit on; [said] is what was printed by then. *)
Definition start_hub (pr : Process) (configPath : string) (configDirs : list string) (enable : bool)
    (loaded : res (File * res ())) (ready : bool) (exePath : string) (said : list Printed) : M Sys (list Printed * res ()) :=
  do* tryM (write_node pr hubUnitPath (lines (renderHubUnit exePath configPath configDirs)) 420) (λ r,
    match r with inl _ => retM () | inr e => raise (Wrap "could not write %s: %w" e) end) in
  let said := said ++ [Line ("wrote " +:+ hubUnitPath)] in
  if negb enable then retM (said ++ [Line "run: systemctl daemon-reload && systemctl enable --now robinet-hub"], Ok ()) else
  do* systemctl_all pr [["daemon-reload"]; ["enable"; hubUnit]] in
  let* failed := command pr ["systemctl"; "start"; hubUnit] in
  match failed, loaded with
  | Some out, _ =>
      let reason := if ready then [Line out] else (testHubConfig ρ pin configPath configDirs).1 in
      retM (said ++ [Line ""; Line "installed and enabled, but it would not start:"; Line ""] ++ reason ++
            [Line ""; Line "fix that, then: systemctl start robinet-hub"], Err (Errorf "the hub is installed but not running"))
  | None, Ok (file, _) =>
      retM (said ++ [Line ("hub running on " +:+ f_APIListen file +:+ ", endpoint " +:+ f_PublicEndpoint file)], Ok ())
  | None, _ => panic
  end.
Definition installHub (pr : Process) (configPath : string) (configDirs : list string) (enable : bool)
    : M Sys (list Printed * res ()) :=
  let loaded := LoadFile configPath configDirs in
  match loaded with
  | Panic | Ok (_, Panic) => panic
  | _ =>
    let failed := match loaded with Err e | Ok (_, Err e) => Some e | _ => None end in
    if (match failed with Some e => errors_Is e ErrNotExist | None => false end)
    then raise (Wrap "%w (run robinet hub init first)" (default ErrNotExist failed)) else
    let* exePath := liftR (own_path pr) in
    let* said := ensureHubUser pr configPath configDirs in
    start_hub pr configPath configDirs enable loaded (bool_decide (failed = None)) exePath said
  end.
End Hub.
