(* ===== verification/InstallSpec.v ===== *)
(** * What an installation leaves: [cmd/robinet] (setup.go, hubinstall.go, hubinit.go) *)

From Stdlib Require Import Ascii.
From S2P Require Import Endpoint.
From S2P Require Export Install.

Open Scope Z_scope.

(** ** Looking for a character *)

Lemma find_first_skip {A} (p : A → bool) l x r :
  Forall (λ y, p y = false) l → p x = true → find_first p (l ++ x :: r) = Some x.
Proof. induction 1 as [|y l Hy _ IH]; intros Hx; simpl; [by rewrite Hx|by rewrite Hy, IH]. Qed.
Lemma Cut_none s c : c ∉ s2l s → Cut s (l2s [c]) = None.
Proof.
  intros H. unfold Cut, Index. rewrite s2l_l2s. assert (indexl [c] (s2l s) = None) as ->; [|done].
  induction (s2l s) as [|x l IH]; [done|]. apply not_elem_of_cons in H as [Hx Hl]. cbn [indexl].
  rewrite decide_False; [by rewrite IH|]. intros [k Hk]. by injection Hk as -> _.
Qed.

(** ** The generated pool *)

Lemma digit_plain d : 0 ≤ d < 16 → plain (hex_digit d).
Proof.
  intros Hd. eapply (proj1 (bool_decide_eq_true _)). revert d Hd.
  by apply (all_below_spec (λ d, bool_decide (plain (hex_digit d))) 16).
Qed.
Lemma be_val_zeros l n : be_val (l ++ replicate n 0) = be_val l * 256 ^ Z.of_nat n.
Proof.
  induction l as [|b l IH]; simpl; [induction n as [|n IH]; simpl; lia|].
  rewrite IH, length_app, length_replicate, Nat2Z.inj_add, Z.pow_add_r by lia. lia.
Qed.

Section Pool.

(** A byte as its two digits, and four digits as a group of an address. *)
Lemma byte_digits b : is_byte b → 0 ≤ b / 16 < 16 ∧ 0 ≤ b mod 16 < 16 ∧ b = b / 16 * 16 + b mod 16.
Proof. unfold is_byte. intros. pose proof (Z.div_mod b 16). pose proof (Z.mod_pos_bound b 16). lia. Qed.
Lemma hex_group_bytes hi low l : is_byte hi → is_byte low →
  hex_group 5 0 0 (s2l (hex2 hi) ++ s2l (hex2 low) ++ ":"%char :: l) = Some (4%nat, hi * 256 + low, ":"%char :: l).
Proof.
  intros (?&?&Hh)%byte_digits (?&?&Hl)%byte_digits. unfold hex2. rewrite !s2l_l2s. cbn [app hex_group].
  rewrite !hex_value_digit by done. cbn [Nat.ltb Nat.leb]. change (hex_value ":") with (@None Z). cbn.
  by replace (((_ + hi mod 16) * 16 + _) * 16 + _) with (hi * 256 + low) by lia.
Qed.
Lemma hex_digit_plain d c : 0 ≤ d < 16 → c ∈ [".";":";"%";"/";" "]%char → hex_digit d ≠ c.
Proof.
  intros Hd Hc. cut (bool_decide (Forall (λ c, hex_digit d ≠ c) [".";":";"%";"/";" "]%char) = true).
  { intros H%bool_decide_eq_true. rewrite Forall_forall in H. by apply H. }
  revert d Hd. by apply (all_below_spec (λ d, bool_decide (Forall (λ c, hex_digit d ≠ c) [".";":";"%";"/";" "]%char)) 16).
Qed.
(** One group of the loop. *)
Lemma group_value hi low : is_byte hi → is_byte low → (hi * 256 + low) mod 256 = low ∧ (hi * 256 + low) / 256 = hi.
Proof. unfold is_byte. intros. rewrite Z.add_comm, Z.mod_add, Z.div_add by lia. rewrite Z.mod_small, Z.div_small by lia. lia. Qed.
Lemma parse_group fuel rip ell hi low c l : is_byte hi → is_byte low → c ≠ ":"%char →
  parseIPv6_loop (S fuel) rip ell (s2l (hex2 hi) ++ s2l (hex2 low) ++ ":"%char :: c :: l) =
  parseIPv6_loop fuel (low :: hi :: rip) ell (c :: l).
Proof.
  intros Hhi Hlo Hc. unfold parseIPv6_loop at 1; fold parseIPv6_loop. rewrite hex_group_bytes by done.
  destruct (group_value hi low Hhi Hlo) as [-> ->]. cbv beta iota zeta. cbn [Nat.eqb].
  destruct c as [[] [] [] [] [] [] [] []]; try reflexivity. done.
Qed.
Lemma parse_last_group fuel rip hi low l : is_byte hi → is_byte low →
  parseIPv6_loop (S fuel) rip None (s2l (hex2 hi) ++ s2l (hex2 low) ++ ":"%char :: ":"%char :: l) =
  match l with
  | [] => Some (low :: hi :: rip, Some (S (S (length rip))), [])
  | _ => parseIPv6_loop fuel (low :: hi :: rip) (Some (S (S (length rip)))) l
  end.
Proof.
  intros Hhi Hlo. unfold parseIPv6_loop at 1; fold parseIPv6_loop. rewrite hex_group_bytes by done.
  destruct (group_value hi low Hhi Hlo) as [-> ->]. cbv beta iota zeta. cbn [Nat.eqb]. reflexivity.
Qed.

Context (r0 r1 r2 r3 r4 : Z) (H0 : is_byte r0) (H1 : is_byte r1) (H2 : is_byte r2) (H3 : is_byte r3) (H4 : is_byte r4).
Let body : string := "fd" +:+ hex2 r0 +:+ ":" +:+ hex2 r1 +:+ hex2 r2 +:+ ":" +:+ hex2 r3 +:+ hex2 r4 +:+ "::".
Let read : list Z := [r4; r3; r2; r1; r0; 253].
(** The address in it, whatever follows. *)
Lemma parse_body t : parseIPv6_loop 8 [] None (s2l body ++ t) =
  match t with [] => Some (read, Some 6%nat, []) | _ => parseIPv6_loop 5 read (Some 6%nat) t end.
Proof.
  assert (s2l body ++ t = s2l (hex2 253) ++ s2l (hex2 r0) ++ ":"%char :: s2l (hex2 r1) ++ s2l (hex2 r2) ++ ":"%char ::
    s2l (hex2 r3) ++ s2l (hex2 r4) ++ ":"%char :: ":"%char :: t) as ->.
  { unfold body. rewrite !s2l_app. rewrite <-!app_assoc. reflexivity. }
  assert (∀ b l, is_byte b → ∃ c l', s2l (hex2 b) ++ l = c :: l' ∧ c ≠ ":"%char) as Hc.
  { intros b l (?&_&_)%byte_digits. eexists _, _. split; [reflexivity|]. apply hex_digit_plain; [done|]. by apply (bool_decide_unpack _). }
  destruct (Hc r1 (s2l (hex2 r2) ++ ":"%char :: s2l (hex2 r3) ++ s2l (hex2 r4) ++ ":"%char :: ":"%char :: t) H1) as (c1 & l1 & E1 & N1).
  rewrite E1, parse_group by (done || by vm_compute). rewrite <-E1.
  destruct (Hc r3 (s2l (hex2 r4) ++ ":"%char :: ":"%char :: t) H3) as (c3 & l3 & E3 & N3).
  rewrite E3, parse_group by done. rewrite <-E3. by rewrite parse_last_group.
Qed.
Lemma parse_address : parseIPv6 (s2l body) = Some (Addr6 (be_val ([253; r0; r1; r2; r3; r4] ++ replicate 10 0))).
Proof.
  unfold parseIPv6. pose proof (parse_body []) as H. rewrite app_nil_r in H.
  change (s2l body) with ("f"%char :: tail (s2l body)) in *. cbv beta iota. rewrite H. reflexivity.
Qed.
Lemma parse_address_bits : parseIPv6 (s2l (body +:+ "/48")) = None.
Proof.
  unfold parseIPv6. pose proof (parse_body (s2l "/48")) as H. rewrite s2l_app.
  change (s2l body) with ("f"%char :: tail (s2l body)) in *. cbn [app] in *. cbv beta iota. rewrite H. reflexivity.
Qed.
(** No character of it is one a parser stops at, but its colons. *)
Lemma hex2_plain b c : is_byte b → c ∈ [".";":";"%";"/";" "]%char → c ∉ s2l (hex2 b).
Proof.
  intros (?&?&_)%byte_digits Hc. unfold hex2. rewrite s2l_l2s. rewrite !not_elem_of_cons.
  split_and!; [by apply not_eq_sym, hex_digit_plain..|apply not_elem_of_nil].
Qed.
Lemma body_without c : c ∈ [".";"%";"/";" "]%char → c ∉ s2l body.
Proof.
  intros Hc. unfold body. rewrite !s2l_app, !not_elem_of_app.
  assert (c ∈ [".";":";"%";"/";" "]%char) as Hc' by set_solver.
  split_and!; try (by apply hex2_plain); intros H; repeat (apply elem_of_cons in H as [->|H]; [revert Hc; by apply (bool_decide_unpack _)|]); by apply elem_of_nil in H.
Qed.
Lemma parse_body_addr t : t = "" ∨ t = "/48" → ParseAddr (body +:+ t) = (λ a, (a, "")) <$> parseIPv6 (s2l (body +:+ t)).
Proof.
  intros Ht. unfold ParseAddr.
  assert (find_first (λ c, bool_decide (c ∈ ["."; ":"; "%"]%char)) (s2l (body +:+ t)) = Some ":"%char) as ->.
  { assert (∃ r, s2l (body +:+ t) = s2l ("fd" +:+ hex2 r0) ++ ":"%char :: r) as [r ->].
    { eexists. unfold body. rewrite !s2l_app, <-!app_assoc. reflexivity. }
    apply find_first_skip; [|done]. apply Forall_forall. intros c Hc. apply bool_decide_eq_false. intros Hin.
    rewrite s2l_app in Hc. apply elem_of_app in Hc as [Hc|Hc].
    - revert Hin. repeat (apply elem_of_cons in Hc as [->|Hc]; [by apply (bool_decide_unpack _)|]). by apply elem_of_nil in Hc.
    - revert Hc. apply hex2_plain; [done|]. set_solver. }
  change "%" with (l2s ["%"%char]). rewrite Cut_none; [done|]. rewrite s2l_app. apply not_elem_of_app.
  split; [apply body_without; by apply (bool_decide_unpack _)|]. destruct Ht as [->| ->]; by apply (bool_decide_unpack _).
Qed.

(** What [hub init] generates is a pool the hub's own parser takes: the unique
    local prefix of the five bytes, in /112s. *)
Definition ula : Prefix := mkPrefix (Addr6 (be_val ([253; r0; r1; r2; r3; r4] ++ replicate 10 0))) 48.
Lemma ULA_body : randomULA r0 r1 r2 r3 r4 = (body +:+ "/48") +:+ l2s ["/"%char] +:+ "112".
Proof. unfold randomULA, body. apply (inj s2l). rewrite !s2l_app, <-!app_assoc. reflexivity. Qed.
Lemma ULA_plain : TrimSpace (randomULA r0 r1 r2 r3 r4) = randomULA r0 r1 r2 r3 r4.
Proof.
  apply TrimSpace_plain. unfold randomULA.
  assert (∀ b, is_byte b → Forall plain (s2l (hex2 b))) as Hp.
  { intros b (Hq&Hr&_)%byte_digits. unfold hex2. rewrite s2l_l2s. by repeat constructor; apply digit_plain. }
  rewrite !s2l_app. repeat apply Forall_app_2; try (by apply Hp); by apply (bool_decide_unpack _).
Qed.
Lemma Masked_ULA : Masked ula = ula.
Proof.
  unfold Masked, ula, host_bits. cbn [p_addr p_bits BitLen IsValid num with_num Z.leb Z.compare].
  rewrite be_val_zeros. change (256 ^ Z.of_nat 10) with (2 ^ (128 - 48)). by rewrite Z.div_mul.
Qed.
Lemma ParsePool_ULA : ParsePool (randomULA r0 r1 r2 r3 r4) = Ok (ula, 112).
Proof.
  unfold ParsePool. rewrite ULA_plain, ULA_body, cut_last_app by by apply (bool_decide_unpack _).
  assert (ParsePrefix ((body +:+ "/48") +:+ l2s ["/"%char] +:+ "112") = None) as ->.
  { unfold ParsePrefix. rewrite cut_last_app by by apply (bool_decide_unpack _).
    by rewrite parse_body_addr, parse_address_bits by by right. }
  assert (ParsePrefix (body +:+ "/48") = Some ula) as ->.
  { unfold ParsePrefix. change (body +:+ "/48") with (body +:+ l2s ["/"%char] +:+ "48").
    rewrite cut_last_app by by apply (bool_decide_unpack _).
    rewrite <-(string_app_nil_r body), parse_body_addr by by left. rewrite string_app_nil_r, parse_address.
    reflexivity. }
  change (Atoi "112") with (Some 112). cbn [p_addr p_bits ula BitLen]. change ((112 <? 48) || (128 <? 112)) with false. cbv iota.
  by rewrite Masked_ULA.
Qed.
End Pool.

(** Hubs that drew different bytes can be bridged. *)
Lemma ula_apart r0 r1 r2 r3 r4 q0 q1 q2 q3 q4 :
  Forall is_byte [r0; r1; r2; r3; r4] → Forall is_byte [q0; q1; q2; q3; q4] →
  Overlaps (ula r0 r1 r2 r3 r4) (ula q0 q1 q2 q3 q4) = true → [r0; r1; r2; r3; r4] = [q0; q1; q2; q3; q4].
Proof.
  intros Hr Hq [_ H]%andb_true_iff.
  assert (be_val [253; r0; r1; r2; r3; r4] = be_val [253; q0; q1; q2; q3; q4]) as E.
  { apply orb_true_iff in H as [H%bool_decide_eq_true|[_ H]%andb_true_iff].
    - apply (f_equal (λ p, num (p_addr p))) in H. unfold ula in H. cbn [p_addr num] in H. rewrite !be_val_zeros in H. apply Z.mul_reg_r in H; done.
    - apply Z.eqb_eq in H. unfold ula in H. cbn [p_addr p_bits num BitLen] in H. rewrite !be_val_zeros in H.
      change (2 ^ (128 - Z.min 48 48)) with (256 ^ Z.of_nat 10) in H. by rewrite !Z.div_mul in H. }
  assert (is_byte 253) as H253 by done.
  pose proof (be_bytes_val [253; r0; r1; r2; r3; r4] (Forall_cons_2 _ _ _ H253 Hr)) as E1.
  rewrite E in E1. pose proof (be_bytes_val [253; q0; q1; q2; q3; q4] (Forall_cons_2 _ _ _ H253 Hq)) as E2.
  cbn [length] in E1, E2. rewrite E2 in E1. by injection E1 as -> -> -> -> ->.
Qed.

(** ** The starter configuration *)

Section Init.
Context (pr : Process).

(** Nothing that is there is touched. *)
Definition still_there (s s' : Sys) : Prop := ∀ p n, sy_nodes s !! p = Some n → sy_nodes s' !! p = Some n.
Lemma make_dirs_keeps mode l fs p n : fs !! p = Some n → make_dirs pr mode l fs !! p = Some n.
Proof.
  unfold make_dirs. revert fs. induction l as [|d l IH]; intros fs Hp; [done|]. cbn. apply IH.
  destruct (fs !! d) eqn:E; [done|]. rewrite lookup_insert_ne; [done|]. congruence.
Qed.
Lemma make_dirs_off mode l fs p : p ∉ l → make_dirs pr mode l fs !! p = fs !! p.
Proof.
  unfold make_dirs. revert fs. induction l as [|d l IH]; intros fs Hp; [done|].
  apply not_elem_of_cons in Hp as [? Hp]. cbn. rewrite IH by done. destruct (fs !! d); [done|]. by rewrite lookup_insert_ne.
Qed.
(** What a call to the system comes to. *)
Lemma syscall_spec call f s :
  (∃ e, syscall pr call f s = (Err e, s)) ∨ syscall pr call f s = (Ok (), nodes_to f s).
Proof. unfold syscall. destruct (pr_fails pr call) as [e|]; [left; by exists e|by right]. Qed.
Lemma MkdirAll_spec path mode s :
  (∃ e, MkdirAll pr path mode s = (Err e, s)) ∨
  MkdirAll pr path mode s =
    (Ok (), nodes_to (make_dirs pr mode (filter (λ p, sy_links s !! p = None) (ancestors (S (len path)) path))) s).
Proof. unfold MkdirAll. rewrite bind_get. destruct (existsb _ _); [left; by eexists|]. apply syscall_spec. Qed.
Lemma MkdirAll_keeps path mode s0 : preserves (still_there s0) (MkdirAll pr path mode).
Proof.
  intros s Hs. destruct (MkdirAll_spec path mode s) as [[e ->]| ->]; [done|]. intros p n Hp%Hs. by apply make_dirs_keeps.
Qed.
Definition still_free (s0 s : Sys) : Prop := still_there s0 s ∧ sy_links s = sy_links s0.
Lemma MkdirAll_free path mode s0 : preserves (still_free s0) (MkdirAll pr path mode).
Proof.
  intros s [Hs Hl]. split; [by apply MkdirAll_keeps|]. by destruct (MkdirAll_spec path mode s) as [[e ->]| ->].
Qed.
Lemma write_keeps path content mode s0 : stat_node s0 path = None →
  preserves (still_free s0) (write_node pr path content mode).
Proof.
  intros Hp s [Hs Hl]. unfold write_node. rewrite bind_get. cbv zeta.
  edestruct syscall_spec as [[e ->]| ->]; [done|]. split; [|done]. intros p n Hn. cbn [sy_nodes nodes_to snd].
  rewrite lookup_insert_ne; [by apply Hs|]. intros <-. unfold stat_node, followed in *. rewrite Hl in Hn. congruence.
Qed.
Lemma init_keeps path endpoint s : still_there s (writeHubConfig pr path endpoint s).2.
Proof.
  unfold writeHubConfig. rewrite bind_get. destruct (decide _) as [|Hp%dec_stable]; [by intros ???|].
  lazymatch goal with |- still_there _ (?c _).2 => cut (preserves (still_free s) c); [intros H; apply H; split; [by intros ???|done]|] end.
  apply preserves_bind; [case_decide; [apply MkdirAll_free|apply preserves_ret]|intros _].
  apply preserves_bind; [by intros ?|intros raw]. apply preserves_bind; [by intros ?|intros pool6].
  apply preserves_bind; [by apply write_keeps|intros _]. apply preserves_ret.
Qed.

(** A draw gives as many bytes as were asked for. *)
Context (Hrandom : ∀ n raw, pr_random pr n = Ok raw → Forall is_byte raw ∧ length raw = n).
Lemma hex_plain raw : Forall is_byte raw → Forall plain (s2l (EncodeHex raw)).
Proof.
  intros H. unfold EncodeHex. rewrite s2l_l2s. induction H as [|b l (Hq&Hr&_)%byte_digits _ IH]; [constructor|].
  rewrite bind_cons. by repeat constructor; [apply digit_plain..|].
Qed.
Lemma drawn_ULA pool6 : drawULA pr = Ok pool6 →
  ∃ r0 r1 r2 r3 r4, Forall is_byte [r0; r1; r2; r3; r4] ∧ pool6 = randomULA r0 r1 r2 r3 r4 ∧ pr_random pr 5 = Ok [r0; r1; r2; r3; r4].
Proof.
  unfold drawULA. intros (raw & Hr & H)%bindR_Ok. destruct (Hrandom 5 raw Hr) as [Hb Hl].
  destruct raw as [|r0 [|r1 [|r2 [|r3 [|r4 []]]]]]; try done. injection H as <-. eauto 10.
Qed.

Definition pool4 : Pool := mkPool (mkPrefix (Addr4 3323133952) 16) 24.
Lemma starter_pools r0 r1 r2 r3 r4 : Forall is_byte [r0; r1; r2; r3; r4] →
  parse_overlays ["198.19.0.0/16/24"; randomULA r0 r1 r2 r3 r4] = Ok ([pool4], [mkPool (ula r0 r1 r2 r3 r4) 112]) ∧
  refuseOverlap [pool4; mkPool (ula r0 r1 r2 r3 r4) 112] = Ok ().
Proof.
  intros (?&(?&(?&(?&(?&_)%Forall_cons)%Forall_cons)%Forall_cons)%Forall_cons)%Forall_cons.
  split; [|reflexivity]. cbn [parse_overlays]. rewrite ParsePool_ULA by done. reflexivity.
Qed.

(** A run that succeeded drew, made the directory and wrote the file. *)
Lemma init_Ok path endpoint s printed s' : followed s path ∉ ancestors (S (len (Dir path))) (Dir path) →
  writeHubConfig pr path endpoint s = (Ok printed, s') →
  stat_node s path = None ∧ ∃ raw r0 r1 r2 r3 r4,
    pr_random pr 16 = Ok raw ∧ pr_random pr 5 = Ok [r0; r1; r2; r3; r4] ∧ Forall is_byte [r0; r1; r2; r3; r4] ∧
    stat_node s' path = Some (mkNode false (lines (hubConfigTemplate (if decide (endpoint = "") then placeholder else endpoint)
      (randomULA r0 r1 r2 r3 r4) (EncodeHex raw))) 384 (pr_uid pr) (pr_gid pr)).
Proof.
  intros Hp. unfold writeHubConfig. rewrite bind_get. destruct (decide (_ ≠ None)) as [|Hno%dec_stable]; [done|].
  intros ([] & s1 & Hm & H)%bindM_Ok. apply bindM_Ok in H as (raw & s2 & [= Hraw <-] & H).
  apply bindM_Ok in H as (pool6 & s3 & [= Hpool <-] & H). apply bindM_Ok in H as ([] & s4 & Hw & H). injection H as _ <-.
  destruct (drawn_ULA _ Hpool) as (r0&r1&r2&r3&r4&Hb&->&Hr). split; [done|]. exists raw, r0, r1, r2, r3, r4.
  assert (sy_links s1 = sy_links s ∧ stat_node s1 path = None) as [Hl Hs1].
  { destruct (decide (Dir path ≠ "" ∧ Dir path ≠ ".")); [|by injection Hm as <-]. destruct (MkdirAll_spec (Dir path) 493 s) as [[e E]|E]; rewrite E in Hm; [done|].
    injection Hm as <-. split; [done|]. unfold stat_node, followed. cbn [sy_nodes sy_links nodes_to].
    rewrite make_dirs_off; [done|]. intros [_ H]%list_elem_of_filter. by apply Hp. }
  split_and!; [done..|]. unfold write_node in Hw. rewrite bind_get in Hw. cbv zeta in Hw.
  edestruct syscall_spec as [[e E]|E]; rewrite E in Hw; [done|].
  injection Hw as <-. unfold stat_node, followed in *. cbn [sy_nodes sy_links nodes_to]. by rewrite lookup_insert_eq, Hs1.
Qed.
End Init.

(** A fragment that adds binders and nothing else. *)
Definition fragment (binders : list BinderEntry) : File := mkFile "" "" "" "" "" "" "" [] "" 0 None None "" binders [].
(** The starter, with a fragment merged into it, is a configuration. *)
Lemma starter_config `{HS : SshLib} ρ host token r0 r1 r2 r3 r4 binders bs : Forall is_byte [r0; r1; r2; r3; r4] →
  declare_binders binders ∅ = Ok bs → unique_keys (AllKeys ρ bs) ∅ = Ok () →
  ConfigOf ρ (applyDefaults (HubConfig.merge (starter_file host (randomULA r0 r1 r2 r3 r4) token) (fragment binders))) =
    Ok {| c_APIAddr := ":8443"; c_NebulaBind := "0.0.0.0"; c_PublicEndpoint := host; c_PortMin := 20000; c_PortMax := 24999;
          c_Overlays := [pool4]; c_Overlays6 := [mkPool (ula r0 r1 r2 r3 r4) 112]; c_Token := token; c_Binders := bs;
          c_StatePath := "/var/lib/robinet/hub.json"; c_MTU := 1500; c_Relay := true; c_DNS := true; c_NoLighthouseTun := false |}.
Proof.
  intros Hb Hd Hu. unfold ConfigOf. destruct (starter_pools r0 r1 r2 r3 r4 Hb) as [Hp Ho].
  change (f_Overlays _) with ["198.19.0.0/16/24"; randomULA r0 r1 r2 r3 r4]. rewrite Hp. cbn [bindR fst snd app]. rewrite Ho.
  cbn [bindR length Nat.eqb]. change (f_APIEntrypoint _) with EntrypointHTTPS. change (f_Ports _) with "20000-24999".
  change (f_Binder _) with binders. rewrite Hd. cbn [bindR]. rewrite Hu. reflexivity.
Qed.

(** C23: [robinet hub init] writes a configuration that lacks only its binders.
    It never touches a file that is there, whatever comes of it, and does not
    run twice on one path.  The file belongs to who runs it, root, and is
    nobody else's to read; it holds a token and a unique local prefix of the
    bytes that were drawn.  The hub takes what its
    lines set for a configuration without binders, and once binders that are
    in order are added for one it runs on: pools of both families, of which the
    generated one is the prefix drawn in /112s, 5000 ports, and the token.
    (Decoding the lines is the YAML library's.) *)
Theorem starter_needs_only_binders `{HS : SshLib} (pr : Process) (path endpoint : string) (s : Sys)
    (Hrandom : ∀ n raw, pr_random pr n = Ok raw → Forall is_byte raw ∧ length raw = n)
    (Hpath : followed s path ∉ ancestors (S (len (Dir path))) (Dir path)) :
  let '(r, s') := writeHubConfig pr path endpoint s in
  let host := if decide (endpoint = "") then placeholder else endpoint in
  still_there s s' ∧
  ∀ printed, r = Ok printed →
    stat_node s path = None ∧
    (∀ again, writeHubConfig pr path again s' = (Err (Errorf "%s already exists, refusing to overwrite it"), s')) ∧
    ∃ raw r0 r1 r2 r3 r4, pr_random pr 16 = Ok raw ∧ pr_random pr 5 = Ok [r0; r1; r2; r3; r4] ∧
      let token := EncodeHex raw in
      let pool := randomULA r0 r1 r2 r3 r4 in
      let f := starter_file host pool token in
      stat_node s' path = Some (mkNode false (lines (hubConfigTemplate host pool token)) 384 (pr_uid pr) (pr_gid pr)) ∧
      (validateEndpoint host = Ok () → validate (applyDefaults f) = Err ErrNoBinders) ∧
      ∀ ρ binders bs, declare_binders binders ∅ = Ok bs → unique_keys (AllKeys ρ bs) ∅ = Ok () →
        ∃ cfg, ConfigOf ρ (applyDefaults (HubConfig.merge f (fragment binders))) = Ok cfg ∧ c_Binders cfg = bs ∧
          c_Overlays cfg = [pool4] ∧ c_Overlays6 cfg = [mkPool (ula r0 r1 r2 r3 r4) 112] ∧ ports_room cfg = 5000 ∧
          c_Token cfg = token ∧ c_PublicEndpoint cfg = host.
Proof.
  destruct (writeHubConfig pr path endpoint s) as [r s'] eqn:E. intros host.
  split; [pose proof (init_keeps pr path endpoint s) as H; by rewrite E in H|]. intros printed ->.
  destruct (init_Ok pr Hrandom path endpoint s printed s' Hpath E) as (Hno&raw&r0&r1&r2&r3&r4&Hraw&Hr&Hb&Hn).
  split; [done|]. split; [intros again; unfold writeHubConfig; rewrite bind_get; by rewrite decide_True by (by rewrite Hn)|].
  exists raw, r0, r1, r2, r3, r4. destruct (Hrandom 16%nat raw Hraw) as [Hbytes Hlen].
  split; [done|]. split; [done|]. cbn zeta. split; [done|]. split.
  - intros Hv. unfold validate. cbn [f_PublicEndpoint applyDefaults starter_file]. rewrite Hv. cbn [bindR f_Token f_Binder].
    rewrite TrimSpace_plain by by apply hex_plain. rewrite decide_False; [done|].
    intros Ht. apply (f_equal len) in Ht. change (len (EncodeHex raw) = 0%nat) in Ht. rewrite len_EncodeHex, Hlen in Ht. done.
  - intros ρ binders bs Hd Hu. eexists. split; [by apply starter_config|]. done.
Qed.
(** The placeholder that is written when no endpoint is given is one the hub
    takes for an endpoint. *)
Lemma placeholder_accepted : validateEndpoint placeholder = Ok ().
Proof. by vm_compute. Qed.

(** ** What installing a hub gives away *)

(** Content and owner stay, and of the nine permission bits only two may
    change: the group's to read (5) and to enter (3). *)
Definition sheltered (n n' : Node) : Prop :=
  nd_dir n' = nd_dir n ∧ nd_content n' = nd_content n ∧ nd_owner n' = nd_owner n ∧
  ∀ i, 0 ≤ i < 9 → i ≠ 3 → i ≠ 5 → Z.testbit (nd_mode n') i = Z.testbit (nd_mode n) i.
#[export] Instance sheltered_preorder : PreOrder sheltered.
Proof.
  split; [by intros n|]. intros a b c (?&?&?&Hb) (?&?&?&Hc).
  split_and!; [congruence..|]. intros i ???. by rewrite Hc, Hb.
Qed.
(** The group may read it, and enter a directory. *)
Definition readable (gid : Z) (n : Node) : Prop :=
  nd_group n = gid ∧ Z.testbit (nd_mode n) 5 = true ∧ (nd_dir n = true → Z.testbit (nd_mode n) 3 = true).
Definition kept_node (n n' : Node) : Prop :=
  nd_dir n' = nd_dir n ∧ nd_content n' = nd_content n ∧ nd_owner n' = nd_owner n.
(** At or beneath one of the paths; and where a link that is leads to. *)
Definition among (paths : list string) (name : string) : Prop := ∃ p, p ∈ paths ∧ at_or_beneath p name.
Definition linked (paths : list string) (s : Sys) (name : string) : Prop :=
  ∃ link, among paths link ∧ sy_links s !! link = Some name.
(** Nothing but the unit, what lies at the paths and what links there lead to
    changes, and that only so far. *)
Definition hub_owned (paths : list string) (s s' : Sys) : Prop := sy_links s' = sy_links s ∧
  ∀ name, name ≠ followed s hubUnitPath →
  match sy_nodes s !! name, sy_nodes s' !! name with
  | Some n, Some n' => n' = n ∨ kept_node n n' ∧ (sheltered n n' ∧ among paths name ∨ linked paths s name)
  | None, None => True
  | _, _ => False
  end.
#[export] Instance hub_owned_preorder paths : PreOrder (hub_owned paths).
Proof.
  split.
  - intros s. split; [done|]. intros name _. destruct (sy_nodes s !! name); [by left|done].
  - intros a b c [Lab Hab] [Lbc Hbc]. split; [congruence|]. intros name Hn. specialize (Hab name Hn).
    specialize (Hbc name). unfold followed, linked in *. rewrite Lab in Hbc. specialize (Hbc Hn).
    destruct (sy_nodes a !! name), (sy_nodes b !! name), (sy_nodes c !! name); try done.
    destruct Hab as [->|[(K1&K2&K3) Hab]], Hbc as [->|[(K4&K5&K6) Hbc]]; try (by left); try (right; by split).
    right. split; [split_and!; congruence|]. destruct Hab as [[Hab ?]|?], Hbc as [[Hbc ?]|?]; try (by right).
    left. split; [by etrans|done].
Qed.

Lemma opened_bits n i : 0 ≤ i < 9 → i ≠ 3 → i ≠ 5 → Z.testbit (opened n) i = Z.testbit (nd_mode n) i.
Proof.
  intros Hi H3 H5. assert (i ∈ [0; 1; 2; 4; 6; 7; 8]) as Hin.
  { rewrite !elem_of_cons. lia. }
  unfold opened. destruct (nd_dir n); rewrite !Z.lor_spec, Z.land_spec;
    repeat (apply elem_of_cons in Hin as [->|Hin]; [cbn; by rewrite andb_true_r, ?orb_false_r|]); by apply elem_of_nil in Hin.
Qed.
Lemma opened_readable gid n : readable gid (with_mode (opened n) (give_to gid n)).
Proof.
  split_and!; [done|..]; cbn [with_mode nd_mode nd_dir give_to].
  - unfold opened. destruct (nd_dir n); rewrite !Z.lor_spec; cbn; by rewrite ?orb_true_r.
  - intros Hd. unfold opened. rewrite Hd, Z.lor_spec. cbn. apply orb_true_r.
Qed.
Lemma opened_sheltered gid n : sheltered n (with_mode (opened n) (give_to gid n)).
Proof. split_and!; [done..|]. intros. by apply opened_bits. Qed.

(** What a computation does to the state, whatever it answers: a relation that
    is closed under doing one thing after another. *)
Definition does {S A} (R : relation S) (c : M S A) : Prop := ∀ s, R s (c s).2.
Section Does.
Context {S : Type} (R : relation S) `{HR : !PreOrder R}.
Lemma does_ret {A} (a : A) : does R (retM a).
Proof. by intros s. Qed.
Lemma does_raise {A} e : does R (raise (A:=A) e).
Proof. by intros s. Qed.
Lemma does_panic {A} : does R (panic (A:=A)).
Proof. by intros s. Qed.
Lemma does_get : does R getM.
Proof. by intros s. Qed.
Lemma does_lift {A} (r : res A) : does R (liftR r).
Proof. by intros s. Qed.
Lemma does_bind {A B} (c : M S A) (k : A → M S B) : does R c → (∀ a, does R (k a)) → does R (bindM c k).
Proof.
  intros Hc Hk s. unfold bindM. specialize (Hc s). destruct (c s) as [[a|e|] s1]; cbn in *; try done.
  etrans; [exact Hc|apply Hk].
Qed.
Lemma does_try {A B} (c : M S A) (k : A + error → M S B) : does R c → (∀ r, does R (k r)) → does R (tryM c k).
Proof.
  intros Hc Hk s. unfold tryM. specialize (Hc s). destruct (c s) as [[a|e|] s1]; cbn in *; try done; (etrans; [exact Hc|apply Hk]).
Qed.
End Does.
Create HintDb does discriminated.
#[export] Hint Resolve does_ret does_raise does_panic does_get does_lift does_bind does_try : does.
#[export] Hint Extern 1 (PreOrder _) => apply _ : does.

Section Given.
Context (pr : Process) (paths : list string).
Let R := hub_owned paths.

Lemma same_nodes s s' : sy_nodes s' = sy_nodes s → sy_links s' = sy_links s → R s s'.
Proof. intros E El. split; [done|]. intros name _. rewrite E. destruct (sy_nodes s !! name); [by left|done]. Qed.
Lemma does_command args : does R (command pr args).
Proof. intros s. by apply same_nodes. Qed.
Lemma does_unit content : does R (write_node pr hubUnitPath content 420).
Proof.
  intros s. unfold write_node. rewrite bind_get. cbv zeta. edestruct syscall_spec as [[e ->]| ->]; [apply (reflexivity (R:=R))|].
  split; [done|]. intros name Hn. cbn [sy_nodes nodes_to snd]. rewrite lookup_insert_ne by done.
  destruct (sy_nodes s !! name); [by left|done].
Qed.
Lemma does_systemctl l : does R (systemctl_all pr l).
Proof.
  induction l as [|args l IH]; cbn; [apply does_ret, _|]. apply does_bind; [apply _|apply does_command|].
  intros []; [apply does_raise, _|done].
Qed.
(** One node at or beneath a path, or where a link there leads to. *)
Lemma does_alter name f (s : Sys) :
  (∀ n, sy_nodes s !! name = Some n → kept_node n (f n) ∧ (sheltered n (f n) ∧ among paths name ∨ linked paths s name)) →
  R s (nodes_to (alter_node name f) s).
Proof.
  intros Hf. split; [done|]. intros x _. cbn [sy_nodes nodes_to]. unfold alter_node. destruct (decide (name = x)) as [->|Hx].
  - rewrite lookup_alter_eq. destruct (sy_nodes s !! x) as [n|] eqn:E; [|done]. right. by apply Hf.
  - rewrite lookup_alter_ne by done. destruct (sy_nodes s !! x); [by left|done].
Qed.
Lemma does_at_target call name f (s : Sys) : among paths name →
  (∀ n, kept_node n (f n)) →
  (∀ n, sy_links s !! name = None → sy_nodes s !! name = Some n → sheltered n (f n)) →
  R s (at_target pr call name f s).2.
Proof.
  intros Ha Hk Hf. unfold at_target. rewrite bind_get. case_decide; [by apply same_nodes|].
  edestruct syscall_spec as [[e ->]| ->]; [by apply same_nodes|]. apply does_alter. intros n Hn. split; [apply Hk|].
  unfold followed in *. destruct (sy_links s !! name) as [t|] eqn:El; simpl in *; [right; by exists name|left; by split; [apply Hf|]].
Qed.
Lemma at_target_links call name f (s : Sys) : sy_links (at_target pr call name f s).2 = sy_links s.
Proof. unfold at_target. rewrite bind_get. case_decide; [done|]. by edestruct syscall_spec as [[e ->]| ->]. Qed.
Lemma at_target_modes name gid (s : Sys) x n' : sy_nodes (at_target pr "chown" name (give_to gid) s).2 !! x = Some n' →
  ∃ n, sy_nodes s !! x = Some n ∧ nd_mode n' = nd_mode n ∧ nd_dir n' = nd_dir n.
Proof.
  unfold at_target. rewrite bind_get. case_decide; [eauto|]. edestruct syscall_spec as [[e ->]| ->]; [eauto|].
  cbn [sy_nodes nodes_to snd]. unfold alter_node. destruct (decide (x = followed s name)) as [->|Hx].
  - rewrite lookup_alter_eq. intros (n&->&->)%fmap_Some. eauto.
  - rewrite lookup_alter_ne by done. eauto.
Qed.
Lemma does_chown_one gid name : among paths name → does R (chown_one pr gid name).
Proof.
  intros Ha s. unfold chown_one. rewrite bind_get. destruct (lstat_node s name) as [info|] eqn:E; [|apply same_nodes; done].
  pose proof (does_at_target "chown" name (give_to gid) s Ha) as H1. pose proof (at_target_links "chown" name (give_to gid) s) as Hl.
  pose proof (at_target_modes name gid s name) as Hm. unfold bindM.
  assert (R s (at_target pr "chown" name (give_to gid) s).2) as H1' by (by apply H1).
  destruct (at_target pr "chown" name (give_to gid) s) as [[[]|e|] s1]; [|done..]. etrans; [exact H1'|].
  cbn [snd] in *. apply does_at_target; [done|done|]. intros n Hno Hn. destruct (Hm n Hn) as (n0&Hn0&Emode&Edir).
  unfold lstat_node in E. rewrite Hl in Hno. rewrite Hno in E. rewrite E in Hn0. injection Hn0 as ->.
  split_and!; [done..|]. intros i ???. cbn [with_mode nd_mode]. rewrite Emode. by apply opened_bits.
Qed.
Lemma does_walk gid p names : p ∈ paths → Forall (at_or_beneath p) names → does R (chown_walk pr gid names).
Proof.
  intros Hp. induction 1 as [|name names Hn _ IH]; cbn; [apply does_ret, _|].
  apply does_bind; [apply _|apply does_chown_one; by exists p|done].
Qed.
Lemma walked_beneath p s : Forall (at_or_beneath p) (walked p s).
Proof. apply Forall_forall. intros name [H _]%elem_of_sort_by%list_elem_of_filter. done. Qed.
Lemma does_chownGroup p group : p ∈ paths → does R (chownGroup pr p group).
Proof.
  intros Hp. unfold chownGroup. apply does_bind; [apply _|apply does_lift, _|]. intros gid s. rewrite bind_get.
  case_decide; [by apply same_nodes|]. eapply does_walk; [done|apply walked_beneath].
Qed.
Lemma does_give_all l : l ⊆ paths → does R (give_all pr l).
Proof.
  induction l as [|p l IH]; intros Hl; cbn; [apply does_ret, _|].
  apply does_bind; [apply _|apply does_try; [apply _|apply does_chownGroup; set_solver|intros; apply does_ret, _]|].
  intros said. apply does_bind; [apply _|apply IH; set_solver|intros; apply does_ret, _].
Qed.
End Given.

Section Reads.
Context (pr : Process) (gid : Z).
Context (Hgroup : pr_groups pr hubUser = Ok gid).
Context (Hfails : ∀ call name, call = "chown" ∨ call = "chmod" → pr_fails pr [call; name] = None).

Definition open_at (name : string) (s : Sys) : Prop := ∃ n, sy_nodes s !! name = Some n ∧ readable gid n.
(** Everyone may do anything with it. *)
Definition wide (n : Node) : Prop := Z.land (nd_mode n) 511 = 511.
Definition wide_at (name : string) (s : Sys) : Prop := ∃ n, sy_nodes s !! name = Some n ∧ wide n.
(** What is there stays, and what the group may read, or everyone, it goes on
    to read. *)
Definition opens (s s' : Sys) : Prop :=
  sy_links s' = sy_links s ∧ (∀ name, sy_nodes s' !! name = None ↔ sy_nodes s !! name = None) ∧
  (∀ name, open_at name s → open_at name s') ∧ ∀ name, wide_at name s → wide_at name s'.
#[local] Instance opens_preorder : PreOrder opens.
Proof.
  split; [by intros s|]. intros a b c (?&Hab&?&?) (?&Hbc&?&?). split_and!; [congruence| |eauto..]. intros name. by rewrite Hbc.
Qed.

(** What one step comes to, when nothing fails. *)
Lemma at_target_run call name f s n : call = "chown" ∨ call = "chmod" → stat_node s name = Some n →
  at_target pr call name f s = (Ok (), nodes_to (alter_node (followed s name) f) s).
Proof.
  intros Hc Hn. unfold at_target. rewrite bind_get, decide_False by by rewrite Hn. unfold syscall. by rewrite Hfails.
Qed.
Lemma chown_one_run name s info n : lstat_node s name = Some info → stat_node s name = Some n →
  ∃ s', chown_one pr gid name s = (Ok (), s') ∧ sy_links s' = sy_links s ∧
    ∀ x, sy_nodes s' !! x = if decide (x = followed s name) then Some (with_mode (opened info) (give_to gid n)) else sy_nodes s !! x.
Proof.
  intros Hi Hn. unfold chown_one. rewrite bind_get, Hi. rewrite (bind_run _ _ _ _ _ (at_target_run _ _ _ _ _ (or_introl eq_refl) Hn)).
  set (s1 := nodes_to _ s). assert (stat_node s1 name = Some (give_to gid n)) as Hn1.
  { unfold s1, stat_node, followed, alter_node in *. cbn [sy_links sy_nodes nodes_to]. by rewrite lookup_alter_eq, Hn. }
  rewrite (at_target_run _ _ _ _ _ (or_intror eq_refl) Hn1). eexists. split; [done|]. split; [done|].
  intros x. unfold s1, stat_node, followed, alter_node in *. cbn [sy_links sy_nodes nodes_to]. case_decide as Hx.
  - subst x. by rewrite !lookup_alter_eq, Hn.
  - by rewrite !lookup_alter_ne by done.
Qed.
Lemma opened_wide n : wide n → wide (with_mode (opened n) n).
Proof.
  unfold wide. cbn [with_mode nd_mode]. unfold opened. intros ->. by destruct (nd_dir n).
Qed.
Lemma wide_readable n : wide n → readable gid (give_to gid n).
Proof.
  unfold wide. intros Hw. split; [done|]. cbn [give_to nd_mode nd_dir].
  assert (∀ i, Z.testbit 511 i = true → Z.testbit (nd_mode n) i = true) as H.
  { intros i. rewrite <-Hw at 1. rewrite Z.land_spec. by intros [? _]%andb_true_iff. }
  split; [by apply H|]. intros _. by apply H.
Qed.
(** It opens what it is about, to everyone when it is a link. *)
Lemma chown_one_opens name s : lstat_node s name ≠ None → stat_node s name ≠ None →
  (chown_one pr gid name s).1 = Ok () ∧ open_at (followed s name) (chown_one pr gid name s).2 ∧
  (sy_links s !! name ≠ None → wide_at (followed s name) (chown_one pr gid name s).2) ∧ opens s (chown_one pr gid name s).2.
Proof.
  destruct (lstat_node s name) as [info|] eqn:Ei; [|done]. destruct (stat_node s name) as [n|] eqn:En; [|done]. intros _ _.
  destruct (chown_one_run name s info n Ei En) as (s'&->&Hl&Hx). cbn [fst snd].
  assert (info = link_info ∨ info = n) as Hinfo.
  { unfold lstat_node, stat_node, followed in *. destruct (sy_links s !! name); [left; congruence|right]. simpl in En. congruence. }
  assert (readable gid (with_mode (opened info) (give_to gid n))) as Hread.
  { destruct Hinfo as [->| ->]; [|apply opened_readable]. by apply (wide_readable (with_mode (opened link_info) n)). }
  assert (open_at (followed s name) s') as Ho by (eexists; rewrite Hx, decide_True by done; done).
  assert (wide n → wide (with_mode (opened info) (give_to gid n))) as Hw.
  { intros Hn. destruct Hinfo as [->| ->]; [done|]. by apply (opened_wide n). }
  split; [done|]. split; [done|]. split; [|split_and!; [done|..]].
  - intros Hlink. eexists. rewrite Hx, decide_True by done. split; [done|]. unfold lstat_node in Ei.
    destruct (sy_links s !! name); [injection Ei as <-|done]. done.
  - intros x. rewrite Hx. case_decide as E; [subst x; fold (stat_node s name); by rewrite En|done].
  - intros x (m&Hm&Hr). destruct (decide (x = followed s name)) as [->|Hne]; [done|]. exists m. by rewrite Hx, decide_False.
  - intros x (m&Hm&Hr). destruct (decide (x = followed s name)) as [E|Hne].
    + exists (with_mode (opened info) (give_to gid n)). rewrite Hx, decide_True by done. split; [done|]. apply Hw.
      subst x. unfold stat_node in En. congruence.
    + exists m. by rewrite Hx, decide_False.
Qed.
(** No link dangles. *)
Definition sound (names : list string) (s : Sys) : Prop := ∀ name, name ∈ names → lstat_node s name ≠ None ∧ stat_node s name ≠ None.
Lemma opens_sound names s s' : opens s s' → sound names s → sound names s'.
Proof.
  intros (Hl&Hn&_) Hs name [H1 H2]%Hs. unfold lstat_node, stat_node, followed in *. rewrite Hl.
  split; [|by rewrite Hn]. destruct (sy_links s !! name); [done|by rewrite Hn].
Qed.
Lemma chown_walk_opens names s : sound names s →
  (chown_walk pr gid names s).1 = Ok () ∧ opens s (chown_walk pr gid names s).2 ∧
  ∀ name, name ∈ names → open_at (followed s name) (chown_walk pr gid names s).2 ∧
    (sy_links s !! name ≠ None → wide_at (followed s name) (chown_walk pr gid names s).2).
Proof.
  revert s. induction names as [|name names IH]; intros s Hs.
  { split_and!; [done|by apply (reflexivity (R:=opens))|]. intros name []%elem_of_nil. }
  cbn [chown_walk]. unfold bindM. destruct (Hs name ltac:(left)) as [Hl Hn]. destruct (chown_one_opens name s Hl Hn) as (H1&H2&H3&H4).
  destruct (chown_one pr gid name s) as [r s1]. cbn [fst snd] in *. subst r.
  destruct (IH s1) as (I1&I2&I3). { apply (opens_sound _ s); [done|]. intros x Hx. apply Hs. by right. }
  split_and!; [done|by etrans|]. destruct I2 as (_&_&I2&I2'). destruct H4 as (Hl1&_).
  intros x [->|Hx]%elem_of_cons; [by split; [apply I2|intros; apply I2', H3]|].
  destruct (I3 x Hx) as [I4 I5]. unfold followed in *. by rewrite Hl1 in I4, I5.
Qed.
Lemma elem_of_walked p s name : name ∈ walked p s ↔ at_or_beneath p name ∧ lstat_node s name ≠ None.
Proof.
  unfold walked. rewrite elem_of_sort_by, list_elem_of_filter, elem_of_elements, elem_of_union, !elem_of_dom.
  unfold lstat_node. rewrite <-!not_eq_None_Some. destruct (sy_links s !! name); naive_solver.
Qed.
(** Links at or beneath the path lead to something. *)
Definition no_dangling (p : string) (s : Sys) : Prop :=
  ∀ link, at_or_beneath p link → sy_links s !! link ≠ None → stat_node s link ≠ None.
Lemma chownGroup_opens p s : no_dangling p s →
  (chownGroup pr p hubUser s).1 ≠ Panic ∧ opens s (chownGroup pr p hubUser s).2 ∧
  (lstat_node s p ≠ None → ∀ name, at_or_beneath p name → lstat_node s name ≠ None →
     open_at (followed s name) (chownGroup pr p hubUser s).2 ∧
     (sy_links s !! name ≠ None → wide_at (followed s name) (chownGroup pr p hubUser s).2)).
Proof.
  intros Hd.
  assert (chownGroup pr p hubUser s = if decide (lstat_node s p = None) then (Err ErrNotExist, s) else chown_walk pr gid (walked p s) s) as ->.
  { unfold chownGroup, bindM, liftR, getM. rewrite Hgroup. by case_decide. }
  case_decide as Hp; [by split_and!; [|apply (reflexivity (R:=opens))|]|].
  destruct (chown_walk_opens (walked p s) s) as (H1&H2&H3).
  { intros name [Ha Hn]%elem_of_walked. split; [done|]. specialize (Hd name Ha).
    unfold lstat_node, stat_node, followed in *. destruct (sy_links s !! name); [by apply Hd|done]. }
  split_and!; [by rewrite H1|done|]. intros _ name Ha Hn. apply H3. by apply elem_of_walked.
Qed.
Lemma give_all_cons q l s : (chownGroup pr q hubUser s).1 ≠ Panic →
  (give_all pr (q :: l) s).2 = (give_all pr l (chownGroup pr q hubUser s).2).2.
Proof.
  cbn [give_all]. unfold bindM, tryM, retM. destruct (chownGroup pr q hubUser s) as [[[]|e|] s1]; intros H; [..|done]; cbn [fst snd].
  all: by destruct (give_all pr l s1) as [[]].
Qed.
Lemma opens_no_dangling p s s' : opens s s' → no_dangling p s → no_dangling p s'.
Proof.
  intros (Hl&Hn&_) Hd link Ha. unfold no_dangling, stat_node, followed in *. rewrite Hl, Hn. by apply Hd.
Qed.
Lemma give_all_opens l s : (∀ p, p ∈ l → no_dangling p s) →
  opens s (give_all pr l s).2 ∧
  ∀ p name, p ∈ l → at_or_beneath p name → lstat_node s p ≠ None → lstat_node s name ≠ None →
    open_at (followed s name) (give_all pr l s).2 ∧
    (sy_links s !! name ≠ None → wide_at (followed s name) (give_all pr l s).2).
Proof.
  revert s. induction l as [|q l IH]; intros s Hd.
  { split; [apply (reflexivity (R:=opens))|]. intros p name []%elem_of_nil. }
  destruct (chownGroup_opens q s (Hd q ltac:(left))) as (H0&H1&H2). rewrite give_all_cons by done.
  destruct (IH (chownGroup pr q hubUser s).2) as [I1 I2].
  { intros p Hp. apply (opens_no_dangling _ s); [done|]. apply Hd. by right. }
  split; [by etrans|]. destruct H1 as (Hl&Hnn&_).
  intros p name [->|Hp]%elem_of_cons Ha Hnp Hn.
  - destruct (H2 Hnp name Ha Hn) as [G1 G2]. destruct I1 as (_&_&J1&J2). split; [by apply J1|intros; by apply J2, G2].
  - assert (∀ x, lstat_node s x ≠ None → lstat_node (chownGroup pr q hubUser s).2 x ≠ None) as Hls.
    { intros x. unfold lstat_node. rewrite Hl. destruct (sy_links s !! x); [done|by rewrite Hnn]. }
    specialize (I2 p name Hp Ha (Hls _ Hnp) (Hls _ Hn)). unfold followed in I2. by rewrite Hl in I2.
Qed.
End Reads.

(** From the unit on nothing else changes. *)
Definition only_the_unit (s s' : Sys) : Prop :=
  sy_users s' = sy_users s ∧ sy_links s' = sy_links s ∧
  ∀ name, name ≠ followed s hubUnitPath → sy_nodes s' !! name = sy_nodes s !! name.
#[export] Instance only_the_unit_preorder : PreOrder only_the_unit.
Proof.
  split; [by intros s|]. intros a b c (?&Lab&Hab) (?&Lbc&Hbc). split_and!; [congruence..|]. intros name Hn. rewrite Hbc, Hab; [done..|].
  unfold followed in *. by rewrite Lab.
Qed.
Section Whole.
Context `{HF : Files} `{HS : SshLib} (ρ : Range) (pin : string → string) (pr : Process).

Lemma start_hub_does configPath configDirs enable loaded ready exe said :
  does only_the_unit (start_hub ρ pin pr configPath configDirs enable loaded ready exe said).
Proof.
  assert (∀ args, does only_the_unit (command pr args)) as Hc by by intros args s.
  unfold start_hub. apply does_bind; [apply _| |intros _].
  - apply does_try; [apply _| |intros []; eauto with does]. intros s. unfold write_node. rewrite bind_get. cbv zeta.
    edestruct syscall_spec as [[e ->]| ->]; [done|]. split_and!; [done..|]. intros name Hn. cbn. by rewrite lookup_insert_ne.
  - destruct (negb enable); [eauto with does|]. apply does_bind; [apply _| |intros _].
    { generalize [["daemon-reload"]; ["enable"; hubUnit]]. intros l. induction l as [|args l IH]; cbn; [eauto with does|].
      apply does_bind; [apply _|apply Hc|]. intros []; eauto with does. }
    apply does_bind; [apply _|apply Hc|]. intros []; [eauto with does|]. destruct loaded as [[]| |]; eauto with does.
Qed.
Lemma unit_owned paths s s' : only_the_unit s s' → hub_owned paths s s'.
Proof. intros (_&Hl&H). split; [done|]. intros name Hn. rewrite H by done. destruct (sy_nodes s !! name); [by left|done]. Qed.
(** An installation that got anywhere is the account, then the unit. *)
Lemma installHub_split configPath configDirs enable s :
  (installHub ρ pin pr configPath configDirs enable s).2 = s ∧
    (∀ x, (installHub ρ pin pr configPath configDirs enable s).1 ≠ Ok x) ∨
  ∃ loaded ready exe, installHub ρ pin pr configPath configDirs enable s =
    (let* said := ensureHubUser pr configPath configDirs in
     start_hub ρ pin pr configPath configDirs enable loaded ready exe said) s.
Proof.
  unfold installHub. cbv zeta.
  destruct (LoadFile configPath configDirs) as [[f []]|e|]; try (by left); try (case_match; [by left|]); unfold bindM at 1, liftR;
    (destruct (own_path pr) as [exe| |]; [|by left..]); right; eauto.
Qed.
End Whole.

Section Account.
Context (pr : Process).
Lemma ensureHubUser_does configPath configDirs :
  does (hub_owned (configPath :: configDirs)) (ensureHubUser pr configPath configDirs).
Proof.
  unfold ensureHubUser. apply does_bind; [apply _|apply does_get, _|intros s].
  apply does_bind; [apply _| |intros created; apply does_bind; [apply _|by apply does_give_all|eauto with does]].
  case_decide; [eauto with does|]. destruct (pr_path pr "useradd"); [|eauto with does].
  apply does_bind; [apply _|apply does_command|intros []; [eauto with does|]].
  apply does_bind; [apply _|intros x; by apply same_nodes|eauto with does].
Qed.
Lemma give_all_users l s : sy_users (give_all pr l s).2 = sy_users s.
Proof.
  assert (PreOrder (λ s s' : Sys, sy_users s' = sy_users s)) as Hp by (split; [by intros ?|intros a b c -> ->; done]).
  assert (∀ call f, does (λ s s' : Sys, sy_users s' = sy_users s) (syscall pr call f)) as Hs.
  { intros call f x. edestruct syscall_spec as [[e ->]| ->]; done. }
  revert s. change (does (λ s s' : Sys, sy_users s' = sy_users s) (give_all pr l)).
  induction l as [|p l IH]; cbn; [eauto with does|]. apply does_bind; [done| |eauto with does]. apply does_try; [done| |eauto with does].
  unfold chownGroup. apply does_bind; [done|eauto with does|intros gid]. apply does_bind; [done|eauto with does|intros s].
  assert (∀ call name f, does (λ s s' : Sys, sy_users s' = sy_users s) (at_target pr call name f)) as Ht.
  { intros call name f. unfold at_target. apply does_bind; [done|eauto with does|intros x]. case_decide; [eauto with does|apply Hs]. }
  case_decide; [eauto with does|]. induction (walked p s) as [|n names IHn]; cbn; [eauto with does|].
  apply does_bind; [done| |done]. unfold chown_one. apply does_bind; [done|eauto with does|intros s'].
  destruct (lstat_node s' n); [|eauto with does]. by apply does_bind.
Qed.
Lemma ensureHubUser_Ok configPath configDirs s said s' :
  ensureHubUser pr configPath configDirs s = (Ok said, s') →
  hubUser ∈ sy_users s' ∧ ∃ s1, sy_nodes s1 = sy_nodes s ∧ sy_links s1 = sy_links s ∧ s' = (give_all pr (configPath :: configDirs) s1).2.
Proof.
  unfold ensureHubUser. rewrite bind_get. intros (created & s1 & Hc & H)%bindM_Ok.
  apply bindM_Ok in H as (said' & s2 & Hg & H). injection H as _ <-.
  assert (sy_nodes s1 = sy_nodes s ∧ sy_links s1 = sy_links s ∧ hubUser ∈ sy_users s1) as (Hn&Hl&Hu).
  { case_decide; [by injection Hc as _ <-|]. destruct (pr_path pr "useradd"); [|done].
    apply bindM_Ok in Hc as (failed & s3 & [= Hf <-] & Hc). destruct failed; [done|].
    apply bindM_Ok in Hc as ([] & s4 & [= <-] & Hc). injection Hc as _ <-. cbn. split_and!; [done..|set_solver]. }
  assert (s2 = (give_all pr (configPath :: configDirs) s1).2) as -> by by rewrite Hg.
  split; [by rewrite give_all_users|]. by exists s1.
Qed.
End Account.

(** C21: installing a hub lets its account read the configuration, and what
    else it opens is what links among the configuration lead to.  However the
    installation ends, no link is made or changed, and the contents and owners
    of everything on the system stay, apart from the unit that is written.
    Modes and groups change only at the configuration and beneath its
    directories, and there only so that the group may read, and enter a
    directory: no bit for anyone else, and none to write.  The exception is
    what a symbolic link at one of the paths or beneath leads to, wherever that
    is: its mode becomes that of the link, so that when nothing fails everyone
    may read it, write to it and run it.  And an installation that does not fail
    leaves the account in place, and all of the configuration that is there
    readable by it, if none of the links dangles. *)
Theorem install_opens_to_the_hub_only `{HF : Files} `{HS : SshLib} (ρ : Range) (pin : string → string) (pr : Process)
    (configPath : string) (configDirs : list string) (enable : bool) (s : Sys) :
  let paths := configPath :: configDirs in
  let '(r, s') := installHub ρ pin pr configPath configDirs enable s in
  hub_owned paths s s' ∧
  ∀ said verdict gid, r = Ok (said, verdict) → pr_groups pr hubUser = Ok gid →
    (∀ call name, call = "chown" ∨ call = "chmod" → pr_fails pr [call; name] = None) →
    (∀ p, p ∈ paths → no_dangling p s) →
    hubUser ∈ sy_users s' ∧
    ∀ p name, p ∈ paths → lstat_node s p ≠ None → at_or_beneath p name → lstat_node s name ≠ None →
      followed s name ≠ followed s hubUnitPath →
      ∃ n, sy_nodes s' !! followed s name = Some n ∧ readable gid n ∧ (sy_links s !! name ≠ None → wide n).
Proof.
  intros paths. destruct (installHub ρ pin pr configPath configDirs enable s) as [r s'] eqn:E.
  destruct (installHub_split ρ pin pr configPath configDirs enable s) as [[Hs Hno]|(loaded & ready & exe & H)].
  { rewrite E in Hs, Hno. cbn in Hs. subst s'. split; [by apply (reflexivity (R:=hub_owned paths))|].
    intros said verdict gid ->. by destruct (Hno (said, verdict)). }
  rewrite E in H. pose proof (ensureHubUser_does pr configPath configDirs s) as He. unfold bindM in H.
  destruct (ensureHubUser pr configPath configDirs s) as [[said1|e|] s1] eqn:Ee; [|by injection H as -> ->..].
  pose proof (start_hub_does ρ pin pr configPath configDirs enable loaded ready exe said1 s1) as Hu. rewrite <-H in Hu. cbn in He, Hu.
  split; [etrans; [exact He|by apply unit_owned]|]. intros said verdict gid _ Hgid Hfails Hdang.
  destruct (ensureHubUser_Ok pr _ _ _ _ _ Ee) as (Hin & s2 & Hn & Hl & ->). destruct Hu as (Hus & Hus' & Hnodes).
  split; [by rewrite Hus|].
  assert (∀ x, followed s2 x = followed s x ∧ lstat_node s2 x = lstat_node s x ∧ stat_node s2 x = stat_node s x) as Hsame.
  { intros x. unfold lstat_node, stat_node, followed. by rewrite Hn, Hl. }
  destruct (give_all_opens pr gid Hgid Hfails paths s2) as [(Hl3&_) Ho].
  { intros p Hp link Ha. rewrite Hl, (proj2 (proj2 (Hsame link))). by apply (Hdang p Hp). }
  intros p name Hp Hnp Ha Hname Hne.
  destruct (Ho p name Hp Ha) as [(n&Hnn&Hr) Hw]; [by rewrite (proj1 (proj2 (Hsame _)))..|].
  rewrite (proj1 (Hsame name)), Hl in *.
  assert (followed (give_all pr (configPath :: configDirs) s2).2 hubUnitPath = followed s hubUnitPath) as Hfu.
  { unfold followed. fold paths. by rewrite Hl3. }
  exists n. rewrite Hnodes by by rewrite Hfu.
  split_and!; [done..|]. intros Hlink. destruct (Hw Hlink) as (n'&Hn'&?). congruence.
Qed.
