(* ===== verification/SetupSpec.v ===== *)
(** * Setting a machine's daemon up: [cmd/robinet/setup.go]

    [robinet setup] runs twice: as the person who calls it, and then, by way of
    sudo, as root.  Whether both look for the machine's state in one place. *)

From Stdlib Require Import Ascii.
From S2P Require Export InstallSpec.

Open Scope Z_scope.

(** What sudo makes of a person's process: one of root's, which says who
    called, on the same accounts. *)
Record by_sudo (Ou Or : Os) (name : string) : Prop := {
  sudo_from : @Geteuid Ou ≠ 0;
  sudo_to : @Geteuid Or = 0;
  sudo_user : @Getenv Or "SUDO_USER" = name;
  sudo_name : name ≠ "" ∧ name ≠ "root";
  sudo_current : @CurrentUser Ou = inl name;
  sudo_accounts : ∀ n, @LookupUser Or n = @LookupUser Ou n;
}.

Section Sudo.
Context (Ou Or : Os) (name : string) (Hs : by_sudo Ou Or name).

Lemma same_owner : @ownerName Ou = Ok name ∧ @ownerName Or = Ok name.
Proof.
  destruct Hs as [Hf Ht Hu [Hn Hr] Hc _]. apply Z.eqb_neq in Hf. unfold ownerName. split.
  - by rewrite Hf, Hc.
  - by rewrite Ht, Hu, !bool_decide_false.
Qed.
Lemma same_home : @ownerHome Or = @ownerHome Ou.
Proof. unfold ownerHome. destruct same_owner as [-> ->]. cbn. by rewrite (sudo_accounts _ _ _ Hs). Qed.
Definition home_state (home : string) : string := JoinPath [home; ".local"; "state"; "robinet"; "tenant.json"].
(** The person's state, and where root looks for it. *)
Lemma state_of_both flag p : @statePath Ou flag = Ok p →
  if decide (flag = "" ∧ @Getenv Ou "XDG_STATE_HOME" ≠ "")
  then ∃ home, @ownerHome Ou = Ok home ∧ p = JoinPath [@Getenv Ou "XDG_STATE_HOME"; "robinet"; "tenant.json"] ∧
         @statePath Or flag = Ok (home_state home)
  else @statePath Or flag = Ok p.
Proof.
  unfold statePath. destruct (decide (flag ≠ "")) as [Hf|Hf%dec_stable].
  { intros ->. by rewrite decide_False by naive_solver. }
  unfold DefaultStatePath. rewrite same_home. intros (home & Hh & H)%bindR_Ok. rewrite Hh. cbn [bindR].
  pose proof (sudo_from _ _ _ Hs) as Hu%Z.eqb_neq. rewrite Hu in H. rewrite (sudo_to _ _ _ Hs). cbn [Z.eqb negb].
  rewrite andb_false_r. destruct (decide (@Getenv Ou "XDG_STATE_HOME" = "")) as [Hx|Hx].
  - rewrite Hx in H. rewrite decide_False by naive_solver. exact H.
  - rewrite bool_decide_false in H by done. cbn in H. injection H as <-. rewrite decide_True by done. by exists home.
Qed.
End Sudo.

Section Steps.
Context `{HO : Os} (pr : Process).

Lemma setup_unregistered f s p : sf_cleanup f = false → statePath (sf_state f) = Ok p → stat_node s p = None →
  setupCmd pr f s = (Err (Errorf "this machine is not registered with a hub yet: robinet join"), s).
Proof. intros Hc Hp Hn. unfold setupCmd, bindM, liftR, getM. rewrite Hc, Hp. by rewrite decide_True. Qed.
Lemma setup_elevates f s p n sudo exe : sf_cleanup f = false → statePath (sf_state f) = Ok p → stat_node s p = Some n →
  Geteuid ≠ 0 → pr_path pr "sudo" = Some sudo → own_path pr = Ok exe →
  setupCmd pr f s = (Ok (Became sudo (["sudo"; "--"; exe] ++ pr_args pr)), s).
Proof.
  intros Hc Hp Hn Hu%Z.eqb_neq Hs He. unfold setupCmd, bindM, liftR, getM. rewrite Hc, Hp, Hn. rewrite decide_False by done.
  rewrite Hu. cbn [negb]. unfold elevate. rewrite Hs. unfold bindM, liftR. by rewrite He.
Qed.
(** As root, nothing failing: the unit, and what systemctl is told. *)
Lemma setup_installs f s p n exe owner : sf_cleanup f = false → statePath (sf_state f) = Ok p → stat_node s p = Some n →
  Geteuid = 0 → unit_binary pr (sf_binary f) = Ok exe → pr_name pr (nd_owner n) = Ok owner →
  (∀ call, pr_fails pr call = None) → (∀ args, pr_command pr args = None) →
  ∃ said sock s', setupCmd pr f s = (Ok (Said said), s') ∧ socketPath (sf_socket f) = Ok sock ∧
    nd_content <$> stat_node s' tenantUnitPath = Some (lines (renderUnit exe p sock (sf_log f) owner)) ∧
    (∀ x, x ≠ followed s tenantUnitPath → sy_nodes s' !! x = sy_nodes s !! x) ∧
    sy_ran s' = sy_ran s ++ (if sf_noEnable f then [] else (λ args, "systemctl" :: args) <$> setup_calls).
Proof.
  intros Hc Hp Hn Hu Hb Ho Hf Hcmd. unfold setupCmd, bindM, liftR, getM, ownerOf. rewrite Hc, Hp, Hn. rewrite decide_False by done.
  rewrite Hu. cbn [Z.eqb negb]. destruct (socketPath (sf_socket f)) as [sock| |] eqn:Es.
  2,3: by unfold socketPath in Es; destruct (decide _) in Es.
  rewrite Hb, Ho. unfold tryM, write_node, bindM, getM, syscall. cbv zeta. rewrite Hf. cbn [modify retM].
  set (s1 := nodes_to _ s).
  assert (nd_content <$> stat_node s1 tenantUnitPath = Some (lines (renderUnit exe p sock (sf_log f) owner))) as H1.
  { unfold s1, stat_node, followed. cbn [sy_nodes sy_links nodes_to]. rewrite lookup_insert_eq. by destruct (sy_nodes s !! _). }
  assert (∀ x, x ≠ followed s tenantUnitPath → sy_nodes s1 !! x = sy_nodes s !! x) as H2.
  { intros x Hx. unfold s1. cbn [sy_nodes nodes_to]. by rewrite lookup_insert_ne. }
  destruct (sf_noEnable f).
  - eexists _, sock, s1. split_and!; [reflexivity|done..|by rewrite app_nil_r].
  - unfold setup_calls. cbn [systemctl_all]. unfold bindM, command. rewrite !Hcmd. cbn [retM].
    eexists _, sock, _. split_and!; [reflexivity|done|exact H1|exact H2|]. cbn. by rewrite <-!app_assoc.
Qed.
End Steps.

(** C22: [robinet setup], called by a person and then by sudo.  A machine that
    is not registered is refused at once, before a password is asked for, and
    nothing changes.  One that is becomes root's with the same arguments; and
    there, when nothing fails, the unit that is written runs this person's
    daemon on this person's state, as its owner, systemctl is told to reload,
    enable and restart, and nothing else changes.  But where the state is found
    through the person's XDG_STATE_HOME, root looks for it under the home
    directory instead: a registered machine is refused as one that is not. *)
Theorem setup_finds_the_state (Ou Or : Os) (name : string) (pu pr : Process) (f : SetupFlags) (s : Sys)
    (Hsudo : by_sudo Ou Or name) (Hf : sf_cleanup f = false) (p : string) (Hp : @statePath Ou (sf_state f) = Ok p) :
  let refused := Err (Errorf "this machine is not registered with a hub yet: robinet join") in
  match stat_node s p with
  | None => @setupCmd Ou pu f s = (refused, s)
  | Some n =>
      (∀ sudo exe, pr_path pu "sudo" = Some sudo → own_path pu = Ok exe →
        @setupCmd Ou pu f s = (Ok (Became sudo (["sudo"; "--"; exe] ++ pr_args pu)), s)) ∧
      if decide (sf_state f = "" ∧ @Getenv Ou "XDG_STATE_HOME" ≠ "")
      then ∃ home, @ownerHome Ou = Ok home ∧
        (stat_node s (home_state home) = None → @setupCmd Or pr f s = (refused, s))
      else ∀ exe owner, unit_binary pr (sf_binary f) = Ok exe → pr_name pr (nd_owner n) = Ok owner →
        (∀ call, pr_fails pr call = None) → (∀ args, pr_command pr args = None) →
        ∃ said sock s', @setupCmd Or pr f s = (Ok (Said said), s') ∧ socketPath (sf_socket f) = Ok sock ∧
          nd_content <$> stat_node s' tenantUnitPath = Some (lines (renderUnit exe p sock (sf_log f) owner)) ∧
          (∀ x, x ≠ followed s tenantUnitPath → sy_nodes s' !! x = sy_nodes s !! x) ∧
          sy_ran s' = sy_ran s ++ (if sf_noEnable f then [] else (λ args, "systemctl" :: args) <$> setup_calls)
  end.
Proof.
  intros refused. pose proof (state_of_both Ou Or name Hsudo (sf_state f) p Hp) as Hroot.
  destruct (stat_node s p) as [n|] eqn:Hn; [|by eapply setup_unregistered].
  split; [intros sudo exe Hs He; eapply setup_elevates; try done; apply Hsudo|]. case_decide.
  - destruct Hroot as (home & Hh & _ & Hr). exists home. split; [done|]. intros Hno. by eapply setup_unregistered.
  - intros exe owner Hb Ho Hfails Hcmd. eapply setup_installs; try done. apply Hsudo.
Qed.
