(* ===== verification/Up.v ===== *)
(** * The daemon from its start to its end: [cmd/robinet/tenant.go]

    [robinet up], what it checks before it serves, and what becomes of the
    machine while it does; and the end of [robinet join], which sets it up. *)

From Stdlib Require Import Ascii.
From S2P Require Export SetupSpec.

Open Scope Z_scope.

Section Up.
Context {W : Type} `{HW : HubClient W} `{HL : CertLib} `{HB : Build} `{HU : Urls} `{HJ : SocketJson} `{HO : Os}.
Abbreviation Machine := (Daemon W).

(** What happens to a daemon that is up: its ticker, which fires as it starts
    and then as it may, and requests, which only reach one that serves. *)
Inductive turn : Type := TRefresh (env : TEnv) | TRequest (q : request).
Definition is_refresh (t : turn) : Prop := match t with TRefresh _ => True | TRequest _ => False end.
#[export] Instance is_refresh_dec t : Decision (is_refresh t).
Proof. destruct t; apply _. Defined.
Definition take_turn (d : Machine) (t : turn) : Machine :=
  match t with TRefresh env => (Refresh env d).2 | TRequest q => serve_request d q end.
(** Everything before it serves. *)
Definition prepare (read_state : string → res (option data)) (w : W) (state socket : string) : res (string * Machine) :=
  let? _ := CheckNetAdmin in
  let? path := statePath state in
  let? sock := socketPath socket in
  let? file := read_state path in
  let? d := NewDaemon (OpenState file) w in
  Ok (sock, d).
(** [robinet up]: the daemon as it is when the command returns.  A socket that
    cannot be opened ends it, whatever the ticker did meanwhile. *)
Definition upCmd (senv : SocketEnv) (read_state : string → res (option data)) (w : W) (state socket : string) (turns : list turn)
    : M sockets Machine :=
  let* (sock, d) := liftR (prepare read_state w state socket) in
  λ fs, match open_socket senv (d_state d) sock fs with
        | (Ok _, fs) => (Ok (StopDaemon (foldl take_turn d turns)).2, fs)
        | (Err e, fs) => (Err e, fs)
        | (Panic, fs) => (Panic, fs)
        end.

(** ** What it does to the machine *)

Lemma turn_traced t (d : Machine) tr : (∃ l, trace (l ++ tr) (d_state d)) → ∃ l, trace (l ++ tr) (d_state (take_turn d t)).
Proof.
  intros H. destruct t as [env|q]; cbn [take_turn].
  - apply (does_trace env [DRefresh] d _ tr); [|done]. hnf. rewrite carry_out_one. cbn [run_dop].
    by destruct (Refresh env d) as [[[]| |] d'].
  - unfold serve_request. rewrite serve_state. destruct (find_control _ _ _) as [x|]; [|done].
    eapply does_trace; [apply control_does|done].
Qed.
(** A daemon that was up leaves nothing running, and a state that the writes of
    its operations made of the one in its file; it never served on the socket
    of somebody who is not allowed a device, or is not registered. *)
Theorem up_leaves_nothing_running (senv : SocketEnv) (read_state : string → res (option data)) (w : W) (state socket : string)
    (turns : list turn) (fs fs' : sockets) (d : Machine) :
  upCmd senv read_state w state socket turns fs = (Ok d, fs') →
  CheckNetAdmin = Ok () ∧ d_run d = ∅ ∧ d_routers d = ∅ ∧
  ∃ path file, statePath state = Ok path ∧ read_state path = Ok file ∧ Registered (OpenState file) = true ∧
    ∀ tr, trace tr (OpenState file) → ∃ l, trace (l ++ tr) (d_state d).
Proof.
  unfold upCmd, prepare. intros ([sock d0] & fs1 & [= Hp <-] & H)%bindM_Ok.
  apply bindR_Ok in Hp as ([] & Hc & Hp). apply bindR_Ok in Hp as (path & Hpath & Hp). apply bindR_Ok in Hp as (sk & _ & Hp).
  apply bindR_Ok in Hp as (file & Hfile & Hp). apply bindR_Ok in Hp as (d1 & Hd & Hp). injection Hp as -> ->.
  destruct (open_socket senv (d_state d0) sock fs) as [[[]| |] fs2]; [|done..]. injection H as <- _.
  unfold NewDaemon in Hd. destruct (Registered (OpenState file)) eqn:Hreg; [|done]. cbn in Hd.
  split; [done|]. split; [done|]. split; [done|]. exists path, file. split_and!; [done..|]. intros tr Htr.
  assert (∃ l, trace (l ++ tr) (d_state d0)) as H0 by (exists []; by injection Hd as <-). clear Hd Htr.
  cut (∃ l, trace (l ++ tr) (d_state (foldl take_turn d0 turns))); [done|]. revert d0 H0.
  induction turns as [|t turns IH]; intros d0 H0; [done|]. cbn. by apply IH, turn_traced.
Qed.
End Up.

Section Join.
Context `{HO : Os}.
(** What [join] goes on to once it has registered: where there is no daemon, to
    set one up by running [robinet setup]; [ran] is how that ended. *)
Definition printAfterJoin : list Printed :=
  [Line ""; Line "this machine belongs to no network yet. two ways on:"; Line "";
   Line "  robinet instance create --name <name>   start a network. connectors and other";
   Line "                                          machines join it only if you approve"; Line "";
   Line "  robinet instance list                   networks that already exist here, then";
   Line "                                          robinet instance attach <name> and its";
   Line "                                          owner decides whether to let you in"; Line "";
   Line "  robinet status                          where this machine stands, at any time"].
Definition join_end (pr : Process) (noSetup reachable : bool) (ran : list string → res ()) : M Sys (list Printed) :=
  if noSetup || reachable then retM printAfterJoin else
  let* args := runSetup pr in
  do* liftR (ran args) in
  retM ([Line ""; Line "starting the daemon, which runs as a service: this is what asks for your password"] ++ printAfterJoin).
End Join.
