(* ===== verification/NetExamples.v ===== *)
(** * A connector's network stack at work

    A gateway that resolves names with its host's resolver: flows for itself
    and for the network behind it, a listener, a splice. *)

From Stdlib Require Import Ascii.
From S2P Require Import NetSpec.

Open Scope Z_scope.

Definition eol : string := l2s [chr 10].
#[local] Instance ex_os : Os :=
  {| Geteuid := 0; Getenv _ := ""; CurrentUser := inr (Errorf "no"); LookupUser _ := inr (Errorf "no");
     ReadFile path := if decide (path = "/etc/resolv.conf")
                      then inl ("# made by hand" +:+ eol +:+ "search lan" +:+ eol +:+ "nameserver fe80::1%eth0 ; first" +:+ eol +:+
                                "nameserver 10.0.0.53" +:+ eol) else inr (Errorf "no such file") |}.
Example ex_nameservers :
  nameserversFromResolvConf "/etc/resolv.conf" = Ok ["[fe80::1%eth0]:53"; "10.0.0.53:53"] ∧
  normalizeResolver "::ffff:192.0.2.1" = Ok "192.0.2.1:53" ∧ normalizeResolver "192.0.2.1:5353" = Ok "192.0.2.1:5353" ∧
  normalizeResolver "dns.example:53" = Err (Errorf "not an ip address: %s").
Proof. split_and!; vm_compute; reflexivity. Qed.

Definition ex_making : Making := mkMaking None None (λ _, None) None.
Definition ex_own : Addr := Addr4 3323134208.
Definition ex_networks : list Prefix := [mkPrefix ex_own 24].
Definition ex_options : StackOptions := mkStackOptions true 0 true [] "" 0 0 0 1200.
Definition ex_made : res Service * bool := stack_New ex_making ex_networks ex_options.
Definition ex_service : Service :=
  match ex_made.1 with Ok s => s | _ => mkService ex_options ∅ ∅ [] end.
Lemma ex_made_is : stack_New ex_making ex_networks ex_options = (Ok ex_service, true).
Proof. vm_compute. reflexivity. Qed.

Definition ex_query : FlowID := mkFlowID ex_own 53 (Addr4 3323134209) 40000.
Definition ex_abroad : FlowID := mkFlowID (Addr6 42540766411282592856903984951653826561) 443 (Addr4 3323134209) 40000.
Example ex_flows :
  (tcpHandler None ex_query ex_service).1 = Forward "[fe80::1%eth0]:53" None ∧
  (tcpHandler None ex_abroad ex_service).1 = Forward "[2001:db8::1]:443" None ∧
  udp_flow None (mkFlowID ex_own 54 ex_own 1) ex_service = Ignore.
Proof. split_and!; vm_compute; reflexivity. Qed.

Lemma forwards_only_abroad_witness :
  named_upstream ex_options "[fe80::1%eth0]:53" ∧
  udp_flow None ex_query ex_service = Forward "[fe80::1%eth0]:53" (Some (10 * Second)).
Proof.
  assert (udp_flow None ex_query ex_service = Forward "[fe80::1%eth0]:53" (Some (10 * Second))) as Hf by (vm_compute; reflexivity).
  split; [|exact Hf].
  destruct (forwards_only_abroad ex_making ex_networks ex_options ex_service ex_service true None ex_query
              "[fe80::1%eth0]:53" (Some (10 * Second)) ex_made_is eq_refl eq_refl (or_intror Hf)) as [(_&_&_&H&_)|(Hn&_)]; [exact H|].
  exfalso. apply Hn. exists (mkPrefix ex_own 24). split; [left|reflexivity].
Defined.

(** *** A listener *)

#[local] Existing Instance any_port.
Definition ex_listening : Service := (Listen "tcp" ":80" ex_service).2.
Lemma listening_until_closed_witness :
  ∃ t, sv_made ex_listening !! 0%nat = Some t ∧
  (tcpHandler None (mkFlowID ex_own 80 (Addr4 1) 1) ex_listening).1 = Deliver 0 ∧
  Accept 0 0 (Close 0 ex_listening).2 = Some (Err EOF, (Close 0 ex_listening).2).
Proof.
  destruct (listening_until_closed ex_making ex_networks ex_options ex_service ex_listening true 0 ex_made_is)
    as (t&Ht&_&H&Hc&_).
  - apply served_listen, served_new.
  - eexists. split; [vm_compute; reflexivity|reflexivity].
  - exists t. split; [exact Ht|]. split; [|apply Hc].
    apply H; [vm_compute; reflexivity|]. assert (tl_port <$> sv_made ex_listening !! 0%nat = Some 80) as E by (vm_compute; reflexivity).
    rewrite Ht in E. injection E as ->. reflexivity.
Defined.

(** *** A device with routes *)

#[local] Instance first_match : BartTable := {|
  table_lookup rs a :=
    snd <$> foldl (λ best r, if ContainsAddr (dr_Prefix r) a &&
                               match best with Some (bits, _) => bits <=? p_bits (dr_Prefix r) | None => true end
                             then Some (p_bits (dr_Prefix r), dr_Gateway r) else best) None rs |}.
Example ex_device_routes :
  let d := newDevice ex_networks [mkDeviceRoute (mkPrefix (Addr4 167772160) 8) (Addr4 1); mkDeviceRoute (mkPrefix (Addr4 167837696) 16) (Addr4 2)] in
  RoutesFor d (Addr4 167837697) = [(Addr4 2, 1)] ∧ RoutesFor d (Addr4 167903233) = [(Addr4 1, 1)] ∧
  RoutesFor d (Addr4 99) = [(Addr4 99, 1)] ∧ RoutesFor (newDevice ex_networks []) (Addr4 167837697) = [(Addr4 167837697, 1)].
Proof. split_and!; vm_compute; reflexivity. Qed.
