(* ===== verification/DnsExamples.v ===== *)
(** * The router and the resolver at work

    A message library in a few lines, to run the router with: a message is a
    line of fields per record, and a builder only finishes a message that
    reads back as it was written.  Then a table, questions, a stream, and a
    plan that is applied. *)

From Stdlib Require Import Ascii.
From S2P Require Export DnsSpec ApplySpec.

Open Scope Z_scope.

(** ** Messages as text *)

Record Toy : Type := mkToy {
  ty_header : MsgHeader;
  ty_questions : list Question;
  ty_answers : list Resource;
  ty_additionals : list ResourceHeader;
}.
#[export] Instance Resource_eq_dec : EqDecision Resource.
Proof. solve_decision. Defined.
#[export] Instance Toy_eq_dec : EqDecision Toy.
Proof. solve_decision. Defined.

Definition bit (b : bool) : string := if b then "1" else "0".
Definition unbit (s : string) : bool := bool_decide (s = "1").
Definition fields_of (s : string) : list string := Split s "|"%char.
Definition line (l : list string) : string := Join l "|".

Definition enc_rh (h : ResourceHeader) : list string :=
  [rh_Name h; Itoa (rh_Type h); Itoa (rh_Class h); Itoa (rh_TTL h)].
Definition enc_body (b : Body) : list string :=
  match b with
  | AResource a => ["A"; a] | AAAAResource a => ["AAAA"; a]
  | CNAMEResource t => ["CNAME"; t] | OtherResource raw => ["other"; raw]
  end.
Definition enc_toy (m : Toy) : string :=
  let h := ty_header m in
  Join ([line [Itoa (mh_ID h); bit (mh_Response h); Itoa (mh_OpCode h); bit (mh_Authoritative h);
               bit (mh_Truncated h); bit (mh_RecursionDesired h); bit (mh_RecursionAvailable h);
               bit (mh_AuthenticData h); bit (mh_CheckingDisabled h); Itoa (mh_RCode h)]]
        ++ ((λ q, line ["q"; qu_Name q; Itoa (qu_Type q); Itoa (qu_Class q)]) <$> ty_questions m)
        ++ ((λ r, line ("r" :: enc_rh (re_Header r) ++ enc_body (re_Body r))) <$> ty_answers m)
        ++ ((λ h, line ("x" :: enc_rh h)) <$> ty_additionals m)) "/".

Definition numeral (s : string) : Z := default 0 (Atoi s).
Definition dec_line (m : Toy) (l : string) : Toy :=
  match fields_of l with
  | ["q"; n; t; c] => mkToy (ty_header m) (ty_questions m ++ [mkQuestion n (numeral t) (numeral c)]) (ty_answers m) (ty_additionals m)
  | ["r"; n; t; c; ttl; kind; d] =>
      let body := if decide (kind = "A") then AResource d else if decide (kind = "AAAA") then AAAAResource d
                  else if decide (kind = "CNAME") then CNAMEResource d else OtherResource d in
      mkToy (ty_header m) (ty_questions m)
        (ty_answers m ++ [mkResource (mkResourceHeader n (numeral t) (numeral c) (numeral ttl)) body]) (ty_additionals m)
  | ["x"; n; t; c; ttl] =>
      mkToy (ty_header m) (ty_questions m) (ty_answers m)
        (ty_additionals m ++ [mkResourceHeader n (numeral t) (numeral c) (numeral ttl)])
  | _ => m
  end.
Definition dec_toy (w : string) : option Toy :=
  match Split w "/"%char with
  | h :: l =>
      match fields_of h with
      | [id; r; op; aa; tc; rd; ra; ad; cd; rc] =>
          Some (foldl dec_line
                  (mkToy (mkMsgHeader (numeral id) (unbit r) (numeral op) (unbit aa) (unbit tc) (unbit rd) (unbit ra)
                            (unbit ad) (unbit cd) (numeral rc)) [] [] []) l)
      | _ => None
      end
  | [] => None
  end.

Definition ErrToy : error := Errorf "not a message".
Definition low_rcode (m : Toy) : Toy :=
  let h := ty_header m in
  mkToy (mkMsgHeader (mh_ID h) (mh_Response h) (mh_OpCode h) (mh_Authoritative h) (mh_Truncated h)
           (mh_RecursionDesired h) (mh_RecursionAvailable h) (mh_AuthenticData h) (mh_CheckingDisabled h)
           (mh_RCode h mod 16)) (ty_questions m) (ty_answers m) (ty_additionals m).
Definition toy_finish (m : Toy) : res string :=
  if decide (dec_toy (enc_toy (low_rcode m)) = Some (low_rcode m)) then Ok (enc_toy (low_rcode m)) else Err ErrToy.
Definition toy_additional (m : Toy) : res (ResourceHeader * Toy) :=
  match ty_additionals m with
  | h :: _ => if decide (0 ≤ rh_Class h < 65536) then Ok (h, m) else Err ErrToy
  | [] => Err ErrToy
  end.
#[local] Program Instance toy_messages : DnsMessage := {|
  Parser := Toy;
  remaining m := length (ty_additionals m);
  ErrSectionDone := Errorf "parsing/packing of this section has completed";
  NewName s := if (254 <? len s)%nat then Err ErrToy else Ok s;
  Start w := match dec_toy w with Some m => Ok (ty_header m, m) | None => Err ErrToy end;
  ParseQuestion m := match ty_questions m with
                     | q :: l => Ok (q, mkToy (ty_header m) l (ty_answers m) (ty_additionals m))
                     | [] => Err ErrToy
                     end;
  AllQuestions m := Ok (ty_questions m, m);
  AllAnswers m := (ty_answers m, None);
  SkipAllQuestions m := Ok m;
  SkipAllAnswers m := Ok m;
  SkipAllAuthorities m := Ok m;
  AdditionalHeader := toy_additional;
  SkipAdditional m := match ty_additionals m with
                      | _ :: l => Ok (mkToy (ty_header m) (ty_questions m) (ty_answers m) l)
                      | [] => Err ErrToy
                      end;
  Builder := Toy;
  written m := (ty_header m, ty_questions m, (λ r, (rh_Name (re_Header r), re_Body r)) <$> ty_answers m);
  NewBuilder h := mkToy h [] [] [];
  EnableCompression m := m;
  StartQuestions m := Ok m;
  PutQuestion q m := Ok (mkToy (ty_header m) (ty_questions m ++ [q]) (ty_answers m) (ty_additionals m));
  StartAnswers m := Ok m;
  PutResource h b m := Ok (mkToy (ty_header m) (ty_questions m) (ty_answers m ++ [mkResource h b]) (ty_additionals m));
  Finish := toy_finish;
|}.
Next Obligation. intros s n H. cbn beta in H. destruct (254 <? len s)%nat; [done|]. by injection H. Qed.
Next Obligation.
  intros p h p'. unfold toy_additional. destruct (ty_additionals p) eqn:E; [done|].
  case_decide; [|done]. intros [= <- <-]. rewrite E. done.
Qed.
Next Obligation. intros p p'. cbn. destruct (ty_additionals p) eqn:E; [done|]. intros [= <-]. simpl. lia. Qed.
Next Obligation. done. Qed.
Next Obligation. done. Qed.
Next Obligation. cbn. by intros b b' [= <-]. Qed.
Next Obligation. cbn. by intros b b' [= <-]. Qed.
Next Obligation. cbn. by intros q b b' [= <-]. Qed.
Next Obligation. cbn. intros h body b b' [= <-]. simpl. by rewrite fmap_app. Qed.
Next Obligation.
  cbn. intros b w. unfold toy_finish. case_decide as E; [|done]. intros [= <-].
  rewrite E. eexists _, _, _, _. done.
Qed.

(** ** A table, and who is asked *)

Definition ex_route : RouteTable :=
  {| tb_Instance := "id1"; tb_Overlay := mkPrefix (Addr4 3323133952) 24;
     tb_Lighthouse := mkLighthouse (Addr4 3323133953) AddrZero ["hub.example:20000"] true;
     tb_Routes := [mkRoute (mkPrefix (Addr4 167772160) 8) (Addr4 3323134206) "db"];
     tb_Resolvers := [mkResolver "Railway.Internal." (Addr4 3323134206) AddrZero "db"];
     tb_Blocked := []; tb_MTU := 1300 |}.
Definition ex_table : routerTable := table_for range_default {["pg.lan" := "postgres.db.lab.robinet"]} ex_route "lab".
Example ex_table_is :
  (λ r, (rr_Virtual r, rr_Real r, rr_IPv4 r, rr_IPv6 r)) <$> ex_table =
  [("db.lab.robinet", "railway.internal", true, false); ("lab.instance", "lab.instance", true, true);
   ("pg.lan", "railway.internal", true, false)].
Proof. vm_compute. reflexivity. Qed.

Definition ex_header : MsgHeader := mkMsgHeader 7 false 0 false false true false false false 0.
Definition ex_question (name : string) (type : Z) : Question := mkQuestion name type 1.
Definition ex_query (name : string) (type : Z) (adds : list ResourceHeader) : string :=
  enc_toy (mkToy ex_header [ex_question name type] [] adds).
(** The connector's resolver: the name is an alias of one that has an address. *)
Definition ex_reply (query : string) : res string :=
  match dec_toy query with
  | Some (mkToy h ([q] as qs) _ _) =>
      Ok (enc_toy (mkToy (set_reply false true 0 h) qs
                     [mkResource (mkResourceHeader (qu_Name q) 5 1 60) (CNAMEResource "pg-0.railway.internal.");
                      mkResource (mkResourceHeader "pg-0.railway.internal." 1 1 60) (AResource "10.0.0.9");
                      mkResource (mkResourceHeader "pg-0.railway.internal." 28 1 60) (AAAAResource "fd00::9")] []))
  | _ => Err ErrToy
  end.
#[local] Instance toy_net : DnsNet :=
  {| ask_udp := λ _ q, ex_reply q;
     ask_tcp := λ _ framed, let? (q, _) := readTCPMessage framed in let? r := ex_reply q in writeTCPMessage r |}.

Definition ex_asked : string := ex_query "PG.db.lab.robinet." 1 [].
Definition ex_answer : string := match answer ex_table ex_asked false with Ok w => w | _ => "" end.
(** The names come back under the connector's name space, and the address of a
    family there is no route of is left out. *)
Example ex_answered :
  match dec_toy ex_answer with
  | Some m => Some ((λ r, (rh_Name (re_Header r), re_Body r)) <$> ty_answers m)
  | None => None
  end = Some [("pg.db.lab.robinet.", CNAMEResource "pg-0.db.lab.robinet.");
              ("pg-0.db.lab.robinet.", AResource "10.0.0.9")].
Proof. vm_compute. reflexivity. Qed.

(** ** The theorems at this table *)

Lemma match_is_longest_witness :
  rr_Virtual <$> matchRoute ex_table "a.pg.lan." = rr_Virtual <$> matchRoute (reverse ex_table) "a.pg.lan.".
Proof. apply (match_is_longest ex_table (reverse ex_table) "a.pg.lan."). by rewrite reverse_Permutation. Defined.

Definition ex_lab : routerRoute := mkRouterRoute "db.lab.robinet" "railway.internal" (Addr4 3323134206) true false.
Lemma names_come_back_witness :
  rewriteName ex_lab "PG.db.lab.robinet." = "pg.railway.internal." ∧
  restoreName ex_lab "pg-0.railway.internal." = "pg-0.db.lab.robinet.".
Proof.
  assert (zone_ok "db.lab.robinet") as HV.
  { split_and!; [done|by apply (bool_decide_unpack _); vm_compute|reflexivity]. }
  assert (zone_ok "railway.internal") as HR.
  { split_and!; [done|by apply (bool_decide_unpack _); vm_compute|reflexivity]. }
  assert (∀ x, x = "pg" ∨ x = "pg-0" → Forall plain (s2l x)) as Hx.
  { intros x [->| ->]; by apply (bool_decide_unpack _); vm_compute. }
  split.
  - apply (names_come_back ex_lab "pg" "PG.db.lab.robinet." HV eq_refl HR (Hx _ (or_introl eq_refl))).
    by vm_compute.
  - apply (names_come_back ex_lab "pg-0" "pg-0.railway.internal." HV eq_refl HR (Hx _ (or_intror eq_refl))).
    by vm_compute.
Defined.

Lemma answers_are_reachable_witness : ∃ h l,
  reads ex_answer h [ex_question "PG.db.lab.robinet." 1] l ∧ mh_Response h = true.
Proof.
  destruct (answers_are_reachable range_default {["pg.lan" := "postgres.db.lab.robinet"]} ex_route "lab"
              ex_asked ex_answer false) as (header&parser&q&parser'&h&l&Hs&Hq&Hr&Hh&_).
  - vm_compute. reflexivity.
  - exists h, l. split; [|exact Hh]. clear Hh.
    assert (q = ex_question "PG.db.lab.robinet." 1) as <-; [|exact Hr].
    vm_compute in Hs. injection Hs as <- <-. vm_compute in Hq. by injection Hq.
Defined.

Definition answered (r : res string) : bool := match r with Ok _ => true | _ => false end.
Definition fits_frame (w : string) : bool := (1 <=? len w)%nat && (Z.of_nat (len w) <=? 65535).
Lemma fits_frames l : forallb fits_frame l = true → Forall framable l.
Proof.
  rewrite Forall_forall. intros H x Hx%list_elem_of_In. pose proof (proj1 (forallb_forall _ _) H x Hx) as E.
  unfold fits_frame in E. apply andb_true_iff in E as [E1 E2]. split; [by apply Nat.leb_le|by apply Z.leb_le].
Qed.
(** Two questions sent one after the other. *)
Definition ex_queries : list string := [ex_query "pg.db.lab.robinet." 1 []; ex_query "nowhere." 1 []].
Definition ex_replies : list string :=
  (λ q, match answer ex_table q true with Ok w => w | _ => "" end) <$> ex_queries.
Definition ex_stream : string := match frames ex_queries with Ok w => w | _ => "" end.
Lemma ex_all_answered : forallb (λ q, answered (answer ex_table q true)) ex_queries = true.
Proof. vm_compute. reflexivity. Qed.
Lemma ex_answered_at i q a :
  ex_queries !! i = Some q → ex_replies !! i = Some a → answer ex_table q true = Ok a.
Proof.
  intros Hq Ha. unfold ex_replies in Ha. rewrite list_lookup_fmap, Hq in Ha. apply (inj Some) in Ha. subst a.
  apply list_elem_of_lookup_2, list_elem_of_In in Hq.
  pose proof (proj1 (forallb_forall _ _) ex_all_answered q Hq) as H. unfold answered in H. clear Hq.
  by destruct (answer ex_table q true).
Qed.
Lemma tcp_conversation_ends_witness : ∃ w,
  serveTCP (λ _, ex_table) ex_stream = Some w ∧ read_all 3 w = ex_replies.
Proof.
  assert (Forall framable ex_queries ∧ Forall framable ex_replies) as [Hq Hr].
  { split; apply fits_frames; vm_compute; reflexivity. }
  destruct (proj2 (tcp_conversation_ends (λ _, ex_table) ex_stream) ex_queries ex_replies Hq Hr eq_refl)
    as (w&Hw&_&Hread).
  - exact ex_answered_at.
  - vm_compute. reflexivity.
  - exists w. split; [exact Hw|exact Hread].
Defined.

(** A reply over the size the asker announced. *)
Definition ex_opt (size : Z) : ResourceHeader := mkResourceHeader "." TypeOPT size 0.
Definition ex_datagram : string := ex_query "pg.db.lab.robinet." 1 [ex_opt 1232].
Definition ex_sent : string := match serve_datagram ex_table ex_datagram with Some w => w | None => "" end.
Lemma datagram_fits_witness : ∃ limit, udpLimit ex_datagram = Some limit ∧ 512 ≤ limit < 65536.
Proof.
  destruct (datagram_fits ex_table ex_datagram ex_sent) as (limit&H&Hl&_).
  - vm_compute. reflexivity.
  - exists limit. split; [exact H|exact Hl].
Defined.

(** ** A plan, applied over what an earlier one left *)

Definition ex_renv : REnv :=
  {| has_resolvectl := true; resolvectl_fails := λ _, None; write_fails := λ _, None; remove_fails := λ _, false |}.
Definition ex_plan : list DNSEntry :=
  [mkDNSEntry "lab" "robinet0" ["198.19.0.2:5354"] ["db.lab.robinet"; "lab.instance"];
   mkDNSEntry "attic" "robinet1" [] []].
Definition ex_before : Resolved :=
  mkResolved {["/etc/systemd/network/90-robinet-robinet7.network" := "stale";
               "/etc/systemd/network/10-eth0.network" := "mine"]} ∅.
(** What is asked of the resolver when all of it is to be taken off. *)
Definition ex_taken_off : list DNSEntry := [mkDNSEntry "lab" "robinet0" [] []; mkDNSEntry "attic" "robinet1" [] []].
Example ex_applied_files :
  sort_strings (map_to_list (units (Apply ex_renv ModeSystemd ex_plan ex_before).2)).*1 =
  ["/etc/systemd/network/10-eth0.network"; "/etc/systemd/network/90-robinet-robinet0.network"].
Proof. vm_compute. reflexivity. Qed.

(** Without the resolver's binary the files of an earlier plan are gone
    before the error is met. *)
Definition ex_no_resolver : REnv :=
  {| has_resolvectl := false; resolvectl_fails := λ _, None; write_fails := λ _, None; remove_fails := λ _, false |}.
Example swept_before_refused :
  (Apply ex_no_resolver ModeSystemd ex_plan ex_before).1 ≠ Ok () ∧
  units (Apply ex_no_resolver ModeSystemd ex_plan ex_before).2 !! "/etc/systemd/network/90-robinet-robinet7.network" = None.
Proof. split; vm_compute; [discriminate|reflexivity]. Qed.
