(* ===== verification/MachineExamples.v ===== *)
(** * A machine, a connector and their hub at work

    The daemon of the machine that owns the instance of [HubExamples], with
    the hub of that run behind its client, and a connector that waits for the
    answer of that hub.  Certificates are lines of text here. *)

From Stdlib Require Import Ascii.
From S2P Require Import HubExamples.
From S2P Require Export RunSpec ConnSpec.
From S2P Require DnsExamples.

Open Scope Z_scope.

#[local] Existing Instance toy_crypto.

(** ** Certificates as text *)

(** The four words of an address of IPv6 are written apart. *)
Definition word32 (n i : Z) : Z := Z.land (Z.shiftr n (32 * i)) (2 ^ 32 - 1).
Definition enc_prefix (p : Prefix) : string :=
  match p_addr p with
  | AddrZero => "-"
  | Addr4 n => "4:" +:+ Itoa n +:+ ":" +:+ Itoa (p_bits p)
  | Addr6 n => "6:" +:+ Join (Itoa ∘ word32 n <$> [3; 2; 1; 0]) ":" +:+ ":" +:+ Itoa (p_bits p)
  end.
Definition number (s : string) : Z := default 0 (Atoi s).
Definition dec_prefix (s : string) : Prefix :=
  match Split s ":"%char with
  | ["4"; n; b] => mkPrefix (Addr4 (number n)) (number b)
  | ["6"; w3; w2; w1; w0; b] =>
      mkPrefix (Addr6 (foldl (λ n w, n * 2 ^ 32 + number w) 0 [w3; w2; w1; w0])) (number b)
  | _ => PrefixZero
  end.
Definition dec_list {A} (f : string → A) (s : string) : list A :=
  if decide (s = "") then [] else f <$> Split s ","%char.
Definition enc_cert (c : TBSCertificate) : string :=
  Join ["cert"; tb_Name c; Join (enc_prefix <$> tb_Networks c) ","; Join (enc_prefix <$> tb_UnsafeNetworks c) ",";
        Join (tb_Groups c) ","; Itoa (tb_NotBefore c); Itoa (tb_NotAfter c); tb_PublicKey c;
        (if tb_IsCA c then "ca" else "host"); Itoa (tb_Curve c)] "|".
Definition dec_cert (s : string) : option TBSCertificate :=
  match Split s "|"%char with
  | ["cert"; n; nets; unsafe; groups; nb; na; pub; ca; curve] =>
      Some (mkTBS n (dec_list dec_prefix nets) (dec_list dec_prefix unsafe) (dec_list id groups)
              (number nb) (number na) pub (bool_decide (ca = "ca")) (number curve))
  | _ => None
  end.
Definition at_seconds (t : TBSCertificate) : TBSCertificate :=
  mkTBS (tb_Name t) (tb_Networks t) (tb_UnsafeNetworks t) (tb_Groups t) (whole_seconds (tb_NotBefore t))
    (whole_seconds (tb_NotAfter t)) (tb_PublicKey t) (tb_IsCA t) (tb_Curve t).
Definition ErrCert : error := Errorf "not a certificate".

#[local] Program Instance toy_certs : CertLib := {|
  Cert := TBSCertificate;
  details c := c;
  TBS_Sign tbs signer curve key := Ok (at_seconds tbs);
  MarshalPEM c := if decide (dec_cert (enc_cert c) = Some c) then Ok (enc_cert c) else Err ErrCert;
  UnmarshalCertificateFromPEM s := match dec_cert s with Some c => Ok c | None => Err ErrCert end;
  CertFingerprint c := Ok ("fp " +:+ tb_Name c);
  VerifyPrivateKey c curve key := Ok ();
  MarshalSigningPrivateKeyToPEM curve key := "signing " +:+ key;
  UnmarshalSigningPrivateKeyFromPEM s :=
    match CutPrefix s "signing " with Some key => Ok (key, 0) | None => Err ErrCert end;
  MarshalPublicKeyToPEM curve key := "pub " +:+ key;
  MarshalPrivateKeyToPEM curve key := "priv " +:+ key;
  UnmarshalPublicKeyFromPEM s := match CutPrefix s "pub " with Some key => Ok (key, 0) | None => Err ErrCert end;
|}.
Next Obligation. intros tbs signer curve key c. cbn. by intros [= <-]. Qed.
Next Obligation. cbn. intros c pem. case_decide as E; [|done]. intros [= <-]. by rewrite E. Qed.

#[local] Instance ex_build : Build := toy_build false.
#[local] Instance ex_urls : Urls := {| url_Host s := CutPrefix s "https://" |}.

(** ** The hub behind the client *)

Definition hub_env : Env := ex_env 9.
Definition reading {A} (f : Hub → res A) : M Hub A := λ h, (f h, h).
Definition ErrUnused : error := Errorf "not in this run".
Definition ex_who : Registration := mkRegistration ex_owner "mara" "laptop" "" 0 0.
Definition client_at (env : Env) : HubClient Hub :=
  {| hc_createInstance := λ _ _, raise ErrUnused;
     hc_instances := reading (λ h, Ok (summarize env h ex_who <$> List range_default (h_store h)));
     hc_activate := λ _ _ _, raise ErrUnused;
     hc_pending := λ id, reading (λ h, Pending range_default h id);
     hc_decide := λ id rid d, Decide env id rid d;
     hc_forget := λ id rid, Forget env id rid;
     hc_ban := λ id ref note, Ban env id ref note;
     hc_unban := λ id ref note, Unban env id ref note;
     hc_setToken := λ id token, SetSharedToken env id token;
     hc_join := λ _ _ _, raise (Errorf "no route to host");
     hc_joinResult := λ _, raise ErrUnused;
     hc_deleteInstance := λ id, Delete env id;
     hc_removeMember := λ id ref, RemoveMember env id ref;
     hc_members := λ id, reading (λ h, MembersOf range_default h id);
     hc_routes := λ id, reading (λ h, Routes range_default h id) |}.
#[local] Instance hub_client : HubClient Hub := client_at hub_env.

(** ** The machine that owns the instance *)

Definition ex_tenv : TEnv := mkTEnv hub_env (λ _, None) (λ _, None) None (inr ("capub", "capriv")) (inr ("mpub", "mpriv")).
Definition ex_overlay : Prefix := i_Overlay (ex_inst ex_h2 "id1").
Definition ex_overlay6 : Prefix := i_Overlay6 (ex_inst ex_h2 "id1").
Definition ex_ca : string * string :=
  match Generate 0 (inr ("capub", "capriv")) "robinet-lab" [ex_overlay; ex_overlay6] 0 with
  | Ok (_, cert, key) => (cert, key)
  | _ => ("", "")
  end.
Definition ex_owned : Owned := mkOwned "id1" "lab" ex_ca.1 ex_ca.2 "secret".
Definition ex_data : data :=
  set_instances (Some {["id1" := ex_owned]}) (Some ∅)
    (set_registration "https://hub.example:8443" "identity" "mara" "laptop" false "" "mara" 1000 1000 data_zero).
(** A request whose key a certificate can be made of. *)
Definition ex_request' : Request := mkRequest "pub dbkey" "db" [mkPrefix (Addr4 167772160) 8] "" None.
Definition ex_hub : Hub := ex_run 2 (OpEnroll "lab" ex_request' (ex_applicant ex_request')) ex_h1.
Definition ex_daemon : Daemon Hub := mkDaemon (OpenState (Some ex_data)) ∅ ∅ ex_hub.

Definition ex_approved : Daemon Hub := (ApproveRequest ex_tenv "id2" None false "" ex_daemon).2.
Definition ex_result : Result :=
  match ResultOf range_default (d_world ex_approved) "id1" "id2" with Ok r => r | _ => mkResult StatusPending 0 None "" end.
(** What the machine signed reaches the connector through the hub. *)
Example ex_approval_arrives :
  rs_Status ex_result = StatusApproved ∧
  (λ b, (λ c, (tb_Name c, tb_UnsafeNetworks c)) <$> dec_cert (bu_Certificate b)) <$> rs_Bundle ex_result =
    Some (Some ("db.connector.lab.instance", [mkPrefix (Addr4 167772160) 8])).
Proof. split; vm_compute; reflexivity. Qed.

(** ** The theorems at this machine *)

Lemma devices_distinct_witness :
  let d := pending_connection ex_tenv "id9" "attic" "pub" "priv" (nextDevice (st_data (OpenState None))) in
  let s := (Write hub_env (put_connection d) (OpenState None)).2 in
  data_ok (st_data s) ∧ ∀ f, st_file s = Some f → data_ok f.
Proof.
  cbv zeta.
  set (fn := λ dt, put_connection (pending_connection ex_tenv "id9" "attic" "pub" "priv" (nextDevice dt)) dt).
  apply (proj1 (proj2 (devices_distinct (W := Hub))) [st_data (Write hub_env fn (OpenState None)).2]
           (Write hub_env fn (OpenState None)).2).
  - apply trace_write; [apply trace_open|]. apply op_connect. done.
  - repeat constructor.
Defined.

Lemma approved_as_decided_witness : ∃ e owned dec c,
  ApproveRequest ex_tenv "id2" None false "" ex_daemon = (Ok e, ex_approved) ∧
  pe_Routes e = [mkPrefix (Addr4 167772160) 8] ∧ approval_of owned e dec c.
Proof.
  assert (∃ e, ApproveRequest ex_tenv "id2" None false "" ex_daemon = (Ok e, ex_approved) ∧
               pe_Routes e = [mkPrefix (Addr4 167772160) 8]) as (e&He&Hr).
  { eexists. split; vm_compute; reflexivity. }
  destruct (approved_as_decided ex_tenv "id2" None false "" ex_daemon ex_approved e He) as (owned&dec&c&_&_&_&_&_&_&H&_).
  exists e, owned, dec, c. split; [exact He|]. split; [exact Hr|exact H].
Defined.

(** *** Members *)

Definition ex_members_of (h : Hub) (id : string) : res (list Member) := MembersOf range_default h id.
Lemma ex_members_read h id : ex_members_of h id ≠ Panic.
Proof. unfold ex_members_of, MembersOf, Get. destruct (_ !! _); discriminate. Qed.
Definition ex_ban : MemberRef := mkMemberRef "db" "" "lost".
(** The owner is called what its instance is, and has no fingerprint. *)
Definition ex_ban_owner : MemberRef := mkMemberRef "lab" "" "by mistake".
(** The hub on a day it walks its maps the other way around. *)
Lemma reversed_perm A (m : gmap string A) : rev (map_to_list m) ≡ₚ map_to_list m.
Proof. symmetry. apply Permutation_rev. Qed.
Definition range_reversed : Range := {| range A m := rev (map_to_list m); range_perm := reversed_perm |}.
Definition another_day : HubClient Hub :=
  client_at {| now := 9; newID := "id9"; GenerateHostKey := inr ("pub", "key"); save_fault := None;
               nebula_start := None; nebula_reload := None; ρ_of := range_reversed |}.
Definition banned_names (h : Hub) : list string :=
  match ex_members_of h "id1" with Ok ms => m_Name <$> filter (λ m, Banned m = true) ms | _ => [] end.

(** *** Connections *)

Definition ex_tables (h : Hub) (id : string) : res RouteTable := Routes range_default h id.
Lemma ex_tables_read h id : ex_tables h id ≠ Panic.
Proof. unfold ex_tables, Routes, Get. destruct (_ !! _); discriminate. Qed.
Definition ex_conn (id name : string) : Connection :=
  mkConnection id name KindTenant "pub" "priv" "certificate" "authority" (mkPrefix (Addr4 3323134000) 24) PrefixZero
    (mkLighthouse (Addr4 3323133953) AddrZero ["hub.example:20000"] true) 1300 "robinet0" 0 0 0.
Definition ex_connected : data :=
  set_Connections (Some {["id1" := ex_conn "id1" "lab"; "id8" := ex_conn "id8" "attic"]}) ex_data.
(** The table of the hub's instance, and one of another that overlaps it. *)
Definition ex_tb (p : Prefix) : RouteTable :=
  {| tb_Instance := "attic"; tb_Overlay := mkPrefix (Addr4 3323134208) 24;
     tb_Lighthouse := mkLighthouse (Addr4 3323134209) AddrZero ["hub.example:20001"] true;
     tb_Routes := [mkRoute p (Addr4 3323134300) "nas"]; tb_Resolvers := []; tb_Blocked := []; tb_MTU := 1300 |}.
Definition ex_running : Daemon Hub :=
  mkDaemon (OpenState (Some ex_connected)) {["id1" := mkRunner "id1" (TMap [])]} ∅ (d_world ex_approved).
Lemma started_without_overlap_witness :
  (∃ e, startConnection ex_tenv (ex_conn "id8" "attic") (ex_tb (mkPrefix (Addr4 167772160) 16)) ex_running = (Err e, ex_running)) ∧
  (startConnection ex_tenv (ex_conn "id8" "attic") (ex_tb (mkPrefix (Addr4 2886729728) 12)) ex_running).1 = Ok ().
Proof.
  split; [|vm_compute; reflexivity].
  apply (proj1 (started_without_overlap (HW := hub_client) ex_tables (λ _ _, eq_refl) ex_tables_read ex_tenv (ex_conn "id8" "attic")
           (ex_tb (mkPrefix (Addr4 167772160) 16)) ex_running)).
  exists "lab", (mkPrefix (Addr4 167772160) 8), (mkPrefix (Addr4 167772160) 16).
  assert (∃ t, ex_tables (d_world ex_running) (cn_InstanceID (ex_conn "id1" "lab")) = Ok t ∧
            mkPrefix (Addr4 167772160) 8 ∈ (rt_Prefix <$> tb_Routes t)) as (t&Ht&Hin).
  { eexists. split; [vm_compute; reflexivity|]. left. }
  split; [discriminate|]. split; [|split; [left|reflexivity]].
  exists (ex_conn "id1" "lab"), t. split_and!; [|discriminate|reflexivity|reflexivity|exact Ht|exact Hin].
  vm_compute. first [left|right; left].
Defined.

Definition ex_ops : list (TEnv * DOp) := [(ex_tenv, DRefresh); (ex_tenv, DInbound "open")].
Definition ex_resting : Daemon Hub := mkDaemon (OpenState (Some ex_connected)) ∅ ∅ (d_world ex_approved).
Definition ex_refreshed : Daemon Hub := foldl (λ d eo, (run_dop eo.1 eo.2 d).2) ex_resting ex_ops.

(** *** Asking to be let in, with a hub that does not answer *)

Definition ex_stranger : Daemon Hub := mkDaemon (OpenState (Some (set_instances (Some ∅) (Some ∅) ex_data))) ∅ ∅ ex_hub.
Definition ex_target : InstanceSummary := summarize hub_env ex_hub ex_who (ex_inst ex_hub "id1").
Lemma asked_once_witness :
  (Connect ex_tenv "lab" ex_stranger).1 ≠ Ok () ∧
  Connect ex_tenv "id1" (Connect ex_tenv "lab" ex_stranger).2 = (Ok (), (Connect ex_tenv "lab" ex_stranger).2).
Proof.
  split; [vm_compute; discriminate|].
  destruct (asked_once (HW := hub_client) ex_tenv "lab" ex_stranger ex_stranger (Connect ex_tenv "lab" ex_stranger).2
              ex_target "pub mpub" "priv mpriv" (Connect ex_tenv "lab" ex_stranger).1) as (_&_&H).
  - vm_compute. reflexivity.
  - vm_compute. reflexivity.
  - reflexivity.
  - vm_compute. reflexivity.
  - eexists. reflexivity.
  - reflexivity.
  - reflexivity.
  - apply surjective_pairing.
  - apply H. left. vm_compute. reflexivity.
Defined.
(** By the beginning of the id of an instance it is connected to, the machine
    asks anew and loses its certificate. *)
Example ex_prefix_starts_over :
  (λ c, (cn_Certificate c, cn_PrivateKey c)) <$> ConnectionOf (d_state ex_refreshed) "id1" = Some ("certificate", "priv") ∧
  (λ c, (cn_Certificate c, cn_PrivateKey c)) <$>
    ConnectionOf (d_state (Connect ex_tenv "id" (mkDaemon (OpenState (Some (set_instances (Some ∅) (dt_Connections ex_connected) ex_data)))
                                                    ∅ ∅ ex_hub)).2) "id1" = Some ("", "priv mpriv").
Proof. split; vm_compute; reflexivity. Qed.

(** *** What a refresh read before *)

(** A refresh that read the connections before one was let go of starts it
    again, and then it runs while the state knows nothing of it. *)
Definition ex_left : Daemon Hub := (Disconnect ex_tenv "lab" ex_running).2.
Example disconnect_during_refresh :
  (Disconnect ex_tenv "lab" ex_running).1 = Ok () ∧
  run_isRunning (d_run ex_left) "id1" = false ∧
  (let d := (refresh_one ex_tenv (ex_conn "id1" "lab") ex_left).2 in
   run_isRunning (d_run d) "id1" = true ∧ ConnectionOf (d_state d) "id1" = None).
Proof. cbv zeta. split_and!; vm_compute; reflexivity. Qed.

(** A network that a running connection takes on with a new table is not
    compared with what the others carry. *)
Example reload_is_not_compared :
  let conn := ex_conn "id8" "attic" in
  let running := {["id1" := mkRunner "id1" (TMap []); "id8" := mkRunner "id8" (TMap [])]} : runners in
  let d := mkDaemon (OpenState (Some ex_connected)) running ∅ (d_world ex_approved) in
  let table := ex_tb (mkPrefix (Addr4 167772160) 16) in
  (onRun (run_reload hub_env conn table (choicesOf (d_state d))) d).1 = Ok () ∧
  collides range_default {["lab" := [mkPrefix (Addr4 167772160) 8]]} "attic" (rt_Prefix <$> tb_Routes table) =
    Some ("lab", mkPrefix (Addr4 167772160) 16).
Proof. cbv zeta. split; vm_compute; reflexivity. Qed.

(** *** A connector *)

Fixpoint bits (p : positive) : string :=
  match p with xH => "" | xO p => "0" +:+ bits p | xI p => "1" +:+ bits p end.
Fixpoint unbits (l : list ascii) : positive :=
  match l with [] => xH | c :: l => if decide (c = "0"%char) then xO (unbits l) else xI (unbits l) end.
Lemma unbits_bits p : unbits (s2l (bits p)) = p.
Proof. induction p as [p IH|p IH|]; [..|done]; simpl bits; rewrite s2l_app; simpl; by rewrite IH. Qed.
Definition lh_tuple (l : Lighthouse) := (l_OverlayAddress l, l_OverlayAddress6 l, l_Endpoints l, l_Relay l).
Definition bundle_tuple (b : Bundle) :=
  (bu_Certificate b, bu_CA b, bu_OverlayAddress b, bu_OverlayAddress6 b, lh_tuple (bu_Lighthouse b), bu_MTU b,
   bu_Instance b, bu_Blocked b).
Definition of_bundle_tuple (t : string * string * Prefix * Prefix * (Addr * Addr * list string * bool) * Z * string * list string) : Bundle :=
  let '(c, ca, a, a6, (o, o6, e, r), m, i, bl) := t in mkBundle c ca a a6 (mkLighthouse o o6 e r) m i bl.
#[local] Instance toy_disk : ConnDisk :=
  {| mkdir_fails := None; read_fails := λ _, None; Connector.write_fails := λ _, None;
     marshal_bundle := λ b, Ok (bits (countable.encode (bundle_tuple b)));
     unmarshal_bundle := λ s, of_bundle_tuple <$> countable.decode (unbits (s2l s));
     fresh_key := Ok ("pub dbkey", "priv dbkey") |}.
Lemma toy_disk_ok : disk_ok.
Proof. split; try done. by exists "pub dbkey", "priv dbkey". Qed.
Lemma toy_bundle_json : bundle_json.
Proof.
  intros b. exists (bits (countable.encode (bundle_tuple b))). split; [done|]. simpl.
  rewrite unbits_bits, countable.decode_encode. by destruct b as [? ? ? ? [] ? ? ?].
Qed.
#[local] Instance toy_host : HostOs :=
  {| ho_os := {| Geteuid := 1000; Getenv := λ _, ""; CurrentUser := inl "db"; LookupUser := λ _, inr ErrUnused;
                 ReadFile := λ _, inr ErrUnused |};
     Interfaces := Some []; Hostname := Some "db"; has_dockerenv := false |}.

Definition ex_conf : ConnConfig :=
  mkConnConfig "https://hub.example:8443" "lab" "secret" "db" [mkPrefix (Addr4 167772161) 8] "" true 0 true "/data" true "".
(** The hub of the run: two polls before the machine decides, then its answer. *)
Definition ex_waiting (_ : Request) : Waiting :=
  {| submit_answer := Ok "id2";
     poll := λ i, ResultOf range_default (if (i <? 2)%nat then ex_hub else d_world ex_approved) "id1" "id2";
     cancelled := λ i, (2 <? i)%nat |}.
Lemma ex_undecided : ResultOf range_default ex_hub "id1" "id2" = Ok (mkResult StatusPending 30 None "").
Proof. vm_compute. reflexivity. Qed.
Lemma ex_decided : ResultOf range_default (d_world ex_approved) "id1" "id2" = Ok ex_result ∧
  rs_Status ex_result = StatusApproved ∧ ∃ b, rs_Bundle ex_result = Some b.
Proof. split; [vm_compute; reflexivity|]. split; [vm_compute; reflexivity|]. eexists. vm_compute. reflexivity. Qed.
Lemma approved_gets_in_witness : ∃ s b,
  enrollIfNeeded ex_conf ex_waiting 3 (started ∅) = (Ok (), s) ∧ cs_Bundle s = Some b ∧ rs_Bundle ex_result = Some b.
Proof.
  destruct ex_decided as (Hres&Hst&b&Hb).
  destruct (approved_gets_in ex_conf ex_waiting ∅ [mkPrefix (Addr4 167772160) 8] "." 2 3 ex_result b "id2")
    as (s&E&Hbun&_).
  - exact toy_disk_ok.
  - exact toy_bundle_json.
  - split; intros [x Hx]; discriminate Hx.
  - reflexivity.
  - vm_compute. reflexivity.
  - reflexivity.
  - discriminate.
  - intros req j Hj. unfold ex_waiting. cbn [poll cancelled].
    destruct j as [|[|j]]; [..|lia]; cbn [Nat.ltb Nat.leb]; rewrite ex_undecided; (split; [split; discriminate|reflexivity]).
  - intros req. exact Hres.
  - exact Hst.
  - exact Hb.
  - lia.
  - exists s, b. split; [exact E|]. split; [exact Hbun|exact Hb].
Defined.

Definition ex_cbundle (blocked : list string) : Bundle :=
  mkBundle "certificate" "authority" (mkPrefix (Addr4 3323134206) 24) PrefixZero
    (mkLighthouse (Addr4 3323133953) AddrZero ["hub.example:20000"] true) 1300 "lab" blocked.
Definition ex_cstate : CState := ((do* LoadState in do* SaveRequestID "id2" in SaveBundle (ex_cbundle [])) (started ∅)).2.
Definition ex_watch : Watch :=
  match connect ex_cstate with Ok w => w | _ => mkWatch ex_cstate false (TMap []) end.
Definition ex_theirs : Result := mkResult StatusApproved 0 (Some (ex_cbundle ["cert B"; "mine"])) "".
Lemma follows_the_blocklist_witness : ∃ b,
  cs_Bundle (w_state (ticks "mine" [(None, Ok ex_theirs)] ex_watch)) = Some b ∧ (("mine" ∈ bu_Blocked b) → False).
Proof.
  assert (read_in ex_cstate) as Hreads by (vm_compute; split_and!; reflexivity).
  destruct (follows_the_blocklist "mine" [] None ex_theirs (ex_cbundle ["cert B"; "mine"]) ex_cstate (ex_cbundle []) ex_watch
              toy_disk_ok toy_bundle_json Hreads) as [_ H]; [vm_compute; reflexivity..|].
  destruct (H eq_refl) as (_&Hb&_). destruct (Hb eq_refl) as (b&E&_&Hc). exists b. split; [exact E|].
  intros Hin. apply Hc in Hin as [_ [Hn|Hn]]; [discriminate Hn|by apply Hn].
Defined.
