(* ===== verification/SocketExamples.v ===== *)
(** * Requests to a machine's control socket

    The daemon of [MachineExamples], asked through its socket, and the endpoint
    it hands out. *)

From Stdlib Require Import Ascii.
From S2P Require Import MachineExamples SecretSpec Endpoint.

Open Scope Z_scope.

#[local] Existing Instance toy_crypto.
#[local] Existing Instance toy_certs.
#[local] Existing Instance hub_client.
#[local] Existing Instance ex_build.
#[local] Existing Instance ex_urls.

(** A body is the one word it carries. *)
#[local] Instance ex_socket_json : SocketJson :=
  {| read_connect b := Some (mkConnectRequest b);
     read_config b := Some (mkConfigRequest b false);
     read_approve b := Some (mkApproveBody b "" None false);
     read_decision b := Some (mkDecisionRequest b "");
     read_delete b := None;
     read_token b := None;
     read_inbound b := Some (mkInboundRequest b);
     read_alias b := None;
     read_dns b := Some (mkDNSRequest b false);
     read_families b := Some (mkFamiliesRequest b);
     read_cheat b := Some (mkCheatRequest "chromium" b true);
     read_create b := None;
     read_member b := Some (mkMemberRef b "" "") |}.
Definition ask (method path body : string) : request := mkRequestTo ex_tenv method path body.
Definition ex_session : list request :=
  [ask "GET" "/status" ""; ask "POST" "/inbound" "open"; ask "POST" "/families" "nonsense"; ask "POST" "/cheat" "x";
   ask "POST" "/approve" "id2"; ask "GET" "/nowhere" ""].
Definition reply_to (d : Daemon Hub) (q : request) : option (Z * bool) :=
  match (serve_control (sq_env q) (sq_Method q) (sq_Path q) (sq_Body q) d).1 with
  | Ok r => Some (sr_Status r, sr_Signal r)
  | _ => None
  end.
Definition ex_served : Daemon Hub := session ex_session ex_resting.
(** What each of the requests is answered, asked in that order. *)
Example ex_session_replies :
  (λ i, q ← ex_session !! i; reply_to (session (take i ex_session) ex_resting) q) <$> seq 0 6 =
    [Some (200, false); Some (200, false); Some (400, false); Some (404, false); Some (400, false); Some (404, false)] ∧
  dt_Inbound (st_data (d_state ex_served)) = "open".
Proof. split; vm_compute; reflexivity. Qed.

Lemma control_drives_the_daemon_witness :
  ∃ l, trace (l ++ []) (d_state (session ex_session (mkDaemon (OpenState None) ∅ ∅ (d_world ex_approved)))).
Proof.
  destruct (control_drives_the_daemon (HW := hub_client)) as (_&H&_). apply H. apply trace_open.
Defined.

Definition ex_config_reply : res SocketReply * Daemon Hub :=
  serve_control ex_tenv "POST" "/config" "lab" (session ex_session ex_resting).
(** The same machine with other keys: those of its connections, of the
    connection that runs and of its identity. *)
Definition rekeyed (k : string) : data :=
  set_Connections (Some {["id1" := with_key k (ex_conn "id1" "lab"); "id8" := with_key k (ex_conn "id8" "attic")]})
    (set_registration "https://hub.example:8443" ("identity " +:+ k) "mara" "laptop" false "" "mara" 1000 1000 ex_data).
Definition running_in (w : Hub) (k : string) : Daemon Hub :=
  mkDaemon (OpenState (Some (rekeyed k))) {["id1" := mkRunner "id1" (TMap [("pki", TMap [("key", TStr k)])])]} ∅ w.
Definition running_with : string → Daemon Hub := running_in (d_world ex_approved).
Lemma running_alike w : differ_in_keys false (running_in w "one") (running_in w "other").
Proof.
  split; [|split; [|split; reflexivity]].
  - split; split; vm_compute; reflexivity.
  - vm_compute. reflexivity.
Qed.
Lemma key_stays_unless_asked_witness :
  (∃ reply shown, ex_config_reply.1 = Ok reply ∧ sr_Body reply = AConfig true shown ∧
     at_path ["pki"; "key"] shown = Some (TStr RedactedKey)) ∧
  (serve_control ex_tenv "GET" "/status" "" (session ex_session (running_with "one"))).1 =
  (serve_control ex_tenv "GET" "/status" "" (session ex_session (running_with "other"))).1 ∧
  d_state (running_with "one") ≠ d_state (running_with "other").
Proof.
  split; [|split; [|intros H; apply (f_equal (λ s, dt_Identity (st_data s))) in H; revert H; unfold running_with; generalize (d_world ex_approved); intros w H; vm_compute in H; discriminate H]].
  - assert (∃ reply shown, ex_config_reply.1 = Ok reply ∧ sr_Body reply = AConfig true shown) as (reply&shown&E&Eb).
    { do 2 eexists. split; vm_compute; reflexivity. }
    exists reply, shown. split; [exact E|]. split; [exact Eb|].
    destruct (proj2 (key_stays_unless_asked (HW := hub_client)) ex_session ex_tenv "POST" "/config" "lab" ex_resting ex_config_reply.2
                reply true shown eq_refl) as (q&Hq&H).
    + rewrite <-E. apply surjective_pairing.
    + exact Eb.
    + injection Hq as <-. exact (proj1 (H eq_refl)).
  - apply (proj1 (key_stays_unless_asked (HW := hub_client)) false ex_session ex_tenv "GET" "/status" "").
    + exact (running_alike (d_world ex_approved)).
    + repeat constructor; try exact range_default_blind.
    + intros x Hx. vm_compute in Hx. injection Hx as <-. reflexivity.
Defined.

Definition ex_socket_env : SocketEnv := mkSocketEnv 0 0 18 None None None None.
Definition ex_opened : res () * sockets := open_socket ex_socket_env (OpenState (Some ex_data)) "/run/robinet/robinet.sock" ∅.
Lemma socket_is_the_owners_witness : ∃ f,
  ex_opened.2 !! "/run/robinet/robinet.sock" = Some f ∧ so_uid f = 1000 ∧ may_connect 1000 5 f = true ∧
  (∀ gid, may_connect 1001 gid f = true → False).
Proof.
  destruct (socket_is_the_owners ex_socket_env (OpenState (Some ex_data)) "/run/robinet/robinet.sock" ∅ ex_opened.2 ex_opened.1
              (surjective_pairing _)) as [(f&Hf&_&Hu&Hm) _].
  change (so_uid f = 1000) in Hu. exists f. split; [exact Hf|]. split; [exact Hu|]. split.
  - apply Hm. right. by rewrite Hu.
  - intros gid Hc. apply Hm in Hc as [?|Hc]; [done|]. by rewrite Hu in Hc.
Defined.

(** *** The endpoint it hands out *)

Definition ex_pinned : State :=
  OpenState (Some (set_registration "https://hub.example:9443" "identity" "mara" "laptop" false
                     "sha256/AAAAAAAAAAAAAAAAAAAAAAAAAAAAAAAAAAAAAAAAAAA=" "mara" 1000 1000 data_zero)).
Definition ex_told : string := shorthandEndpoint "https://hub.example:9443" "lab" "secret" ex_written_pin.
Definition ex_flags : ConnectFlags :=
  mkConnectFlags ex_told "" "" "db" ["10.0.0.0/8"] "" true "/data" 0 true true "info".
