(* ===== verification/WireExamples.v ===== *)
(** * A machine and its hub over HTTP, at work

    The hub of [ApiExamples] at the other end of [Wire]'s network: a machine
    that registers with the second key of its agent, the owner's client at a
    call, a daemon whose calls get lost, and a connector that asks to be
    admitted. *)

From Stdlib Require Import Ascii.
From S2P Require Import ApiExamples WireSpec ConnClient.
From S2P Require MachineExamples.

Open Scope Z_scope.

#[local] Existing Instance toy_crypto.
#[local] Existing Instance toy_ed25519.
#[local] Existing Instance toy_ssh_lib.
#[local] Existing Instance toy_ssh_writer.

(** ** Urls and JSON to run with *)

Lemma Split_segments segs : segs ≠ [] → Forall plain_segment segs → Split (Join segs "/") "/"%char = segs.
Proof.
  intros Hne H. apply (Split_Join "/"%char segs Hne). eapply Forall_impl; [exact H|]. intros s (_&_&_&Hs) Hin.
  eapply Forall_forall in Hs; [|exact Hin]. by vm_compute in Hs.
Qed.
Definition ex_base : string := "https://hub.example".
#[local] Instance ex_parser : UrlParser := {|
  url_Parse s :=
    match CutPrefix s ex_base with
    | Some path => match CutPrefix path "/" with
                   | Some rest => Some (mkUrl "https" "hub.example" path (Split rest "/"%char) ∅)
                   | None => None
                   end
    | None => None
    end |}.
Lemma ex_base_url : base_url ex_base "hub.example".
Proof.
  exists "https". intros segs Hne H. cbn [url_Parse ex_parser]. rewrite CutPrefix_app.
  change ("/" +:+ Join segs "/") with ("/" +:+ Join segs "/"). rewrite CutPrefix_app. by rewrite Split_segments.
Qed.

Definition read_register (s : string) : option RegisterRequest :=
  '(n, l) ← get_str (s2l s); '(i, l) ← get_str l; '(g, _) ← get_str l; Some (mkRegisterRequest n i g).
(** What the connector asks for. *)
Definition ex_asking : Request := mkRequest "key A" "db" [mkPrefix (Addr4 167772160) 8] "" None.
#[local] Instance wire_json : Json :=
  {| decode_register := read_register;
     decode_create := λ _, Some (mkCreateRequest "Prod" "secret");
     decode_lighthouse := λ _, None;
     decode_decision := λ _, None;
     decode_ban := λ _, None;
     decode_token := λ b, if decide (b = "{token}") then Some (mkTokenRequest "other") else None;
     decode_join := λ _, None;
     decode_enroll := λ b, if decide (b = "{enroll}") then Some ex_asking else None |}.
#[local] Instance wire_payloads : ServerJson := {|
  Marshal_payload p :=
    match p with
    | PRegistered r => l2s (put_str (rp_Identity r) ++ put_str (rp_Binder r) ++ put_str (rp_Key r))
    | PAccepted id _ _ => id
    | PError code e => "{" +:+ code +:+ "}"
    | _ => ""
    end;
  error_String e := match e with Errorf s => s | _ => "error" end |}.
Definition read_registered (s : string) : option RegisterResponse :=
  '(i, l) ← get_str (s2l s); '(b, l) ← get_str l; '(k, _) ← get_str l; Some (mkRegisterResponse i b k).
#[local] Instance wire_client_json : ClientJson :=
  {| Marshal_register q := l2s (put_str (rr_Name q) ++ put_str (rr_Identity q) ++ put_str (rr_Signature q));
     Marshal_create _ := "{}"; Marshal_lighthouse _ := "{}"; Marshal_decision _ := "{}"; Marshal_ban _ := "{}";
     Marshal_token _ := "{token}"; Marshal_join _ := "{}";
     Decode_registered := read_registered;
     Decode_created _ := None; Decode_instances _ := Some []; Decode_pending _ := None; Decode_result _ := None;
     Decode_member _ := None; Decode_members _ := None; Decode_routes _ := None;
     Decode_error _ := Some ("bad_request", "no") |}.
Lemma read_put3 (a b c : string) :
  get_str (s2l (l2s (put_str a ++ put_str b ++ put_str c))) = Some (a, put_str b ++ put_str c) ∧
  get_str (put_str b ++ put_str c) = Some (b, put_str c) ∧ get_str (put_str c) = Some (c, []).
Proof. rewrite s2l_l2s, !get_put. split_and!; [done..|]. rewrite <-(app_nil_r (put_str c)). apply get_put. Qed.

(** ** The network *)

(** A hub whose identifiers are always new. *)
Definition fresh_env (n : Z) (s : Api) : Env :=
  let taken := map_to_list (s_Instances (mem (h_store (a_hub s)))) ≫= λ ki, elements (dom (mget (i_Requests ki.2))) in
  {| now := ex_noon + n * Second; newID := fresh taken; GenerateHostKey := inr ("pub", "key"); save_fault := None;
     nebula_start := None; nebula_reload := None; ρ_of := range_default |}.
Lemma fresh_env_fresh n s : fresh_id (fresh_env n s) (a_hub s).
Proof.
  intros id i Hi. cbn [newID fresh_env]. set (taken := _ ≫= _). apply eq_None_not_Some. intros [r Hr].
  apply (infinite_is_fresh taken). unfold taken. apply list_elem_of_bind. exists (id, i). split.
  - apply elem_of_elements, elem_of_dom. by eexists.
  - by apply elem_of_map_to_list.
Qed.
Definition ex_weather (fate : nat → Fate) (others : nat → list ((Api → Env) * HttpRequest * list string)) : Weather :=
  {| wx_env k s := fresh_env (10 + Z.of_nat k) s;
     wx_draw k := mkDraw (ex_noon + (10 + Z.of_nat k) * Second) (be_bytes 16 (100 + Z.of_nat k)) range_default;
     wx_fate := fate; wx_others := others; wx_remote := "192.0.2.9:5000"; wx_certs := []; wx_chain := true |}.
Definition ex_calm : Weather := ex_weather (λ _, Delivered) (λ _, []).

(** *** Registering *)

#[local] Instance ex_agent : SshAgent := {| agent_Dial _ := inl (); agent_Signers _ := inl [toy_signer "j"; toy_signer "k"] |}.
#[local] Instance ex_keyfiles : KeyFiles := {| ParsePrivateKey _ := inr true |}.
#[local] Instance ex_os : Os :=
  {| Geteuid := 0; Getenv _ := "/run/agent"; CurrentUser := inr (Errorf "no"); LookupUser _ := inr (Errorf "no");
     ReadFile _ := inr (Errorf "no") |}.
#[local] Instance ex_x509 : X509 := {| ParseCertificate _ := None |}.
Definition ex_opts : JoinOptions := mkJoinOptions "https://hub.example/" "token" "laptop" false "".
Definition ex_signing : SigningOptions := mkSigningOptions _ "" "" None.
Definition ex_signers : list Signer := [toy_signer "j"; toy_signer "k"].
Definition ex_net : Net := mkNet ex_s0 0.
Definition ex_registered : res Registered_ * Net :=
  register (HT := net_Transport ex_calm) ex_opts ex_signing ex_identity ex_net.
Example ex_registered_as :
  ex_registered.1 = Ok (mkRegisterResponse ex_id "ann" "k", "SHA256:k") ∧
  g_Binder <$> ids_of (a_hub (n_api ex_registered.2)) !! ex_id = Some "ann".
Proof. split; vm_compute; reflexivity. Qed.

Lemma carried_check raw : bool_decide (carried raw) = true → carried raw.
Proof. by intros ?%bool_decide_eq_true. Qed.
Lemma ex_rejects (s : Signer) : s ∈ ex_signers → s = toy_signer "j" ∨ s = toy_signer "k".
Proof. intros [->|[->|[]%elem_of_nil]%elem_of_cons]%elem_of_cons; auto. Qed.
Lemma ex_registering : registering ex_calm ex_opts ex_signing ex_identity "hub.example" ex_signers VerifyChain ex_cfg.
Proof.
  split; try done.
  - exact ex_base_url.
  - intros u. unfold trusted. apply orb_true_r.
  - intros s [-> | ->]%ex_rejects; (split; [apply toy_signer_sound; vm_compute; lia|eexists; reflexivity]).
  - intros s a Hs Ha q. split.
    + destruct (ex_rejects s Hs) as [-> | ->]; cbv beta in Ha; injection Ha as <-; apply carried_check; vm_compute; reflexivity.
    + cbn [decode_register wire_json Marshal_register wire_client_json]. unfold read_register.
      destruct (read_put3 (rr_Name q) (rr_Identity q) (rr_Signature q)) as (E1&E2&E3).
      rewrite E1. cbn [mbind option_bind]. rewrite E2. cbn [mbind option_bind]. by rewrite E3.
Qed.
Lemma first_known_key_registers_witness :
  ∃ reg w', register (HT := net_Transport ex_calm) ex_opts ex_signing ex_identity ex_net =
    (Ok (mkRegisterResponse ex_id "ann" "k", "SHA256:k"), w') ∧
  ids_of (a_hub (n_api w')) !! ex_id = Some reg ∧ g_Name reg = "laptop".
Proof.
  destruct (first_known_key_registers ex_calm ex_opts ex_signing ex_identity "hub.example" ex_signers VerifyChain ex_cfg ex_net
              ex_registering eq_refl) as [H _].
  - unfold room. vm_compute. split; discriminate.
  - reflexivity.
  - intros binder s _ _ answer. cbn [Decode_registered wire_client_json Marshal_payload wire_payloads]. unfold read_registered.
    destruct (read_put3 (rp_Identity answer) (rp_Binder answer) (rp_Key answer)) as (E1&E2&E3).
    rewrite E1. cbn [mbind option_bind]. rewrite E2. cbn [mbind option_bind]. by rewrite E3.
  - destruct (H [toy_signer "j"] (toy_signer "k") [] eq_refl) as (binder&keys&reg&w'&Hb&_&E&Hi&_&Hn&_).
    + constructor; [|constructor]. intros (name&keys&Hb&Hk). cbn in Hb.
      apply lookup_singleton_Some in Hb as [_ <-]. by apply list_elem_of_singleton in Hk.
    + exists "ann", ["k"]. split; [reflexivity|left].
    + cbn in Hb. apply lookup_singleton_Some in Hb as [<- <-]. exists reg, w'. split; [exact E|]. split; [exact Hi|exact Hn].
Defined.

(** *** The owner's client *)

Definition ex_client : hubClient := mkHubClient ex_base ex_identity VerifyChain.
Definition ex_start : Net := mkNet ex_s2 0.
Lemma ex_good_weather : good_weather ex_calm ex_client "hub.example" ex_start.
Proof.
  split.
  - exact ex_base_url.
  - reflexivity.
  - reflexivity.
  - intros u. unfold trusted. apply orb_true_r.
  - split; [reflexivity|]. apply be_bytes_is_byte.
  - vm_compute. split; [discriminate|reflexivity].
  - vm_compute. split; discriminate.
  - intros t H. exfalso. vm_compute in H. discriminate H.
Qed.
Definition ex_set_token : OwnerCall := CSetToken "prod" "other".
Definition ex_op_out : res () * Hub := run_op (wx_env ex_calm 0 ex_s2) (operation_of ex_set_token "id2") (a_hub ex_s2).
Lemma owner_call_exact_witness :
  ∃ out, run_call (http_HubClient (HT := net_Transport ex_calm) ex_client) ex_set_token ex_start =
           (out, mkNet (mkApi ex_op_out.2 (spent_after ex_calm ex_client ex_start) (a_rl ex_s2)) 1) ∧ out = Ok () ∧
         i_SharedToken <$> inst_at ex_op_out.2 "id2" = Some "other".
Proof.
  destruct ex_good2 as [Hr Hids].
  destruct (owner_call_exact ex_calm ex_cfg ex_client "hub.example" ex_start ex_set_token ex_inst2 ex_op_out.1 ex_op_out.2
              api_config_ok Hr Hids ex_good_weather) as (out&E&Ho).
  - apply (bool_decide_unpack _). vm_compute. exact I.
  - split; [|exact I]. apply (bool_decide_unpack _). vm_compute. exact I.
  - split; [apply carried_check; vm_compute; reflexivity|vm_compute; reflexivity].
  - vm_compute. reflexivity.
  - vm_compute. reflexivity.
  - vm_compute. reflexivity.
  - exists out. split; [exact E|]. split; [exact Ho|vm_compute; reflexivity].
Defined.

(** *** A daemon whose calls get lost *)

Definition ex_stormy : Weather :=
  ex_weather (λ k, if (k mod 3 =? 0)%nat then Unanswered else if (k mod 3 =? 1)%nat then Unsent else Delivered)
    (λ k, [((λ s, fresh_env 20 s), ex_plain "GET" "/v1/instances" "", ["v1"; "instances"])]).
Lemma ex_draws_fresh : draws_fresh ex_stormy.
Proof.
  split; [intros k s; apply fresh_env_fresh|]. intros k o Ho s. apply list_elem_of_singleton in Ho as ->. apply fresh_env_fresh.
Qed.
Definition ex_machine : Daemon Net := mkDaemon (OpenState None) ∅ ∅ ex_start.
Definition ex_orders : list (TEnv * DOp) :=
  [(MachineExamples.ex_tenv, DConnect "prod"); (MachineExamples.ex_tenv, DConnect "prod"); (MachineExamples.ex_tenv, DConnect "prod"); (MachineExamples.ex_tenv, DInbound "open")].
Definition ex_driven : Daemon Net :=
  foldl (λ d eo, (run_dop (HW := http_HubClient (HT := net_Transport ex_stormy) ex_client) (HL := MachineExamples.toy_certs)
                    (HB := MachineExamples.ex_build) eo.1 eo.2 d).2) ex_machine ex_orders.
Lemma machine_drives_the_hub_witness :
  reachable ex_cfg (a_hub (n_api (d_world ex_driven))) ∧ ∃ l, trace (l ++ []) (d_state ex_driven).
Proof.
  destruct ex_good2 as [Hr Hids].
  destruct (machine_drives_the_hub ex_stormy ex_cfg ex_client ex_orders ex_machine ex_driven [] api_config_ok ex_draws_fresh
              Hr Hids trace_open eq_refl) as (H1&_&H2).
  exact (conj H1 H2).
Defined.
(** The calls were made, and the clock of the network went on. *)
Example ex_driven_calls : n_tick (d_world ex_driven) = 3%nat ∧ dt_Inbound (st_data (d_state ex_driven)) = "open".
Proof. split; vm_compute; reflexivity. Qed.

(** *** A connector at the hub *)

#[local] Instance ex_conn_json : ConnJson := {|
  Marshal_request _ := "{enroll}";
  Decode_id s := Some s;
  Decode_enroll_result _ := Some (mkResult StatusPending 15 None "");
  Decode_enroll_error _ := Some ("not_found", "no such request") |}.
Definition ex_connector : connClient := mkConnClient ex_base "secret" VerifyChain.
Definition ex_enrolled : res HubRecord * Hub :=
  Enroll (wx_env ex_calm 0 ex_s2) "prod" ex_asking (conn_applicant ex_calm range_default ex_connector ex_asking) (a_hub ex_s2).
Definition ex_request_id : string := match ex_enrolled.1 with Ok r => hr_ID r | _ => "" end.
Lemma ex_calm_for : calm_for ex_calm ex_connector "hub.example" ex_start.
Proof. split; [exact ex_base_url|reflexivity..|]. intros u. unfold trusted. apply orb_true_r. Qed.
Lemma connector_calls_exact_witness :
  ∃ w, submit (HT := net_Transport ex_calm) range_default ex_connector "prod" ex_asking ex_start = (Ok ex_request_id, w) ∧
       a_hub (n_api w) = ex_enrolled.2 ∧ ex_request_id ≠ "".
Proof.
  destruct ex_good2 as [Hr _].
  assert (∃ rl, allow (now (wx_env ex_calm 0 ex_s2)) (conn_source ex_calm) (a_rl ex_s2) = (true, rl)) as [rl Hrl]
    by (eexists; vm_compute; reflexivity).
  assert (ex_request_id ≠ "") as Hid by (vm_compute; discriminate).
  assert (is_ok ex_enrolled.1 = true) as Hok by (vm_compute; reflexivity).
  destruct (connector_calls_exact ex_calm ex_cfg ex_connector "hub.example" "prod" "id2" ex_asking range_default ex_start
              ex_enrolled.1 ex_enrolled.2 rl api_config_ok Hr ex_calm_for) as [(out&E&Ho) _].
  - apply (bool_decide_unpack _). vm_compute. exact I.
  - apply (bool_decide_unpack _). vm_compute. exact I.
  - apply carried_check. vm_compute. reflexivity.
  - reflexivity.
  - exact Hrl.
  - exact (surjective_pairing ex_enrolled).
  - unfold ex_request_id in Hid |- *. destruct ex_enrolled.1 as [record|e|] eqn:Er; [|discriminate Hok..].
    exists (mkNet (mkApi ex_enrolled.2 (a_nonces ex_s2) rl) 1). split; [rewrite (Ho eq_refl Hid) in E; exact E|].
    exact (conj eq_refl Hid).
Defined.
