(* ===== verification/ConnExamples.v ===== *)
(** * A connector that gets in

    The hub of [ApiExamples] over [Wire]'s network: a connector starts on an
    empty directory and asks; its owner approves while the connector's first
    poll is lost; the next poll finds it approved, and it runs. *)

From Stdlib Require Import Ascii.
From S2P Require Import ApiExamples ConnRun WireExamples.
From S2P Require MachineExamples.

Open Scope Z_scope.

#[local] Existing Instance toy_crypto.
#[local] Existing Instance toy_ed25519.
#[local] Existing Instance toy_ssh_lib.
#[local] Existing Instance ex_parser.
#[local] Existing Instance ex_x509.
#[local] Existing Instance MachineExamples.toy_certs.
#[local] Existing Instance MachineExamples.toy_disk.
#[local] Existing Instance MachineExamples.toy_host.

(** ** What it is told, and what it asks *)

Definition ex_conn_cfg : ConnConfig :=
  mkConnConfig "https://hub.example" "prod" "secret" "db" [mkPrefix (Addr4 167772160) 8] "" true 0 false "/data" true "".
Definition ex_conn_state : CState := (LoadState (started ∅)).2.
Definition ex_conn_client : connClient := mkConnClient "https://hub.example" "secret" VerifyNothing.
Definition ex_enrollment : Request := enrollment ex_conn_cfg ex_conn_state [mkPrefix (Addr4 167772160) 8] "".
Definition ex_grant : Bundle :=
  mkBundle "certificate" "authority" PrefixZero PrefixZero (mkLighthouse AddrZero AddrZero [] false) 0 "" [].
Definition ex_approval : Decision_ :=
  mkDecision StatusApproved (Some ex_grant) "" "" [mkPrefix (Addr4 167772160) 8] "" "fingerprint".
#[local] Instance conn_json : Json :=
  {| decode_register := λ _, None;
     decode_create := λ _, None;
     decode_lighthouse := λ _, None;
     decode_decision := λ b, if decide (b = "{approve}") then Some ex_approval else None;
     decode_ban := λ _, None;
     decode_token := λ _, None;
     decode_join := λ _, None;
     decode_enroll := λ b, if decide (b = "{enroll}") then Some ex_enrollment else None |}.
#[local] Instance conn_payloads : ServerJson := {|
  Marshal_payload p :=
    match p with
    | PAccepted id _ _ => id
    | PResult r => match rs_Status r with StatusApproved => "{approved}" | _ => "{pending}" end
    | _ => ""
    end;
  error_String _ := "error" |}.

(** ** The run *)

Definition ex_recorded : res HubRecord * Hub :=
  let wx := ex_calm in
  Enroll (wx_env wx 0 ex_s2) "prod" ex_enrollment (conn_applicant wx range_default ex_conn_client ex_enrollment) (a_hub ex_s2).
Definition ex_record : HubRecord :=
  match ex_recorded.1 with Ok r => r | _ => mkHubRecord (mkEnrollRecord "" StatusPending ex_enrollment "" PrefixZero PrefixZero "" 0 0) "" "" "" None "" end.
Definition ex_rid : string := hr_ID ex_record.
Definition ex_approve_path : list string := ["v1"; "instances"; "prod"; "requests"; ex_rid].
Definition ex_owner_approves : (Api → Env) * HttpRequest * list string :=
  (λ s, fresh_env 20 s,
   ex_sign 20 (ex_plain "POST" ("/" +:+ Join ex_approve_path "/") "{approve}"),
   ex_approve_path).
Definition ex_conn_weather : Weather :=
  ex_weather (λ k, if (k =? 1)%nat then Unsent else Delivered) (λ k, if (k =? 1)%nat then [ex_owner_approves] else []).
Definition ex_after : Api := serve_other (mkApi ex_recorded.2 (a_nonces ex_s2) (a_rl ex_s2)) ex_owner_approves.
Definition ex_said : Result :=
  match ResultOf range_default (a_hub ex_after) "prod" ex_rid with Ok r => r | _ => mkResult StatusPending 0 None "" end.
Example ex_said_approved : rs_Status ex_said = StatusApproved ∧ is_Some (rs_Bundle ex_said) ∧ ex_rid ≠ "".
Proof. split_and!; [vm_compute; reflexivity|eexists; vm_compute; reflexivity|vm_compute; discriminate]. Qed.

#[local] Instance conn_words : ConnJson := {|
  Marshal_request _ := "{enroll}";
  Decode_id s := Some s;
  Decode_enroll_result s := if decide (s = "{approved}") then Some ex_said else Some (mkResult StatusPending 15 None "");
  Decode_enroll_error _ := Some ("not_found", "no such request") |}.
Definition ex_granted : Bundle := default ex_grant (rs_Bundle ex_said).
Definition ex_conn_raw : tree :=
  match connectorConfig ex_granted (cs_PrivateKeyPEM ex_conn_state) with Ok raw => raw | _ => TMap [] end.
Definition ex_conn_networks : list Prefix := [bu_OverlayAddress ex_granted].
(** Nebula gives the device the networks of the certificate. *)
#[local] Instance conn_nebula : NebulaLib := {| nebula_Main _ := Ok ex_conn_networks |}.
Definition ex_conn_making : Making := mkMaking None None (λ _, None) None.
Definition ex_conn_stack : res Service * bool :=
  stack_New ex_conn_making ex_conn_networks
    (mkStackOptions true 0 false [] "" 0 0 0 (overlayMTU (bu_MTU ex_granted) (cc_MTU ex_conn_cfg))).
Definition ex_conn_service : Service :=
  match ex_conn_stack.1 with Ok s => s | _ => mkService (mkStackOptions false 0 false [] "" 0 0 0 0) ∅ ∅ [] end.

Lemma ex_starting :
  starting ex_conn_cfg ∅ ex_conn_client [mkPrefix (Addr4 167772160) 8] "" ex_conn_state.
Proof.
  split; try done.
  - exact MachineExamples.toy_disk_ok.
  - exact MachineExamples.toy_bundle_json.
  - apply (bool_decide_unpack _). vm_compute. exact I.
  - apply carried_check. vm_compute. reflexivity.
Qed.
Lemma ex_conn_trusted (u : Url) : trusted ex_conn_weather VerifyNothing u = true.
Proof. unfold trusted. apply orb_true_r. Qed.
Definition ex_conn_rl : rateLimiter :=
  (allow (now (wx_env ex_conn_weather 0 ex_s2)) (conn_source ex_conn_weather) (a_rl ex_s2)).2.
Definition ex_conn_w1 : Net := mkNet (mkApi ex_recorded.2 (a_nonces ex_s2) ex_conn_rl) 1.
Definition ex_poll (j : nat) : Net :=
  world_after (HT := net_Transport ex_conn_weather) ex_conn_client "prod" ex_rid j ex_conn_w1.

Lemma approved_connector_runs_witness : ∃ r s w,
  Run (HT := net_Transport ex_conn_weather) range_default ex_conn_cfg ex_conn_making (λ _, false) 5 ∅ ex_start = (Ok (Some r), s, w) ∧
  cs_Bundle s = Some ex_granted ∧ sk_Gateway (sv_opts (rn_service r)) = true ∧
  isLocalAddress (rn_service r) (p_addr (bu_OverlayAddress ex_granted)) = true.
Proof.
  destruct ex_good2 as [Hr _].
  destruct (approved_connector_runs ex_conn_weather ex_cfg ex_conn_cfg ex_conn_making range_default (λ _, false) 1 5 ∅ ex_conn_client
              [mkPrefix (Addr4 167772160) 8] "" "hub.example" ex_conn_state ex_start ex_record ex_recorded.2 ex_conn_rl ex_said
              ex_granted ex_conn_raw ex_conn_networks ex_conn_service api_config_ok Hr ex_starting)
    as (r&s&Hrun&H1&_&_&_&H5&H6&_).
  - split; [exact ex_base_url|reflexivity|reflexivity|exact ex_conn_trusted].
  - vm_compute. reflexivity.
  - vm_compute. reflexivity.
  - exact (proj2 (proj2 ex_said_approved)).
  - apply (bool_decide_unpack _). vm_compute. exact I.
  - reflexivity.
  - intros j Hj. assert (j = 0%nat) as -> by lia. split; [|reflexivity]. vm_compute. exact I.
  - split; [exact ex_base_url|vm_compute; reflexivity|vm_compute; reflexivity|exact ex_conn_trusted].
  - vm_compute. reflexivity.
  - vm_compute. reflexivity.
  - exact (proj1 ex_said_approved).
  - vm_compute. reflexivity.
  - lia.
  - vm_compute. reflexivity.
  - reflexivity.
  - vm_compute. reflexivity.
  - eexists _, _, _. split; [exact Hrun|]. split; [exact H1|]. split; [exact H6|]. apply H5.
    exists (bu_OverlayAddress ex_granted). split; [left|vm_compute; reflexivity].
Defined.
