(* ===== verification/CliExamples.v ===== *)
(** * Commands of an operator

    The daemon of [MachineExamples], asked by the command line over its
    socket: by one of its own build and by one of another. *)

From Stdlib Require Import Ascii.
From S2P Require Import MachineExamples SocketExamples CliSpec HubCliSpec.

Open Scope Z_scope.

#[local] Existing Instance toy_crypto.
#[local] Existing Instance toy_certs.
#[local] Existing Instance hub_client.
#[local] Existing Instance ex_build.
#[local] Existing Instance ex_urls.
#[local] Existing Instance ex_socket_json.

(** An error is its format, an answer the one word in it. *)
Fixpoint ex_error_text (e : error) : string := match e with Errorf f => f | Wrap f e => f +:+ ex_error_text e | _ => "error" end.
#[local] Instance ex_control_text : ControlText :=
  {| answer_text _ a := match a with AError e => ex_error_text e | AInbound v => v | _ => "answer" end;
     error_text := ex_error_text;
     status_line _ := "status";
     no_answer := Errorf "EOF" |}.
#[local] Instance ex_words : ControlWords :=
  {| write_connect := cq_Instance; write_config := gq_Instance; write_approve := aq_ID; write_decision := dq_ID;
     write_delete := xq_Instance; write_token := tq_Instance; write_inbound := iq_Inbound; write_alias := lq_Alias;
     write_dns := nq_Mode; write_families := fq_Families; write_cheat := hq_Name; write_create := eq_Name;
     write_member := mr_Member; as_status _ := None; as_instances _ := None; as_members _ := None; as_reach _ := None;
     as_info _ := None; as_config := Some; as_pending _ := None; as_created _ := None;
     as_approved _ := None;
     as_removed _ := None; as_token _ := None; as_version := Some; as_families := Some; as_inbound := Some;
     as_cheat _ := Some true; as_plan _ := None; as_aliases _ := None; as_deleted _ := None; as_error := Some |}.

Definition ex_control : control := newControl "/run/robinet/robinet.sock".
(** The command of a release that came after the daemon's. *)
Definition ex_newer : Build :=
  {| VariantName := "example"; VariantEncoded := "e30="; VersionBuild := "dev2"; unmarshal_variant := @unmarshal_variant ex_build |}.
Definition ex_command (caller : Build) (cmd : Command) : res (list Printed) * Daemon Hub :=
  run_command ex_tenv ex_build caller range_default ex_control cmd ex_approved.
Definition banned_at_hub (d : Daemon Hub) : list bool :=
  match ex_members_of (d_world d) "id1" with
  | Ok l => Banned <$> filter (λ m, m_Name m = "db") l
  | _ => []
  end.
Lemma command_is_its_operations_witness :
  (banned_at_hub ex_approved = [false]) ∧
  (let '(r, d) := ex_command ex_build (CmdBan "db" "" "") in
   (∃ printed, r = Ok printed) ∧ banned_at_hub d = [true]) ∧
  (ex_command ex_build (CmdBan "nobody" "" "")).1 = Err (Errorf "no member %s in any instance this machine owns") ∧
  (let '(r, d) := ex_command ex_newer (CmdBan "db" "" "") in
   r = Err (Errorf "the daemon is running dev and this command is dev2: robinet restart") ∧ banned_at_hub d = [true]).
Proof.
  pose proof (λ caller member, command_is_its_operations (HW := hub_client) ex_tenv ex_build caller range_default ex_control
    (CmdBan member "" "") ex_approved eq_refl eq_refl) as H. cbn [command_ops] in H. unfold ends_as in H.
  assert (∀ caller, (ex_command caller (CmdBan "db" "" "")).2 = (do_ops ex_tenv ex_build [DBan (mkMemberRef "db" "" "")] ex_approved).2) as Hs.
  { intros caller. apply H. }
  assert (banned_at_hub (do_ops ex_tenv ex_build [DBan (mkMemberRef "db" "" "")] ex_approved).2 = [true] ∧
          (do_ops ex_tenv ex_build [DBan (mkMemberRef "db" "" "")] ex_approved).1 = Ok ()) as [Hb Hr] by (split; vm_compute; reflexivity).
  split; [vm_compute; reflexivity|]. split; [|split].
  - destruct (H ex_build "db") as [_ H1]. rewrite Hr in H1. specialize (Hs ex_build). revert H1 Hs. unfold ex_command.
    destruct (run_command _ _ _ _ _ _ _) as [r d]. cbn [fst snd same_build]. intros H1 ->. split; [exact H1|exact Hb].
  - destruct (H ex_build "nobody") as [_ H1].
    assert ((do_ops ex_tenv ex_build [DBan (mkMemberRef "nobody" "" "")] ex_approved).1 = Err (Errorf "no member %s in any instance this machine owns")) as Hn
      by (vm_compute; reflexivity).
    rewrite Hn in H1. destruct H1 as [_ H1]. apply H1. split; [reflexivity|discriminate].
  - destruct (H ex_newer "db") as [_ H1]. rewrite Hr in H1. specialize (Hs ex_newer). revert H1 Hs. unfold ex_command.
    destruct (run_command _ _ _ _ _ _ _) as [r d]. cbn [fst snd same_build]. intros H1 ->. split; [exact H1|exact Hb].
Defined.

(** ** A hub with room *)

Definition ex_new_hub : Hub := mkHub ex_config (OpenStore None) ∅.
Definition ex_new_env : Env := mkEnv 1000 "id1" (inr ("pub", "key")) None None None range_default.
Lemma room_is_the_limit_witness :
  instances_room ex_config = 256 ∧ ports_room ex_config = 101 ∧ total (c_Overlays6 ex_config) = 65536 ∧
  ∃ inst, (CreateInstance ex_new_env "bea" "owner" "lab" "token" ex_new_hub).1 = Ok inst.
Proof.
  split; [vm_compute; reflexivity|]. split; [vm_compute; reflexivity|]. split; [vm_compute; reflexivity|].
  destruct (@room_is_the_limit toy_crypto toy_ssh range_default _ ex_config ex_new_hub ex_config_made) as (_&H&_).
  - vm_compute. reflexivity.
  - apply (reachable_new _ ex_new_env). vm_compute. reflexivity.
  - apply (bool_decide_unpack _). vm_compute. exact I.
  - apply (bool_decide_unpack _). vm_compute. exact I.
  - apply H.
    + vm_compute. reflexivity.
    + right. vm_compute. reflexivity.
    + split; [reflexivity|]. split; [intros id i Hi; discriminate Hi|]. split; [by eexists|reflexivity].
Defined.
