(* ===== verification/InstallExamples.v ===== *)
(** * A hub and a machine that are installed

    Concrete systems, at which the theorems of [InstallSpec] and [SetupSpec]
    are applied. *)

From Stdlib Require Import Ascii.
From S2P Require Import SetupSpec.

Open Scope Z_scope.

(** Root's process on a fresh system, where nothing fails. *)
Definition ex_process : Process :=
  mkProcess (Ok "/home/bea/.local/bin/robinet") (λ _, None) ["setup"] 0 0
    (λ p, Some ("/usr/bin/" +:+ p)) (λ uid, if uid =? 1000 then Ok "bea" else Err (Errorf "unknown userid"))
    (λ g, if decide (g = hubUser) then Ok 990 else Err (Errorf "unknown group")) (λ _, None) (λ _, None) (λ n, Ok (replicate n 7)).
Definition dir_node (mode : Z) : Node := mkNode true "" mode 0 0.
Definition ex_etc : Sys := mkSys {["/etc" := dir_node 493]} ∅ ∅ [].
Definition ex_hub_yaml : string := "/etc/site/robinet/hub.yaml".

Lemma starter_needs_only_binders_witness :
  let s' := (writeHubConfig ex_process ex_hub_yaml "" ex_etc).2 in
  (nd_mode <$> stat_node s' ex_hub_yaml) = Some 384 ∧
  sy_nodes s' !! "/etc" = Some (dir_node 493) ∧
  (writeHubConfig ex_process ex_hub_yaml "hub.example" s').1 = Err (Errorf "%s already exists, refusing to overwrite it").
Proof.
  assert (∀ n raw, pr_random ex_process n = Ok raw → Forall is_byte raw ∧ length raw = n) as Hrandom.
  { intros n raw [= <-]. split; [apply Forall_replicate; vm_compute; split; [discriminate|reflexivity]|apply length_replicate]. }
  pose proof (@starter_needs_only_binders toy_ssh ex_process ex_hub_yaml "" ex_etc Hrandom) as H.
  destruct (writeHubConfig ex_process ex_hub_yaml "" ex_etc) as [r s'] eqn:E. cbn [snd].
  destruct H as [Hstill H]; [apply (bool_decide_unpack _); vm_compute; exact I|].
  assert (∃ printed, r = Ok printed) as [printed ->].
  { apply (f_equal fst) in E. cbn [fst] in E. rewrite <-E. eexists. vm_compute. reflexivity. }
  destruct (H printed eq_refl) as (_ & Hagain & raw & r0 & r1 & r2 & r3 & r4 & _ & _ & Hn & _).
  split; [rewrite Hn; reflexivity|]. split; [apply Hstill; vm_compute; reflexivity|]. rewrite Hagain. reflexivity.
Defined.

(** A hub that was initialised, with a directory of binders, of which one is
    kept elsewhere and linked. *)
Definition ex_configured : Sys :=
  mkSys {["/etc/site/robinet" := dir_node 493;
          ex_hub_yaml := mkNode false "token" 384 0 0;
          "/etc/site/robinet/binder" := dir_node 448;
          "/etc/site/robinet/binder/ann.yaml" := mkNode false "ssh-a" 384 0 0;
          "/root/keys/bea.yaml" := mkNode false "ssh-b" 384 0 0;
          "/etc/shadow" := mkNode false "secret" 384 0 0]}
        {["/etc/site/robinet/binder/bea.yaml" := "/root/keys/bea.yaml"]} ∅ [].
Definition ex_install : res (list Printed * res ()) * Sys :=
  @installHub ex_files toy_ssh range_default (λ _, "") ex_process ex_hub_yaml ["/etc/site/robinet/binder"] true ex_configured.

Lemma install_opens_to_the_hub_only_witness :
  (∃ said, ex_install.1 = Ok (said, Ok ())) ∧
  (∃ n, sy_nodes ex_install.2 !! "/etc/site/robinet/binder/ann.yaml" = Some n ∧ readable 990 n) ∧
  (* the file that is linked is everybody's now *)
  (∃ n, sy_nodes ex_install.2 !! "/root/keys/bea.yaml" = Some n ∧ wide n) ∧
  sy_nodes ex_install.2 !! "/root/keys/bea.yaml" = Some (mkNode false "ssh-b" 511 0 990) ∧
  sy_nodes ex_install.2 !! "/etc/shadow" = Some (mkNode false "secret" 384 0 0) ∧
  (nd_mode <$> sy_nodes ex_install.2 !! ex_hub_yaml) = Some 416.
Proof.
  assert (∃ said, ex_install.1 = Ok (said, Ok ())) as Hr by (eexists; vm_compute; reflexivity).
  split; [exact Hr|].
  pose proof (@install_opens_to_the_hub_only ex_files toy_ssh range_default (λ _, "") ex_process ex_hub_yaml
    ["/etc/site/robinet/binder"] true ex_configured) as H. fold ex_install in H.
  destruct ex_install as [r s'] eqn:E. cbn [fst snd] in *. destruct Hr as [said ->]. destruct H as [_ H].
  assert (∀ p, p ∈ [ex_hub_yaml; "/etc/site/robinet/binder"] → no_dangling p ex_configured) as Hdang.
  { intros p _ link _. unfold stat_node, followed. cbn [ex_configured sy_links]. intros Hl.
    destruct (decide (link = "/etc/site/robinet/binder/bea.yaml")) as [->|Hne]; [vm_compute; discriminate|].
    exfalso. apply Hl. apply lookup_singleton_ne. congruence. }
  destruct (H said (Ok ()) 990 eq_refl eq_refl (λ _ _ _, eq_refl) Hdang) as [_ Hread].
  split; [|split; [|split_and!]].
  - destruct (Hread "/etc/site/robinet/binder" "/etc/site/robinet/binder/ann.yaml") as (n&Hn&Hr&_).
    + right. left.
    + vm_compute. discriminate.
    + right. vm_compute. reflexivity.
    + vm_compute. discriminate.
    + vm_compute. discriminate.
    + exists n. split; [exact Hn|exact Hr].
  - destruct (Hread "/etc/site/robinet/binder" "/etc/site/robinet/binder/bea.yaml") as (n&Hn&_&Hw).
    + right. left.
    + vm_compute. discriminate.
    + right. vm_compute. reflexivity.
    + vm_compute. discriminate.
    + vm_compute. discriminate.
    + exists n. split; [exact Hn|apply Hw; vm_compute; discriminate].
  - replace s' with ex_install.2 by (by rewrite E). vm_compute. reflexivity.
  - replace s' with ex_install.2 by (by rewrite E). vm_compute. reflexivity.
  - replace s' with ex_install.2 by (by rewrite E). vm_compute. reflexivity.
Defined.

(** A person, by the name they are known here, and what sudo makes of them. *)
Definition ex_person (xdg : string) : Os :=
  {| Geteuid := 1000; Getenv v := if decide (v = "XDG_STATE_HOME") then xdg else ""; CurrentUser := inl "bea";
     LookupUser n := if decide (n = "bea") then inl (mkUser "bea" "1000" "1000" "/home/bea") else inr (Errorf "unknown user");
     ReadFile _ := inr ErrNotExist |}.
Definition ex_as_root : Os :=
  {| Geteuid := 0; Getenv v := if decide (v = "SUDO_USER") then "bea" else ""; CurrentUser := inl "root";
     LookupUser n := if decide (n = "bea") then inl (mkUser "bea" "1000" "1000" "/home/bea") else inr (Errorf "unknown user");
     ReadFile _ := inr ErrNotExist |}.
Definition ex_flags : SetupFlags := mkSetupFlags "" "" "/usr/bin/robinet" false false false "info".
Definition registered_at (path : string) : Sys := mkSys {[path := mkNode false "state" 384 1000 1000]} ∅ ∅ [].
Definition ex_home_state : string := "/home/bea/.local/state/robinet/tenant.json".
Definition ex_xdg_state : string := "/data/state/robinet/tenant.json".

Lemma ex_sudo xdg : by_sudo (ex_person xdg) ex_as_root "bea".
Proof. split; done. Qed.
Lemma setup_finds_the_state_witness :
  (∃ said s', @setupCmd ex_as_root ex_process ex_flags (registered_at ex_home_state) = (Ok (Said said), s') ∧
     sy_ran s' = [["systemctl"; "daemon-reload"]; ["systemctl"; "enable"; "robinet"]; ["systemctl"; "restart"; "robinet"]]) ∧
  (@setupCmd (ex_person "/data/state") ex_process ex_flags (registered_at ex_xdg_state)).1 =
    Ok (Became "/usr/bin/sudo" ["sudo"; "--"; "/home/bea/.local/bin/robinet"; "setup"]) ∧
  (@setupCmd ex_as_root ex_process ex_flags (registered_at ex_xdg_state)).1 =
    Err (Errorf "this machine is not registered with a hub yet: robinet join").
Proof.
  split.
  - pose proof (setup_finds_the_state (ex_person "") ex_as_root "bea" ex_process ex_process ex_flags (registered_at ex_home_state)
      (ex_sudo "") eq_refl ex_home_state ltac:(vm_compute; reflexivity)) as H. cbv zeta in H.
    replace (stat_node (registered_at ex_home_state) ex_home_state) with (Some (mkNode false "state" 384 1000 1000)) in H
      by (vm_compute; reflexivity).
    destruct H as [_ H]. rewrite decide_False in H by (vm_compute; intros [_ []]; reflexivity).
    destruct (H "/usr/bin/robinet" "bea") as (said & sock & s' & Hs & _ & _ & _ & Hran); try reflexivity.
    exists said, s'. split; [exact Hs|]. rewrite Hran. vm_compute. reflexivity.
  - pose proof (setup_finds_the_state (ex_person "/data/state") ex_as_root "bea" ex_process ex_process ex_flags
      (registered_at ex_xdg_state) (ex_sudo "/data/state") eq_refl ex_xdg_state ltac:(vm_compute; reflexivity)) as H. cbv zeta in H.
    replace (stat_node (registered_at ex_xdg_state) ex_xdg_state) with (Some (mkNode false "state" 384 1000 1000)) in H
      by (vm_compute; reflexivity).
    destruct H as [He H]. rewrite (He "/usr/bin/sudo" "/home/bea/.local/bin/robinet" eq_refl eq_refl). split; [reflexivity|].
    rewrite decide_True in H by (split; vm_compute; [reflexivity|discriminate]).
    destruct H as (home & Hh & Hno). vm_compute in Hh. injection Hh as <-. rewrite Hno; [reflexivity|vm_compute; reflexivity].
Defined.

(** A home directory with a space in it: the words of the unit's command, which
    is how systemd reads them, are not the arguments that were meant. *)
Lemma spaced_home_splits :
  Fields (nth 11 (renderUnit "/usr/bin/robinet" "/home/ann b/tenant.json" "/run/robinet.sock" "info" "ann") "") =
    ["ExecStart=/usr/bin/robinet"; "up"; "--state"; "/home/ann"; "b/tenant.json"; "--socket"; "/run/robinet.sock"; "--log"; "info"].
Proof. vm_compute. reflexivity. Qed.
